(* ===== verification/_CoqProject ===== *)
-Q . S2P
Prelude.v
Codec.v
Text.v
Domain.v
Hashing.v
Logger.v
MemoryTable.v
PyFloat.v
Bloom.v
WriteAheadLog.v
SortedStringTable.v
LruCache.v
GoHeap.v
MergeIterators.v
Configuration.v
SystemState.v
Ingestion.v
FlushAgent.v
CompactionAgent.v
Python.v
Json.v
GoJson.v
JsonSize.v
ConfigFile.v
Requests.v
HttpApi.v
HttpSpec.v
Engine.v
Search.v
Shards.v
Interleaving.v
Server.v
GoScenario.v
EngineScenario.v
InterleavingScenario.v
SndvClient.v
EndToEnd.v
TsClient.v
ClientScenario.v
ThreadPool.v
QuickBench.v
Orchestrator.v
ProfileServer.v
DockerIntegration.v
PyScenario.v
