(* ===== verification/Prelude.v ===== *)
(** * sndv-kv: a key-value store in Go, its Python client and its scripts

    ** The program

    The server (src/cmd/server, src/internal) is a log-structured store behind an
    HTTP interface. A write is sent to the ingestion shard its key hashes to;
    the shard's goroutine collects waiting requests into a batch, appends it to
    the write-ahead log, puts it into the sharded memory table and drops the
    keys from an LRU cache. A table that is full is frozen, together with its
    log; the flush agent writes frozen tables to sorted files of level 0, the
    compaction agent merges level 0 into files of level 1, and a shared Bloom
    filter says which file may hold a key. A read asks the cache, the memory
    tables (newest first) and the files (level by level, newest first). A
    restart replays the log. The Python side is a client
    (src/clients/python/sndv.py) and four scripts that start, load, measure and
    test the server; there is a client in TypeScript too.

    ** The files

    - Prelude, Codec, Text, Hashing: bytes, integers of fixed width with their
      wrap-around, little-endian codecs, decimal numbers and paths, FNV-1a and
      CRC-32. Domain: internal/common/domain.go, with the interfaces of the
      components as classes ([KeyValueStore], [BloomFilter] and its laws
      [BloomFilterLaws]; clients are proved against the laws, Bloom proves
      them) and the file system the engine writes to.
    - Logger: internal/logger, a state machine: callers and a bounded queue, the
      goroutine's three cases over a [bufio.Writer] (a received line is written,
      printed and checked for in three steps; each step says what the disk does
      to its writes), rotation, the two halves of a shutdown.
    - MemoryTable, Bloom, WriteAheadLog, SortedStringTable: internal/storage,
      one file each. LruCache: internal/cache. Every Go method is a function of
      the same name from the old state to the new one.
    - GoHeap, MergeIterators: container/heap and the merge of
      internal/agents/compaction_agent.go.
    - Configuration, ConfigFile: internal/config. SystemState: the blackboard of
      internal/core and the counters of internal/metrics, as one record
      [SystemState] inside a [machine] with the files.
    - Ingestion, FlushAgent, CompactionAgent: internal/agents, function by
      function. What runs under one lock, or is run by one goroutine without
      looking at the shared state, is one function; the agents' functions are cut
      where the code releases the lock ([write_flush] and [commitFlush];
      [takeLevelZero], [performMerge] and [settleCompaction]).
    - HttpApi: internal/api. A handler maps the request it reads and the machine
      to the calls it makes on the fasthttp context ([ctx_call]) and the machine;
      GoJson is what it uses of encoding/json (names folded as [foldName] does,
      values nested at most 10,000 deep), JsonSize how much a text can hold;
      HttpSpec is the specification of the interface. [fetch] and [fill] are the two
      halves of a read: finding an entry, caching its value.
    - Engine: the step relation of the running server: batches, fetches, fills
      and the halves of flushes and compactions in any order. Shards: the same
      with the channels in front: clients send, shards receive, drain, process.
    - Interleaving, Search: the same below the steps of Engine. Interleaving cuts
      a batch into what a shard runs without a lock (log, load of the table
      pointer, put, cache removal, size check, rotation, counter), Search cuts a
      disk search into the headers it reads and the tables it opens.
    - Server: cmd/server/main.go: [RunFromFile] is the whole of Run, up to the
      listener, with the two lines it logs; [Run] is the engine it serves.
    - PyFloat, Python, Json: what the scripts use of Python: floats as binary64,
      exceptions, dicts, sorting, statistics, JSON; the world (clock, network,
      processes, files, terminal) as the class [PyWorld], a computation [M W A]
      being a function of the world that returns or raises.
    - SndvClient, Requests, ThreadPool, QuickBench, Orchestrator, ProfileServer,
      DockerIntegration: the Python files, method by method.
    - EndToEnd: the Python client against the Go handlers through [HttpLink];
      TsClient: clients/typescript/sndv.ts, against the same handlers.
    - GoScenario, EngineScenario, InterleavingScenario, ClientScenario,
      PyScenario: concrete servers and worlds at which the theorems are applied.

    ** What is shown

    - The whole stack: for keys that need no quoting in a URL and values that
      need none in JSON, and with nothing else running, the client and the server
      are a map of strings ([Client_is_a_map]); a value with quotes forges the reply
      ([Value_forges_reply]); the TypeScript client does what it is asked and
      rejects every write ([Ts_client_rejects_writes]).
    - The running server: queues keep the order of the single writes of a key, and
      of its batch items ([Shards_keep_order]); without batches, compactions and
      overtaken readers of the key clients read their writes ([Read_your_writes],
      [Engine_reads_last_write]); and under every interleaving with flushes and
      compactions the server refines a map of last writes with two sets of
      excepted keys ([Engine_refines_spec]). The exceptions are shown to be
      real: a compaction hides what only level 0 held
      ([Compaction_hides_level_zero]) and may bring back an older version of a
      key two tables share (hence [Compaction_keeps_unshared]), and a read
      overtaken by a write poisons the cache ([Overtaken_read_poisons_cache]).
    - Below these steps: with batches cut into single puts, readers find the last
      put of each key except where it went into a table already on disk
      ([Fine_reads_last_put]; [Late_put_is_lost] is one such case), which one
      shard alone never does ([One_shard_never_late]); a search that has the
      header of level 0 survives a compaction ([Search_never_misses]). That the
      coarse steps are schedules of the fine ones are lemmas
      ([Batch_is_a_schedule], [Search_is_find_levels]).
    - Requests: any session of requests is answered as a map of entries says
      ([Http_refines_map]); put, get and delete over HTTP ([Put_then_Get],
      [Get_serves_newest], [Delete_then_Get], [Cache_outlives_deadline]),
      batches ([SubmitBatch_any_order]), failures of the log
      ([Submit_wal_failure]).
    - Restarts: replay of any prefix of a log delivers its complete records
      ([Replay_after_crash]); what a
      restart keeps ([Recovery_zeroes_values], [Restart_reads_one_file],
      [Torn_log_prevents_start]); loading a configuration ([Load_typed]); what
      the process is when it starts to listen ([Start_serves]).
    - The logger: while no open, rename or write fails no queued line is lost,
      repeated or moved ([Logger_keeps_lines]), its file is bounded whatever the
      writes do ([Logger_bounds_file]), a shutdown drops the queue ([Shutdown_drops_queue]), a failed reopening ends
      the log ([Closed_log_stays_closed]), two shutdowns may panic
      ([Second_shutdown_panics]).
    - Components against their references: the table is a map, the cache an LRU
      list, the filter has no false negatives, written files read back, the
      merge is the sorted union, the flush agent drains its queue and deletes the
      logs of what it has written.
    - The scripts: results and errors of the client on every outcome of an
      exchange; the accounting of the parallel benchmarks under every
      interleaving of the pool; containers stopped on every way out; termination
      and outcome of the runners; order of the statistics.

    ** Bounds, fuel, granularity

    - Go integers are [Z] in the range of their type, wrapped where the code
      computes with them; expiry times, sizes and counters wrap at 64 bits.
      Lengths in the file formats are 32 bits; theorems that write assume keys
      and values below 2^32 bytes ([req_fits]).
    - Fuel appears where the code loops on external input: [Replay] runs with
      one turn per byte of the log (a record has at least one), the JSON parser
      with two per character, the waiting loops of the scripts with a number of
      turns the theorems require to reach the deadline.
    - In Engine a batch is one step, a search is one step, and writing one file
      is one step. Interleaving and Search look below: the former takes batches
      apart, with lookups as one step, the choice of the log and the append to it
      as one step, the table's size as the code would add it up at once, and no
      compaction; the latter takes the search apart, with Engine's other steps.
      Clock readings that name files are assumed not to repeat
      ([rotation_fresh], [flush_fresh], [merge_fresh], [event_fresh]).

    ** Not modelled

    - fasthttp, paseto, urllib, requests, docker, the go tool: parameters, with
      laws where a theorem relies on them ([HttpLink], [PyWorld]).
    - math.Log, of which the size of the Bloom filter is computed, is an argument;
      the order in which Go ranges over a map is any order ([MapRange]). Left out
      are object pools, command-line flags, the profiling server behind its
      switch, the garbage collector's percentage and what the HTTP listener
      does; the errors of making the data directory and of encrypting the
      printed token, which main drops.
    - The agents' and handlers' calls of the logger: log lines have no effect on
      the store. Errors of writing to an open log or table file of the engine, and
      of syncing it: the disk is assumed to take what it is given there. Lines
      printed and text written by the scripts are assumed to be encodable.
    - The Go tests and their factory. *)
From Stdlib Require Export ZArith Lia String Ascii.
From Stdlib Require Import Strings.Byte.
From stdpp Require Export base gmap strings list sorting.

Declare Scope sndv_scope.
Delimit Scope sndv_scope with sndv.

#[global] Open Scope Z_scope.

(** ** Bytes *)

Abbreviation byte := Init.Byte.byte.
Abbreviation bytes := (list Init.Byte.byte).

#[export] Instance byte_eq_dec : EqDecision byte.
Proof. intros x y. destruct (Byte.byte_eq_dec x y); [left|right]; assumption. Defined.

Definition byte_to_Z (b : byte) : Z := Z.of_N (Byte.to_N b).

Definition byte_of_Z (z : Z) : byte :=
  match Byte.of_N (Z.to_N (z mod 256)) with
  | Some b => b
  | None => Byte.x00
  end.

(** Go's [[]byte(s)] and [string(b)], Python's [s.encode()] on UTF-8 text. *)
Definition to_bytes (s : string) : bytes := String.list_byte_of_string s.
Definition of_bytes (b : bytes) : string := String.string_of_list_byte b.

(** ** Machine integers: a w-bit integer is a [Z] with its wrap-around. *)

Definition u32 (z : Z) : Z := z mod 2 ^ 32.
Definition u64 (z : Z) : Z := z mod 2 ^ 64.
Definition i64 (z : Z) : Z :=
  let m := z mod 2 ^ 64 in if m <? 2 ^ 63 then m else m - 2 ^ 64.

Definition is_i64 (z : Z) : Prop := - 2 ^ 63 <= z < 2 ^ 63.
Definition is_u64 (z : Z) : Prop := 0 <= z < 2 ^ 64.

#[export] Instance is_i64_dec z : Decision (is_i64 z).
Proof. unfold is_i64. apply _. Defined.

(** [len(s)] as the Go and Python integers it is compared with. *)
Definition zlen {A} (l : list A) : Z := Z.of_nat (length l).
Definition slen (s : string) : Z := Z.of_nat (String.length s).

Create HintDb sndv.
Create Rewrite HintDb sndv_rw.

(** ** Tactics of the development *)

(** Split every conjunction and existential of the context. *)
Ltac decompose_hyps :=
  repeat match goal with
  | H : _ /\ _ |- _ => destruct H
  | H : exists _, _ |- _ => destruct H
  end.

(** Case on the scrutinee of the first stuck [match]/[if] of the goal. *)
Ltac case_goal :=
  match goal with
  | |- context [match ?x with _ => _ end] => destruct x eqn:?
  end.

Ltac case_hyp H :=
  match type of H with
  | context [match ?x with _ => _ end] => destruct x eqn:?
  end.

(** Linear arithmetic with [/] and [mod] by constants. *)
Ltac zlia := Z.to_euclidean_division_equations; lia.

(** ** Lemmas on bytes and integers *)

Lemma byte_to_Z_bound b : 0 <= byte_to_Z b < 256.
Proof.
  unfold byte_to_Z. pose proof (Byte.to_N_bounded b). lia.
Qed.

Lemma byte_to_of_Z z : byte_to_Z (byte_of_Z z) = z mod 256.
Proof.
  unfold byte_to_Z, byte_of_Z.
  pose proof (Z.mod_pos_bound z 256 ltac:(lia)) as Hb.
  destruct (Byte.of_N (Z.to_N (z mod 256))) as [b|] eqn:E.
  - apply Byte.to_of_N in E. rewrite E. lia.
  - apply Byte.of_N_None_iff in E. lia.
Qed.

Lemma byte_of_to_Z b : byte_of_Z (byte_to_Z b) = b.
Proof.
  unfold byte_of_Z, byte_to_Z.
  pose proof (byte_to_Z_bound b) as Hb. unfold byte_to_Z in Hb.
  rewrite Z.mod_small by lia. rewrite N2Z.id, Byte.of_to_N. reflexivity.
Qed.

Lemma of_to_bytes s : of_bytes (to_bytes s) = s.
Proof. apply String.string_of_list_byte_of_string. Qed.

Lemma to_of_bytes b : to_bytes (of_bytes b) = b.
Proof. apply String.list_byte_of_string_of_list_byte. Qed.

Lemma length_to_bytes s : length (to_bytes s) = String.length s.
Proof.
  unfold to_bytes, String.list_byte_of_string. rewrite length_map.
  induction s; simpl; congruence.
Qed.

Lemma length_of_bytes b : String.length (of_bytes b) = length b.
Proof. rewrite <- length_to_bytes, to_of_bytes. reflexivity. Qed.

Lemma zlen_to_bytes s : zlen (to_bytes s) = slen s.
Proof. unfold zlen, slen. by rewrite length_to_bytes. Qed.

Lemma u32_small z : 0 <= z < 2 ^ 32 -> u32 z = z.
Proof. apply Z.mod_small. Qed.

Lemma u64_bound z : 0 <= u64 z < 2 ^ 64.
Proof. apply Z.mod_pos_bound. lia. Qed.

Lemma i64_bound z : is_i64 (i64 z).
Proof.
  unfold is_i64, i64. pose proof (Z.mod_pos_bound z (2 ^ 64) ltac:(lia)).
  destruct (Z.ltb_spec (z mod 2 ^ 64) (2 ^ 63)); lia.
Qed.

Lemma i64_small z : is_i64 z -> i64 z = z.
Proof.
  unfold is_i64, i64. intros H.
  destruct (Z.ltb_spec (z mod 2 ^ 64) (2 ^ 63)); zlia.
Qed.

Lemma i64_u64 z : is_i64 z -> i64 (u64 z) = z.
Proof.
  intros H. unfold i64, u64. rewrite Z.mod_mod by lia.
  by apply i64_small.
Qed.

Lemma i64_cong a b : a mod 2 ^ 64 = b mod 2 ^ 64 -> i64 a = i64 b.
Proof. unfold i64. by intros ->. Qed.

Lemma i64_mod a : i64 a mod 2 ^ 64 = a mod 2 ^ 64.
Proof.
  unfold i64. destruct (Z.ltb_spec (a mod 2 ^ 64) (2 ^ 63)).
  - by rewrite Z.mod_mod by lia.
  - rewrite <- (Z.mod_add _ 1) by lia.
    replace (a mod 2 ^ 64 - 2 ^ 64 + 1 * 2 ^ 64) with (a mod 2 ^ 64) by lia.
    by rewrite Z.mod_mod by lia.
Qed.

Lemma i64_add_l a b : i64 (i64 a + b) = i64 (a + b).
Proof.
  apply i64_cong. rewrite Z.add_mod, i64_mod, <- Z.add_mod by lia. done.
Qed.

Lemma i64_add_r a b : i64 (a + i64 b) = i64 (a + b).
Proof. rewrite (Z.add_comm a), (Z.add_comm a). apply i64_add_l. Qed.

Lemma zlen_app {A} (l k : list A) : zlen (l ++ k) = zlen l + zlen k.
Proof. unfold zlen. rewrite length_app. lia. Qed.

Lemma zlen_nonneg {A} (l : list A) : 0 <= zlen l.
Proof. unfold zlen. lia. Qed.

Lemma length_string_app s t : String.length (s ++ t) = (String.length s + String.length t)%nat.
Proof. induction s as [|c s IH]; [done|]. exact (f_equal S IH). Qed.

Lemma slen_app s t : slen (s ++ t) = slen s + slen t.
Proof. unfold slen. rewrite length_string_app. lia. Qed.

Lemma to_bytes_app s t : to_bytes (s ++ t) = to_bytes s ++ to_bytes t.
Proof.
  induction s as [|c s IH]; [done|].
  exact (f_equal (cons (byte_of_ascii c)) IH).
Qed.

(** ** The order of Go's strings: lexicographic on bytes *)

Definition str_lt (s t : string) : Prop := String.compare s t = Lt.
Definition str_ltb (s t : string) : bool := String.ltb s t.
Definition str_le (s t : string) : Prop := ~ str_lt t s.

#[export] Instance str_lt_dec s t : Decision (str_lt s t).
Proof. unfold str_lt. apply _. Defined.
#[export] Instance str_le_dec s t : Decision (str_le s t).
Proof. unfold str_le. apply _. Defined.

Lemma str_ltb_lt s t : str_ltb s t = true <-> str_lt s t.
Proof. unfold str_ltb, String.ltb, str_lt. destruct (String.compare s t); naive_solver. Qed.

Lemma ascii_compare_refl a : Ascii.compare a a = Eq.
Proof. unfold Ascii.compare. apply N.compare_refl. Qed.

Lemma ascii_compare_trans a b c : Ascii.compare a b = Lt -> Ascii.compare b c = Lt -> Ascii.compare a c = Lt.
Proof. unfold Ascii.compare. rewrite !N.compare_lt_iff. lia. Qed.

Lemma ascii_compare_eq a b : Ascii.compare a b = Eq -> a = b.
Proof.
  unfold Ascii.compare. rewrite N.compare_eq_iff. intros H.
  rewrite <- (ascii_N_embedding a), <- (ascii_N_embedding b). by rewrite H.
Qed.

Lemma str_lt_irrefl s : ~ str_lt s s.
Proof.
  unfold str_lt. induction s as [|c s IH]; simpl; [done|]. by rewrite ascii_compare_refl.
Qed.

Lemma str_lt_trans s t u : str_lt s t -> str_lt t u -> str_lt s u.
Proof.
  unfold str_lt. revert t u. induction s as [|a s IH]; intros [|b t] [|c u]; simpl; try done.
  destruct (Ascii.compare a b) eqn:E1; [apply ascii_compare_eq in E1 as ->| |done].
  - destruct (Ascii.compare b c); [apply IH|done|done].
  - intros _. destruct (Ascii.compare b c) eqn:E2; [apply ascii_compare_eq in E2 as <-| |done].
    + by rewrite E1.
    + by rewrite (ascii_compare_trans _ _ _ E1 E2).
Qed.

Lemma str_lt_total s t : str_lt s t \/ s = t \/ str_lt t s.
Proof.
  unfold str_lt. destruct (String.compare s t) eqn:E; [|by left|].
  - right; left. by apply String.compare_eq_iff.
  - right; right. rewrite String.compare_antisym, E. done.
Qed.

#[export] Instance str_le_total : Total str_le.
Proof.
  intros s t. unfold str_le. destruct (decide (str_lt t s)) as [H|H]; [right|by left].
  intros H'. by apply (str_lt_irrefl s), str_lt_trans with t.
Qed.

#[export] Instance str_le_trans : Transitive str_le.
Proof.
  intros s t u H1 H2 H3. unfold str_le in *.
  destruct (str_lt_total s t) as [H|[->|H]]; [|done|done].
  apply H2. by apply str_lt_trans with s.
Qed.

Lemma str_le_antisym s t : str_le s t -> str_le t s -> s = t.
Proof. unfold str_le. destruct (str_lt_total s t) as [|[]]; tauto. Qed.

Lemma str_lt_le s t : str_lt s t -> str_le s t.
Proof. intros H H'. by apply (str_lt_irrefl s), str_lt_trans with t. Qed.

#[export] Hint Resolve byte_to_Z_bound zlen_nonneg u64_bound i64_bound : sndv.
#[export] Hint Rewrite @of_to_bytes @to_of_bytes @length_to_bytes
  @length_of_bytes @zlen_to_bytes @zlen_app
  slen_app to_bytes_app length_string_app : sndv_rw.
