(* ===== verification/Codec.v ===== *)
(** Byte-level encoding shared by the write-ahead log and the sorted string
    tables: [encoding/binary]'s little-endian integers and [io.ReadFull] over
    the unread suffix of a file. *)
From S2P Require Import Prelude.

(** [binary.LittleEndian.PutUint32]/[PutUint64]: [n] bytes of [w], least
    significant first. *)
Fixpoint le_put (n : nat) (w : Z) : bytes :=
  match n with
  | O => []
  | S n' => byte_of_Z w :: le_put n' (Z.shiftr w 8)
  end.

(** [binary.LittleEndian.Uint32]/[Uint64]. *)
Fixpoint le_get (l : bytes) : Z :=
  match l with
  | [] => 0
  | b :: l' => Z.lor (byte_to_Z b) (Z.shiftl (le_get l') 8)
  end.

Inductive io_error := EOF | ErrUnexpectedEOF | ErrClosed.

#[export] Instance io_error_eq_dec : EqDecision io_error.
Proof. solve_decision. Defined.

(** [io.ReadFull(r, buf)] with [len(buf) = n], [r] being the unread bytes:
    the filled buffer and the rest, or the error. *)
Definition ReadFull (n : nat) (r : bytes) : (bytes * bytes) + io_error :=
  if decide (n <= length r)%nat then inl (take n r, drop n r)
  else match r with [] => inr EOF | _ => inr ErrUnexpectedEOF end.

(** A [ReadFull] into a fresh (zeroed) buffer of [n] bytes whose error the
    caller ignores: what could be read, zero padded. *)
Definition ReadFull_ignored (n : nat) (r : bytes) : bytes * bytes :=
  (take n r ++ replicate (n - length r) Byte.x00, drop n r).

Lemma length_le_put n w : length (le_put n w) = n.
Proof. revert w; induction n; intros; simpl; auto. Qed.

Lemma lor_shiftl_8 b x : 0 <= b < 256 -> Z.lor b (Z.shiftl x 8) = b + 256 * x.
Proof.
  intros Hb. rewrite Z.shiftl_mul_pow2 by lia. rewrite <- Z.lxor_lor, <- Z.add_nocarry_lxor; [lia| |].
  all: apply Z.bits_inj'; intros i Hi; rewrite Z.land_spec, Z.bits_0.
  all: destruct (Z.lt_ge_cases i 8) as [Hlt|Hge];
    [ rewrite (Z.mul_pow2_bits_low x 8 i) by lia; apply andb_false_r
    | replace b with (b mod 2 ^ 8) by (apply Z.mod_small; lia);
      rewrite Z.mod_pow2_bits_high by lia; reflexivity ].
Qed.

Lemma le_get_cons b l : le_get (b :: l) = byte_to_Z b + 256 * le_get l.
Proof. simpl. apply lor_shiftl_8, byte_to_Z_bound. Qed.

Lemma le_get_put n w : le_get (le_put n w) = w mod 2 ^ (8 * Z.of_nat n).
Proof.
  revert w; induction n as [|n IH]; intros w; [by rewrite Z.mod_1_r|].
  cbn [le_put]. rewrite le_get_cons, IH, byte_to_of_Z, Z.shiftr_div_pow2 by lia.
  replace (8 * Z.of_nat (S n)) with (8 + 8 * Z.of_nat n) by lia.
  rewrite Z.pow_add_r by lia. change (2 ^ 8) with 256.
  rewrite (Z.rem_mul_r w 256 (2 ^ (8 * Z.of_nat n))); lia.
Qed.

Lemma le_get_put32 w : le_get (le_put 4 w) = u32 w.
Proof. apply le_get_put. Qed.

Lemma le_get_put64 w : le_get (le_put 8 w) = u64 w.
Proof. apply le_get_put. Qed.

Lemma le_get_bound l : 0 <= le_get l < 2 ^ (8 * zlen l).
Proof.
  unfold zlen. induction l as [|b l IH]; [simpl; lia|].
  rewrite le_get_cons. pose proof (byte_to_Z_bound b).
  cbn [length]. replace (8 * Z.of_nat (S (length l))) with (8 + 8 * Z.of_nat (length l)) by lia.
  rewrite Z.pow_add_r by lia. change (2 ^ 8) with 256. lia.
Qed.

Lemma ReadFull_app n x r : length x = n -> ReadFull n (x ++ r) = inl (x, r).
Proof.
  intros <-. unfold ReadFull. rewrite decide_True by (rewrite length_app; lia).
  by rewrite take_app_length, drop_app_length.
Qed.

Lemma ReadFull_short n r : (length r < n)%nat ->
  ReadFull n r = inr (match r with [] => EOF | _ => ErrUnexpectedEOF end).
Proof. intros H. unfold ReadFull. rewrite decide_False by lia. by destruct r. Qed.

Lemma ReadFull_inl n r x y : ReadFull n r = inl (x, y) -> r = x ++ y /\ length x = n.
Proof.
  unfold ReadFull. case_decide; [|by destruct r].
  intros [= <- <-]. by rewrite take_drop, length_take_le.
Qed.

Lemma ReadFull_ignored_app n x r : length x = n -> ReadFull_ignored n (x ++ r) = (x, r).
Proof.
  intros <-. unfold ReadFull_ignored. rewrite take_app_length, drop_app_length.
  replace (length x - length (x ++ r))%nat with 0%nat by (rewrite length_app; lia).
  by rewrite app_nil_r.
Qed.

#[export] Hint Rewrite length_le_put le_get_put32 le_get_put64 : sndv_rw.
