(* ===== verification/Text.v ===== *)
(** The string functions of Go's standard library the engine uses on file
    names and identifiers: fmt's [%d], strconv.ParseInt, strings.Split and
    TrimSuffix, filepath.Base. *)
From S2P Require Import Prelude.

(** ** Decimal integers *)

Definition digit_char (d : Z) : ascii := ascii_of_N (Z.to_N (48 + d)).

Fixpoint print_digits (fuel : nat) (n : Z) (acc : string) : string :=
  match fuel with
  | O => acc
  | S f => let acc := String (digit_char (n mod 10)) acc in
           if n <? 10 then acc else print_digits f (n / 10) acc
  end.

(** [fmt.Sprintf("%d", z)]; 20 digits are enough for 64 bits. *)
Definition print_int (z : Z) : string :=
  if z <? 0 then String "-" (print_digits 20 (- z) "") else print_digits 20 z "".

Definition digit_value (c : ascii) : option Z :=
  let n := Z.of_N (N_of_ascii c) in
  if (48 <=? n) && (n <=? 57) then Some (n - 48) else None.

Fixpoint parse_digits (s : string) (acc : Z) : option Z :=
  match s with
  | EmptyString => Some acc
  | String c s' =>
    match digit_value c with Some d => parse_digits s' (acc * 10 + d) | None => None end
  end.

Definition parse_nat (s : string) : option Z :=
  match s with EmptyString => None | _ => parse_digits s 0 end.

(** [strconv.ParseInt(s, 10, 64)]; [None] is a syntax or range error. *)
Definition ParseInt (s : string) : option Z :=
  let v := match s with
           | String "-" s' => Z.opp <$> parse_nat s'
           | String "+" s' => parse_nat s'
           | _ => parse_nat s
           end in
  v ≫= fun z => if decide (is_i64 z) then Some z else None.

(** ** Paths and suffixes *)

(** [strings.Split(s, sep)] for a one-character separator. *)
Fixpoint Split (sep : ascii) (s : string) : list string :=
  match s with
  | EmptyString => [""%string]
  | String c s' =>
    if decide (c = sep) then ""%string :: Split sep s'
    else match Split sep s' with
         | p :: ps => String c p :: ps
         | [] => [String c ""]
         end
  end.

(** [strings.TrimSuffix(s, suffix)]. *)
Fixpoint TrimSuffix (s suffix : string) : string :=
  if decide (s = suffix) then ""%string
  else match s with
       | EmptyString => ""%string
       | String c s' => String c (TrimSuffix s' suffix)
       end.

(** [filepath.Base(path)] of a path that does not end in a slash: what follows
    the last slash. *)
Definition Base (path : string) : string := List.last (Split "/" path) ""%string.

(** [strings.ToUpper], of ASCII letters. *)
Definition upper (c : ascii) : ascii :=
  let n := N_of_ascii c in if ((97 <=? n) && (n <=? 122))%N then ascii_of_N (n - 32) else c.
Fixpoint ToUpper (s : string) : string :=
  match s with EmptyString => ""%string | String c s' => String (upper c) (ToUpper s') end.

(** [filepath.Clean] on Unix: the elements between the slashes, [.] and empty
    ones dropped, [..] cancelling the element before it. [out] is the result so
    far, last element first. *)
Fixpoint clean_elements (rooted : bool) (elements out : list string) : list string :=
  match elements with
  | [] => reverse out
  | e :: rest =>
    if decide (e = "" \/ e = ".")%string then clean_elements rooted rest out
    else if decide (e = "..")%string then
      match out with
      | last :: out' =>
        if decide (last = "..")%string then clean_elements rooted rest (e :: out)
        else clean_elements rooted rest out'
      | [] => if rooted then clean_elements rooted rest [] else clean_elements rooted rest [e]
      end
    else clean_elements rooted rest (e :: out)
  end.

Fixpoint join_slash (elements : list string) : string :=
  match elements with
  | [] => ""
  | [e] => e
  | e :: rest => e ++ String "/" (join_slash rest)
  end.

Definition Clean (path : string) : string :=
  let rooted := match path with String "/" _ => true | _ => false end in
  match rooted, join_slash (clean_elements rooted (Split "/" path) []) with
  | true, s => String "/" s
  | false, EmptyString => "."
  | false, s => s
  end.

(** [filepath.Join(dir, name)] for a non-empty [name]. *)
Definition Join (dir name : string) : string :=
  match dir with EmptyString => Clean name | _ => Clean (dir ++ String "/" name) end.

Example Join_dirs : Join "./logs" "system.log" = "logs/system.log"%string /\
  Join "" "system.log" = "system.log"%string /\ Join "/var//x/../log/" "a" = "/var/log/a"%string.
Proof. done. Qed.

(** ** Lemmas *)

Definition no_char (c : ascii) (s : string) : Prop :=
  Forall (fun b => b <> c) (list_ascii_of_string s).

Lemma no_char_app c s t : no_char c s -> no_char c t -> no_char c (s ++ t).
Proof.
  unfold no_char. intros Hs Ht.
  assert (list_ascii_of_string (s ++ t) = list_ascii_of_string s ++ list_ascii_of_string t) as ->.
  { clear. induction s as [|x s IH]; [done|]. exact (f_equal (cons x) IH). }
  by apply Forall_app.
Qed.

Lemma digit_value_char d : 0 <= d < 10 -> digit_value (digit_char d) = Some d.
Proof.
  intros H. unfold digit_value, digit_char.
  rewrite N_ascii_embedding by lia. rewrite Z2N.id by lia.
  destruct (Z.leb_spec 48 (48 + d)); [|lia]. destruct (Z.leb_spec (48 + d) 57); [|lia].
  simpl. f_equal. lia.
Qed.

Lemma print_digits_parse f : forall n rest, 0 <= n < 10 ^ Z.of_nat f ->
  exists k, 0 <= k /\ forall a,
    parse_digits (print_digits f n rest) a = parse_digits rest (a * 10 ^ k + n).
Proof.
  induction f as [|f IH]; intros n rest Hn.
  { exists 0. split; [lia|]. intros a. simpl in *. f_equal. lia. }
  cbn [print_digits]. pose proof (Z.mod_pos_bound n 10 ltac:(lia)) as Hm.
  destruct (Z.ltb_spec n 10).
  - exists 1. split; [lia|]. intros a. simpl. rewrite digit_value_char by lia.
    f_equal. rewrite Z.mod_small by lia. lia.
  - destruct (IH (n / 10) (String (digit_char (n mod 10)) rest)) as (k & Hk & Hp).
    { rewrite Nat2Z.inj_succ, Z.pow_succ_r in Hn by lia. zlia. }
    exists (k + 1). split; [lia|]. intros a. rewrite Hp. simpl.
    rewrite digit_value_char by lia. f_equal.
    rewrite Z.pow_add_r by lia. zlia.
Qed.

Lemma print_digits_chars f c : forall n rest, 0 <= n -> no_char c rest ->
  (forall d, 0 <= d < 10 -> digit_char d <> c) -> no_char c (print_digits f n rest).
Proof.
  induction f as [|f IH]; intros n rest Hn Hr Hd; simpl; [done|].
  assert (no_char c (String (digit_char (n mod 10)) rest)).
  { constructor; [apply Hd, Z.mod_pos_bound; lia|done]. }
  destruct (n <? 10); [done|]. apply IH; [zlia|done|done].
Qed.

Lemma digit_char_ne d c : 0 <= d < 10 -> digit_value c = None -> digit_char d <> c.
Proof. intros Hd Hc <-. rewrite digit_value_char in Hc by done. done. Qed.

Lemma print_digits_head f n rest : 0 <= n ->
  (f <> O) -> exists c s, print_digits f n rest = String c s /\ digit_value c <> None.
Proof.
  revert n rest; induction f as [|f IH]; intros n rest Hn Hf; [done|].
  cbn [print_digits]. pose proof (Z.mod_pos_bound n 10 ltac:(lia)) as Hm.
  assert (digit_value (digit_char (n mod 10)) <> None) as Hd by (by rewrite digit_value_char).
  destruct (n <? 10); [by eexists _, _|].
  destruct f as [|f]; [simpl; by eexists _, _|]. apply IH; [zlia|done].
Qed.

Lemma print_int_no_char z c : digit_value c = None -> c <> "-"%char -> no_char c (print_int z).
Proof.
  intros Hc Hm. unfold print_int.
  assert (forall n, 0 <= n -> no_char c (print_digits 20 n "")) as H.
  { intros n Hn. apply print_digits_chars; [done|constructor|].
    intros d Hd. by apply digit_char_ne. }
  destruct (Z.ltb_spec z 0); [|apply H; lia].
  constructor; [congruence|apply H; lia].
Qed.

(** ParseInt inverts Sprintf("%d") on non-negative int64. *)
Lemma ParseInt_print_int z : 0 <= z < 2 ^ 63 -> ParseInt (print_int z) = Some z.
Proof.
  intros Hz. unfold print_int. destruct (Z.ltb_spec z 0); [lia|].
  destruct (print_digits_head 20 z "") as (c & s & Hp & Hc); [lia|done|].
  destruct (print_digits_parse 20 z "") as (k & Hk & Hparse); [simpl; lia|].
  specialize (Hparse 0). rewrite Hp in Hparse |- *. simpl in Hparse.
  unfold ParseInt.
  assert (parse_nat (String c s) = Some z) as Hn.
  { unfold parse_nat. cbn [parse_digits]. simpl in Hparse. rewrite Hparse. f_equal. }
  assert (c <> "-"%char /\ c <> "+"%char) as [H1 H2] by (split; intros ->; done).
  assert (forall (A : Type) (x y w : A), match c with
    | "-"%char => x | "+"%char => y | _ => w end = w) as Hmatch.
  { intros. destruct c as [[] [] [] [] [] [] [] []]; done. }
  assert (match c with "-"%char => Z.opp <$> parse_nat s | "+"%char => parse_nat s
    | _ => parse_nat (String c s) end = Some z) as ->.
  { by rewrite Hmatch. }
  simpl. rewrite decide_True; [done|]. unfold is_i64. lia.
Qed.

Lemma Split_no_sep sep s : no_char sep s -> Split sep s = [s].
Proof.
  induction s as [|c s IH]; intros H; [done|]. inversion H; subst. simpl.
  rewrite decide_False by done. by rewrite IH.
Qed.

Lemma Split_app sep s t : no_char sep s -> Split sep (s ++ String sep t) = s :: Split sep t.
Proof.
  induction s as [|c s IH]; intros H; simpl.
  - by rewrite decide_True.
  - inversion H; subst. rewrite decide_False by done. by rewrite IH.
Qed.

Lemma Split_nonempty sep s : exists p ps, Split sep s = p :: ps.
Proof.
  induction s as [|c s (p & ps & IH)]; simpl; [by eexists _, _|].
  rewrite IH. case_decide; by eexists _, _.
Qed.

Lemma Split_app_length sep d s : (2 <= length (Split sep (d ++ String sep s)))%nat.
Proof.
  induction d as [|c d IH]; simpl.
  - rewrite decide_True by done. destruct (Split_nonempty sep s) as (p & ps & ->). simpl. lia.
  - destruct (Split_nonempty sep (d ++ String sep s)) as (p & ps & Hp).
    rewrite Hp in *. case_decide; simpl in *; lia.
Qed.

Lemma Base_app dir name : no_char "/" name -> Base (dir ++ String "/" name) = name.
Proof.
  intros H. unfold Base.
  assert (exists l, Split "/" (dir ++ String "/" name) = l ++ [name]) as [l ->];
    [|by rewrite last_last].
  induction dir as [|c d [l IH]]; simpl.
  - exists [""%string]. rewrite (Split_no_sep "/" name) by done. done.
  - pose proof (Split_app_length "/" d name) as Hlen. rewrite IH in *.
    case_decide; [by exists (""%string :: l)|].
    destruct l as [|p l]; simpl in *; [lia|]. by exists (String c p :: l).
Qed.

Lemma TrimSuffix_app s suffix : TrimSuffix (s ++ suffix) suffix = s.
Proof.
  induction s as [|c s IH]; simpl.
  - change ("" +:+ suffix) with suffix. destruct suffix; cbn [TrimSuffix]; by rewrite decide_True.
  - rewrite decide_False; [by rewrite IH|]. intros H. apply (f_equal String.length) in H.
    simpl in H. rewrite length_string_app in H. lia.
Qed.
