(* ===== verification/Domain.v ===== *)
(** The shared vocabulary of the storage engine (internal/common/domain.go):
    the stored [Entry], the interfaces its components promise to each other,
    as type classes with their laws, and the files they keep their bytes in. *)
From S2P Require Import Prelude Codec.

Record Entry := mkEntry {
  Key : string;
  Value : bytes;
  ExpiryTimestamp : Z;   (* int64, nanoseconds since the epoch; 0 = never *)
  IsDeleted : bool;
}.

#[export] Instance Entry_eq_dec : EqDecision Entry.
Proof. solve_decision. Defined.

(** [common.Entry{}], what a failed lookup returns beside [false]. *)
Definition zeroEntry : Entry := mkEntry "" [] 0 false.

(** Sizes that fit the on-disk headers: two uint32 lengths and an int64. *)
Definition entry_fits (e : Entry) : Prop :=
  slen (Key e) < 2 ^ 32 /\ zlen (Value e) < 2 ^ 32 /\ is_i64 (ExpiryTimestamp e).

#[export] Instance entry_fits_dec e : Decision (entry_fits e).
Proof. unfold entry_fits. apply _. Defined.

(** ** [common.KeyValueStore] *)

Class KeyValueStore (T : Type) := {
  kv_Put : string -> bytes -> Z -> bool -> T -> T;
  kv_Get : string -> T -> option Entry;
  kv_GetAll : T -> list Entry;
  kv_Size : T -> Z;
}.

(** What its clients rely on: a store is a map from keys to entries. [kv_ok]
    is the implementation's representation invariant. *)
Class KeyValueStoreLaws (T : Type) `{KeyValueStore T} := {
  kv_ok : T -> Prop;
  kv_put_ok : forall k v x d t, kv_ok t -> kv_ok (kv_Put k v x d t);
  kv_get_put : forall k v x d t, kv_ok t ->
    kv_Get k (kv_Put k v x d t) = Some (mkEntry k v x d);
  kv_get_put_ne : forall k k' v x d t, kv_ok t -> k <> k' ->
    kv_Get k' (kv_Put k v x d t) = kv_Get k' t;
  kv_get_key : forall k e t, kv_ok t -> kv_Get k t = Some e -> Key e = k;
  kv_all_get : forall e t, kv_ok t -> e ∈ kv_GetAll t <-> kv_Get (Key e) t = Some e;
  kv_all_nodup : forall t, kv_ok t -> NoDup (Key <$> kv_GetAll t);
}.

(** ** [common.BloomFilter]

    [None] is Go's index-out-of-range panic. *)
Class BloomFilter (B : Type) := {
  bloom_Add : Z -> bytes -> B -> option B;
  bloom_Contains : Z -> bytes -> B -> option bool;
}.

(** The promise of a Bloom filter to its clients: no false negatives, for the
    table identifiers the engine uses (non-negative ones). *)
Class BloomFilterLaws (B : Type) `{BloomFilter B} := {
  bloom_ok : B -> Prop;
  bloom_add_ok : forall id k b, bloom_ok b -> 0 <= id ->
    exists b', bloom_Add id k b = Some b' /\ bloom_ok b';
  bloom_contains_total : forall id k b, bloom_ok b -> 0 <= id ->
    is_Some (bloom_Contains id k b);
  bloom_contains_add : forall id k b b', bloom_ok b -> 0 <= id ->
    bloom_Add id k b = Some b' -> bloom_Contains id k b' = Some true;
  bloom_contains_mono : forall id k id' k' b b', bloom_ok b -> 0 <= id -> 0 <= id' ->
    bloom_Add id k b = Some b' -> bloom_Contains id' k' b = Some true ->
    bloom_Contains id' k' b' = Some true;
}.

(** ** Files

    The part of the operating system the engine touches: the contents of the
    files, and which paths can be created or opened (a missing directory or a
    permission makes an [os.Open]/[os.Create] fail). *)
Record FileSystem := mkFS {
  files : gmap string bytes;
  openable : string -> bool;
}.

Definition os_Create (path : string) (fs : FileSystem) : option FileSystem :=
  if openable fs path then Some (mkFS (<[path := []]> (files fs)) (openable fs))
  else None.

(** [os.OpenFile(path, O_APPEND|O_CREATE|O_RDWR, 0644)]. *)
Definition os_OpenAppend (path : string) (fs : FileSystem) : option FileSystem :=
  if openable fs path then
    Some (mkFS (<[path := default [] (files fs !! path)]> (files fs)) (openable fs))
  else None.

(** [os.Open]: read-only, the file must exist. *)
Definition os_Open (path : string) (fs : FileSystem) : option bytes :=
  if openable fs path then files fs !! path else None.

Definition fs_write (path : string) (content : bytes) (fs : FileSystem) : FileSystem :=
  mkFS (<[path := content]> (files fs)) (openable fs).

Definition fs_append (path : string) (more : bytes) (fs : FileSystem) : FileSystem :=
  fs_write path (default [] (files fs !! path) ++ more) fs.

Definition os_Remove (path : string) (fs : FileSystem) : FileSystem :=
  mkFS (delete path (files fs)) (openable fs).

(** [os.Rename]: the new name is taken by the old file; [None] is an error. *)
Definition os_Rename (old new : string) (fs : FileSystem) : option FileSystem :=
  if openable fs new then
    match files fs !! old with
    | Some content => Some (mkFS (<[new := content]> (delete old (files fs))) (openable fs))
    | None => None
    end
  else None.
