(* ===== verification/Hashing.v ===== *)
(** The two hash functions of Go's standard library the engine uses:
    hash/fnv's 32-bit FNV-1a (shard selection) and hash/crc32's IEEE checksum
    (Bloom filter). *)
From S2P Require Import Prelude.

(** [fnv.New32a(); h.Write(data); h.Sum32()]. *)
Definition fnv32a (data : bytes) : Z :=
  fold_left (fun h b => u32 (Z.lxor h (byte_to_Z b) * 16777619)) data 2166136261.

(** One bit of the reflected CRC-32 with polynomial 0xEDB88320. *)
Definition crc32_bit (c : Z) : Z :=
  if Z.testbit c 0 then Z.lxor (Z.shiftr c 1) 0xEDB88320 else Z.shiftr c 1.

Definition crc32_byte (c : Z) (b : byte) : Z :=
  Nat.iter 8 crc32_bit (Z.lxor c (byte_to_Z b)).

(** [crc32.ChecksumIEEE(data)]. *)
Definition crc32_ieee (data : bytes) : Z :=
  Z.lxor (fold_left crc32_byte data 0xFFFFFFFF) 0xFFFFFFFF.

(** Published check values of both functions. *)
Example fnv32a_empty : fnv32a [] = 0x811c9dc5.
Proof. reflexivity. Qed.
Example fnv32a_foobar : fnv32a (to_bytes "foobar") = 0xbf9cf968.
Proof. vm_compute. reflexivity. Qed.
Example crc32_check : crc32_ieee (to_bytes "123456789") = 0xCBF43926.
Proof. vm_compute. reflexivity. Qed.

Lemma fnv32a_bound data : 0 <= fnv32a data < 2 ^ 32.
Proof.
  unfold fnv32a. destruct data as [|b l] using rev_ind; [simpl; lia|].
  rewrite fold_left_app. simpl. apply Z.mod_pos_bound. lia.
Qed.

Lemma lxor_bound32 a b : 0 <= a < 2 ^ 32 -> 0 <= b < 2 ^ 32 -> 0 <= Z.lxor a b < 2 ^ 32.
Proof.
  intros Ha Hb. assert (0 <= Z.lxor a b) as Hn by (apply Z.lxor_nonneg; lia).
  split; [done|].
  destruct (Z.eq_dec (Z.lxor a b) 0) as [->|Hz]; [lia|].
  apply Z.log2_lt_pow2; [lia|].
  pose proof (Z.log2_lxor a b ltac:(lia) ltac:(lia)) as Hl.
  assert (Z.log2 a < 32).
  { destruct (Z.eq_dec a 0) as [->|]; [simpl; lia|]. apply Z.log2_lt_pow2; lia. }
  assert (Z.log2 b < 32).
  { destruct (Z.eq_dec b 0) as [->|]; [simpl; lia|]. apply Z.log2_lt_pow2; lia. }
  lia.
Qed.

Lemma crc32_bit_bound c : 0 <= c < 2 ^ 32 -> 0 <= crc32_bit c < 2 ^ 32.
Proof.
  intros H. unfold crc32_bit.
  assert (0 <= Z.shiftr c 1 < 2 ^ 32).
  { rewrite Z.shiftr_div_pow2 by lia. change (2 ^ 1) with 2. zlia. }
  destruct (Z.testbit c 0); [apply lxor_bound32|]; lia.
Qed.

Lemma crc32_byte_bound c b : 0 <= c < 2 ^ 32 -> 0 <= crc32_byte c b < 2 ^ 32.
Proof.
  intros H. unfold crc32_byte. pose proof (byte_to_Z_bound b).
  pose proof (lxor_bound32 c (byte_to_Z b) H ltac:(lia)) as Hx.
  generalize 8%nat; intros n; induction n; simpl; [done|]. by apply crc32_bit_bound.
Qed.

Lemma crc32_ieee_bound data : 0 <= crc32_ieee data < 2 ^ 32.
Proof.
  unfold crc32_ieee. apply lxor_bound32; [|lia].
  assert (forall c, 0 <= c < 2 ^ 32 -> 0 <= fold_left crc32_byte data c < 2 ^ 32) as H.
  { induction data; intros c Hc; simpl; [done|]. by apply IHdata, crc32_byte_bound. }
  apply H. lia.
Qed.
