(* ===== verification/Logger.v ===== *)
(** The logger, internal/logger/logging.go: callers put lines into a bounded
    queue and never wait; one goroutine writes them through a buffer to a file,
    which it flushes on a timer and renames when it has grown. A write to the file
    may fail or take only some of the bytes; what the writer does then is
    followed. *)
From S2P Require Import Prelude Text Domain.

Open Scope Z_scope.

(** ** Definitions *)

Definition SeverityDebug : Z := 0.
Definition SeverityInfo : Z := 1.
Definition SeverityError : Z := 2.
Definition MaximumLogFileSizeInBytes : Z := 10 * 1024 * 1024.

(** *** [bufio.Writer] over an [os.File]: the buffer holds 4096 bytes; after a
    failed write the writer refuses everything. *)

Definition buffer_size : Z := 4096.

(** The file and the writer that [openLogFileInternal] sets together. *)
Record log_file := mkFile {
  file_path : string;
  file_closed : bool;
  buffered : bytes;
  failed : bool;
}.

(** What the disk does to the writes of one event, the first and the second:
    [None], it takes all; [Some k], it takes [k] bytes and reports an error. *)
Definition disk := nat -> option Z.
Definition sound_disk : disk := fun _ => None.

(** [file.Write]: the bytes that reach the file, and whether there was no error;
    a closed file refuses. *)
Definition file_write (o : option Z) (data : bytes) (w : log_file) (f : FileSystem) : FileSystem * Z * bool :=
  if file_closed w then (f, 0, false)
  else match o with
       | None => (fs_append (file_path w) data f, zlen data, true)
       | Some k =>
         let n := Z.max 0 (Z.min k (zlen data)) in
         (fs_append (file_path w) (take (Z.to_nat n) data) f, n, false)
       end.

Definition set_buffer (b : bytes) (w : log_file) : log_file := mkFile (file_path w) (file_closed w) b (failed w).
Definition fail (b : bytes) (w : log_file) : log_file := mkFile (file_path w) (file_closed w) b true.

(** What an error leaves of the buffer stays in it. *)
Definition Flush (d : disk) (w : log_file) (f : FileSystem) : log_file * FileSystem :=
  if failed w then (w, f)
  else match buffered w with
       | [] => (w, f)
       | b =>
         let '(f, n, ok) := file_write (d 0%nat) b w f in
         (if ok then set_buffer [] w else fail (drop (Z.to_nat n) b) w, f)
       end.

(** With an empty buffer, what does not fit goes to the file directly. *)
Definition write_empty (o : option Z) (s : bytes) (w : log_file) (f : FileSystem) : log_file * FileSystem * Z :=
  if zlen s <=? buffer_size then (set_buffer s w, f, zlen s)
  else
    let '(f, n, ok) := file_write o s w f in
    (if ok then set_buffer [] w else fail [] w, f, n).

(** [WriteString], with the number of bytes it took. *)
Definition WriteString (d : disk) (s : bytes) (w : log_file) (f : FileSystem) : log_file * FileSystem * Z :=
  if failed w then (w, f, 0)
  else
    let available := Z.to_nat (buffer_size - zlen (buffered w)) in
    if zlen s <=? Z.of_nat available then (set_buffer (buffered w ++ s) w, f, zlen s)
    else match buffered w with
         | [] => write_empty (d 0%nat) s w f
         | b =>
           let full := b ++ take available s in
           match file_write (d 0%nat) full w f with
           | (f, n, false) => (fail (drop (Z.to_nat n) full) w, f, Z.of_nat available)
           | (f, _, true) =>
             let '(w, f, n) := write_empty (d 1%nat) (drop available s) w f in (w, f, Z.of_nat available + n)
           end
         end.

(** *** The logger's variables *)

(** Where the goroutine is, with its [bytesWrittenSinceLastCheck]: at the
    [select]; before it prints the line it has written; before it looks at the
    number of bytes. *)
Inductive goroutine :=
| Selecting (since : Z)
| Printing (since : Z) (message : string)
| Checking (since : Z) (message : string).

(** [shutdown]: [shutdownSignalChannel] is closed. [background]: the goroutine,
    while it runs. The two variables of the file are nil together. *)
Record logger := mkLogger {
  isLoggerInitialized : bool;
  minimumSeverityLevel : Z;
  baseLogDirectoryPath : string;
  globalLogMessageQueue : list string;
  log_out : option log_file;
  shutdown : bool;
  background : option goroutine;
}.

Definition fresh_logger : logger := mkLogger false 0 "" [] None false None.

(** The logger, the files, and the lines on the console. *)
Record log_state := mkLog { lg : logger; lfs : FileSystem; console : list string }.

Definition set_queue (q : list string) (l : logger) : logger :=
  mkLogger (isLoggerInitialized l) (minimumSeverityLevel l) (baseLogDirectoryPath l) q (log_out l)
    (shutdown l) (background l).
Definition set_out (o : option log_file) (l : logger) : logger :=
  mkLogger (isLoggerInitialized l) (minimumSeverityLevel l) (baseLogDirectoryPath l) (globalLogMessageQueue l) o
    (shutdown l) (background l).
Definition set_background (b : option goroutine) (l : logger) : logger :=
  mkLogger (isLoggerInitialized l) (minimumSeverityLevel l) (baseLogDirectoryPath l) (globalLogMessageQueue l)
    (log_out l) (shutdown l) b.
Definition set_initialized (i : bool) (l : logger) : logger :=
  mkLogger i (minimumSeverityLevel l) (baseLogDirectoryPath l) (globalLogMessageQueue l)
    (log_out l) (shutdown l) (background l).
Definition set_shutdown (l : logger) : logger :=
  mkLogger (isLoggerInitialized l) (minimumSeverityLevel l) (baseLogDirectoryPath l) (globalLogMessageQueue l)
    (log_out l) true (background l).

(** *** Operations *)

Definition log_path (dir : string) : string := Join dir "system.log".

(** On an error the two variables keep what they had. *)
Definition openLogFileInternal (dir : string) (out : option log_file) (f : FileSystem)
    : option log_file * FileSystem * bool :=
  match os_OpenAppend (log_path dir) f with
  | Some f => (Some (mkFile (log_path dir) false [] false), f, true)
  | None => (out, f, false)
  end.

Definition severity_of (levelString : string) : Z :=
  let level := ToUpper levelString in
  if decide (level = "DEBUG")%string then SeverityDebug
  else if decide (level = "INFO")%string then SeverityInfo
  else if decide (level = "ERROR")%string then SeverityError
  else SeverityInfo.

(** [InitializeLogger] when the logger is not running (when it is, it is shut
    down first); [made] is whether [os.MkdirAll] succeeds; [false] is an
    error. *)
Definition InitializeLogger (made : bool) (directoryPath levelString : string) (s : log_state)
    : log_state * bool :=
  let l := lg s in
  let l := mkLogger (isLoggerInitialized l) (minimumSeverityLevel l) directoryPath (globalLogMessageQueue l)
             (log_out l) (shutdown l) (background l) in
  if negb made then (mkLog l (lfs s) (console s), false)
  else
    match openLogFileInternal directoryPath (log_out l) (lfs s) with
    | (out, f, false) => (mkLog (set_out out l) f (console s), false)
    | (out, f, true) =>
      (mkLog (mkLogger true (severity_of levelString) directoryPath [] out false (Some (Selecting 0))) f (console s), true)
    end.

Definition message_line (timestamp prefix text : string) : string :=
  timestamp ++ " " ++ prefix ++ " " ++ text.

(** A full queue drops the line. *)
Definition queue_capacity : Z := 10000.

Definition tryQueueLogMessage (timestamp prefix text : string) (l : logger) : logger :=
  if negb (isLoggerInitialized l) then l
  else
    let formattedMessage := message_line timestamp prefix text in
    if zlen (globalLogMessageQueue l) <? queue_capacity
    then set_queue (globalLogMessageQueue l ++ [formattedMessage]) l
    else l.

Definition LogAccessEvent (timestamp text : string) (l : logger) : logger :=
  tryQueueLogMessage timestamp "[ACC]" text l.
Definition LogInfoEvent (timestamp text : string) (l : logger) : logger :=
  if minimumSeverityLevel l <=? SeverityInfo then tryQueueLogMessage timestamp "[INF]" text l else l.
Definition LogErrorEvent (timestamp text : string) (l : logger) : logger :=
  if minimumSeverityLevel l <=? SeverityError then tryQueueLogMessage timestamp "[ERR]" text l else l.
Definition LogDebugEvent (timestamp text : string) (l : logger) : logger :=
  if minimumSeverityLevel l <=? SeverityDebug then tryQueueLogMessage timestamp "[DBG]" text l else l.

Definition close_file (w : log_file) : log_file := mkFile (file_path w) true (buffered w) (failed w).

(** The size is the file's, without what is buffered; [Stat] fails on a closed
    file. A failed rename leaves the file to be opened again. *)
Definition CheckAndRotateLogFile (now : Z) (d : disk) (dir : string) (out : option log_file) (f : FileSystem)
    : option log_file * FileSystem :=
  match out with
  | None => (out, f)
  | Some w =>
    if negb (file_closed w) && (MaximumLogFileSizeInBytes <? zlen (default [] (files f !! file_path w))) then
      let '(w, f) := Flush d w f in
      let w := close_file w in
      let oldFilePath := log_path dir in
      let newFilePath := (oldFilePath ++ String "." (print_int now))%string in
      let f := default f (os_Rename oldFilePath newFilePath f) in
      let '(out, f, _) := openLogFileInternal dir (Some w) f in (out, f)
    else (out, f)
  end.

Definition line (message : string) : bytes := to_bytes (message ++ String "010" "").

(** The three cases of [processLogQueueInBackground]'s [select]; [None]: the
    case is not ready. A line that is received is written, then printed, then
    the size of the file is checked. *)
Definition receive (d : disk) (s : log_state) : option log_state :=
  match background (lg s), globalLogMessageQueue (lg s) with
  | Some (Selecting since), message :: queue =>
    let '(out, f, n) := match log_out (lg s) with
                        | Some w => let '(w, f, n) := WriteString d (line message) w (lfs s) in (Some w, f, n)
                        | None => (None, lfs s, 0)
                        end in
    Some (mkLog (set_background (Some (Printing (since + n) message)) (set_out out (set_queue queue (lg s)))) f
            (console s))
  | _, _ => None
  end.

Definition print (s : log_state) : option log_state :=
  match background (lg s) with
  | Some (Printing since message) =>
    Some (mkLog (set_background (Some (Checking since message)) (lg s)) (lfs s) (console s ++ [message]))
  | _ => None
  end.

Definition check (now : Z) (d : disk) (s : log_state) : option log_state :=
  match background (lg s) with
  | Some (Checking since _) =>
    let '(out, f, since) :=
      if 1024 * 10 <? since
      then let '(out, f) := CheckAndRotateLogFile now d (baseLogDirectoryPath (lg s)) (log_out (lg s)) (lfs s) in
           (out, f, 0)
      else (log_out (lg s), lfs s, since) in
    Some (mkLog (set_background (Some (Selecting since)) (set_out out (lg s))) f (console s))
  | _ => None
  end.

Definition tick (d : disk) (s : log_state) : option log_state :=
  match background (lg s) with
  | Some (Selecting _) =>
    let '(out, f) := match log_out (lg s) with
                     | Some w => let '(w, f) := Flush d w (lfs s) in (Some w, f)
                     | None => (None, lfs s)
                     end in
    Some (mkLog (set_out out (lg s)) f (console s))
  | _ => None
  end.

Definition stop (s : log_state) : option log_state :=
  match background (lg s) with
  | Some (Selecting _) => if shutdown (lg s) then Some (mkLog (set_background None (lg s)) (lfs s) (console s)) else None
  | _ => None
  end.

(** [closeAndFlushLoggerInternal] up to the wait: [None] is the panic of
    closing the channel twice. *)
Definition begin_shutdown (l : logger) : option logger :=
  if negb (isLoggerInitialized l) then Some l
  else if shutdown l then None
  else Some (set_shutdown l).

(** From the wait on; [None] waits for the goroutine. *)
Definition end_shutdown (d : disk) (s : log_state) : option log_state :=
  if negb (isLoggerInitialized (lg s)) then Some s
  else match background (lg s) with
       | Some _ => None
       | None =>
         let '(out, f) := match log_out (lg s) with
                          | Some w => let '(w, f) := Flush d w (lfs s) in (Some (close_file w), f)
                          | None => (None, lfs s)
                          end in
         Some (mkLog (set_initialized false (set_out out (lg s))) f (console s))
       end.

(** *** The logger as a state machine *)

(** A call of one of the four functions: the severity it is compared with, if
    it is. *)
Definition log_call (severity : option Z) (timestamp prefix text : string) (l : logger) : logger :=
  match severity with
  | None => tryQueueLogMessage timestamp prefix text l
  | Some v => if minimumSeverityLevel l <=? v then tryQueueLogMessage timestamp prefix text l else l
  end.

Inductive log_event :=
| Call (severity : option Z) (timestamp prefix text : string)
| Receive (d : disk)
| PrintLine
| CheckSize (now : Z) (d : disk)
| Tick (d : disk)
| Stop
| BeginShutdown
| EndShutdown (d : disk).

Definition with_lg (s : log_state) (l : logger) : log_state := mkLog l (lfs s) (console s).

Definition log_step (e : log_event) (s : log_state) : option log_state :=
  match e with
  | Call severity timestamp prefix text => Some (with_lg s (log_call severity timestamp prefix text (lg s)))
  | Receive d => receive d s
  | PrintLine => print s
  | CheckSize now d => check now d s
  | Tick d => tick d s
  | Stop => stop s
  | BeginShutdown => with_lg s <$> begin_shutdown (lg s)
  | EndShutdown d => end_shutdown d s
  end.

Definition archive_path (dir : string) (now : Z) : string := (log_path dir ++ String "." (print_int now))%string.

(** Two rotations do not find the same clock reading. *)
Definition event_fresh (dir : string) (e : log_event) (s : log_state) : Prop :=
  match e with CheckSize now _ => files (lfs s) !! archive_path dir now = None | _ => True end.

(** The disk takes everything the event writes. *)
Definition event_sound (e : log_event) : Prop :=
  match e with Receive d | CheckSize _ d | Tick d | EndShutdown d => forall i, d i = None | _ => True end.

Inductive log_run (dir : string) : log_state -> list log_event -> log_state -> Prop :=
| run_done s : log_run dir s [] s
| run_step s e s' es s'' :
    event_fresh dir e s -> log_step e s = Some s' -> log_run dir s' es s'' -> log_run dir s (e :: es) s''.

(** *** What the logger promises *)

(** The lines a call adds to the queue, and those an event takes out. *)
Definition accepts (severity : option Z) (l : logger) : bool :=
  isLoggerInitialized l
  && match severity with Some v => minimumSeverityLevel l <=? v | None => true end
  && (zlen (globalLogMessageQueue l) <? queue_capacity).

Definition accepted (e : log_event) (s : log_state) : list string :=
  match e with
  | Call severity timestamp prefix text =>
    if accepts severity (lg s) then [message_line timestamp prefix text] else []
  | _ => []
  end.

Definition processed (e : log_event) (s : log_state) : list string :=
  match e with Receive _ => take 1 (globalLogMessageQueue (lg s)) | _ => [] end.

(** The line that is written and not yet printed; the length of the line the
    goroutine has in hand. *)
Definition unprinted (l : logger) : list string :=
  match background l with Some (Printing _ message) => [message] | _ => [] end.

Definition in_hand (l : logger) : Z :=
  match background l with Some (Printing _ message | Checking _ message) => zlen (line message) | _ => 0 end.

Definition run_total (what : log_event -> log_state -> list string) :=
  fix total (s : log_state) (es : list log_event) : list string :=
    match es with
    | [] => []
    | e :: es => what e s ++ match log_step e s with Some s' => total s' es | None => [] end
    end.

Definition content (path : string) (f : FileSystem) : bytes := default [] (files f !! path).

Definition archive_texts (f : FileSystem) (archives : list string) : list bytes := (fun p => content p f) <$> archives.

(** The log: the files renamed so far, the current file, what is buffered. *)
Definition log_text (archives : list string) (s : log_state) : bytes :=
  concat (archive_texts (lfs s) archives)
  ++ match log_out (lg s) with
     | Some w => content (file_path w) (lfs s) ++ buffered w
     | None => []
     end.

(** [bytesWrittenSinceLastCheck]; where the goroutine has ended, what it can have
    been. *)
Definition since_check (l : logger) : Z :=
  match background l with
  | Some (Selecting since | Printing since _ | Checking since _) => since
  | None => 10240
  end.

(** The invariant: the file is open, or the logger has been shut down. It does
    not depend on what the disk does. *)
Record logging (dir : string) (limit : Z) (archives : list string) (s : log_state) : Prop := {
  log_dir : baseLogDirectoryPath (lg s) = dir;
  log_open : forall p, openable (lfs s) p = true;
  log_file_ok : exists w, log_out (lg s) = Some w /\ file_path w = log_path dir
    /\ zlen (buffered w) <= buffer_size
    /\ (if file_closed w then background (lg s) = None /\ isLoggerInitialized (lg s) = false
        else isLoggerInitialized (lg s) = true)
    /\ zlen (content (log_path dir) (lfs s)) + zlen (buffered w) <= limit + buffer_size + since_check (lg s);
  log_since : 0 <= since_check (lg s) <= 10240 + in_hand (lg s);
  log_archives : NoDup archives /\ (log_path dir ∉ archives)
    /\ Forall (fun p => is_Some (files (lfs s) !! p)) archives;
}.

(** No write has failed; a closed file has nothing left to write. *)
Definition log_sound (s : log_state) : Prop :=
  exists w, log_out (lg s) = Some w /\ failed w = false /\ (file_closed w = true -> buffered w = []).

(** ** Lemmas *)

(** What a change of the current file [w] alone does. *)
Definition same_but (path : string) (f f' : FileSystem) : Prop :=
  openable f' = openable f /\ (forall p, p <> path -> files f' !! p = files f !! p).

Lemma same_but_refl path f : same_but path f f.
Proof. done. Qed.

Lemma same_but_trans path f g h : same_but path f g -> same_but path g h -> same_but path f h.
Proof. intros [H1 H2] [H3 H4]. split; [congruence|]. intros p Hp. by rewrite H4, H2. Qed.

Lemma same_but_append path data f : same_but path f (fs_append path data f).
Proof. split; [done|]. intros p Hp. apply lookup_insert_ne. congruence. Qed.

Lemma same_but_archives path f f' archives :
  same_but path f f' -> path ∉ archives -> archive_texts f' archives = archive_texts f archives.
Proof.
  intros [_ H] Hin. apply list_fmap_ext. intros i p Hp. unfold content. rewrite H; [done|].
  intros ->. by apply list_elem_of_lookup_2 in Hp.
Qed.

Lemma same_but_exist path f f' (archives : list string) :
  same_but path f f' -> path ∉ archives ->
  Forall (fun p => is_Some (files f !! p)) archives -> Forall (fun p => is_Some (files f' !! p)) archives.
Proof.
  intros [_ H] Hin. rewrite !Forall_forall. intros Hall p Hp. rewrite H; [by apply Hall|]. by intros ->.
Qed.

Lemma content_append path data f : content path (fs_append path data f) = content path f ++ data.
Proof. unfold content, fs_append, fs_write. simpl. by rewrite lookup_insert_eq. Qed.

(** An open writer whose buffer is within its size. *)
Definition writer_at (path : string) (w : log_file) : Prop :=
  file_path w = path /\ file_closed w = false /\ zlen (buffered w) <= buffer_size.

Lemma take_all {A} (l : list A) : take (Z.to_nat (zlen l)) l = l.
Proof. unfold zlen. rewrite Nat2Z.id. apply firstn_all. Qed.

(** A write puts the bytes it counts behind the file. *)
Lemma file_write_open o data w f : file_closed w = false ->
  exists f' n ok, file_write o data w f = (f', n, ok) /\ 0 <= n <= zlen data
    /\ content (file_path w) f' = content (file_path w) f ++ take (Z.to_nat n) data /\ same_but (file_path w) f f'
    /\ (ok = true -> n = zlen data) /\ (o = None -> ok = true).
Proof.
  intros Hc. unfold file_write. rewrite Hc. pose proof (zlen_nonneg data). destruct o as [k|].
  - eexists _, _, _. split; [done|]. split_and!; [lia|lia|apply content_append|apply same_but_append|done|done].
  - eexists _, _, _. split; [done|]. split_and!; [lia|lia| |apply same_but_append|done|done].
    by rewrite content_append, take_all.
Qed.

(** A flush moves bytes from the buffer to the file, all of them if the disk
    takes them. *)
Lemma Flush_ok path d w f : writer_at path w ->
  exists w' f' n, Flush d w f = (w', f') /\ writer_at path w'
    /\ content path f' = content path f ++ take n (buffered w) /\ buffered w' = drop n (buffered w)
    /\ same_but path f f' /\ (d 0%nat = None -> failed w = false -> failed w' = false /\ buffered w' = []).
Proof.
  intros Hw. pose proof Hw as (Hp & Hc & Hb). unfold Flush.
  destruct (failed w) eqn:Ef; [exists w, f, 0%nat; rewrite app_nil_r; by split_and!|].
  destruct (buffered w) as [|z b] eqn:Eb; [exists w, f, 0%nat; rewrite app_nil_r; by split_and!|].
  destruct (file_write_open (d 0%nat) (z :: b) w f Hc) as (f' & n & ok & -> & Hn & Ht & Hs & Hall & Hok).
  rewrite Hp in *. eexists _, f', (Z.to_nat n). split; [reflexivity|]. destruct ok.
  - rewrite (Hall eq_refl) in *. split_and!; try done.
    cbn [set_buffer buffered]. rewrite drop_ge; [done|]. unfold zlen. lia.
  - split_and!; try done.
    + split_and!; [done..|]. cbn [fail buffered]. unfold zlen in *. rewrite length_drop. lia.
    + intros Hd. by specialize (Hok Hd).
Qed.

Lemma write_empty_ok path o s w f : writer_at path w ->
  exists w' f' n, write_empty o s w f = (w', f', n) /\ 0 <= n <= zlen s /\ writer_at path w'
    /\ content path f' ++ buffered w' = content path f ++ take (Z.to_nat n) s /\ same_but path f f'
    /\ (o = None -> failed w = false -> n = zlen s /\ failed w' = false).
Proof.
  intros (Hp & Hc & Hb). unfold write_empty. pose proof (zlen_nonneg s).
  destruct (Z.leb_spec (zlen s) buffer_size).
  - eexists _, _, _. split; [done|]. rewrite take_all. by split_and!.
  - destruct (file_write_open o s w f Hc) as (f' & n & ok & -> & Hn & Ht & Hs & Hall & Hok). rewrite Hp in *.
    eexists _, f', n. split; [done|].
    assert (buffered (if ok then set_buffer [] w else fail [] w) = []) as -> by by destruct ok.
    rewrite app_nil_r. split_and!; try done; try lia; [|by intros ->%Hok; auto].
    destruct ok; split_and!; done.
Qed.

(** The bytes a call takes are behind what was buffered. *)
Lemma WriteString_ok path d s w f : writer_at path w ->
  exists w' f' n, WriteString d s w f = (w', f', n) /\ 0 <= n <= zlen s /\ writer_at path w'
    /\ content path f' ++ buffered w' = content path f ++ buffered w ++ take (Z.to_nat n) s /\ same_but path f f'
    /\ ((forall i, d i = None) -> failed w = false -> n = zlen s /\ failed w' = false).
Proof.
  intros Hw. pose proof Hw as (Hp & Hc & Hb). unfold WriteString. pose proof (zlen_nonneg s).
  destruct (failed w) eqn:Ef.
  { exists w, f, 0. change (take (Z.to_nat 0) s) with ([] : bytes). rewrite app_nil_r. split_and!; try done; lia. }
  set (available := Z.to_nat (buffer_size - zlen (buffered w))).
  assert (Z.of_nat available = buffer_size - zlen (buffered w)) as Ha by (unfold available; lia).
  destruct (Z.leb_spec (zlen s) (Z.of_nat available)).
  { eexists _, _, _. split; [done|]. rewrite take_all. split_and!; try done; try lia.
    split_and!; [done..|]. simpl. rewrite zlen_app. lia. }
  destruct (buffered w) as [|z b] eqn:E.
  { destruct (write_empty_ok path (d 0%nat) s w f Hw) as (w' & f' & n & -> & Hn & H' & Ht & Hs & Hok).
    exists w', f', n. split_and!; try done; try lia. intros Hd _. by apply Hok. }
  set (full := (z :: b) ++ take available s).
  assert (zlen full = buffer_size) as Hfull.
  { unfold full. rewrite zlen_app. unfold zlen in *. rewrite length_take. lia. }
  destruct (file_write_open (d 0%nat) full w f Hc) as (f1 & n1 & ok & -> & Hn1 & Ht1 & Hs1 & Hall & Hok1).
  rewrite Hp in *. destruct ok.
  - rewrite (Hall eq_refl), take_all in Ht1.
    destruct (write_empty_ok path (d 1%nat) (drop available s) w f1 Hw) as (w' & f' & n & -> & Hn & H' & Ht & Hs & Hok).
    assert (zlen (drop available s) = zlen s - Z.of_nat available) as Hd by (unfold zlen in *; rewrite length_drop; lia).
    eexists w', f', _. split; [reflexivity|]. split_and!; try done; try lia.
    + rewrite Ht, Ht1. unfold full. rewrite <- !app_assoc. do 2 f_equal.
      rewrite Z2Nat.inj_add, Nat2Z.id by lia. by rewrite take_take_drop.
    + eapply same_but_trans; done.
    + intros Hall' _. destruct (Hok (Hall' 1%nat) Ef) as [-> ?]. split; [lia|done].
  - eexists _, f1, _. split; [reflexivity|]. split_and!; try done; try lia.
    + split_and!; [done..|]. cbn [fail buffered]. unfold zlen in *. rewrite length_drop. lia.
    + cbn [fail buffered]. rewrite Ht1, Nat2Z.id, <- app_assoc, take_drop. done.
    + intros Hall'. by specialize (Hok1 (Hall' 0%nat)).
Qed.

Lemma archive_path_ne dir now : archive_path dir now <> log_path dir.
Proof.
  unfold archive_path. intros H. apply (f_equal String.length) in H.
  rewrite length_string_app in H. simpl in H. lia.
Qed.

(** A check leaves everything as it is, or moves the text of the file to a new
    archive, all of it unless a write has failed. *)
Lemma rotate_ok now d dir w f :
  writer_at (log_path dir) w -> (forall p, openable f p = true) -> files f !! archive_path dir now = None ->
  (zlen (content (log_path dir) f) <= MaximumLogFileSizeInBytes
    /\ CheckAndRotateLogFile now d dir (Some w) f = (Some w, f))
  \/ exists f', CheckAndRotateLogFile now d dir (Some w) f = (Some (mkFile (log_path dir) false [] false), f')
    /\ content (log_path dir) f' = []
    /\ (d 0%nat = None -> failed w = false -> content (archive_path dir now) f' = content (log_path dir) f ++ buffered w)
    /\ is_Some (files f' !! archive_path dir now)
    /\ openable f' = openable f
    /\ forall p, p <> log_path dir -> p <> archive_path dir now -> files f' !! p = files f !! p.
Proof.
  intros Hw Ho Hn. destruct (Flush_ok _ d w f Hw) as (w' & f1 & n & HF & Hw' & Ht & Hb & Hs & Hok).
  pose proof (archive_path_ne dir now) as Hne. destruct Hw as (Hp & Hc & _), Hs as [Hso Hsf].
  unfold CheckAndRotateLogFile. rewrite Hc, Hp. cbn [negb andb]. fold (content (log_path dir) f).
  destruct (Z.ltb_spec MaximumLogFileSizeInBytes (zlen (content (log_path dir) f))) as [Hgt|]; [right|by left].
  rewrite HF.
  assert (files f1 !! log_path dir = Some (content (log_path dir) f ++ take n (buffered w))) as Hf1.
  { rewrite <- Ht. unfold content. destruct (files f1 !! log_path dir) as [c|] eqn:E; [done|].
    exfalso. unfold content in *. rewrite E in Ht. simpl in Ht. symmetry in Ht. apply app_eq_nil in Ht as [Ht _].
    rewrite Ht in Hgt. done. }
  fold (archive_path dir now).
  unfold os_Rename. rewrite Hso, Ho, Hf1. cbn [default from_option id]. unfold openLogFileInternal, os_OpenAppend.
  cbn [openable files]. rewrite Ho, lookup_insert_ne, lookup_delete_eq by done. cbn [default from_option id].
  eexists. split; [done|]. unfold content at 1. cbn [files openable].
  rewrite lookup_insert_eq, lookup_insert_ne, lookup_insert_eq by done. split_and!; [done| |by eexists|done|].
  { intros Hd Hx. destruct (Hok Hd Hx) as [_ Hnil]. unfold content at 1. cbn [files].
    rewrite lookup_insert_ne, lookup_insert_eq by done. cbn. f_equal.
    rewrite <- (take_drop n (buffered w)) at 2. by rewrite <- Hb, Hnil, app_nil_r. }
  intros p H1 H2. rewrite !lookup_insert_ne, lookup_delete_ne by done. by apply Hsf.
Qed.

(** *** One event *)

Lemma log_call_accepts severity timestamp prefix text l :
  log_call severity timestamp prefix text l =
  if accepts severity l then set_queue (globalLogMessageQueue l ++ [message_line timestamp prefix text]) l else l.
Proof.
  unfold log_call, accepts, tryQueueLogMessage.
  destruct (isLoggerInitialized l), severity as [v|]; cbn [negb andb]; try (destruct (_ <=? _)); done.
Qed.

Lemma log_call_functions timestamp text l :
  LogAccessEvent timestamp text l = log_call None timestamp "[ACC]" text l
  /\ LogInfoEvent timestamp text l = log_call (Some SeverityInfo) timestamp "[INF]" text l
  /\ LogErrorEvent timestamp text l = log_call (Some SeverityError) timestamp "[ERR]" text l
  /\ LogDebugEvent timestamp text l = log_call (Some SeverityDebug) timestamp "[DBG]" text l.
Proof. done. Qed.

(** Only the queue changes. *)
Lemma logging_queue dir limit archives s q :
  logging dir limit archives s -> logging dir limit archives (with_lg s (set_queue q (lg s))).
Proof. by intros []. Qed.

Lemma log_text_queue archives s q : log_text archives (with_lg s (set_queue q (lg s))) = log_text archives s.
Proof. done. Qed.

(** One event: the queue gains the accepted line and loses the processed one,
    which goes to the console and, while the disk takes everything, to the
    log. *)
Record event_outcome (dir : string) (limit : Z) (archives : list string) (e : log_event) (s s' : log_state)
    (more : list string) : Prop := {
  out_inv : logging dir limit (archives ++ more) s';
  out_queue : globalLogMessageQueue (lg s) ++ accepted e s = processed e s ++ globalLogMessageQueue (lg s');
  out_console : console s' ++ unprinted (lg s') = console s ++ unprinted (lg s) ++ processed e s;
  out_text : event_sound e -> log_sound s -> log_sound s' /\
    log_text (archives ++ more) s' = log_text archives s ++ concat (line <$> processed e s);
}.

Lemma call_outcome dir limit archives s severity timestamp prefix text :
  logging dir limit archives s ->
  let e := Call severity timestamp prefix text in
  forall s', log_step e s = Some s' -> event_outcome dir limit archives e s s' [].
Proof.
  intros Hinv e s' [= <-]. rewrite log_call_accepts.
  assert (with_lg s (lg s) = s) as Hsame by by destruct s.
  split; rewrite ?app_nil_r; unfold e, accepted, processed; destruct (accepts severity (lg s));
    rewrite ?Hsame, ?app_nil_r; try done. by apply logging_queue.
Qed.

(** The file after a flush. *)
Lemma flushed_file_ok dir limit archives d s w : logging dir limit archives s ->
  log_out (lg s) = Some w -> file_closed w = false ->
  exists w' f', Flush d w (lfs s) = (w', f') /\ writer_at (log_path dir) w'
    /\ zlen (content (log_path dir) f') + zlen (buffered w') <= limit + buffer_size + since_check (lg s)
    /\ (forall p, openable f' p = true) /\ Forall (fun p => is_Some (files f' !! p)) archives
    /\ concat (archive_texts f' archives) ++ content (log_path dir) f' ++ buffered w' = log_text archives s
    /\ (d 0%nat = None -> failed w = false -> failed w' = false /\ buffered w' = []).
Proof.
  intros [_ Ho (w0 & Hw0 & Hp & Hb & _ & Hlim) _ (Hnd & Hni & Hex)] Hw Hc.
  assert (w0 = w) as -> by congruence.
  destruct (Flush_ok (log_path dir) d w (lfs s)) as (w' & f' & n & HF & Hw' & Ht & Hbuf & Hs & Hok); [by split_and!|].
  assert (content (log_path dir) f' ++ buffered w' = content (log_path dir) (lfs s) ++ buffered w) as Htext
    by by rewrite Ht, Hbuf, <- app_assoc, take_drop.
  exists w', f'. split_and!; try done.
  - rewrite <- zlen_app, Htext, zlen_app. done.
  - intros p. by rewrite (proj1 Hs).
  - by eapply same_but_exist.
  - rewrite Htext. unfold log_text. rewrite Hw, Hp. by erewrite same_but_archives.
Qed.

Lemma tick_outcome dir limit archives d s s' :
  logging dir limit archives s -> log_step (Tick d) s = Some s' -> event_outcome dir limit archives (Tick d) s s' [].
Proof.
  intros Hinv. pose proof Hinv as [Hd Ho (w & Hw & Hp & Hb & Hc & Hlim) Hsi (Hnd & Hni & Hex)]. simpl. unfold tick.
  destruct (background (lg s)) as [[since| |]|] eqn:Eb; try done. rewrite Hw.
  destruct (file_closed w) eqn:Ec; [by destruct Hc|].
  destruct (flushed_file_ok dir limit archives d s w) as (w' & f' & -> & (Hp' & Hc' & Hb') & Hlim' & Ho' & Hex' & Ht & Hok); try done.
  intros [= <-]. split; rewrite ?app_nil_r; try done.
  - split; try done. exists w'. rewrite Hc'. by split_and!.
  - intros Hd0 (w0 & Hw0 & Hx & _). assert (w0 = w) as -> by congruence. destruct (Hok (Hd0 0%nat) Hx) as [Hx' _].
    split; [exists w'; split_and!; [done..|congruence]|].
    rewrite <- Ht. unfold log_text. cbn [lg lfs set_out log_out]. by rewrite Hp'.
Qed.

(** A line is written: the text and the count grow by as many bytes. *)
Lemma receive_outcome dir limit archives d s s' :
  logging dir limit archives s -> log_step (Receive d) s = Some s' ->
  event_outcome dir limit archives (Receive d) s s' [].
Proof.
  intros [Hd Ho (w & Hw & Hp & Hb & Hc & Hlim) Hsi (Hnd & Hni & Hex)]. simpl. unfold receive.
  destruct (background (lg s)) as [[since| |]|] eqn:Eb; try done.
  destruct (globalLogMessageQueue (lg s)) as [|message queue] eqn:Eq; [done|]. rewrite Hw.
  destruct (file_closed w) eqn:Ec; [by destruct Hc|].
  destruct (WriteString_ok (log_path dir) d (line message) w (lfs s))
    as (w' & f' & n & -> & Hn & (Hp' & Hc' & Hb') & Ht & Hs & Hok); [done|].
  intros [= <-]. unfold since_check, in_hand in *. rewrite Eb in *.
  split; cbn [accepted processed]; rewrite ?Eq, ?app_nil_r; try done.
  - split; try done.
    + intros p. cbn. by rewrite (proj1 Hs).
    + exists w'. cbn. rewrite Hc'. split_and!; try done. apply (f_equal zlen) in Ht. revert Ht. rewrite !zlen_app.
      pose proof (zlen_nonneg (line message)). unfold zlen in *. rewrite length_take. lia.
    + unfold since_check, in_hand. cbn. lia.
    + split_and!; [done..|]. by eapply same_but_exist.
  - cbn. unfold unprinted. by rewrite Eb.
  - intros Hd0 (w0 & Hw0 & Hx & _). assert (w0 = w) as -> by congruence. destruct (Hok Hd0 Hx) as [-> Hx'].
    split; [exists w'; split_and!; [done..|congruence]|].
    unfold log_text. cbn. rewrite Hw, Hp', Hp, Ht, take_all, app_nil_r. erewrite same_but_archives by done.
    by rewrite <- !app_assoc.
Qed.

Lemma print_outcome dir limit archives s s' :
  logging dir limit archives s -> log_step PrintLine s = Some s' -> event_outcome dir limit archives PrintLine s s' [].
Proof.
  intros [Hd Ho (w & Hw & Hp & Hb & Hc & Hlim) Hsi Har]. simpl. unfold print.
  destruct (background (lg s)) as [[| since message|]|] eqn:Eb; try done. intros [= <-].
  unfold since_check, in_hand in *. rewrite Eb in *. split; rewrite ?app_nil_r; try done.
  - split; try done. exists w. split_and!; try done. destruct (file_closed w); [by destruct Hc|done].
  - cbn. unfold unprinted. rewrite Eb. cbn. by rewrite ?app_nil_r.
Qed.

(** A check that rotates nothing, and one that does: the archives are new. *)
Lemma check_outcome dir limit archives now d s s' :
  logging dir limit archives s -> MaximumLogFileSizeInBytes <= limit ->
  event_fresh dir (CheckSize now d) s -> log_step (CheckSize now d) s = Some s' ->
  exists more, event_outcome dir limit archives (CheckSize now d) s s' more.
Proof.
  intros [Hd Ho (w & Hw & Hp & Hb & Hc & Hlim) Hsi (Hnd & Hni & Hex)] Hlimit Hfresh. simpl in *. unfold check.
  destruct (background (lg s)) as [[| |since message]|] eqn:Eb; try done. rewrite Hw, Hd.
  destruct (file_closed w) eqn:Ec; [by destruct Hc|].
  unfold since_check, in_hand in *. rewrite Eb in *.
  assert (unprinted (lg s) = []) as Hun by (unfold unprinted; by rewrite Eb).
  assert (forall since', 0 <= since' <= 10240 ->
    zlen (content (log_path dir) (lfs s)) + zlen (buffered w) <= limit + buffer_size + since' ->
    event_outcome dir limit archives (CheckSize now d) s
      (mkLog (set_background (Some (Selecting since')) (set_out (Some w) (lg s))) (lfs s) (console s)) []) as Hsame.
  { intros since' Hs' Hl'. split; rewrite ?app_nil_r; try done; [|rewrite Hun; cbn; by rewrite app_nil_r|].
    - split; try done; try (unfold since_check, in_hand; cbn; lia). exists w. unfold since_check. cbn. rewrite Ec. by split_and!.
    - intros _ (w0 & Hw0 & Hx & Hcl). assert (w0 = w) as -> by congruence. split; [by exists w|]. unfold log_text. cbn. by rewrite Hw, ?app_nil_r. }
  destruct (Z.ltb_spec (1024 * 10) since) as [Hmany|]; [|intros [= <-]; exists []; apply Hsame; lia].
  destruct (rotate_ok now d dir w (lfs s)) as [[Hle ->]|(f' & -> & Hc0 & Ha & He & Ho' & Hother)]; try done;
    intros [= <-]; [exists []; apply Hsame; lia|].
  exists [archive_path dir now].
  assert (archive_path dir now ∉ archives) as Hnew.
  { intros Hin. rewrite Forall_forall in Hex. destruct (Hex _ Hin) as [c Hcc]. congruence. }
  split; rewrite ?app_nil_r; try done; [|rewrite Hun; cbn; by rewrite app_nil_r|].
  - split; try done; cbn.
    + intros p. by rewrite Ho'.
    + eexists. split; [done|]. cbn. split_and!; try done.
      rewrite Hc0. unfold zlen, MaximumLogFileSizeInBytes, buffer_size in *. simpl. lia.
    + split_and!.
      * apply NoDup_app. split_and!; [done| |apply NoDup_singleton]. by intros x Hx ->%list_elem_of_singleton.
      * intros [?|Hin%list_elem_of_singleton]%elem_of_app; [done|]. symmetry in Hin. by apply archive_path_ne in Hin.
      * apply Forall_app. split; [|by constructor].
        rewrite !Forall_forall in *. intros p Hin. rewrite Hother; [by apply Hex|by intros ->..].
  - intros Hd0 (w0 & Hw0 & Hx & _). assert (w0 = w) as -> by congruence. split; [by eexists|].
    unfold log_text. cbn. rewrite Hw, Hp, Hc0, !app_nil_r. unfold archive_texts. rewrite fmap_app, concat_app. cbn.
    rewrite (Ha (Hd0 0%nat) Hx), app_nil_r. f_equal. f_equal.
    apply list_fmap_ext. intros i p Hpi%list_elem_of_lookup_2. unfold content. rewrite Hother; [done|by intros ->..].
Qed.

(** The events of a shutdown. *)
Lemma stop_outcome dir limit archives s s' :
  logging dir limit archives s -> log_step Stop s = Some s' -> event_outcome dir limit archives Stop s s' [].
Proof.
  intros [Hd Ho (w & Hw & Hp & Hb & Hc & Hlim) Hsi Har]. simpl. unfold stop.
  destruct (background (lg s)) as [[since| |]|] eqn:Eb; try done.
  destruct (shutdown (lg s)); [|done]. intros [= <-]. unfold since_check, in_hand in *. rewrite Eb in *.
  split; rewrite ?app_nil_r; try done; [|cbn; unfold unprinted; rewrite Eb; cbn; by rewrite ?app_nil_r].
  split; try done; try (unfold since_check, in_hand; cbn; lia). exists w. cbn. split_and!; try done; [|lia].
  destruct (file_closed w); [by destruct Hc|done].
Qed.

Lemma begin_shutdown_outcome dir limit archives s s' :
  logging dir limit archives s -> log_step BeginShutdown s = Some s' ->
  event_outcome dir limit archives BeginShutdown s s' [].
Proof.
  intros Hinv. simpl. unfold begin_shutdown. destruct (isLoggerInitialized (lg s)); simpl.
  - destruct (shutdown (lg s)); [done|]. intros [= <-]. split; rewrite ?app_nil_r; try done. by destruct Hinv.
  - intros [= <-]. split; rewrite ?app_nil_r; try done. by destruct s.
Qed.

Lemma end_shutdown_outcome dir limit archives d s s' :
  logging dir limit archives s -> log_step (EndShutdown d) s = Some s' ->
  event_outcome dir limit archives (EndShutdown d) s s' [].
Proof.
  intros Hinv. pose proof Hinv as [Hd Ho (w & Hw & Hp & Hb & Hc & Hlim) Hsi (Hnd & Hni & Hex)]. simpl. unfold end_shutdown.
  destruct (isLoggerInitialized (lg s)) eqn:Ei; simpl; [|intros [= <-]; by split; rewrite ?app_nil_r].
  destruct (background (lg s)) eqn:Eb; [done|]. rewrite Hw.
  destruct (file_closed w) eqn:Ec; [destruct Hc; congruence|].
  destruct (flushed_file_ok dir limit archives d s w) as (w' & f' & -> & (Hp' & Hc' & Hb') & Hlim' & Ho' & Hex' & Ht & Hok); try done.
  intros [= <-]. split; rewrite ?app_nil_r; try done.
  - split; try done. exists (close_file w'). cbn. by split_and!.
  - intros Hd0 (w0 & Hw0 & Hx & _). assert (w0 = w) as -> by congruence. destruct (Hok (Hd0 0%nat) Hx) as [Hx' Hnil].
    split; [by exists (close_file w')|].
    rewrite <- Ht. unfold log_text. cbn. by rewrite Hp'.
Qed.

Lemma event_outcomes dir limit archives e s s' :
  logging dir limit archives s -> MaximumLogFileSizeInBytes <= limit ->
  event_fresh dir e s -> log_step e s = Some s' -> exists more, event_outcome dir limit archives e s s' more.
Proof.
  intros Hinv Hlimit Hfresh Hstep. destruct e.
  - exists []. by apply call_outcome.
  - exists []. by apply receive_outcome.
  - exists []. by apply print_outcome.
  - by apply check_outcome.
  - exists []. by apply tick_outcome.
  - exists []. by apply stop_outcome.
  - exists []. by apply begin_shutdown_outcome.
  - exists []. by apply end_shutdown_outcome.
Qed.

Lemma run_outcomes dir limit s es s' : log_run dir s es s' -> MaximumLogFileSizeInBytes <= limit ->
  forall archives, logging dir limit archives s ->
  exists more, logging dir limit (archives ++ more) s'
    /\ globalLogMessageQueue (lg s) ++ run_total accepted s es
       = run_total processed s es ++ globalLogMessageQueue (lg s')
    /\ console s' ++ unprinted (lg s') = console s ++ unprinted (lg s) ++ run_total processed s es
    /\ (Forall event_sound es -> log_sound s -> log_sound s'
        /\ log_text (archives ++ more) s' = log_text archives s ++ concat (line <$> run_total processed s es)).
Proof.
  intros Hrun Hlimit. induction Hrun as [s|s e s' es s'' Hfresh Hstep Hrun IH]; intros archives Hinv.
  { exists []. rewrite !app_nil_r. by split_and!. }
  destruct (event_outcomes _ _ _ _ _ _ Hinv Hlimit Hfresh Hstep) as (more & [Hinv' Hq Hc Ht]).
  destruct (IH _ Hinv') as (more' & Hinv'' & Hq' & Hc' & Ht').
  exists (more ++ more'). rewrite app_assoc. simpl. rewrite Hstep. split; [done|]. split_and!.
  - by rewrite app_assoc, Hq, <- !app_assoc, Hq'.
  - rewrite Hc', app_assoc, Hc. by rewrite <- !app_assoc.
  - intros [He Hes]%Forall_cons Hs. destruct (Ht He Hs) as [Hs' Hte]. destruct (Ht' Hes Hs') as [Hs'' Hte'].
    split; [done|]. by rewrite Hte', Hte, fmap_app, concat_app, app_assoc.
Qed.

(** A freshly initialised logger: an empty queue, the old file continued. *)
Lemma initialized_logging dir level s0 s :
  (forall p, openable (lfs s0) p = true) -> InitializeLogger true dir level s0 = (s, true) ->
  logging dir (Z.max MaximumLogFileSizeInBytes (zlen (content (log_path dir) (lfs s0)))) [] s
  /\ globalLogMessageQueue (lg s) = [] /\ console s = console s0
  /\ log_text [] s = content (log_path dir) (lfs s0) /\ log_sound s
  /\ background (lg s) = Some (Selecting 0) /\ shutdown (lg s) = false.
Proof.
  intros Ho. unfold InitializeLogger, openLogFileInternal, os_OpenAppend. cbn [negb]. rewrite Ho.
  intros [= <-].
  assert (content (log_path dir) (mkFS (<[log_path dir := default [] (files (lfs s0) !! log_path dir)]>
    (files (lfs s0))) (openable (lfs s0))) = content (log_path dir) (lfs s0)) as Hcont.
  { unfold content at 1. cbn [files]. by rewrite lookup_insert_eq. }
  split_and!; try done.
  - split; try done.
    + eexists. split; [done|]. cbn [lfs]. rewrite Hcont. cbn. split_and!; [done..|]. unfold zlen at 2.
      unfold buffer_size, since_check. simpl. lia.
    + split_and!; [apply NoDup_nil_2|apply not_elem_of_nil|done].
  - unfold log_text. cbn. by rewrite Hcont, app_nil_r.
  - by eexists.
Qed.

(** Once the goroutine has ended no line is taken out of the queue. *)
Lemma stopped_processes_nothing dir s es s' : log_run dir s es s' -> background (lg s) = None ->
  isLoggerInitialized (lg s) = false -> run_total processed s es = [] /\ background (lg s') = None.
Proof.
  induction 1 as [s|s e s' es s'' Hfresh Hstep Hrun IH]; intros Hb Hi; [done|].
  simpl. rewrite Hstep.
  assert (background (lg s') = None /\ isLoggerInitialized (lg s') = false /\ processed e s = []) as (Hb' & Hi' & ->).
  { destruct e; simpl in Hstep; unfold receive, print, check, tick, stop, begin_shutdown, end_shutdown in Hstep;
      rewrite ?Hb, ?Hi in Hstep; simplify_eq/=; try done.
    rewrite log_call_accepts. unfold accepts. by rewrite Hi. }
  by apply IH.
Qed.

(** ** Properties *)

(** C28. Where files can always be opened and renamed, the lines that calls put
    into the queue are taken out in the same order, each once; the console gets
    each line that is taken (the last one when it is printed). While moreover no
    write fails, and no two rotations find the same clock reading, the log holds
    exactly those lines: rotations split the text over files of different names
    without losing a byte, what is not in a file is in the buffer, and after a
    shutdown nothing is left there. *)
Theorem Logger_keeps_lines dir level s0 s es s' :
  (forall p, openable (lfs s0) p = true) -> InitializeLogger true dir level s0 = (s, true) ->
  log_run dir s es s' ->
  let lines := run_total processed s es in
  run_total accepted s es = lines ++ globalLogMessageQueue (lg s')
  /\ console s' ++ unprinted (lg s') = console s0 ++ lines
  /\ (Forall event_sound es -> exists archives w,
       NoDup archives /\ (log_path dir ∉ archives) /\ log_out (lg s') = Some w /\ file_path w = log_path dir
       /\ concat (archive_texts (lfs s') archives) ++ content (log_path dir) (lfs s') ++ buffered w
          = content (log_path dir) (lfs s0) ++ concat (line <$> lines)
       /\ (isLoggerInitialized (lg s') = false -> buffered w = [])).
Proof.
  intros Ho Hinit Hrun lines.
  destruct (initialized_logging _ _ _ _ Ho Hinit) as (Hinv & Hq & Hc & Ht & Hs & Hb & _).
  destruct (run_outcomes _ _ _ _ _ Hrun (Z.le_max_l _ _) _ Hinv) as (more & Hinv' & Hq' & Hc' & Ht').
  assert (unprinted (lg s) = []) as Hun by (unfold unprinted; by rewrite Hb).
  rewrite Hq in Hq'. rewrite Hc, Hun in Hc'. split; [done|]. split; [done|]. intros Hes.
  destruct (Ht' Hes Hs) as [(w0 & Hw0 & _ & Hcl0) Hte]. rewrite Ht in Hte.
  destruct Hinv' as [_ _ (w & Hw & Hp & _ & Hcl & _) _ (Hnd & Hni & _)].
  assert (w0 = w) as -> by congruence. exists more, w. split_and!; try done.
  - unfold log_text in Hte. by rewrite Hw, Hp in Hte.
  - intros Hi. destruct (file_closed w); [by apply Hcl0|congruence].
Qed.

(** C39. The file being written never exceeds the larger of the limit and of the
    file it started with by more than a buffer, the 10 kB between two checks and
    the line the goroutine has written and not yet checked for, however long the
    lines are and whatever the disk does to the writes; the files can be opened
    and renamed. *)
Theorem Logger_bounds_file dir level s0 s es s' :
  (forall p, openable (lfs s0) p = true) -> InitializeLogger true dir level s0 = (s, true) ->
  log_run dir s es s' ->
  zlen (content (log_path dir) (lfs s'))
    <= Z.max MaximumLogFileSizeInBytes (zlen (content (log_path dir) (lfs s0))) + buffer_size + 10240
       + in_hand (lg s').
Proof.
  intros Ho Hinit Hrun. destruct (initialized_logging _ _ _ _ Ho Hinit) as (Hinv & _).
  destruct (run_outcomes _ _ _ _ _ Hrun (Z.le_max_l _ _) _ Hinv) as (more & [_ _ Hf Hs _] & _).
  destruct Hf as (w & _ & _ & _ & _ & Hlim). pose proof (zlen_nonneg (buffered w)). lia.
Qed.

(** C40. A shutdown may drop what is queued: the goroutine may take the signal
    before the lines, and then what had been processed is in the file, but no
    later event writes the lines of the queue. *)
Theorem Shutdown_drops_queue dir level s0 s es s' since :
  (forall p, openable (lfs s0) p = true) -> InitializeLogger true dir level s0 = (s, true) ->
  log_run dir s es s' -> isLoggerInitialized (lg s') = true -> background (lg s') = Some (Selecting since) ->
  shutdown (lg s') = false ->
  exists s2, log_run dir s' [BeginShutdown; Stop; EndShutdown sound_disk] s2
    /\ globalLogMessageQueue (lg s2) = globalLogMessageQueue (lg s') /\ console s2 = console s'
    /\ log_text [] s2 = log_text [] s'
    /\ (Forall event_sound es -> option_map buffered (log_out (lg s2)) = Some [])
    /\ forall es' s3, log_run dir s2 es' s3 -> run_total processed s2 es' = [].
Proof.
  intros Ho Hinit Hrun Hi Hb Hsh. destruct (initialized_logging _ _ _ _ Ho Hinit) as (Hinv & _ & _ & _ & Hs0 & _).
  destruct (run_outcomes _ _ _ _ _ Hrun (Z.le_max_l _ _) _ Hinv) as (more & Hinv' & _ & _ & Hte).
  destruct Hinv' as [_ _ (w & Hw & Hp & Hbu & Hcl & _) _ _].
  destruct (file_closed w) eqn:Ec; [destruct Hcl; congruence|].
  destruct (Flush_ok (log_path dir) sound_disk w (lfs s'))
    as (w' & f' & n & HF & (Hp' & _) & Ht & Hb0 & _ & Hok); [done|].
  set (s1 := with_lg s' (set_shutdown (lg s'))).
  set (s2 := mkLog (set_background None (lg s1)) (lfs s1) (console s1)).
  set (s3 := mkLog (set_initialized false (set_out (Some (close_file w')) (lg s2))) f' (console s2)).
  assert (log_step BeginShutdown s' = Some s1) as H1 by (simpl; unfold begin_shutdown; by rewrite Hi, Hsh).
  assert (log_step Stop s1 = Some s2) as H2 by (simpl; unfold stop; simpl; by rewrite Hb).
  assert (log_step (EndShutdown sound_disk) s2 = Some s3) as H3.
  { simpl. unfold end_shutdown. simpl. by rewrite Hi, Hw, HF. }
  exists s3. split_and!; try done.
  - eapply run_step, run_step, run_step, run_done; done.
  - unfold log_text. simpl. by rewrite Hw, Hp', Hp, Ht, Hb0, <- app_assoc, take_drop.
  - intros Hes. destruct (Hte Hes Hs0) as [(w0 & Hw0 & Hx & _) _]. assert (w0 = w) as -> by congruence.
    cbn. by rewrite (proj2 (Hok eq_refl Hx)).
  - intros es' s4 Hrun'. eapply stopped_processes_nothing in Hrun' as [? _]; done.
Qed.

(** A check that could not open the file again leaves the closed one: from then
    on no event brings a line to a file. *)
Theorem Closed_log_stays_closed e s s' w :
  log_out (lg s) = Some w -> file_closed w = true -> log_step e s = Some s' ->
  lfs s' = lfs s /\ exists w', log_out (lg s') = Some w' /\ file_closed w' = true.
Proof.
  intros Hw Hc.
  assert (forall d, exists w', Flush d w (lfs s) = (w', lfs s) /\ file_closed w' = true) as HF.
  { intros d. unfold Flush, file_write. rewrite Hc. repeat case_goal; eexists; (split; [done|]); done. }
  assert (forall d m, exists w' n, WriteString d m w (lfs s) = (w', lfs s, n) /\ file_closed w' = true) as HW.
  { intros d m. unfold WriteString, write_empty, file_write. rewrite Hc. cbv zeta.
    destruct (failed w), (zlen m <=? Z.of_nat (Z.to_nat (buffer_size - zlen (buffered w)))), (buffered w), (zlen m <=? buffer_size);
      eexists _, _; (split; [reflexivity|]); done. }
  destruct e as [severity timestamp prefix text|d| |now d|d| | |d]; simpl.
  - intros [= <-]. rewrite log_call_accepts. split; [done|]. exists w. by destruct (accepts severity (lg s)).
  - unfold receive. destruct (background (lg s)) as [[since| |]|]; try done.
    destruct (globalLogMessageQueue (lg s)) as [|message queue]; [done|]. rewrite Hw.
    destruct (HW d (line message)) as (w' & n & -> & Hc'). intros [= <-]. split; [done|]. by exists w'.
  - unfold print. repeat case_goal; try done. intros [= <-]. split; [done|]. by exists w.
  - unfold check. rewrite Hw. unfold CheckAndRotateLogFile. rewrite Hc. cbn [negb andb].
    destruct (background (lg s)) as [[| |since message]|]; try done.
    destruct (1024 * 10 <? since); intros [= <-]; (split; [done|]); by exists w.
  - unfold tick. rewrite Hw. destruct (HF d) as (w' & -> & Hc').
    destruct (background (lg s)) as [[since| |]|]; try done. intros [= <-].
    split; [done|]. by exists w'.
  - unfold stop. repeat case_goal; try done. intros [= <-]. split; [done|]. by exists w.
  - unfold begin_shutdown. repeat case_goal; try done; intros [= <-]; (split; [done|]); by exists w.
  - unfold end_shutdown. rewrite Hw. destruct (HF d) as (w' & -> & Hc').
    destruct (isLoggerInitialized (lg s)); cbn [negb]; [|intros [= <-]; split; [done|]; by exists w].
    destruct (background (lg s)); [done|]. intros [= <-]. split; [done|]. by exists (close_file w').
Qed.

(** A second shutdown that begins before the first has ended closes the channel
    twice. *)
Theorem Second_shutdown_panics l l' :
  isLoggerInitialized l = true -> begin_shutdown l = Some l' -> begin_shutdown l' = None.
Proof. unfold begin_shutdown. intros Hi. rewrite Hi. simpl. destruct (shutdown l); [done|]. intros [= <-]. simpl. by rewrite Hi. Qed.

(** ** Witnesses *)

(** A logger for errors, on an empty disk: one line is written, the second call
    is below the severity, the third line is in the file's buffer and not yet on
    the console, the fourth is queued. *)
Definition log_disk : log_state := mkLog fresh_logger (mkFS ∅ (fun _ => true)) [].
Definition log_started : log_state := fst (InitializeLogger true "logs" "error" log_disk).
Definition log_events : list log_event :=
  [Call (Some SeverityError) "t1" "[ERR]" "disk"; Receive sound_disk; PrintLine; CheckSize 7 sound_disk;
   Call (Some SeverityInfo) "t2" "[INF]" "up"; Tick sound_disk; Call None "t3" "[ACC]" "GET"].
Definition log_events_more : list log_event :=
  log_events ++ [Call None "t4" "[ACC]" "PUT"; Receive sound_disk].
Definition log_after (es : list log_event) : log_state :=
  fold_left (fun s e => default s (log_step e s)) es log_started.

Lemma log_events_run : log_run "logs" log_started log_events (log_after log_events).
Proof. unfold log_events. repeat (eapply run_step; [done|vm_compute; reflexivity|]). apply run_done. Qed.

Lemma log_events_more_run : log_run "logs" log_started log_events_more (log_after log_events_more).
Proof. unfold log_events_more, log_events. cbn [app]. repeat (eapply run_step; [done|vm_compute; reflexivity|]). apply run_done. Qed.

(** A flush that fails half-way: a part of a line is in the file, the rest of the
    log is lost; the console gets it all the same. *)
Example half_written :
  let s := log_after (log_events_more ++
    [PrintLine; CheckSize 8 sound_disk; Tick (fun _ => Some 4); Receive sound_disk; PrintLine; CheckSize 9 sound_disk;
     Tick sound_disk]) in
  content "logs/system.log" (lfs s) = to_bytes ("t1 [ERR] disk" ++ String "010" "t3 [")
  /\ console s = ["t1 [ERR] disk"; "t3 [ACC] GET"; "t4 [ACC] PUT"]%string.
Proof. vm_compute. done. Qed.

Lemma Logger_keeps_lines_witness :
  run_total accepted log_started log_events_more = ["t1 [ERR] disk"; "t3 [ACC] GET"; "t4 [ACC] PUT"]%string
  /\ console (log_after log_events_more) ++ ["t3 [ACC] GET"%string] = run_total processed log_started log_events_more
  /\ exists archives w, log_out (lg (log_after log_events_more)) = Some w /\
     concat (archive_texts (lfs (log_after log_events_more)) archives)
       ++ content "logs/system.log" (lfs (log_after log_events_more)) ++ buffered w
     = concat (line <$> ["t1 [ERR] disk"; "t3 [ACC] GET"]%string).
Proof.
  split; [vm_compute; reflexivity|].
  pose proof (Logger_keeps_lines "logs" "error" log_disk log_started log_events_more (log_after log_events_more)
    (fun _ => eq_refl) eq_refl log_events_more_run) as (_ & Hc & Ht).
  split; [exact Hc|].
  destruct Ht as (archives & w & _ & _ & Hw & _ & Htext & _); [repeat constructor|].
  exists archives, w. split; [exact Hw|]. exact Htext.
Defined.

Lemma Logger_bounds_file_witness :
  in_hand (lg (log_after log_events_more)) = 13
  /\ content "logs/system.log" (lfs (log_after log_events_more)) = to_bytes ("t1 [ERR] disk" ++ String "010" "")
  /\ zlen (content (log_path "logs") (lfs (log_after log_events_more)))
     <= Z.max MaximumLogFileSizeInBytes (zlen (content (log_path "logs") (lfs log_disk))) + buffer_size + 10240 + 13.
Proof.
  split; [vm_compute; reflexivity|]. split; [vm_compute; reflexivity|].
  exact (Logger_bounds_file "logs" "error" log_disk log_started log_events_more (log_after log_events_more)
    (fun _ => eq_refl) eq_refl log_events_more_run).
Defined.

Lemma Shutdown_drops_queue_witness :
  globalLogMessageQueue (lg (log_after log_events)) = ["t3 [ACC] GET"%string]
  /\ exists s2, log_run "logs" (log_after log_events) [BeginShutdown; Stop; EndShutdown sound_disk] s2
     /\ globalLogMessageQueue (lg s2) = ["t3 [ACC] GET"%string]
     /\ forall es' s3, log_run "logs" s2 es' s3 -> run_total processed s2 es' = [].
Proof.
  split; [vm_compute; reflexivity|].
  destruct (Shutdown_drops_queue "logs" "error" log_disk log_started log_events (log_after log_events) 14
    (fun _ => eq_refl) eq_refl log_events_run eq_refl eq_refl eq_refl)
    as (s2 & Hrun & Hq & _ & _ & _ & Hnone).
  exists s2. split; [exact Hrun|]. split; [|exact Hnone]. rewrite Hq. vm_compute; reflexivity.
Defined.
