(* ===== verification/MemoryTable.v ===== *)
(** The sharded memory table, internal/storage/memory_table.go, as an instance
    of the key-value-store interface. *)
From S2P Require Import Prelude Codec Domain Hashing.

(** ** Definitions *)

Definition numShards : nat := 32.

(** A shard without its lock; [size] is the atomic int64. *)
Record MemoryShard := mkMemoryShard {
  data : gmap string Entry;
  size : Z;
}.

Record ShardedMemoryTable := mkTable { shards : list MemoryShard }.

(** The capacity is only an allocation hint of Go's maps. *)
Definition NewMemoryTable (capacity : Z) : ShardedMemoryTable :=
  mkTable (replicate numShards (mkMemoryShard ∅ 0)).

Definition getShardID (key : string) : nat :=
  Z.to_nat (fnv32a (to_bytes key) mod Z.of_nat numShards).

Definition entry_size (key : string) (value : bytes) : Z := slen key + zlen value + 16.

(** The critical section of [Put] on one shard. *)
Definition shard_put (key : string) (value : bytes) (expiry : Z) (isDeleted : bool)
    (shard : MemoryShard) : MemoryShard :=
  let sz := match data shard !! key with
            | Some old => i64 (size shard - entry_size (Key old) (Value old))
            | None => size shard
            end in
  mkMemoryShard (<[key := mkEntry key value expiry isDeleted]> (data shard))
    (i64 (sz + entry_size key value)).

Definition Put (key : string) (value : bytes) (expiry : Z) (isDeleted : bool)
    (mt : ShardedMemoryTable) : ShardedMemoryTable :=
  mkTable (alter (shard_put key value expiry isDeleted) (getShardID key) (shards mt)).

Definition Get (key : string) (mt : ShardedMemoryTable) : option Entry :=
  shards mt !! getShardID key ≫= fun shard => data shard !! key.

(** [for _, e := range shard.data] visits the entries in an order Go leaves
    open: [range] is the runtime's choice, any order of the entries. *)
Class MapRange := {
  range : gmap string Entry -> list Entry;
  range_perm : forall m, range m ≡ₚ (map_to_list m).*2;
}.

#[export] Instance default_MapRange : MapRange :=
  {| range m := (map_to_list m).*2; range_perm _ := reflexivity _ |}.

Definition DumpToSlice `{MapRange} (mt : ShardedMemoryTable) (out : list Entry) : list Entry :=
  fold_left (fun out shard => out ++ range (data shard)) (shards mt) out.

Definition GetAll `{MapRange} (mt : ShardedMemoryTable) : list Entry := DumpToSlice mt [].

Definition Size (mt : ShardedMemoryTable) : Z :=
  fold_left (fun total shard => i64 (total + size shard)) (shards mt) 0.

#[export] Instance MemoryTable_KVS `{MapRange} : KeyValueStore ShardedMemoryTable :=
  {| kv_Put := Put; kv_Get := Get; kv_GetAll := GetAll; kv_Size := Size |}.

(** *** Specification *)

Definition entry_bytes (e : Entry) : Z := entry_size (Key e) (Value e).

Definition sum_sizes (l : list Entry) : Z := foldr (fun e n => entry_bytes e + n) 0 l.

(** An entry put under its own key, as [recoverWal]'s callback does. *)
Definition put_entry (mt : ShardedMemoryTable) (e : Entry) : ShardedMemoryTable :=
  Put (Key e) (Value e) (ExpiryTimestamp e) (IsDeleted e) mt.

(** The abstract table: one map, without shards. *)
Definition map_entry (m : gmap string Entry) (e : Entry) : gmap string Entry :=
  <[Key e := e]> m.

(** Representation invariant of a shard with index [i]: it holds the keys that
    hash to it, each under its own key, and [size] counts their bytes. *)
Definition shard_ok (i : nat) (s : MemoryShard) : Prop :=
  (forall k e, data s !! k = Some e -> Key e = k /\ getShardID k = i) /\
  size s = i64 (map_fold (fun _ e n => entry_bytes e + n) 0 (data s)).

Definition table_ok (mt : ShardedMemoryTable) : Prop :=
  length (shards mt) = numShards /\
  forall i s, shards mt !! i = Some s -> shard_ok i s.

(** ** Lemmas *)

Lemma getShardID_bound k : (getShardID k < numShards)%nat.
Proof.
  unfold getShardID. pose proof (Z.mod_pos_bound (fnv32a (to_bytes k)) 32 ltac:(lia)).
  unfold numShards. lia.
Qed.

Lemma sum_fold_insert (m : gmap string Entry) k e :
  m !! k = None ->
  map_fold (fun _ e n => entry_bytes e + n) 0 (<[k := e]> m)
  = entry_bytes e + map_fold (fun _ e n => entry_bytes e + n) 0 m.
Proof.
  intros Hk. apply (map_fold_insert_L (fun _ e n => entry_bytes e + n)); [|done].
  intros. lia.
Qed.

Lemma sum_fold_insert_old (m : gmap string Entry) k e old :
  m !! k = Some old ->
  map_fold (fun _ e n => entry_bytes e + n) 0 (<[k := e]> m)
  = map_fold (fun _ e n => entry_bytes e + n) 0 m - entry_bytes old + entry_bytes e.
Proof.
  intros Hk. rewrite <- (insert_delete_eq m), sum_fold_insert by apply lookup_delete_eq.
  rewrite <- (insert_delete_id m k old Hk) at 2.
  rewrite (sum_fold_insert _ k old) by apply lookup_delete_eq. lia.
Qed.

Lemma shard_put_ok k v x d s : shard_ok (getShardID k) s -> shard_ok (getShardID k) (shard_put k v x d s).
Proof.
  intros [Hd Hs]. split.
  - intros k' e. simpl. intros [[-> <-]|[Hne He]]%lookup_insert_Some; [done|by apply Hd].
  - simpl. destruct (data s !! k) as [old|] eqn:E.
    + rewrite (sum_fold_insert_old _ _ _ old) by done. destruct (Hd _ _ E) as [<- _].
      rewrite i64_add_l. apply i64_cong.
      rewrite Hs. unfold entry_bytes at 3. simpl Key; simpl Value.
      rewrite (Z.add_mod (_ - _)), (Zminus_mod (i64 _)), i64_mod, <- Zminus_mod, <- Z.add_mod by lia.
      done.
    + rewrite sum_fold_insert, Hs, i64_add_l by done. f_equal. unfold entry_bytes at 2. simpl. lia.
Qed.

Lemma NewMemoryTable_ok c : table_ok (NewMemoryTable c).
Proof.
  split; [done|]. intros i s. unfold NewMemoryTable. cbn [shards].
  intros [-> _]%lookup_replicate. split; [|done].
  intros k e. cbn [data]. by rewrite lookup_empty.
Qed.

Lemma Put_ok k v x d mt : table_ok mt -> table_ok (Put k v x d mt).
Proof.
  intros [Hl Hs]. split; [by simpl; rewrite length_alter|].
  intros i s. simpl. rewrite list_lookup_alter. case_decide as Hi.
  - subst i. intros Ha. destruct (shards mt !! getShardID k) as [s0|] eqn:E; [|done].
    injection Ha as <-. by apply shard_put_ok, Hs.
  - apply Hs.
Qed.

Lemma shard_of_key mt k : table_ok mt ->
  exists s, shards mt !! getShardID k = Some s /\ shard_ok (getShardID k) s.
Proof.
  intros [Hl Hs]. destruct (lookup_lt_is_Some_2 (shards mt) (getShardID k)) as [s Hk].
  { rewrite Hl. apply getShardID_bound. }
  exists s. split; [done|by apply Hs].
Qed.

Lemma Get_Put_eq k v x d mt : table_ok mt -> Get k (Put k v x d mt) = Some (mkEntry k v x d).
Proof.
  intros Hok. destruct (shard_of_key mt k Hok) as (s & Hs & _).
  unfold Get, Put. simpl. rewrite list_lookup_alter_eq, Hs. simpl. apply lookup_insert_eq.
Qed.

Lemma Get_Put_ne k k' v x d mt : k <> k' -> Get k' (Put k v x d mt) = Get k' mt.
Proof.
  intros Hne. unfold Get, Put. simpl. rewrite list_lookup_alter. case_decide as Hi; [|done].
  rewrite <- Hi. destruct (shards mt !! getShardID k) as [s|]; [|done]. simpl.
  by apply lookup_insert_ne.
Qed.

Lemma Get_key k e mt : table_ok mt -> Get k mt = Some e -> Key e = k.
Proof.
  intros Hok. destruct (shard_of_key mt k Hok) as (s & Hs & Hd & _).
  unfold Get. rewrite Hs. simpl. apply Hd.
Qed.

Lemma Get_New k c : Get k (NewMemoryTable c) = None.
Proof.
  unfold Get, NewMemoryTable. cbn [shards].
  rewrite lookup_replicate_2 by apply getShardID_bound. apply lookup_empty.
Qed.

Lemma sum_sizes_perm l k : l ≡ₚ k -> sum_sizes l = sum_sizes k.
Proof. unfold sum_sizes. induction 1; simpl; lia. Qed.

Lemma sum_sizes_app l k : sum_sizes (l ++ k) = sum_sizes l + sum_sizes k.
Proof. induction l; simpl; [done|]. lia. Qed.

Lemma sum_sizes_map (m : gmap string Entry) :
  sum_sizes (map_to_list m).*2 = map_fold (fun _ e n => entry_bytes e + n) 0 m.
Proof.
  rewrite map_fold_foldr. unfold sum_sizes.
  induction (map_to_list m) as [|[k e] l IH]; [done|]. simpl. f_equal. apply IH.
Qed.

Lemma sum_sizes_range `{MapRange} m :
  sum_sizes (range m) = map_fold (fun _ e n => entry_bytes e + n) 0 m.
Proof. rewrite (sum_sizes_perm _ _ (range_perm m)). apply sum_sizes_map. Qed.

Section Range.
Context `{MapRange}.

Lemma DumpToSlice_concat mt out :
  DumpToSlice mt out = out ++ concat ((fun s => range (data s)) <$> shards mt).
Proof.
  unfold DumpToSlice. revert out.
  induction (shards mt) as [|s l IH]; intros out; simpl; [by rewrite app_nil_r|].
  rewrite IH. by rewrite <- app_assoc.
Qed.

Lemma elem_of_range e m : e ∈ range m <-> exists k, m !! k = Some e.
Proof.
  rewrite range_perm. rewrite list_elem_of_fmap. split.
  - intros ([k e'] & -> & Hin). exists k. by apply elem_of_map_to_list.
  - intros [k Hk]. exists (k, e). split; [done|]. by apply elem_of_map_to_list.
Qed.

Lemma elem_of_GetAll e mt : table_ok mt -> e ∈ GetAll mt <-> Get (Key e) mt = Some e.
Proof.
  intros Hok. unfold GetAll. rewrite DumpToSlice_concat. simpl.
  rewrite list_elem_of_In, in_concat. split.
  - intros (l & Hl & He). apply list_elem_of_In in Hl, He.
    apply list_elem_of_fmap in Hl as (s & -> & Hs).
    apply elem_of_range in He as [k Hk].
    apply list_elem_of_lookup in Hs as [i Hi].
    destruct (proj2 Hok i s Hi) as [Hd _]. destruct (Hd _ _ Hk) as [-> Hid].
    unfold Get. rewrite Hid, Hi. done.
  - unfold Get. intros Hg. destruct (shards mt !! getShardID (Key e)) as [s|] eqn:E; [|done].
    exists (range (data s)). split; apply list_elem_of_In.
    + apply list_elem_of_fmap. exists s. split; [done|]. by eapply list_elem_of_lookup_2.
    + apply elem_of_range. by exists (Key e).
Qed.

Lemma NoDup_range_keys i s : shard_ok i s -> NoDup (Key <$> range (data s)).
Proof.
  intros [Hd _]. rewrite range_perm.
  assert (Key <$> (map_to_list (data s)).*2 = (map_to_list (data s)).*1) as ->.
  2: apply NoDup_fst_map_to_list.
  rewrite <- list_fmap_compose. apply list_fmap_ext.
  intros j [k e] Hj%list_elem_of_lookup_2. simpl. apply elem_of_map_to_list in Hj.
  by destruct (Hd _ _ Hj).
Qed.

Lemma GetAll_nodup mt : table_ok mt -> NoDup (Key <$> GetAll mt).
Proof.
  intros [_ Hs]. unfold GetAll. rewrite DumpToSlice_concat. simpl. revert Hs.
  assert (forall off (l : list MemoryShard),
    (forall i s, l !! i = Some s -> shard_ok (off + i) s) ->
    NoDup (Key <$> concat ((fun s => range (data s)) <$> l)) /\
    forall e, e ∈ concat ((fun s => range (data s)) <$> l) -> (off <= getShardID (Key e))%nat) as Hgen.
  2: { intros Hs. apply (Hgen 0%nat). intros i s Hi. by apply Hs. }
  intros off l. revert off. induction l as [|s l IH]; intros off Hl; simpl.
  { split; [constructor|]. intros e He. by inversion He. }
  destruct (IH (S off)) as [Hn Hb].
  { intros i s' Hi. replace (S off + i)%nat with (off + S i)%nat by lia. by apply Hl. }
  pose proof (Hl 0%nat s eq_refl) as Hs. rewrite Nat.add_0_r in Hs.
  assert (forall e, e ∈ range (data s) -> getShardID (Key e) = off) as Hr.
  { intros e [k Hk]%elem_of_range. by destruct (proj1 Hs _ _ Hk) as [-> ->]. }
  split.
  - rewrite fmap_app. apply NoDup_app. split_and!; [by eapply NoDup_range_keys| |done].
    intros k Hk Hk'. apply list_elem_of_fmap in Hk as (e & -> & He).
    apply list_elem_of_fmap in Hk' as (e' & Heq & He'). apply Hb in He'. apply Hr in He.
    rewrite <- Heq in He'. lia.
  - intros e [He|He]%elem_of_app; [apply Hr in He|apply Hb in He]; lia.
Qed.

#[export] Instance MemoryTable_laws : KeyValueStoreLaws ShardedMemoryTable.
Proof.
  refine {| kv_ok := table_ok |}; simpl.
  - intros. by apply Put_ok.
  - intros. by apply Get_Put_eq.
  - intros. by apply Get_Put_ne.
  - intros. by eapply Get_key.
  - intros. by apply elem_of_GetAll.
  - intros. by apply GetAll_nodup.
Defined.

(** [Size] is the sum of the entries [GetAll] lists, as an int64. *)
Lemma Size_sum mt : table_ok mt -> Size mt = i64 (sum_sizes (GetAll mt)).
Proof.
  intros [_ Hs]. unfold Size, GetAll. rewrite DumpToSlice_concat. simpl app.
  assert (Forall (fun s => size s = i64 (sum_sizes (range (data s)))) (shards mt)) as Hall.
  { apply Forall_lookup. intros i s Hi. destruct (Hs _ _ Hi) as [_ ->].
    by rewrite sum_sizes_range. }
  clear Hs. change 0 with (i64 0) at 1.
  enough (forall a, fold_left (fun total s => i64 (total + size s)) (shards mt) (i64 a)
    = i64 (a + sum_sizes (concat ((fun s => range (data s)) <$> shards mt)))) as H'.
  { by rewrite H'. }
  induction Hall as [|s l Hh _ IH]; intros a; simpl; [by rewrite Z.add_0_r|].
  rewrite i64_add_l, Hh, i64_add_r, IH, sum_sizes_app. f_equal. symmetry. apply Z.add_assoc.
Qed.

End Range.

Lemma fold_put_ok es mt : table_ok mt -> table_ok (fold_left put_entry es mt).
Proof. revert mt; induction es; intros mt H; simpl; [done|]. by apply IHes, Put_ok. Qed.

Lemma fold_put_Get es : forall mt m, table_ok mt -> (forall k, Get k mt = m !! k) ->
  forall k, Get k (fold_left put_entry es mt) = fold_left map_entry es m !! k.
Proof.
  induction es as [|e es IH]; intros mt m Hok Hm k; simpl; [done|].
  apply IH; [by apply Put_ok|]. intros k'. unfold put_entry, map_entry.
  destruct (decide (Key e = k')) as [<-|Hne].
  - rewrite Get_Put_eq, lookup_insert_eq by done. by destruct e.
  - rewrite Get_Put_ne, lookup_insert_ne by done. apply Hm.
Qed.

(** ** Properties *)

(** C35. the sharded table refines one map. After any sequence of puts, from a
    new table and for any iteration order of Go's maps, [Get] is the lookup of
    the map, [GetAll] lists exactly its entries, and [Size] is the int64 sum of
    their sizes: an overwritten entry's size is given back. *)
Theorem MemoryTable_refines_map `{MapRange} es c :
  let mt := fold_left put_entry es (NewMemoryTable c) in
  let m := fold_left map_entry es ∅ in
  (forall k, Get k mt = m !! k) /\
  GetAll mt ≡ₚ (map_to_list m).*2 /\
  Size mt = i64 (map_fold (fun _ e n => entry_bytes e + n) 0 m).
Proof.
  intros mt m.
  assert (table_ok mt) as Hok by apply fold_put_ok, NewMemoryTable_ok.
  assert (forall k, Get k mt = m !! k) as Hget.
  { apply fold_put_Get; [apply NewMemoryTable_ok|]. intros k. by rewrite Get_New, lookup_empty. }
  assert (GetAll mt ≡ₚ (map_to_list m).*2) as Hperm.
  { apply NoDup_Permutation.
    - eapply NoDup_fmap_1, GetAll_nodup, Hok.
    - apply (NoDup_fmap_1 Key).
      assert (Key <$> (map_to_list m).*2 = (map_to_list m).*1) as ->; [|apply NoDup_fst_map_to_list].
      rewrite <- list_fmap_compose. apply list_fmap_ext.
      intros j [k e] Hj%list_elem_of_lookup_2%elem_of_map_to_list. simpl.
      rewrite <- Hget in Hj. by eapply Get_key.
    - intros e. rewrite elem_of_GetAll by done. rewrite Hget, list_elem_of_fmap. split.
      + intros He. exists (Key e, e). split; [done|]. by apply elem_of_map_to_list.
      + intros ([k e'] & -> & Hin%elem_of_map_to_list). simpl.
        rewrite <- Hget in Hin. pose proof (Get_key _ _ _ Hok Hin) as <-. by rewrite <- Hget. }
  split_and!; [done|done|].
  rewrite Size_sum, (sum_sizes_perm _ _ Hperm), sum_sizes_map by done. done.
Qed.
