(* ===== verification/PyFloat.v ===== *)
(** Python's float and Go's float64: IEEE 754 binary64, computed with the
    Standard Library's [SpecFloat]; the conversions and operations the scripts
    and the Bloom filter use, and the rounding lemma behind the percentile
    indices. *)
From Stdlib Require Export Floats.SpecFloat QArith_base.
From S2P Require Import Prelude.

Open Scope Z_scope.

(** ** Definitions *)

Abbreviation float := spec_float.

Definition prec : Z := 53.
Definition emax : Z := 1024.

(** [float(n)]; beyond 2^53 the nearest float. *)
Definition f_of_Z (n : Z) : float := binary_normalize prec emax n 0 false.

Definition f_add : float -> float -> float := SFadd prec emax.
Definition f_sub : float -> float -> float := SFsub prec emax.
Definition f_mul : float -> float -> float := SFmul prec emax.
Definition f_div : float -> float -> float := SFdiv prec emax.
Definition f_lt (x y : float) : bool := SFltb x y.

Definition f_is_zero (x : float) : bool :=
  match x with S754_zero _ => true | _ => false end.

(** The float nearest to a rational: a decimal literal, [int / int], and the
    conversion of a [Fraction]. *)
Definition f_ratio (a : Z) (b : positive) : float :=
  match a with
  | Z0 => S754_zero false
  | Zpos p | Zneg p =>
    let '(mz, ez, lz) := SFdiv_core_binary prec emax (Zpos p) 0 (Zpos b) 0 in
    binary_round_aux prec emax (a <? 0) mz ez lz
  end.

(** [int(x)], towards zero; [None] for an infinity or a NaN, which raise. *)
Definition int_of_float (x : float) : option Z :=
  match x with
  | S754_zero _ => Some 0
  | S754_finite s m e =>
    let v := if 0 <=? e then Zpos m * 2 ^ e else Zpos m / 2 ^ (- e) in
    Some (if s then - v else v)
  | _ => None
  end.

(** The least integer not below [x] ([math.Ceil]); [None] for an infinity or a
    NaN. *)
Definition ceil_of_float (x : float) : option Z :=
  match x with
  | S754_zero _ => Some 0
  | S754_finite s m e =>
    let n := if s then Zneg m else Zpos m in
    Some (if 0 <=? e then n * 2 ^ e else - (- n / 2 ^ (- e)))
  | _ => None
  end.

(** The exact value of a finite float. *)
Definition Q_of_float (x : float) : option Q :=
  match x with
  | S754_zero _ => Some (0 # 1)%Q
  | S754_finite s m e =>
    let n := if s then Zneg m else Zpos m in
    Some (if 0 <=? e then (n * 2 ^ e # 1)%Q else (n # Z.to_pos (2 ^ (- e)))%Q)
  | _ => None
  end.

(** The literals of the scripts. *)
Definition f_0_95 : float := Eval vm_compute in f_ratio 95 100.
Definition f_0_99 : float := Eval vm_compute in f_ratio 99 100.
Definition f_0_5 : float := Eval vm_compute in f_ratio 1 2.
Definition f_0_01 : float := Eval vm_compute in f_ratio 1 100.

Definition f_finite (x : float) : bool :=
  match x with S754_zero _ | S754_finite _ _ _ => true | _ => false end.

(** The values a computation produces: canonical mantissas. *)
Definition f_valid (x : float) : bool := valid_binary prec emax x && f_finite x.

(** ** Lemmas *)

Lemma digits2_pos_spec p : 2 ^ (Zpos (digits2_pos p) - 1) <= Zpos p < 2 ^ Zpos (digits2_pos p).
Proof.
  induction p as [p IH|p IH|]; cbn [digits2_pos]; rewrite ?Pos2Z.inj_succ; [| |lia].
  all: replace (Z.succ (Zpos (digits2_pos p)) - 1) with (Z.succ (Zpos (digits2_pos p) - 1)) by lia.
  all: rewrite !Z.pow_succ_r by lia; lia.
Qed.

Lemma digits2_pos_unique p d : 2 ^ (d - 1) <= Zpos p < 2 ^ d -> 0 < d -> Zpos (digits2_pos p) = d.
Proof.
  intros [H1 H2] Hd. destruct (digits2_pos_spec p) as [H3 H4].
  assert (2 ^ (d - 1) < 2 ^ Zpos (digits2_pos p)) as H5 by lia.
  assert (2 ^ (Zpos (digits2_pos p) - 1) < 2 ^ d) as H6 by lia.
  apply Z.pow_lt_mono_r_iff in H5, H6; lia.
Qed.

Lemma shr_1_m r : 0 <= shr_m r -> shr_m (shr_1 r) = shr_m r / 2.
Proof.
  destruct r as [m r s]. cbn. intros Hm. destruct m as [|[p|p|]|]; cbn; try done.
  - change (Zpos p~1) with (2 * Zpos p + 1). zlia.
  - change (Zpos p~0) with (2 * Zpos p). zlia.
Qed.

Lemma iter_pos_S {A} (f : A -> A) p : forall x,
  SpecFloat.iter_pos f (Pos.succ p) x = f (SpecFloat.iter_pos f p x).
Proof.
  assert (forall q x, SpecFloat.iter_pos f q (f x) = f (SpecFloat.iter_pos f q x)) as Hcomm.
  { induction q as [q IH|q IH|]; intros x; simpl; [by rewrite !IH|by rewrite !IH|done]. }
  induction p as [p IH|p IH|]; intros x; simpl; [by rewrite !IH, !Hcomm| |done].
  by rewrite !Hcomm.
Qed.

Lemma iter_shr_m p r : 0 <= shr_m r ->
  shr_m (SpecFloat.iter_pos shr_1 p r) = shr_m r / 2 ^ Zpos p.
Proof.
  intros Hr. induction p as [|p IH] using Pos.peano_ind; [by apply shr_1_m|].
  assert (0 <= shr_m r / 2 ^ Zpos p) by (apply Z.div_pos; lia).
  rewrite iter_pos_S, shr_1_m, IH, Pos2Z.inj_succ, Z.pow_succ_r by lia.
  rewrite Z.div_div by lia. by rewrite Z.mul_comm.
Qed.

Lemma shr_record_of_loc_m m l : shr_m (shr_record_of_loc m l) = m.
Proof. by destruct l as [|[]]. Qed.

Lemma fexp_normal d : emin prec emax <= d - 53 -> fexp prec emax d = d - 53.
Proof. unfold fexp, prec. lia. Qed.

(** Rounding a mantissa of more than 53 digits keeps it within one unit. *)
Lemma binary_round_aux_bounds p ex : 
  let d := Zpos (digits2_pos p) in let k := d - 53 in
  0 < k -> emin prec emax <= ex + k -> ex + k + 1 <= emax - prec ->
  exists m e, binary_round_aux prec emax false (Zpos p) ex loc_Exact = S754_finite false m e /\
    ex <= e /\ Zpos p - 2 ^ k <= Zpos m * 2 ^ (e - ex) <= Zpos p + 2 ^ k.
Proof.
  intros d k Hk Hlo Hhi. unfold binary_round_aux, shr_fexp.
  pose proof (digits2_pos_spec p) as Hd. fold d in Hd.
  cbn [Zdigits2]. fold d. rewrite (fexp_normal (d + ex)) by lia.
  replace (d + ex - 53 - ex) with k by lia.
  destruct k as [|kp|] eqn:Ek; [lia| |lia]. cbn [shr].
  set (r1 := SpecFloat.iter_pos _ _ _).
  assert (shr_m r1 = Zpos p / 2 ^ Zpos kp) as Hr1 by (by apply iter_shr_m).
  set (q := shr_m r1) in *.
  assert (Zpos p = 2 ^ Zpos kp * q + Zpos p mod 2 ^ Zpos kp /\ 0 <= Zpos p mod 2 ^ Zpos kp < 2 ^ Zpos kp) as [Hq Hrem].
  { rewrite Hr1. split; [apply Z.div_mod; lia|apply Z.mod_pos_bound; lia]. }
  assert (2 ^ 52 <= q < 2 ^ 53) as Hqb.
  { assert (2 ^ (d - 1) = 2 ^ Zpos kp * 2 ^ 52) as E1 by (rewrite <- Z.pow_add_r by lia; f_equal; lia).
    assert (2 ^ d = 2 ^ Zpos kp * 2 ^ 53) as E2 by (rewrite <- Z.pow_add_r by lia; f_equal; lia).
    nia. }
  set (rn := round_nearest_even q _).
  assert (q <= rn <= q + 1) as Hrn by (unfold rn, round_nearest_even; repeat case_match; lia).
  clearbody rn. destruct rn as [|rp|]; [lia| |lia]. cbn [Zdigits2].
  destruct (decide (Zpos rp = 2 ^ 53)) as [E|E].
  - replace (Zpos (digits2_pos rp)) with 54 by (symmetry; apply digits2_pos_unique; lia).
    rewrite fexp_normal by lia. replace (54 + (ex + Zpos kp) - 53 - (ex + Zpos kp)) with 1 by lia.
    rewrite E. cbn. rewrite (proj2 (Z.leb_le _ _)) by (unfold emax, prec in *; lia).
    eexists _, _. split; [reflexivity|]. split; [lia|].
    replace (ex + Zpos kp + 1 - ex) with (Zpos kp + 1) by lia.
    rewrite Z.pow_add_r by lia. assert (q = 2 ^ 53 - 1) as Eq by lia. rewrite Eq in Hq. lia.
  - replace (Zpos (digits2_pos rp)) with 53 by (symmetry; apply digits2_pos_unique; lia).
    rewrite fexp_normal by lia. replace (53 + (ex + Zpos kp) - 53 - (ex + Zpos kp)) with 0 by lia.
    cbn [shr]. rewrite shr_record_of_loc_m, (proj2 (Z.leb_le _ _)) by lia.
    eexists _, _. split; [reflexivity|]. split; [lia|].
    replace (ex + Zpos kp - ex) with (Zpos kp) by lia. nia.
Qed.

(** A mantissa of 53 digits in range is not changed. *)
Lemma binary_round_aux_exact p ex : Zpos (digits2_pos p) = 53 ->
  emin prec emax <= ex -> ex <= emax - prec ->
  binary_round_aux prec emax false (Zpos p) ex loc_Exact = S754_finite false p ex.
Proof.
  intros Hd Hlo Hhi. unfold binary_round_aux, shr_fexp. cbn [Zdigits2]. rewrite Hd.
  rewrite fexp_normal by lia. replace (53 + ex - 53 - ex) with 0 by lia. cbn.
  rewrite Hd, fexp_normal by lia. replace (53 + ex - 53 - ex) with 0 by lia. cbn.
  by rewrite (proj2 (Z.leb_le _ _)).
Qed.

Lemma iter_xO d p : Zpos (Pos.iter xO p d) = Zpos p * 2 ^ Zpos d.
Proof.
  induction d as [|d IH] using Pos.peano_ind; [cbn; lia|].
  rewrite Pos.iter_succ, Pos2Z.inj_xO, IH, Pos2Z.inj_succ, Z.pow_succ_r by lia. lia.
Qed.

(** Small positive integers are represented exactly, with 53 digits. *)
Lemma f_of_Z_exact n : 0 < n < 2 ^ 53 -> exists m e,
  f_of_Z n = S754_finite false m e /\ 2 ^ 52 <= Zpos m < 2 ^ 53 /\ -52 <= e <= 0 /\ Zpos m = n * 2 ^ (- e).
Proof.
  intros Hn. destruct n as [|p|]; [lia| |lia]. unfold f_of_Z, binary_normalize, binary_round.
  pose proof (digits2_pos_spec p) as Hd. set (d := digits2_pos p) in *.
  assert (Zpos d <= 53) as Hd53.
  { assert (2 ^ (Zpos d - 1) < 2 ^ 53) as E by lia. apply Z.pow_lt_mono_r_iff in E; lia. }
  replace (Zpos d + 0) with (Zpos d) by lia. rewrite fexp_normal by (unfold emin, emax, prec; lia).
  unfold shl_align. replace (Zpos d - 53 - 0) with (Zpos d - 53) by lia.
  assert (2 ^ 53 = 2 ^ Zpos d * 2 ^ (53 - Zpos d)) as E1 by (rewrite <- Z.pow_add_r by lia; f_equal; lia).
  assert (2 ^ 52 = 2 ^ (Zpos d - 1) * 2 ^ (53 - Zpos d)) as E2 by (rewrite <- Z.pow_add_r by lia; f_equal; lia).
  destruct (Zpos d - 53) as [|x|x] eqn:Ex; [|lia|].
  - assert (Zpos d = 53) by lia. exists p, 0. rewrite binary_round_aux_exact by (done || unfold emin, emax, prec; lia).
    replace (Zpos d) with 53 in Hd by lia. split_and!; [done|lia..].
  - assert (53 - Zpos d = Zpos x) as E0 by lia. rewrite E0 in E1, E2.
    assert (2 ^ 52 <= Zpos (Pos.iter xO p x) < 2 ^ 53) as Hb by (rewrite iter_xO; nia).
    exists (Pos.iter xO p x), (Zneg x).
    rewrite binary_round_aux_exact by (apply digits2_pos_unique || unfold emin, emax, prec; lia).
    split; [done|]. split; [done|]. split; [lia|]. apply iter_xO.
Qed.

(** The scripts' percentile index, [int(n * c)]. *)
Lemma int_mul_bounds m1 e1 mc ec : 2 ^ 52 <= Zpos m1 < 2 ^ 53 -> -52 <= e1 <= 0 ->
  2 ^ 52 <= Zpos mc < 2 ^ 53 -> -100 <= ec < 0 ->
  exists v, Zpos m1 * Zpos mc - 2 ^ 53 <= v <= Zpos m1 * Zpos mc + 2 ^ 53 /\
    int_of_float (f_mul (S754_finite false m1 e1) (S754_finite false mc ec)) = Some (v / 2 ^ (- e1 - ec)).
Proof.
  intros Hm1 He1 Hmc Hec. unfold f_mul, SFmul. cbn [xorb].
  pose proof (digits2_pos_spec (m1 * mc)) as Hd. set (d := Zpos (digits2_pos (m1 * mc))) in *.
  rewrite Pos2Z.inj_mul in Hd.
  assert (2 ^ (d - 1) < 2 ^ 106) as E1 by nia. apply Z.pow_lt_mono_r_iff in E1; [|lia|lia].
  assert (2 ^ 104 < 2 ^ d) as E2 by nia. apply Z.pow_lt_mono_r_iff in E2; [|lia|lia].
  destruct (binary_round_aux_bounds (m1 * mc) (e1 + ec)) as (m & e & -> & He & Hv); fold d.
  1, 2, 3: unfold emin, emax, prec; lia.
  fold d in Hv. rewrite Pos2Z.inj_mul in Hv.
  assert (2 ^ (d - 53) <= 2 ^ 53) as Hk by (apply Z.pow_le_mono_r; lia).
  exists (Zpos m * 2 ^ (e - (e1 + ec))). split; [lia|].
  cbn [int_of_float]. f_equal. destruct (Z.leb_spec 0 e) as [Hpos|Hneg].
  - replace (e - (e1 + ec)) with (e + (- e1 - ec)) by lia. rewrite Z.pow_add_r, Z.mul_assoc by lia.
    by rewrite Z.div_mul by lia.
  - replace (- e1 - ec) with ((e - (e1 + ec)) + - e) by lia. rewrite Z.pow_add_r by lia.
    rewrite (Z.mul_comm (Zpos m)), Z.div_mul_cancel_l by lia. done.
Qed.

(** It is a valid index, whatever the length. *)
Lemma percentile_index_bound n c : 0 < n < 2 ^ 53 -> c = f_0_95 \/ c = f_0_99 ->
  exists i, int_of_float (f_mul (f_of_Z n) c) = Some i /\ 0 <= i < n.
Proof.
  intros Hn Hc.
  assert (exists mc, c = S754_finite false mc (-53) /\ 2 ^ 52 <= Zpos mc <= 2 ^ 53 - 2 ^ 46) as (mc & -> & Hmc).
  { destruct Hc as [-> | ->]; eexists; split; reflexivity || lia. }
  destruct (f_of_Z_exact n Hn) as (m1 & e1 & -> & Hm1 & He1 & Heq).
  destruct (int_mul_bounds m1 e1 mc (-53)) as (v & Hv & ->); [lia..|].
  eexists. split; [done|]. split; [apply Z.div_pos; nia|].
  apply Z.div_lt_upper_bound; [lia|].
  replace (- e1 - -53) with (- e1 + 53) by lia. rewrite Z.pow_add_r by lia. nia.
Qed.

Lemma percentile_index_order n i j : 0 < n < 2 ^ 53 ->
  int_of_float (f_mul (f_of_Z n) f_0_95) = Some i ->
  int_of_float (f_mul (f_of_Z n) f_0_99) = Some j -> i <= j.
Proof.
  intros Hn. destruct (f_of_Z_exact n Hn) as (m1 & e1 & -> & Hm1 & He1 & Heq).
  unfold f_0_95, f_0_99.
  edestruct (int_mul_bounds m1 e1) as (v & Hv & ->); [lia..|].
  edestruct (int_mul_bounds m1 e1) as (w & Hw & ->); [lia..|].
  intros [= <-] [= <-]. apply Z.div_le_mono; [lia|]. nia.
Qed.

(** The index of the median is below both. *)
Lemma median_index_order n i : 0 < n < 2 ^ 53 ->
  int_of_float (f_mul (f_of_Z n) f_0_95) = Some i -> n / 2 <= i.
Proof.
  intros Hn. destruct (f_of_Z_exact n Hn) as (m1 & e1 & -> & Hm1 & He1 & Heq).
  unfold f_0_95. edestruct (int_mul_bounds m1 e1) as (v & Hv & ->); [lia..|].
  intros [= <-]. apply Z.div_le_lower_bound; [lia|].
  replace (- e1 - -53) with (- e1 + 53) by lia. rewrite Z.pow_add_r by lia.
  pose proof (Z.mul_div_le n 2 ltac:(lia)). nia.
Qed.

(** *** The order of floats is a total preorder outside NaN *)

Definition f_nan (x : float) : bool := match x with S754_nan => true | _ => false end.

(** Sign class, exponent, mantissa: the order is lexicographic in them. *)
Definition f_rank (x : float) : Z * Z * Z :=
  match x with
  | S754_zero _ | S754_nan => (0, 0, 0)
  | S754_infinity s => (if s then -2 else 2, 0, 0)
  | S754_finite s m e => if s then (-1, - e, Zneg m) else (1, e, Zpos m)
  end.

Definition rank_lt (x y : Z * Z * Z) : Prop :=
  let '(a, b, c) := x in let '(a', b', c') := y in
  a < a' \/ a = a' /\ (b < b' \/ b = b' /\ c < c').

Lemma f_lt_rank x y : f_nan x = false -> f_nan y = false ->
  f_lt x y = true <-> rank_lt (f_rank x) (f_rank y).
Proof.
  intros Hx Hy. unfold f_lt, SFltb, SFcompare.
  destruct x as [sx|sx| |sx mx ex]; try done; destruct y as [sy|sy| |sy my ey]; try done;
    destruct sx, sy; simpl; try (split; [intros; try done; lia|intros; try done; lia]).
  all: change (Pos.compare_cont Eq mx my) with (Pos.compare mx my).
  all: destruct (Z.compare_spec ex ey); simpl; try (destruct (Pos.compare_spec mx my); simpl);
    split; intros; try done; lia.
Qed.

Lemma f_lt_irrefl x : f_lt x x = false.
Proof.
  destruct (f_nan x) eqn:E; [by destruct x|].
  destruct (f_lt x x) eqn:F; [|done]. apply f_lt_rank in F; [|done|done].
  unfold rank_lt in F. destruct (f_rank x) as [[a b] c]. lia.
Qed.

Lemma f_le_trans x y z : f_nan x = false -> f_nan y = false -> f_nan z = false ->
  f_lt y x = false -> f_lt z y = false -> f_lt z x = false.
Proof.
  intros Hx Hy Hz H1 H2. destruct (f_lt z x) eqn:H3; [|done].
  apply Bool.not_true_iff_false in H1, H2.
  rewrite f_lt_rank in H1, H2, H3 by done. unfold rank_lt in *.
  destruct (f_rank x) as [[a b] c], (f_rank y) as [[a' b'] c'], (f_rank z) as [[a'' b''] c'']. lia.
Qed.

Lemma f_le_total x y : f_nan x = false -> f_nan y = false -> f_lt x y = false \/ f_lt y x = false.
Proof.
  intros Hx Hy. destruct (f_lt x y) eqn:H1; [|by left]. right. destruct (f_lt y x) eqn:H2; [|done].
  rewrite f_lt_rank in H1, H2 by done. unfold rank_lt in *.
  destruct (f_rank x) as [[a b] c], (f_rank y) as [[a' b'] c']. lia.
Qed.
