(* ===== verification/Bloom.v ===== *)
(** The sharded Bloom filter, internal/storage/bloom_filter.go, as an instance
    of the filter interface. Of [NewSharedBloomFilter], math.Log is an argument
    (a library function whose last bits differ between platforms), and so is
    what the platform makes of a float that does not fit a uint64; what is
    proved of the filter holds for all of them. *)
From S2P Require Import Prelude Codec Text Domain Hashing PyFloat.

(** ** Definitions *)

Definition bloomShardCount : Z := 32.

(** [shards] holds each [bloomShard]'s words; the words are uint64. *)
Record SharedBloomFilter := mkBloom {
  shards : list (list Z);
  hashCount : Z;
  shardSize : Z;
}.

Definition new_sized (bits hashes : Z) : SharedBloomFilter :=
  let bits := if bits <? 64 then 64 else bits in
  let bits := if 16 * 1024 * 1024 * 1024 <? bits then 16 * 1024 * 1024 * 1024 else bits in
  let bitsPerShard := (bits + bloomShardCount - 1) / bloomShardCount in
  mkBloom (replicate (Z.to_nat bloomShardCount)
             (replicate (Z.to_nat ((bitsPerShard + 63) / 64)) 0)) hashes bitsPerShard.

(** [uint64(math.Ceil(x))]; [wild] is the platform's result where the value is
    not representable. *)
Definition uint64_ceil (wild : float -> Z) (x : float) : Z :=
  match ceil_of_float x with
  | Some z => if decide (is_u64 z) then z else wild x
  | None => wild x
  end.

(** The number of bits and of hashes [NewSharedBloomFilter] computes. *)
Definition bloom_size (Log : float -> float) (wild : float -> Z) (expectedItems : Z) (falsePositiveRate : float)
    : Z * Z :=
  let expectedItems := if expectedItems <=? 0 then 1000 else expectedItems in
  let falsePositiveRate := if SFleb falsePositiveRate (S754_zero false) then f_0_01 else falsePositiveRate in
  let ln2 := Log (f_of_Z 2) in
  let n := f_of_Z expectedItems in
  let m := f_div (SFopp (f_mul n (Log falsePositiveRate))) (f_mul ln2 ln2) in
  let k := f_mul (f_div m n) ln2 in
  (uint64_ceil wild m, uint64_ceil wild k).

Definition NewSharedBloomFilter (Log : float -> float) (wild : float -> Z) (expectedItems : Z)
    (falsePositiveRate : float) : SharedBloomFilter :=
  let '(bits, hashes) := bloom_size Log wild expectedItems falsePositiveRate in new_sized bits hashes.

(** The prefix is [fmt.Sprintf("%d:", id)]. *)
Definition bloom_hash (id : Z) (key : bytes) : Z :=
  crc32_ieee (to_bytes (print_int id ++ ":") ++ key).

(** [shards[id % bloomShardCount]]: Go's [%] keeps the sign, and a negative
    index panics. *)
Definition shard_index (id : Z) : option nat :=
  let i := Z.rem id bloomShardCount in if i <? 0 then None else Some (Z.to_nat i).

Definition bit_index (bf : SharedBloomFilter) (h1 h2 i : Z) : Z :=
  u64 (h1 + u64 (i * h2)) mod shardSize bf.

(** [shard.data[idx/64] |= 1 << (idx % 64)]. *)
Definition set_bit (idx : Z) (data : list Z) : option (list Z) :=
  match data !! Z.to_nat (idx / 64) with
  | None => None
  | Some w => Some (<[Z.to_nat (idx / 64) := Z.lor w (Z.shiftl 1 (idx mod 64))]> data)
  end.

Definition test_bit (idx : Z) (data : list Z) : option bool :=
  match data !! Z.to_nat (idx / 64) with
  | None => None
  | Some w => Some (negb (Z.land w (Z.shiftl 1 (idx mod 64)) =? 0))
  end.

(** The loop of [Add] over [i = 0 .. n-1]. *)
Fixpoint set_bits (idxs : list Z) (data : list Z) : option (list Z) :=
  match idxs with
  | [] => Some data
  | idx :: idxs' =>
    match set_bit idx data with None => None | Some data' => set_bits idxs' data' end
  end.

(** The loop of [Contains], with its early return. *)
Fixpoint test_bits (idxs : list Z) (data : list Z) : option bool :=
  match idxs with
  | [] => Some true
  | idx :: idxs' =>
    match test_bit idx data with
    | None => None
    | Some false => Some false
    | Some true => test_bits idxs' data
    end
  end.

Definition bit_indices (bf : SharedBloomFilter) (id : Z) (key : bytes) : list Z :=
  let h1 := bloom_hash id key in
  let h2 := Z.shiftr h1 16 in
  (fun i => bit_index bf h1 h2 (Z.of_nat i)) <$> seq 0 (Z.to_nat (hashCount bf)).

Definition Add (id : Z) (key : bytes) (bf : SharedBloomFilter) : option SharedBloomFilter :=
  match shard_index id with
  | None => None
  | Some s =>
    match shards bf !! s with
    | None => None
    | Some data =>
      match set_bits (bit_indices bf id key) data with
      | None => None
      | Some data' => Some (mkBloom (<[s := data']> (shards bf)) (hashCount bf) (shardSize bf))
      end
    end
  end.

Definition Contains (id : Z) (key : bytes) (bf : SharedBloomFilter) : option bool :=
  match shard_index id with
  | None => None
  | Some s =>
    match shards bf !! s with
    | None => None
    | Some data => test_bits (bit_indices bf id key) data
    end
  end.

#[export] Instance Bloom_BloomFilter : BloomFilter SharedBloomFilter :=
  {| bloom_Add := Add; bloom_Contains := Contains |}.

(** Representation invariant: 32 shards with room for [shardSize] bits. *)
Definition filter_ok (bf : SharedBloomFilter) : Prop :=
  0 < shardSize bf /\ length (shards bf) = Z.to_nat bloomShardCount /\
  Forall (fun data => shardSize bf <= 64 * zlen data) (shards bf).

(** ** Lemmas *)

Lemma new_sized_ok bits hashes : filter_ok (new_sized bits hashes).
Proof.
  unfold filter_ok, new_sized. cbn [shardSize shards].
  set (b1 := if bits <? 64 then 64 else bits).
  set (b := if _ <? b1 then _ else b1).
  assert (64 <= b) as Hb.
  { subst b b1. destruct (Z.ltb_spec bits 64); destruct (Z.ltb_spec (16 * 1024 * 1024 * 1024) bits); simpl; lia. }
  unfold bloomShardCount. split_and!; [zlia|by rewrite length_replicate|].
  apply Forall_replicate. unfold zlen. rewrite length_replicate.
  rewrite Z2Nat.id; zlia.
Qed.

Lemma shard_index_nonneg id : 0 <= id ->
  exists s, shard_index id = Some s /\ (s < Z.to_nat bloomShardCount)%nat.
Proof.
  intros H. unfold shard_index, bloomShardCount. rewrite Z.rem_mod_nonneg by lia.
  pose proof (Z.mod_pos_bound id 32 ltac:(lia)).
  destruct (Z.ltb_spec (id mod 32) 0); [lia|]. eexists; split; [done|lia].
Qed.

Lemma bit_indices_bound bf id key : filter_ok bf ->
  Forall (fun i => 0 <= i < shardSize bf) (bit_indices bf id key).
Proof.
  intros (H & _). unfold bit_indices. apply Forall_fmap, Forall_forall. intros i _.
  unfold compose, bit_index. apply Z.mod_pos_bound. done.
Qed.

Lemma set_bit_spec idx data : 0 <= idx < 64 * zlen data ->
  exists data', set_bit idx data = Some data' /\ length data' = length data /\
    test_bit idx data' = Some true /\
    forall j, test_bit j data = Some true -> test_bit j data' = Some true.
Proof.
  intros H. unfold set_bit.
  destruct (lookup_lt_is_Some_2 data (Z.to_nat (idx / 64))) as [w Hw].
  { unfold zlen in H. zlia. }
  rewrite Hw. eexists. split_and!; [done|apply length_insert| |].
  - unfold test_bit. rewrite list_lookup_insert_eq by (by eapply lookup_lt_Some).
    do 2 f_equal. apply negb_true_iff, Z.eqb_neq. intros Hz.
    apply (f_equal (fun z => Z.testbit z (idx mod 64))) in Hz.
    pose proof (Z.mod_pos_bound idx 64 ltac:(lia)).
    rewrite Z.land_spec, Z.lor_spec, Z.bits_0, Z.shiftl_spec, Z.sub_diag in Hz by lia.
    rewrite orb_true_r in Hz. done.
  - intros j. unfold test_bit.
    destruct (decide (Z.to_nat (idx / 64) = Z.to_nat (j / 64))) as [Heq|Hne].
    + rewrite <- Heq, Hw, list_lookup_insert_eq by (by eapply lookup_lt_Some).
      intros [= Ht]. f_equal. apply negb_true_iff, Z.eqb_neq in Ht.
      apply negb_true_iff, Z.eqb_neq. intros Hz. apply Ht.
      rewrite Z.land_lor_distr_l in Hz. by apply Z.lor_eq_0_iff in Hz as [? _].
    + by rewrite list_lookup_insert_ne.
Qed.

Lemma test_bits_true idxs data :
  test_bits idxs data = Some true <-> Forall (fun i => test_bit i data = Some true) idxs.
Proof.
  induction idxs as [|i idxs IH]; simpl; [done|].
  rewrite Forall_cons. destruct (test_bit i data) as [[]|]; intuition congruence.
Qed.

Lemma set_bits_spec idxs : forall data, Forall (fun i => 0 <= i < 64 * zlen data) idxs ->
  exists data', set_bits idxs data = Some data' /\ length data' = length data /\
    test_bits idxs data' = Some true /\
    forall js, test_bits js data = Some true -> test_bits js data' = Some true.
Proof.
  induction idxs as [|i idxs IH]; intros data Hall; simpl; [by exists data|].
  inversion Hall as [|? ? Hi Hrest]; subst.
  destruct (set_bit_spec i data Hi) as (d1 & -> & Hl1 & Ht1 & Hm1).
  destruct (IH d1) as (d2 & -> & Hl2 & Ht2 & Hm2).
  { unfold zlen in *. by rewrite Hl1. }
  exists d2. split_and!; [done|lia| |].
  - pose proof (Hm2 [i]) as Hi2. simpl in Hi2. rewrite Ht1 in Hi2. specialize (Hi2 eq_refl).
    destruct (test_bit i d2) as [[]|]; done.
  - intros js Hjs. apply Hm2. apply test_bits_true in Hjs. apply test_bits_true.
    eapply Forall_impl; [exact Hjs|]. apply Hm1.
Qed.

Lemma test_bits_total idxs data : Forall (fun i => 0 <= i < 64 * zlen data) idxs ->
  is_Some (test_bits idxs data).
Proof.
  induction 1 as [|i idxs Hi _ IH]; simpl; [by eexists|].
  unfold test_bit. destruct (lookup_lt_is_Some_2 data (Z.to_nat (i / 64))) as [w ->].
  { unfold zlen in Hi. zlia. }
  case_match; [done|by eexists].
Qed.

(** The shard a non-negative identifier uses, with its indices in range. *)
Lemma shard_in_range bf id key : filter_ok bf -> 0 <= id ->
  exists s data, shard_index id = Some s /\ shards bf !! s = Some data /\
    Forall (fun i => 0 <= i < 64 * zlen data) (bit_indices bf id key).
Proof.
  intros Hok Hid. pose proof (bit_indices_bound bf id key Hok) as Hb.
  destruct Hok as (Hs & Hl & Hall).
  destruct (shard_index_nonneg id Hid) as (s & -> & Hlt). rewrite <- Hl in Hlt.
  destruct (lookup_lt_is_Some_2 (shards bf) s Hlt) as [data Hd]. exists s, data.
  split_and!; [done|done|]. eapply Forall_lookup_1 in Hall; [|exact Hd].
  eapply Forall_impl; [exact Hb|]. simpl. lia.
Qed.

Lemma Add_spec id key bf : filter_ok bf -> 0 <= id ->
  exists bf', Add id key bf = Some bf' /\ filter_ok bf' /\
    Contains id key bf' = Some true /\
    (forall id' key', 0 <= id' -> Contains id' key' bf = Some true ->
       Contains id' key' bf' = Some true).
Proof.
  intros Hok Hid. destruct (shard_in_range bf id key Hok Hid) as (s & data & Hs & Hd & Hr).
  destruct (set_bits_spec _ _ Hr) as (data' & Hset & Hlen & Htest & Hmono).
  pose proof (lookup_lt_Some _ _ _ Hd) as Hlt.
  unfold Add. rewrite Hs, Hd, Hset. eexists. split; [done|].
  destruct Hok as (H0 & Hl & Hall). split; [|split].
  - unfold filter_ok. cbn [shards shardSize]. rewrite length_insert. split_and!; [done|done|].
    apply Forall_insert; [done|]. eapply Forall_lookup_1 in Hall; [|exact Hd].
    unfold zlen in *. by rewrite Hlen.
  - unfold Contains. rewrite Hs. cbn [shards]. by rewrite list_lookup_insert_eq.
  - intros id' key' Hid' Hc. unfold Contains in *. cbn [shards].
    destruct (shard_index id') as [s'|]; [|done].
    destruct (decide (s = s')) as [<-|Hne].
    + rewrite Hd in Hc. rewrite list_lookup_insert_eq by done. by apply Hmono.
    + by rewrite list_lookup_insert_ne.
Qed.

#[export] Instance Bloom_laws : BloomFilterLaws SharedBloomFilter.
Proof.
  refine {| bloom_ok := filter_ok |}; simpl; intros.
  - destruct (Add_spec id k b) as (b' & ? & ? & _); eauto.
  - destruct (shard_in_range b id k) as (s & data & Hs & Hd & Hr); [done|done|].
    unfold Contains. rewrite Hs, Hd. by apply test_bits_total.
  - destruct (Add_spec id k b) as (b2 & ? & _ & ? & _); [done|done|congruence].
  - destruct (Add_spec id k b) as (b2 & ? & _ & _ & Hm); [done|done|].
    simplify_eq. by apply Hm.
Defined.

(** However the size comes out, the filter is well formed. *)
Lemma NewSharedBloomFilter_ok Log wild expectedItems rate :
  filter_ok (NewSharedBloomFilter Log wild expectedItems rate).
Proof. unfold NewSharedBloomFilter. destruct (bloom_size _ _ _ _). apply new_sized_ok. Qed.

(** With the doubles nearest to the logarithms of 2 and of 0.01, the server's
    filter of ten million keys gets 95850584 bits and 7 hashes. *)
Example server_bloom_size :
  let Log x := if SFeqb x (f_of_Z 2) then S754_finite false 6243314768165359 (-53)
               else S754_finite true 5184960683398421 (-50) in
  bloom_size Log (fun _ => 0) 10000000 f_0_01 = (95850584, 7).
Proof. vm_compute. reflexivity. Qed.

(** ** Properties *)

(** C36. No false negatives and, for non-negative table identifiers, no panics. Starting from any allocation, adding
    any keys under non-negative table identifiers succeeds, and afterwards
    every added key is reported as possibly present. *)
Theorem Bloom_no_false_negative bits hashes (adds : list (Z * bytes)) :
  Forall (fun a => 0 <= fst a) adds ->
  exists bf, foldr (fun a o => o ≫= Add (fst a) (snd a)) (Some (new_sized bits hashes)) adds = Some bf /\
    Forall (fun a => Contains (fst a) (snd a) bf = Some true) adds.
Proof.
  intros Hadds.
  enough (exists bf, foldr (fun a o => o ≫= Add (fst a) (snd a)) (Some (new_sized bits hashes)) adds = Some bf /\
    filter_ok bf /\ Forall (fun a => Contains (fst a) (snd a) bf = Some true) adds)
    as (bf & ? & _ & ?) by eauto.
  induction Hadds as [|[id k] adds Hid Hadds (bf & Hf & Hok & Hc)].
  { eexists. split_and!; [done|apply new_sized_ok|done]. }
  simpl in Hid. destruct (Add_spec id k bf Hok Hid) as (bf' & Ha & Hok' & Hin & Hm).
  exists bf'. simpl. rewrite Hf. simpl. split_and!; [done|done|].
  apply Forall_cons. split; [done|].
  rewrite Forall_forall in Hadds, Hc |- *. intros a Ha'. apply Hm; auto.
Qed.

Lemma Bloom_no_false_negative_witness :
  exists bf, foldr (fun a o => o ≫= Add (fst a) (snd a)) (Some (new_sized 128 3))
    [(7, to_bytes "a"); (1, to_bytes "b")] = Some bf /\
    Forall (fun a => Contains (fst a) (snd a) bf = Some true) [(7, to_bytes "a"); (1, to_bytes "b")].
Proof. apply Bloom_no_false_negative. repeat constructor; simpl; lia. Defined.
