(* ===== verification/WriteAheadLog.v ===== *)
(** The write-ahead log, internal/storage/write_ahead_log.go: the record
    format, [WriteBatch]'s preallocated buffer, and [Replay]. *)
From S2P Require Import Prelude Codec Domain.

(** ** Definitions *)

(** [DiskWAL] without its mutex: [closed] tells whether [file] was closed. *)
Record DiskWAL := mkDiskWAL {
  path : string;
  shouldSync : bool;
  closed : bool;
}.

(** [NewDiskWAL]; [None] is the "failed to open WAL" error. *)
Definition NewDiskWAL (p : string) (sync : bool) (fs : FileSystem)
    : option (DiskWAL * FileSystem) :=
  match os_OpenAppend p fs with
  | None => None
  | Some fs' => Some (mkDiskWAL p sync false, fs')
  end.

(** [copy(buffer[offset:], bs)]: overwrite in place, never past the end. *)
Definition copy_at (offset : nat) (bs buffer : bytes) : bytes :=
  let n := Nat.min (length bs) (length buffer - offset) in
  take offset buffer ++ take n bs ++ drop (offset + n) buffer.

Definition record_size (e : Entry) : nat :=
  4 + String.length (Key e) + 4 + length (Value e) + 9.

(** One iteration of the second loop of [WriteBatch]: the writes at
    increasing offsets. *)
Definition put_record (st : bytes * nat) (e : Entry) : bytes * nat :=
  let '(buffer, offset) := st in
  let kLen := String.length (Key e) in
  let vLen := length (Value e) in
  let buffer := copy_at offset (le_put 4 (u32 (Z.of_nat kLen))) buffer in
  let offset := (offset + 4)%nat in
  let buffer := copy_at offset (to_bytes (Key e)) buffer in
  let offset := (offset + kLen)%nat in
  let buffer := copy_at offset (le_put 4 (u32 (Z.of_nat vLen))) buffer in
  let offset := (offset + 4)%nat in
  let buffer := copy_at offset (Value e) buffer in
  let offset := (offset + vLen)%nat in
  let buffer := copy_at offset (le_put 8 (u64 (ExpiryTimestamp e))) buffer in
  let offset := (offset + 8)%nat in
  let buffer := copy_at offset [if IsDeleted e then Byte.x01 else Byte.x00] buffer in
  (buffer, (offset + 1)%nat).

Definition batch_buffer (entries : list Entry) : bytes :=
  let totalSize := fold_left (fun n e => (n + record_size e)%nat) entries 0%nat in
  fst (fold_left put_record entries (replicate totalSize Byte.x00, 0%nat)).

(** [WriteBatch]: one [Write] of the buffer; [None] is the error of a write to
    a closed file. That an open file takes the whole buffer, and that [Sync] has
    no error, is assumed of the disk. Syncing leaves the contents as they are. *)
Definition WriteBatch (w : DiskWAL) (entries : list Entry) (fs : FileSystem)
    : option FileSystem :=
  if closed w then None else Some (fs_append (path w) (batch_buffer entries) fs).

Inductive replay_end := ReplayDone | ReplayError (e : io_error).

#[export] Instance replay_end_eq_dec : EqDecision replay_end.
Proof. solve_decision. Defined.

(** One turn of [Replay]'s loop: end of file, an error, or an entry for the
    callback and the unread rest. *)
Definition replay_record (r : bytes) : (Entry * bytes) + replay_end :=
  match ReadFull 4 r with
  | inr EOF => inr ReplayDone
  | inr err => inr (ReplayError err)
  | inl (header, r) =>
    match ReadFull (Z.to_nat (le_get header)) r with
    | inr err => inr (ReplayError err)
    | inl (key, r) =>
      match ReadFull 4 r with
      | inr err => inr (ReplayError err)
      | inl (header, r) =>
        match ReadFull (Z.to_nat (le_get header)) r with
        | inr err => inr (ReplayError err)
        | inl (val, r) =>
          match ReadFull 9 r with
          | inr err => inr (ReplayError err)
          | inl (meta, r) =>
            inl (mkEntry (of_bytes key) val (i64 (le_get (take 8 meta)))
                   (bool_decide (drop 8 meta = [Byte.x01])), r)
          end
        end
      end
    end
  end.

(** The [for] loop; each turn consumes at least 17 bytes, so the length of the
    file is enough fuel ([replay_fuel_enough]). *)
Fixpoint replay_loop {A} (fuel : nat) (callback : A -> Entry -> A) (a : A) (r : bytes)
    : A * replay_end :=
  match fuel with
  | O => (a, ReplayError ErrUnexpectedEOF)
  | S fuel' =>
    match replay_record r with
    | inr stop => (a, stop)
    | inl (e, r') => replay_loop fuel' callback (callback a e) r'
    end
  end.

(** [Replay] from offset 0; the callback threads the state [a] it updates. *)
Definition Replay {A} (w : DiskWAL) (callback : A -> Entry -> A) (a : A) (fs : FileSystem)
    : A * replay_end :=
  if closed w then (a, ReplayError ErrClosed)
  else let r := default [] (files fs !! path w) in
       replay_loop (S (length r)) callback a r.

Definition Close (w : DiskWAL) : DiskWAL := mkDiskWAL (path w) (shouldSync w) true.

Definition Delete (w : DiskWAL) (fs : FileSystem) : DiskWAL * FileSystem :=
  (Close w, os_Remove (path w) fs).

(** *** Specification: the log is the concatenation of its records. *)

Definition encode_record (e : Entry) : bytes :=
  le_put 4 (slen (Key e)) ++ to_bytes (Key e) ++
  le_put 4 (zlen (Value e)) ++ Value e ++
  le_put 8 (ExpiryTimestamp e) ++ [if IsDeleted e then Byte.x01 else Byte.x00].

Definition encode_log (es : list Entry) : bytes := concat (encode_record <$> es).

#[global] Arguments encode_record : simpl never.

(** The entries delivered by a replay of the bytes [r], in order. *)
Definition replayed (r : bytes) : list Entry * replay_end :=
  replay_loop (S (length r)) (fun acc e => acc ++ [e]) [] r.

(** ** Lemmas *)

Lemma byte_of_Z_mod z : byte_of_Z (z mod 256) = byte_of_Z z.
Proof. unfold byte_of_Z. by rewrite Z.mod_mod by lia. Qed.

Lemma le_put_mod n w : le_put n (w mod 2 ^ (8 * Z.of_nat n)) = le_put n w.
Proof.
  revert w; induction n as [|n IH]; intros w; [done|]. cbn [le_put].
  replace (8 * Z.of_nat (S n)) with (8 + 8 * Z.of_nat n) by lia.
  rewrite Z.pow_add_r, Z.rem_mul_r by lia. change (2 ^ 8) with 256.
  pose proof (Z.mod_pos_bound w 256 ltac:(lia)). f_equal.
  - rewrite <- byte_of_Z_mod. rewrite (Z.mul_comm 256), Z.mod_add, Z.mod_mod by lia.
    apply byte_of_Z_mod.
  - rewrite <- (IH (Z.shiftr w 8)), !Z.shiftr_div_pow2 by lia. change (2 ^ 8) with 256.
    rewrite (Z.mul_comm 256), Z.div_add, (Z.div_small (w mod 256)), Z.add_0_l by lia.
    done.
Qed.

Lemma copy_at_app (done bs rest hole : bytes) :
  length hole = length bs ->
  copy_at (length done) bs (done ++ hole ++ rest) = (done ++ bs) ++ rest.
Proof.
  intros Hl. unfold copy_at. rewrite !length_app, Hl.
  replace (Nat.min (length bs) (length done + (length bs + length rest) - length done))%nat
    with (length bs) by lia.
  rewrite take_app_length, (take_ge bs) by lia.
  assert (drop (length done + length bs) (done ++ hole ++ rest) = rest) as ->.
  { rewrite app_assoc. apply drop_app_length'. rewrite length_app. lia. }
  by rewrite app_assoc.
Qed.

(** The same, with the hole a prefix of a zeroed buffer. *)
Lemma copy_at_zeros (done bs : bytes) (off n m : nat) :
  off = length done -> m = (length bs + n)%nat ->
  copy_at off bs (done ++ replicate m Byte.x00) = (done ++ bs) ++ replicate n Byte.x00.
Proof.
  intros -> ->. rewrite replicate_add. apply copy_at_app, length_replicate.
Qed.

Lemma length_encode_record e : length (encode_record e) = record_size e.
Proof.
  unfold encode_record, record_size. rewrite !length_app, !length_le_put, length_to_bytes.
  simpl. lia.
Qed.

Lemma record_size_pos e : (17 <= record_size e)%nat.
Proof. unfold record_size. lia. Qed.

Ltac solve_len :=
  rewrite ?length_app, ?length_le_put, ?length_to_bytes; simpl; lia.

Lemma put_record_append done e rest :
  put_record (done ++ replicate (record_size e + rest) Byte.x00, length done) e
  = ((done ++ encode_record e) ++ replicate rest Byte.x00,
     (length done + record_size e)%nat).
Proof.
  unfold put_record, encode_record, record_size.
  set (kl := String.length (Key e)). set (vl := length (Value e)).
  rewrite (copy_at_zeros done _ _ (kl + 4 + vl + 9 + rest)) by solve_len.
  rewrite (copy_at_zeros _ (to_bytes (Key e)) _ (4 + vl + 9 + rest)) by solve_len.
  rewrite (copy_at_zeros _ _ _ (vl + 9 + rest)) by solve_len.
  rewrite (copy_at_zeros _ (Value e) _ (9 + rest)) by solve_len.
  rewrite (copy_at_zeros _ _ _ (1 + rest)) by solve_len.
  rewrite (copy_at_zeros _ _ _ rest) by solve_len.
  unfold u32, u64. rewrite !(le_put_mod 4), (le_put_mod 8).
  rewrite <- !app_assoc. f_equal. lia.
Qed.

Lemma encode_log_app es fs : encode_log (es ++ fs) = encode_log es ++ encode_log fs.
Proof. unfold encode_log. by rewrite fmap_app, concat_app. Qed.

Lemma encode_log_cons e es : encode_log (e :: es) = encode_record e ++ encode_log es.
Proof. done. Qed.

Lemma put_records_append entries done rest :
  fold_left put_record entries
    (done ++ replicate (length (encode_log entries) + rest) Byte.x00, length done)
  = ((done ++ encode_log entries) ++ replicate rest Byte.x00,
     (length done + length (encode_log entries))%nat).
Proof.
  revert done; induction entries as [|e es IH]; intros done; cbn [fold_left].
  - simpl. by rewrite app_nil_r, Nat.add_0_r.
  - rewrite encode_log_cons, length_app, length_encode_record.
    rewrite <- Nat.add_assoc, put_record_append.
    replace (length done + record_size e)%nat with (length (done ++ encode_record e))
      by (rewrite length_app, length_encode_record; lia).
    rewrite IH, length_app, length_encode_record, <- !app_assoc. f_equal. lia.
Qed.

Lemma total_size_length entries n :
  fold_left (fun n e => (n + record_size e)%nat) entries n
  = (n + length (encode_log entries))%nat.
Proof.
  revert n; induction entries as [|e es IH]; intros n; cbn [fold_left]; [simpl; lia|].
  rewrite IH, encode_log_cons, length_app, length_encode_record. lia.
Qed.

Lemma batch_buffer_encode_log entries : batch_buffer entries = encode_log entries.
Proof.
  unfold batch_buffer. rewrite total_size_length, Nat.add_0_l.
  pose proof (put_records_append entries [] 0) as H. simpl in H.
  rewrite Nat.add_0_r in H. rewrite H. simpl. by rewrite app_nil_r.
Qed.

(** One turn of the replay loop on a well-formed record. *)
Lemma replay_record_encode e r : entry_fits e ->
  replay_record (encode_record e ++ r) = inl (e, r).
Proof.
  intros (Hk & Hv & Hx). unfold replay_record, encode_record.
  rewrite <- !app_assoc.
  rewrite (ReadFull_app 4) by apply length_le_put.
  rewrite le_get_put32, u32_small by (unfold slen in *; lia).
  rewrite (ReadFull_app _ (to_bytes (Key e))) by (rewrite length_to_bytes; unfold slen; lia).
  rewrite (ReadFull_app 4) by apply length_le_put.
  rewrite le_get_put32, u32_small by (unfold zlen in *; lia).
  rewrite (ReadFull_app _ (Value e)) by (unfold zlen; lia).
  rewrite (app_assoc (le_put 8 _)), (ReadFull_app 9) by (rewrite length_app, length_le_put; done).
  rewrite take_app_length', drop_app_length' by (by rewrite length_le_put).
  rewrite le_get_put64, i64_u64 by done.
  destruct e as [k v x []]; simpl; rewrite of_to_bytes; reflexivity.
Qed.

(** Every turn of the loop consumes at least the 17 bytes of a record. *)
Lemma replay_record_consumes r e r' :
  replay_record r = inl (e, r') -> (length r' + 17 <= length r)%nat.
Proof.
  unfold replay_record. intros H.
  repeat match type of H with
  | context [match ReadFull ?n ?x with _ => _ end] =>
      let E := fresh "E" in destruct (ReadFull n x) as [[? ?]|[]] eqn:E; try discriminate;
      apply ReadFull_inl in E as [-> ?]
  end.
  injection H as _ <-. rewrite !length_app. lia.
Qed.

(** The loop does not depend on the fuel once it covers the file. *)
Lemma replay_fuel_enough {A} (cb : A -> Entry -> A) n m a r :
  (length r < n)%nat -> (length r < m)%nat ->
  replay_loop n cb a r = replay_loop m cb a r.
Proof.
  revert m a r; induction n as [|n IH]; intros [|m] a r Hn Hm; try lia.
  cbn [replay_loop]. destruct (replay_record r) as [[e r']|] eqn:E; [|done].
  apply replay_record_consumes in E. apply IH; lia.
Qed.

(** A replay folds the callback over the delivered entries. *)
Lemma replay_loop_fold {A} (cb : A -> Entry -> A) n a r :
  forall acc,
  replay_loop n cb (fold_left cb acc a) r =
  let '(es, stop) := replay_loop n (fun acc e => acc ++ [e]) acc r in
  (fold_left cb es a, stop).
Proof.
  revert r; induction n as [|n IH]; intros r acc; simpl; [done|].
  destruct (replay_record r) as [[e r']|]; [|done].
  rewrite <- IH. by rewrite fold_left_app.
Qed.

Lemma replay_loop_app es r n : Forall entry_fits es -> (length (encode_log es) < n)%nat ->
  forall acc,
  replay_loop n (fun acc e => acc ++ [e]) acc (encode_log es ++ r)
  = replay_loop (n - length es) (fun acc e => acc ++ [e]) (acc ++ es) r.
Proof.
  intros Hes. revert n. induction Hes as [|e es He Hes IH]; intros n Hn acc.
  - by rewrite app_nil_r, Nat.sub_0_r.
  - rewrite encode_log_cons, length_app, length_encode_record in Hn.
    pose proof (record_size_pos e).
    destruct n as [|n]; [lia|]. rewrite encode_log_cons, <- app_assoc.
    cbn [replay_loop]. rewrite replay_record_encode by done.
    rewrite IH by lia. by rewrite <- app_assoc.
Qed.

Lemma length_encode_log es : (17 * length es <= length (encode_log es))%nat.
Proof.
  induction es as [|e es IH]; [simpl; lia|].
  rewrite encode_log_cons, length_app, length_encode_record.
  pose proof (record_size_pos e). simpl. lia.
Qed.

Lemma fold_left_snoc {A} (l acc : list A) :
  fold_left (fun acc e => acc ++ [e]) l acc = acc ++ l.
Proof.
  revert acc; induction l as [|e l IH]; intros acc; simpl; [by rewrite app_nil_r|].
  rewrite IH. by rewrite <- app_assoc.
Qed.

(** Replaying intact records followed by any bytes delivers the records first. *)
Lemma replayed_app es r : Forall entry_fits es ->
  replayed (encode_log es ++ r)
  = let '(es', stop) := replayed r in (es ++ es', stop).
Proof.
  intros Hes. unfold replayed. pose proof (length_encode_log es).
  rewrite replay_loop_app by (done || rewrite length_app; lia). simpl app.
  rewrite (replay_fuel_enough _ _ (S (length r))) by (rewrite ?length_app; lia).
  pose proof (replay_loop_fold (fun acc e => acc ++ [e]) (S (length r)) es r []) as H2.
  cbn [fold_left] in H2. rewrite H2. destruct (replay_loop _ _ [] r) as [es' stop].
  by rewrite fold_left_snoc.
Qed.

Lemma replayed_nil : replayed [] = ([], ReplayDone).
Proof. done. Qed.

Lemma ReadFull_EOF n r : ReadFull n r = inr EOF -> r = [].
Proof. unfold ReadFull. case_decide; by destruct r. Qed.

Lemma ReadFull_mono n r x y z : ReadFull n r = inl (x, y) -> ReadFull n (r ++ z) = inl (x, y ++ z).
Proof. intros [-> H]%ReadFull_inl. rewrite <- app_assoc. by apply ReadFull_app. Qed.

(** Bytes after a decoded record do not change what was decoded. *)
Lemma replay_record_mono r e r' x :
  replay_record r = inl (e, r') -> replay_record (r ++ x) = inl (e, r' ++ x).
Proof.
  unfold replay_record. intros H.
  repeat match type of H with
  | context [match ReadFull ?n ?y with _ => _ end] =>
      let E := fresh "E" in destruct (ReadFull n y) as [[? ?]|[]] eqn:E; try discriminate;
      rewrite (ReadFull_mono _ _ _ _ x E)
  end.
  by injection H as <- <-.
Qed.

Lemma replay_record_done r : replay_record r = inr ReplayDone -> r = [].
Proof.
  unfold replay_record. intros H. destruct (ReadFull 4 r) as [[h r1]|[]] eqn:E; try discriminate.
  - repeat case_hyp H; discriminate.
  - by apply ReadFull_EOF in E.
Qed.

(** A torn record (a strict, non-empty prefix) delivers nothing: an error. *)
Lemma replayed_torn e r x : entry_fits e -> encode_record e = r ++ x -> r <> [] -> x <> [] ->
  exists err, replayed r = ([], ReplayError err).
Proof.
  intros He Hr Hne Hx. unfold replayed. cbn [replay_loop].
  destruct (replay_record r) as [[e' r']|[|err]] eqn:E; [|by apply replay_record_done in E|by exists err].
  exfalso. apply (replay_record_mono _ _ _ x) in E. rewrite <- Hr in E.
  pose proof (replay_record_encode e [] He) as H. rewrite app_nil_r in H.
  rewrite H in E. injection E as _ E. destruct r'; [by subst|done].
Qed.

(** A prefix of a log is some of its records and a torn tail. *)
Lemma log_prefix_split es : forall r, prefix r (encode_log es) ->
  exists done tail, r = encode_log done ++ tail /\ prefix done es /\
    (tail = [] \/ exists e rest, es = done ++ e :: rest /\ tail <> [] /\
       exists x, encode_record e = tail ++ x /\ x <> []).
Proof.
  induction es as [|e es IH]; intros r [k Hr].
  - symmetry in Hr. apply app_eq_nil in Hr as [-> _]. by exists [], []; eauto.
  - rewrite encode_log_cons in Hr.
    destruct (decide (length r < length (encode_record e))%nat) as [Hlt|Hge].
    + exists [], r. split_and!; [done|apply prefix_nil|].
      destruct r as [|b r]; [by left|right]. exists e, es. split_and!; [done|done|].
      apply app_eq_inv in Hr as [(x & Hx & _)|(x & Hx & _)]; rewrite Hx in Hlt;
        rewrite ?length_app in Hlt; [|lia].
      exists x. split; [done|]. intros ->. simpl in Hlt. lia.
    + apply app_eq_inv in Hr as [(x & Hx & Hr)|(x & Hx & Hr)].
      { apply (f_equal length) in Hx as Hl. rewrite length_app in Hl.
        assert (x = []) as -> by (destruct x; [done|cbn [length] in Hl; lia]).
        rewrite app_nil_r in Hx. exists [e], [].
        rewrite app_nil_r, encode_log_cons, app_nil_r.
        split_and!; [done|apply prefix_cons, prefix_nil|by left]. }
      destruct (IH x) as (d & t & -> & Hp & Ht); [by exists k|].
      exists (e :: d), t. rewrite encode_log_cons, Hx, app_assoc.
      split_and!; [done|by apply prefix_cons|].
      destruct Ht as [Ht|(e' & rest & -> & Ht)]; [by left|right]. by exists e', rest.
Qed.

(** The records before a torn tail are all the complete ones. *)
Lemma complete_records done tail es more :
  prefix done es ->
  (tail = [] \/ exists e rest, es = done ++ e :: rest /\ tail <> [] /\ exists x, encode_record e = tail ++ x /\ x <> []) ->
  prefix more es -> prefix (encode_log more) (encode_log done ++ tail) -> prefix more done.
Proof.
  intros Hd Ht Hm Hp. destruct (prefix_weak_total _ _ _ Hm Hd) as [|[l ->]]; [done|].
  destruct l as [|e l]; [by rewrite app_nil_r|exfalso].
  rewrite encode_log_app, encode_log_cons in Hp. apply prefix_app_inv, prefix_length in Hp. rewrite length_app in Hp.
  pose proof (length_encode_log [e]) as He. rewrite encode_log_cons, length_app in He. cbn [length] in He.
  change (length (encode_log [])) with 0%nat in He.
  destruct Ht as [->|(e' & rest & -> & _ & x & Hx & Hne)]; [cbn [length] in Hp; lia|].
  apply prefix_app_inv in Hm as [k Hm]. injection Hm as <- _.
  apply (f_equal length) in Hx. rewrite length_app in Hx. destruct x; [done|cbn [length] in Hx; lia].
Qed.

(** The replay of a prefix of a log. *)
Lemma Replay_prefix {A} (cb : A -> Entry -> A) a w fs es survived :
  closed w = false -> Forall entry_fits es ->
  files fs !! path w = Some survived -> prefix survived (encode_log es) ->
  exists done stop,
    Replay w cb a fs = (fold_left cb done a, stop) /\ prefix done es /\
    (stop = ReplayDone <-> survived = encode_log done) /\
    (survived = encode_log es -> done = es) /\
    prefix (encode_log done) survived /\
    (forall more, prefix more es -> prefix (encode_log more) survived -> prefix more done).
Proof.
  intros Hc Hes Hf Hp. unfold Replay. rewrite Hc, Hf. simpl default.
  destruct (log_prefix_split es survived Hp) as (d & t & -> & Hd & Ht).
  assert (Forall entry_fits d) as Hdf.
  { destruct Hd as [k ->]. by apply Forall_app in Hes as [? _]. }
  pose proof (replay_loop_fold cb (S (length (encode_log d ++ t))) a (encode_log d ++ t) []) as Hr.
  cbn [fold_left] in Hr. fold (replayed (encode_log d ++ t)) in Hr.
  rewrite replayed_app in Hr by done.
  destruct Ht as [->|(e & rest & -> & Hne & x & Hx & Hxne)].
  - rewrite replayed_nil, app_nil_r in Hr. exists d, ReplayDone.
    rewrite app_nil_r in *. split_and!; [done|done|done| |done|].
    2: { intros more Hm Hl. apply (complete_records d [] es more Hd); [by left|done|by rewrite app_nil_r]. }
    intros Heq. destruct Hd as [k ->]. rewrite encode_log_app in Heq.
    apply (f_equal length) in Heq. rewrite length_app in Heq.
    pose proof (length_encode_log k). destruct k; [by rewrite app_nil_r|cbn [length] in *; lia].
  - apply Forall_app in Hes as [_ Hes]. inversion Hes as [|? ? He _]; subst.
    destruct (replayed_torn e t x He Hx Hne Hxne) as [err Herr].
    rewrite Herr, app_nil_r in Hr. exists d, (ReplayError err).
    split_and!; [done|done| | |by apply prefix_app_r|].
    3: { intros more Hm Hl. eapply (complete_records d t); [exact Hd| |exact Hm|exact Hl].
         right. exists e, rest. split_and!; [done|done|by exists x]. }
    + split; [done|]. intros Heq. exfalso. destruct t; [done|].
      apply (f_equal length) in Heq. rewrite length_app in Heq. cbn [length] in Heq. lia.
    + intros Heq. exfalso. rewrite encode_log_app, encode_log_cons, Hx in Heq.
      apply (f_equal length) in Heq. rewrite !length_app in Heq.
      destruct x; [done|cbn [length] in Heq; lia].
Qed.

(** ** Properties *)

(** WriteBatch's preallocated buffer, filled at running offsets, is exactly
    the concatenation of the records: nothing is left unwritten, nothing is
    overwritten, nothing is written past the end. *)
Theorem WriteBatch_appends_records w entries fs :
  closed w = false ->
  WriteBatch w entries fs = Some (fs_append (path w) (encode_log entries) fs).
Proof. intros H. unfold WriteBatch. by rewrite H, batch_buffer_encode_log. Qed.

Definition wal_example : DiskWAL := mkDiskWAL "wal.log" true false.
Definition fs_example : FileSystem := mkFS ∅ (fun _ => true).
Definition entry_example : Entry := mkEntry "k1" (to_bytes "v1") 5 true.

Lemma WriteBatch_appends_records_witness :
  WriteBatch wal_example [entry_example] fs_example
  = Some (fs_append "wal.log" (encode_log [entry_example]) fs_example).
Proof. apply (WriteBatch_appends_records wal_example). reflexivity. Defined.

(** C26. Crash recovery of the log. Whatever prefix of the written records
    survives a crash, Replay terminates and hands the callback the complete
    records, all of them and nothing else, in order: its entries are an initial
    run of those written, their encoding is in what survived, and no longer run's
    is. It reports success exactly when the crash fell on a record boundary. *)
Theorem Replay_after_crash {A} (cb : A -> Entry -> A) a w fs es survived :
  closed w = false -> Forall entry_fits es ->
  files fs !! path w = Some survived -> prefix survived (encode_log es) ->
  exists done stop,
    Replay w cb a fs = (fold_left cb done a, stop) /\ prefix done es /\
    (stop = ReplayDone <-> survived = encode_log done) /\
    (survived = encode_log es -> done = es) /\
    prefix (encode_log done) survived /\
    (forall more, prefix more es -> prefix (encode_log more) survived -> prefix more done).
Proof. apply Replay_prefix. Qed.

Lemma Replay_after_crash_witness :
  let survived := take 25 (encode_log [entry_example; mkEntry "k2" [] 0 false]) in
  exists done stop,
    Replay wal_example (fun acc e => acc ++ [e]) [] (mkFS {["wal.log" := survived]} (fun _ => true))
      = (fold_left (fun acc e => acc ++ [e]) done [], stop) /\
    prefix done [entry_example; mkEntry "k2" [] 0 false] /\
    (stop = ReplayDone <-> survived = encode_log done) /\
    (survived = encode_log [entry_example; mkEntry "k2" [] 0 false] -> done = [entry_example; mkEntry "k2" [] 0 false]) /\
    prefix (encode_log done) survived /\
    (forall more, prefix more [entry_example; mkEntry "k2" [] 0 false] -> prefix (encode_log more) survived ->
       prefix more done).
Proof.
  intros survived.
  apply (Replay_after_crash _ [] wal_example _ [entry_example; mkEntry "k2" [] 0 false] survived).
  - reflexivity.
  - repeat constructor; vm_compute; congruence.
  - reflexivity.
  - exists (drop 25 (encode_log [entry_example; mkEntry "k2" [] 0 false])). symmetry. apply take_drop.
Defined.
