(* ===== verification/SortedStringTable.v ===== *)
(** Sorted string tables, internal/storage/sorted_string_table.go: the writer
    with its index and Bloom entries, the sequential reader and the indexed
    lookup. *)
From S2P Require Import Prelude Codec Text Domain.

(** ** Definitions *)

Record SSTableMetadata := mkMeta {
  Level : Z;
  Filename : string;
  FileID : Z;
  Index : gmap string Z;
  MinKey : string;
  MaxKey : string;
}.

(** What a Go call can end in besides a result: an [error] or a panic. *)
Inductive outcome (A : Type) := Ok (a : A) | Err | Panic.
Arguments Ok {A} a.
Arguments Err {A}.
Arguments Panic {A}.

#[export] Instance Ok_inj {A} : Inj (=) (=) (@Ok A).
Proof. by intros x y [= ->]. Qed.

(** The reader is the unread rest of its file. *)
Definition NewSSTableReader (filename : string) (fs : FileSystem) : option bytes :=
  os_Open filename fs.

(** [Next]: only a short header ends the iteration, the errors of the other two
    reads are ignored (their buffers stay zero). *)
Definition Next (r : bytes) : option (Entry * bytes) :=
  match ReadFull 17 r with
  | inr _ => None
  | inl (buffer, r) =>
    let kLen := le_get (take 4 buffer) in
    let vLen := le_get (take 4 (drop 4 buffer)) in
    let expiry := i64 (le_get (take 8 (drop 8 buffer))) in
    let isDeleted := bool_decide (drop 16 buffer = [Byte.x01]) in
    let '(key, r) := ReadFull_ignored (Z.to_nat kLen) r in
    let '(val, r) := ReadFull_ignored (Z.to_nat vLen) r in
    Some (mkEntry (of_bytes key) val expiry isDeleted, r)
  end.

(** The 17 bytes of a header. *)
Definition encode_header (e : Entry) : bytes :=
  le_put 4 (u32 (slen (Key e))) ++ le_put 4 (u32 (zlen (Value e))) ++
  le_put 8 (u64 (ExpiryTimestamp e)) ++ [if IsDeleted e then Byte.x01 else Byte.x00].

(** The identifier in a name like L0_<id>.sst; 0 when there is none. *)
Definition parse_file_id (filename : string) : Z :=
  let parts := Split "_" (Base filename) in
  match parts with
  | _ :: part1 :: _ => default 0 (ParseInt (TrimSuffix part1 ".sst"))
  | _ => 0
  end.

Section Writer.
Context `{BloomFilter B}.

(** The variables of the writer's loop. *)
Record write_state := mkWrite {
  w_out : bytes;
  w_index : gmap string Z;
  w_offset : Z;
  w_min : string;
  w_max : string;
  w_bloom : option B;
}.

(** [if bloom != nil { bloom.Add(fileID, []byte(e.Key)) }]; the outer [None] is
    the filter's panic. *)
Definition bloom_add_key (fileID : Z) (key : string) (bloom : option B) : option (option B) :=
  match bloom with
  | None => Some None
  | Some b => match bloom_Add fileID (to_bytes key) b with
              | None => None
              | Some b' => Some (Some b')
              end
  end.

Definition write_entry (fileID : Z) (n i : nat) (e : Entry) (st : write_state)
    : option write_state :=
  match bloom_add_key fileID (Key e) (w_bloom st) with
  | None => None
  | Some bloom' =>
    Some (mkWrite
      (w_out st ++ encode_header e ++ to_bytes (Key e) ++ Value e)
      (<[Key e := w_offset st]> (w_index st))
      (i64 (w_offset st + i64 (17 + slen (Key e) + zlen (Value e))))
      (if decide (i = 0)%nat then Key e else w_min st)
      (if decide (i = n - 1)%nat then Key e else w_max st)
      bloom')
  end.

Fixpoint write_loop (fileID : Z) (n i : nat) (entries : list Entry) (st : write_state)
    : option write_state :=
  match entries with
  | [] => Some st
  | e :: rest =>
    match write_entry fileID n i e st with
    | None => None
    | Some st' => write_loop fileID n (S i) rest st'
    end
  end.

Definition WriteSortedStringTableToDisk (entries : list Entry) (filename : string) (level : Z)
    (bloom : option B) (fs : FileSystem) : outcome (SSTableMetadata * option B * FileSystem) :=
  match os_Create filename fs with
  | None => Err
  | Some fs =>
    let fileID := parse_file_id filename in
    match write_loop fileID (length entries) 0 entries (mkWrite [] ∅ 0 "" "" bloom) with
    | None => Panic
    | Some st =>
      Ok (mkMeta level filename fileID (w_index st) (w_min st) (w_max st),
          w_bloom st, fs_write filename (w_out st) fs)
    end
  end.

End Writer.

Definition FindInSSTable (meta : SSTableMetadata) (key : string) (fs : FileSystem) : option Entry :=
  match Index meta !! key with
  | None => None
  | Some offset =>
    match os_Open (Filename meta) fs with
    | None => None
    | Some f =>
      let '(header, r) := ReadFull_ignored 17 (drop (Z.to_nat offset) f) in
      let kLen := le_get (take 4 header) in
      let vLen := le_get (take 4 (drop 4 header)) in
      let expiry := i64 (le_get (take 8 (drop 8 header))) in
      let isDeleted := bool_decide (drop 16 header = [Byte.x01]) in
      let '(val, _) := ReadFull_ignored (Z.to_nat vLen) (drop (Z.to_nat kLen) r) in
      Some (mkEntry key val expiry isDeleted)
    end
  end.

(** *** Specification *)

Definition encode_entry (e : Entry) : bytes := encode_header e ++ to_bytes (Key e) ++ Value e.

Definition encode_table (es : list Entry) : bytes := concat (encode_entry <$> es).

Definition key_le (a b : Entry) : Prop := str_le (Key a) (Key b).
Definition key_lt (a b : Entry) : Prop := str_lt (Key a) (Key b).

(** The shape of every table the engine writes. *)
Definition sorted_table (es : list Entry) : Prop := StronglySorted key_lt es.

(** The newest entry of a key: the last one written. *)
Definition last_entry (k : string) (es : list Entry) : option Entry :=
  fold_left (fun o e => if decide (Key e = k) then Some e else o) es None.

(** Reading a file to its end with [Next]. *)
Fixpoint read_all (fuel : nat) (r : bytes) : list Entry :=
  match fuel with
  | O => []
  | S f => match Next r with None => [] | Some (e, r') => e :: read_all f r' end
  end.

(** The file of a table holds its entries, and its index finds them. *)
Definition table_file (meta : SSTableMetadata) (es : list Entry) (fs : FileSystem) : Prop :=
  os_Open (Filename meta) fs = Some (encode_table es) /\
  (forall k, Index meta !! k = None <-> (k ∉ (Key <$> es))) /\
  (forall k p, Index meta !! k = Some p -> exists pre e post,
     es = pre ++ e :: post /\ Key e = k /\ (k ∉ (Key <$> post)) /\ p = zlen (encode_table pre)) /\
  Forall entry_fits es.

(** ** Lemmas *)

#[export] Instance key_le_dec a b : Decision (key_le a b).
Proof. unfold key_le. apply _. Defined.

#[export] Instance key_le_trans : Transitive key_le.
Proof. intros a b c. apply str_le_trans. Qed.

#[export] Instance key_le_total : Total key_le.
Proof. intros a b. apply str_le_total. Qed.

Lemma length_encode_header e : length (encode_header e) = 17%nat.
Proof. unfold encode_header. rewrite !length_app, !length_le_put. done. Qed.

Lemma zlen_encode_entry e : zlen (encode_entry e) = 17 + slen (Key e) + zlen (Value e).
Proof.
  unfold encode_entry. rewrite !zlen_app, zlen_to_bytes. unfold zlen at 1.
  rewrite length_encode_header. lia.
Qed.

Lemma encode_table_cons e es : encode_table (e :: es) = encode_entry e ++ encode_table es.
Proof. done. Qed.

Lemma encode_table_app es fs : encode_table (es ++ fs) = encode_table es ++ encode_table fs.
Proof. unfold encode_table. by rewrite fmap_app, concat_app. Qed.

(** Decoding the four fields of an encoded header. *)
Lemma decode_header e : entry_fits e ->
  let h := encode_header e in
  le_get (take 4 h) = slen (Key e) /\ le_get (take 4 (drop 4 h)) = zlen (Value e) /\
  i64 (le_get (take 8 (drop 8 h))) = ExpiryTimestamp e /\
  bool_decide (drop 16 h = [Byte.x01]) = IsDeleted e.
Proof.
  intros (Hk & Hv & Hx). cbv zeta. unfold encode_header.
  assert (0 <= slen (Key e)) by (unfold slen; lia). pose proof (zlen_nonneg (Value e)).
  set (a := le_put 4 (u32 (slen (Key e)))). set (b := le_put 4 (u32 (zlen (Value e)))).
  set (c := le_put 8 (u64 (ExpiryTimestamp e))).
  assert (length a = 4%nat) as Ha by apply length_le_put.
  assert (length b = 4%nat) as Hb by apply length_le_put.
  assert (length c = 8%nat) as Hc by apply length_le_put.
  rewrite (take_app_length' a) by done. rewrite (drop_app_length' a) by done.
  rewrite (take_app_length' b) by done.
  rewrite (app_assoc a b), (drop_app_length' (a ++ b)) by (rewrite length_app; lia).
  rewrite (take_app_length' c) by done.
  rewrite (app_assoc (a ++ b) c), (drop_app_length' ((a ++ b) ++ c)) by (rewrite !length_app; lia).
  subst a b c. rewrite !le_get_put32, le_get_put64.
  rewrite !u32_small by (rewrite ?u32_small; lia).
  assert (u64 (u64 (ExpiryTimestamp e)) = u64 (ExpiryTimestamp e)) as ->
    by (unfold u64; by rewrite Z.mod_mod by lia).
  rewrite i64_u64 by done.
  split_and!; try done. by destruct (IsDeleted e).
Qed.

Lemma Next_encode e r : entry_fits e -> Next (encode_entry e ++ r) = Some (e, r).
Proof.
  intros He. destruct (decode_header e He) as (Hk & Hv & Hx & Hd).
  unfold Next, encode_entry. rewrite <- !app_assoc.
  rewrite ReadFull_app by apply length_encode_header.
  rewrite Hk, Hv, Hx, Hd.
  rewrite ReadFull_ignored_app by (rewrite length_to_bytes; unfold slen; lia).
  rewrite ReadFull_ignored_app by (unfold zlen; lia).
  rewrite of_to_bytes. by destruct e.
Qed.

Lemma Next_nil : Next [] = None.
Proof. done. Qed.

Lemma read_all_encode es n : Forall entry_fits es -> (length es < n)%nat ->
  read_all n (encode_table es) = es.
Proof.
  intros Hes; revert n; induction Hes as [|e es He _ IH]; intros [|n] Hn; simpl in Hn; try lia.
  - done.
  - cbn [read_all]. rewrite encode_table_cons, Next_encode by done. rewrite IH by lia. done.
Qed.

Lemma last_entry_app k es fs o :
  fold_left (fun o e => if decide (Key e = k) then Some e else o) (es ++ fs) o
  = fold_left (fun o e => if decide (Key e = k) then Some e else o) fs
      (fold_left (fun o e => if decide (Key e = k) then Some e else o) es o).
Proof. apply fold_left_app. Qed.

Lemma last_entry_notin k es o : k ∉ (Key <$> es) ->
  fold_left (fun o e => if decide (Key e = k) then Some e else o) es o = o.
Proof.
  revert o; induction es as [|e es IH]; intros o H; [done|].
  rewrite fmap_cons, not_elem_of_cons in H. destruct H as [H1 H2]. cbn [fold_left].
  rewrite IH by done. by rewrite decide_False.
Qed.

Lemma last_entry_in k es : last_entry k es = None <-> k ∉ (Key <$> es).
Proof.
  split; [|intros; by apply (last_entry_notin k es None)].
  intros Hn Hin. apply list_elem_of_fmap in Hin as (e & -> & He).
  apply list_elem_of_split in He as (pre & post & ->). unfold last_entry in Hn.
  rewrite fold_left_app in Hn. cbn [fold_left] in Hn. rewrite decide_True in Hn by done. revert Hn.
  enough (forall y, fold_left (fun o x => if decide (Key x = Key e) then Some x else o) post (Some y)
    <> None) as H by apply H.
  clear. induction post as [|x post IH]; intros y; [done|]. cbn [fold_left]. case_decide; apply IH.
Qed.

Lemma last_entry_split k pre e post : Key e = k -> k ∉ (Key <$> post) ->
  last_entry k (pre ++ e :: post) = Some e.
Proof.
  intros Hk Hp. unfold last_entry. rewrite last_entry_app. cbn [fold_left].
  rewrite last_entry_notin by done. by rewrite decide_True.
Qed.

Lemma last_entry_nodup k es e : NoDup (Key <$> es) -> e ∈ es -> Key e = k -> last_entry k es = Some e.
Proof.
  intros Hn He Hk. apply list_elem_of_split in He as (pre & post & ->).
  apply last_entry_split; [done|]. rewrite fmap_app, fmap_cons in Hn.
  apply NoDup_app in Hn as (_ & _ & Hn). apply NoDup_cons in Hn as [Hn _]. by subst k.
Qed.

Lemma last_entry_Some k es e : last_entry k es = Some e -> e ∈ es /\ Key e = k.
Proof.
  unfold last_entry.
  enough (forall o, (forall e, o = Some e -> e ∈ es /\ Key e = k) ->
    forall l, (forall x, x ∈ l -> x ∈ es) ->
    fold_left (fun o e => if decide (Key e = k) then Some e else o) l o = Some e ->
    e ∈ es /\ Key e = k) as H.
  { intros Hl. apply (H None) with es; [done|done|done]. }
  intros o Ho l; revert o Ho; induction l as [|x l IH]; intros o Ho Hsub; cbn [fold_left]; [apply Ho|].
  apply IH; [|intros; apply Hsub; by constructor 2].
  intros e'. case_decide; [|apply Ho]. intros [= <-]. split; [apply Hsub; constructor|done].
Qed.

(** A written table answers lookups with the last entry of each key. *)
Lemma FindInSSTable_last meta es fs k : table_file meta es fs ->
  FindInSSTable meta k fs = last_entry k es.
Proof.
  intros (Hf & Hnone & Hsome & Hfits). unfold FindInSSTable.
  destruct (Index meta !! k) as [p|] eqn:E.
  2: { apply Hnone in E. unfold last_entry. by rewrite last_entry_notin. }
  destruct (Hsome k p E) as (pre & e & post & -> & Hk & Hpost & ->).
  rewrite last_entry_split by done. rewrite Hf.
  rewrite encode_table_app, encode_table_cons. unfold zlen. rewrite Nat2Z.id, drop_app_length.
  apply Forall_app in Hfits as [_ Hfits]. inversion Hfits as [|? ? He _]; subst.
  destruct (decode_header e He) as (Hk & Hv & Hx & Hd).
  unfold encode_entry. rewrite <- !app_assoc.
  rewrite ReadFull_ignored_app by apply length_encode_header.
  rewrite Hk, Hv, Hx, Hd. rewrite drop_app_length' by (rewrite length_to_bytes; unfold slen; lia).
  rewrite ReadFull_ignored_app by (unfold zlen; lia). by destruct e.
Qed.

(** The identifier of the names the flush and compaction agents make. *)
Lemma parse_file_id_name dir prefix id : no_char "/" prefix -> no_char "_" prefix ->
  0 <= id < 2 ^ 63 ->
  parse_file_id (dir ++ String "/" (prefix ++ String "_" (print_int id ++ ".sst"))) = id.
Proof.
  intros H1 H2 Hid. unfold parse_file_id.
  assert (forall c, digit_value c = None -> c <> "-"%char -> no_char c ".sst" ->
    no_char c (print_int id ++ ".sst")) as Hc.
  { intros c Hd Hm Hs. by apply no_char_app; [apply print_int_no_char|]. }
  rewrite Base_app.
  2: { apply no_char_app; [done|]. constructor; [done|]. apply Hc; [done|done|].
       repeat constructor; done. }
  rewrite Split_app by done. rewrite Split_no_sep.
  2: { apply Hc; [done|done|]. repeat constructor; done. }
  rewrite TrimSuffix_app, ParseInt_print_int by done. done.
Qed.

(** *** The writer's loop *)

Definition index_ok (es : list Entry) (m : gmap string Z) : Prop :=
  (forall k, m !! k = None <-> (k ∉ (Key <$> es))) /\
  (forall k p, m !! k = Some p -> exists pre e post,
     es = pre ++ e :: post /\ Key e = k /\ (k ∉ (Key <$> post)) /\ p = zlen (encode_table pre)).

Lemma index_ok_snoc es e m : index_ok es m ->
  index_ok (es ++ [e]) (<[Key e := zlen (encode_table es)]> m).
Proof.
  intros [Hn Hs]. split.
  - intros k. rewrite lookup_insert_None, Hn, fmap_app, not_elem_of_app.
    change (Key <$> [e]) with [Key e]. rewrite list_elem_of_singleton.
    intuition congruence.
  - intros k p [[<- <-]|[Hne Hp]]%lookup_insert_Some.
    + exists es, e, []. split_and!; try done. apply not_elem_of_nil.
    + destruct (Hs k p Hp) as (pre & e' & post & -> & Hk & Hpost & ->).
      exists pre, e', (post ++ [e]). split_and!; [by rewrite <- app_assoc|done| |done].
      rewrite fmap_app, not_elem_of_app. change (Key <$> [e]) with [Key e].
      rewrite list_elem_of_singleton. split; [done|]. by intros ->.
Qed.

Section WriterSpec.
Context `{BloomFilterLaws B}.

Definition bloom_opt_ok (bloom : option B) : Prop :=
  match bloom with None => True | Some b => bloom_ok b end.

(** A filter that may be absent answers "possibly present" when absent. *)
Definition bloom_has (bloom : option B) (id : Z) (k : string) : Prop :=
  match bloom with None => True | Some b => bloom_Contains id (to_bytes k) b = Some true end.

Lemma bloom_add_key_spec id k bloom : bloom_opt_ok bloom -> 0 <= id ->
  exists bloom', bloom_add_key id k bloom = Some bloom' /\ bloom_opt_ok bloom' /\
    bloom_has bloom' id k /\
    forall id' k', 0 <= id' -> bloom_has bloom id' k' -> bloom_has bloom' id' k'.
Proof.
  intros Hok Hid. destruct bloom as [b|]; simpl in *; [|by exists None].
  destruct (bloom_add_ok id (to_bytes k) b Hok Hid) as (b' & Ha & Hok'). rewrite Ha.
  exists (Some b'). split_and!; [done|done|by apply (bloom_contains_add id (to_bytes k) b b')|].
  intros id' k' Hid'. simpl. by apply (bloom_contains_mono id (to_bytes k) id' (to_bytes k') b b').
Qed.

Lemma write_loop_spec fileID n es : forall done i st,
  0 <= fileID -> zlen (encode_table (done ++ es)) < 2 ^ 63 ->
  w_out st = encode_table done -> w_offset st = zlen (encode_table done) ->
  index_ok done (w_index st) -> bloom_opt_ok (w_bloom st) ->
  exists st', write_loop fileID n i es st = Some st' /\
    w_out st' = encode_table (done ++ es) /\ index_ok (done ++ es) (w_index st') /\
    bloom_opt_ok (w_bloom st') /\
    (forall k, k ∈ (Key <$> es) -> bloom_has (w_bloom st') fileID k) /\
    (forall id k, 0 <= id -> bloom_has (w_bloom st) id k -> bloom_has (w_bloom st') id k).
Proof.
  induction es as [|e es IH]; intros done i st Hid Hlen Hout Hoff Hidx Hb.
  { exists st. rewrite app_nil_r. split_and!; try done. intros k Hk. by inversion Hk. }
  cbn [write_loop]. unfold write_entry.
  destruct (bloom_add_key_spec fileID (Key e) (w_bloom st) Hb Hid) as (bl & -> & Hbl & Hin & Hm).
  set (st1 := mkWrite _ _ _ _ _ _).
  assert ((done ++ [e]) ++ es = done ++ e :: es) as Happ by (by rewrite <- app_assoc).
  assert (encode_table (done ++ [e]) = encode_table done ++ encode_entry e) as Henc.
  { rewrite encode_table_app. f_equal. unfold encode_table. simpl. by rewrite app_nil_r. }
  destruct (IH (done ++ [e]) (S i) st1) as (st' & -> & Hout' & Hidx' & Hb' & Hk' & Hm').
  - done.
  - by rewrite Happ.
  - subst st1. cbn [w_out]. rewrite Hout, Henc. done.
  - subst st1. cbn [w_offset]. rewrite Hoff, Henc, zlen_app, zlen_encode_entry.
    rewrite <- Happ, encode_table_app, Henc, !zlen_app, zlen_encode_entry in Hlen.
    pose proof (zlen_nonneg (encode_table done)). pose proof (zlen_nonneg (encode_table es)).
    pose proof (zlen_nonneg (Value e)). assert (0 <= slen (Key e)) by (unfold slen; lia).
    rewrite i64_add_r. apply i64_small. unfold is_i64. lia.
  - subst st1. cbn [w_index]. rewrite Hoff. by apply index_ok_snoc.
  - done.
  - exists st'. rewrite Happ in *. split_and!; try done.
    + intros k. rewrite fmap_cons, elem_of_cons. intros [->|Hk]; [|by apply Hk'].
      apply Hm'; [done|]. done.
    + intros id k Hid' Hk. apply Hm'; [done|]. by apply Hm.
Qed.

Lemma write_loop_bounds fileID n es : forall i st st',
  write_loop fileID n i es st = Some st' -> n = (i + length es)%nat ->
  (es <> [] -> i = 0%nat -> Some (w_min st') = Key <$> head es) /\
  ((0 < i)%nat -> w_min st' = w_min st) /\
  (es <> [] -> Some (w_max st') = Key <$> last es).
Proof.
  induction es as [|e es IH]; intros i st st' Hw Hn; cbn [write_loop] in Hw.
  { injection Hw as <-. done. }
  unfold write_entry in Hw. destruct (bloom_add_key _ _ _) as [bl|]; [|done].
  simpl in Hn. destruct (IH _ _ _ Hw) as (_ & Hmin & Hmax); [lia|]. cbn [w_min w_max] in *.
  specialize (Hmin ltac:(lia)). split_and!.
  - intros _ ->. simpl in Hmin. by rewrite Hmin.
  - intros Hi. rewrite Hmin. by rewrite decide_False by lia.
  - intros _. destruct es as [|e2 es].
    + cbn [write_loop] in Hw. injection Hw as <-. simpl. rewrite decide_True; [done|].
      simpl in Hn. lia.
    + rewrite last_cons_cons. by apply Hmax.
Qed.

(** The table a successful write leaves behind. *)
Lemma Write_spec es filename level bloom fs :
  0 <= parse_file_id filename -> zlen (encode_table es) < 2 ^ 63 -> Forall entry_fits es ->
  bloom_opt_ok bloom -> openable fs filename = true ->
  exists meta bloom',
    let fs' := fs_write filename (encode_table es) fs in
    WriteSortedStringTableToDisk es filename level bloom fs = Ok (meta, bloom', fs') /\
    table_file meta es fs' /\ Filename meta = filename /\ FileID meta = parse_file_id filename /\
    bloom_opt_ok bloom' /\ (forall k, k ∈ (Key <$> es) -> bloom_has bloom' (FileID meta) k) /\
    (forall id k, 0 <= id -> bloom_has bloom id k -> bloom_has bloom' id k).
Proof.
  intros Hid Hlen Hfits Hb Hopen.
  destruct (write_loop_spec (parse_file_id filename) (length es) es [] 0
    (mkWrite [] ∅ 0 "" "" bloom)) as (st & Hw & Hout & Hidx & Hb' & Hk & Hm).
  all: try done.
  { split; cbn [w_index]; [|by intros k p Hp].
    intros k. split; [intros _; apply not_elem_of_nil|done]. }
  unfold WriteSortedStringTableToDisk, os_Create. rewrite Hopen, Hw, Hout. simpl app.
  eexists _, (w_bloom st). cbv zeta. split.
  { unfold fs_write. cbn [files openable]. rewrite insert_insert_eq. reflexivity. }
  split_and!; try done. destruct Hidx as [H1 H2]. split; [|done].
  unfold os_Open. cbn. rewrite Hopen. apply lookup_insert_eq.
Qed.

End WriterSpec.

(** ** Properties *)

(** C32. a written table gives back what was written. When the file can be
    created, writing entries (in any order, duplicate keys allowed) succeeds;
    the sequential reader then yields exactly the entries, the indexed lookup
    yields the last entry of each key and nothing for other keys, and the Bloom
    filter (any implementation of the interface, or none) admits every key of
    the table. *)
Theorem SSTable_write_read `{BloomFilterLaws B} es filename level (bloom : option B) fs :
  openable fs filename = true -> Forall entry_fits es -> zlen (encode_table es) < 2 ^ 63 ->
  bloom_opt_ok bloom -> 0 <= parse_file_id filename ->
  exists meta bloom' fs',
    WriteSortedStringTableToDisk es filename level bloom fs = Ok (meta, bloom', fs') /\
    (exists r, NewSSTableReader filename fs' = Some r /\ read_all (S (length es)) r = es) /\
    (forall k, FindInSSTable meta k fs' = last_entry k es) /\
    (forall k, k ∈ (Key <$> es) -> bloom_has bloom' (FileID meta) k).
Proof.
  intros Hopen Hfits Hlen Hb Hid.
  destruct (Write_spec es filename level bloom fs) as (meta & bloom' & Hw & Ht & Hf & _ & _ & Hk & _);
    [done..|].
  exists meta, bloom', (fs_write filename (encode_table es) fs). split_and!; [done| | |done].
  - exists (encode_table es). split; [|apply read_all_encode; [done|lia]].
    destruct Ht as [Ht _]. by rewrite Hf in Ht.
  - intros k. by apply FindInSSTable_last.
Qed.

From S2P Require Import Bloom.

Definition table_example : list Entry :=
  [mkEntry "a" (to_bytes "1") 0 false; mkEntry "b" [] 7 true].

Lemma SSTable_write_read_witness :
  exists meta (bloom' : option SharedBloomFilter) fs',
    WriteSortedStringTableToDisk table_example "data/L0_42.sst" 0 (Some (new_sized 128 3))
      (mkFS ∅ (fun _ => true)) = Ok (meta, bloom', fs') /\
    (exists r, NewSSTableReader "data/L0_42.sst" fs' = Some r /\ read_all 3 r = table_example) /\
    (forall k, FindInSSTable meta k fs' = last_entry k table_example) /\
    (forall k, k ∈ (Key <$> table_example) -> bloom_has bloom' (FileID meta) k).
Proof.
  apply (SSTable_write_read table_example "data/L0_42.sst" 0 (Some (new_sized 128 3))
    (mkFS ∅ (fun _ => true))).
  - reflexivity.
  - repeat constructor; vm_compute; congruence.
  - vm_compute. reflexivity.
  - apply new_sized_ok.
  - vm_compute. congruence.
Defined.
