(* ===== verification/LruCache.v ===== *)
(** The LRU cache, internal/cache/lru_cache.go: a doubly linked list of entries
    and a map from keys to list elements. The elements are objects with an
    identity (pointers, here numbers); the map and the list share them. *)
From S2P Require Import Prelude.

(** ** Definitions *)

Record cacheEntry := mkCacheEntry { key : string; value : bytes }.

(** [evictionList] lists the elements front (most recent) to back; [heap] holds
    the [*cacheEntry] of each element ever allocated. *)
Record LruCache := mkLru {
  CapacityCount : Z;
  evictionList : list nat;
  itemsMap : gmap string nat;
  heap : gmap nat cacheEntry;
  next_elem : nat;
}.

Definition NewLruCache (capacity : Z) : LruCache := mkLru capacity [] ∅ ∅ 0.

(** container/list: [MoveToFront], [Remove], [PushFront] on element pointers. *)
Definition list_Remove (e : nat) (l : list nat) : list nat := filter (fun x => x <> e) l.
Definition list_MoveToFront (e : nat) (l : list nat) : list nat := e :: list_Remove e l.

Definition RetrieveFromCache (k : string) (c : LruCache) : option bytes * LruCache :=
  match itemsMap c !! k with
  | None => (None, c)
  | Some element =>
    let c' := mkLru (CapacityCount c) (list_MoveToFront element (evictionList c))
                (itemsMap c) (heap c) (next_elem c) in
    (value <$> heap c !! element, c')
  end.

Definition updateExistingEntry (element : nat) (v : bytes) (c : LruCache) : LruCache :=
  mkLru (CapacityCount c) (list_MoveToFront element (evictionList c)) (itemsMap c)
    (alter (fun entry => mkCacheEntry (key entry) v) element (heap c)) (next_elem c).

Definition addNewEntry (k : string) (v : bytes) (c : LruCache) : LruCache :=
  let element := next_elem c in
  mkLru (CapacityCount c) (element :: evictionList c) (<[k := element]> (itemsMap c))
    (<[element := mkCacheEntry k v]> (heap c)) (S element).

Definition enforceCapacity (c : LruCache) : LruCache :=
  if zlen (evictionList c) <=? CapacityCount c then c
  else match last (evictionList c) with
       | None => c
       | Some oldest =>
         mkLru (CapacityCount c) (list_Remove oldest (evictionList c))
           (match heap c !! oldest with
            | Some entry => delete (key entry) (itemsMap c)
            | None => itemsMap c
            end) (heap c) (next_elem c)
       end.

Definition InsertIntoCache (k : string) (v : bytes) (c : LruCache) : LruCache :=
  match itemsMap c !! k with
  | Some element => updateExistingEntry element v c
  | None => enforceCapacity (addNewEntry k v c)
  end.

Definition RemoveFromCache (k : string) (c : LruCache) : LruCache :=
  match itemsMap c !! k with
  | None => c
  | Some element =>
    mkLru (CapacityCount c) (list_Remove element (evictionList c)) (delete k (itemsMap c))
      (heap c) (next_elem c)
  end.

(** *** Specification: the (key, value) pairs, most recently used first. *)

Module Spec.
Abbreviation cache := (list (string * bytes)).

Definition lookup (k : string) (c : cache) : option bytes :=
  snd <$> List.find (fun p => bool_decide (fst p = k)) c.

Definition remove (k : string) (c : cache) : cache := filter (fun p => fst p <> k) c.

Definition retrieve (k : string) (c : cache) : option bytes * cache :=
  match lookup k c with
  | None => (None, c)
  | Some v => (Some v, (k, v) :: remove k c)
  end.

(** A new key evicts the least recently used pair when the cache is full. *)
Definition insert (cap : Z) (k : string) (v : bytes) (c : cache) : cache :=
  match lookup k c with
  | Some _ => (k, v) :: remove k c
  | None => let c' := (k, v) :: c in
            if zlen c' <=? cap then c' else removelast c'
  end.
End Spec.

Definition pair_of (h : gmap nat cacheEntry) (e : nat) : string * bytes :=
  match h !! e with Some entry => (key entry, value entry) | None => (""%string, []) end.

Definition abs (c : LruCache) : Spec.cache := pair_of (heap c) <$> evictionList c.

(** The map points at exactly the listed elements, each under its own key. *)
Definition lru_ok (c : LruCache) : Prop :=
  NoDup (evictionList c) /\
  (forall k e, itemsMap c !! k = Some e <->
     e ∈ evictionList c /\ exists v, heap c !! e = Some (mkCacheEntry k v)) /\
  (forall e, e ∈ evictionList c -> is_Some (heap c !! e)) /\
  (forall e, is_Some (heap c !! e) -> (e < next_elem c)%nat).

(** ** Lemmas *)

Lemma NewLruCache_ok cap : lru_ok (NewLruCache cap).
Proof.
  split_and!; simpl.
  - constructor.
  - intros k e. split; [done|]. intros [H _]. by inversion H.
  - intros e H. by inversion H.
  - by intros e [].
Qed.

Lemma elem_of_Remove e x l : x ∈ list_Remove e l <-> x <> e /\ x ∈ l.
Proof. unfold list_Remove. by rewrite list_elem_of_filter. Qed.

Lemma NoDup_Remove e l : NoDup l -> NoDup (list_Remove e l).
Proof. apply NoDup_filter. Qed.

Lemma elem_of_MoveToFront e x l : e ∈ l -> x ∈ list_MoveToFront e l <-> x ∈ l.
Proof.
  intros He. unfold list_MoveToFront. rewrite elem_of_cons, elem_of_Remove.
  destruct (decide (x = e)) as [->|]; intuition.
Qed.

Lemma NoDup_MoveToFront e l : NoDup l -> NoDup (list_MoveToFront e l).
Proof.
  intros H. constructor; [|by apply NoDup_Remove]. rewrite elem_of_Remove. by intros [].
Qed.

Section Abstraction.
Variable c : LruCache.
Hypothesis Hok : lru_ok c.

(** A listed element is the one the map has for its key. *)
Lemma abs_key e k : e ∈ evictionList c -> fst (pair_of (heap c) e) = k <-> itemsMap c !! k = Some e.
Proof.
  destruct Hok as (_ & Hmap & Hheap & _). intros He.
  destruct (Hheap e He) as [[k' v] Hh]. unfold pair_of. rewrite Hh. simpl. rewrite Hmap, Hh. split.
  - intros ->. eauto.
  - intros (_ & v' & [= -> _]). done.
Qed.

Lemma abs_lookup k : Spec.lookup k (abs c) = itemsMap c !! k ≫= fun e => value <$> heap c !! e.
Proof.
  unfold Spec.lookup, abs.
  destruct Hok as (_ & Hmap & Hheap & _).
  assert (forall l : list nat, (forall e, e ∈ l -> e ∈ evictionList c) ->
    (forall e, itemsMap c !! k = Some e -> e ∈ l \/ e ∉ evictionList c) ->
    snd <$> List.find (fun p => bool_decide (fst p = k)) (pair_of (heap c) <$> l)
    = itemsMap c !! k ≫= fun e => value <$> heap c !! e) as H.
  2: { apply H; [done|]. intros e [He _]%Hmap. by left. }
  induction l as [|e l IH]; intros Hl Hk; simpl.
  - destruct (itemsMap c !! k) as [e|] eqn:E; [|done].
    destruct (Hk e eq_refl) as [Hn|Hn]; [by inversion Hn|]. by apply Hmap in E as [].
  - assert (e ∈ evictionList c) as He by (apply Hl; constructor).
    case_bool_decide as Hd.
    + apply abs_key in Hd; [|done]. rewrite Hd. simpl. unfold pair_of.
      by destruct (Hheap e He) as [[] ->].
    + apply IH; [intros; apply Hl; by constructor|]. intros e' He'.
      destruct (Hk e' He') as [Hin|]; [|by right]. apply elem_of_cons in Hin as [->|]; [|by left].
      exfalso. by apply Hd, abs_key.
Qed.

Lemma abs_remove k e : itemsMap c !! k = Some e ->
  pair_of (heap c) <$> list_Remove e (evictionList c) = Spec.remove k (abs c).
Proof.
  intros He. unfold abs, Spec.remove, list_Remove.
  assert (forall l : list nat, (forall x, x ∈ l -> x ∈ evictionList c) ->
    pair_of (heap c) <$> filter (fun x => x <> e) l
    = filter (fun p : string * bytes => fst p <> k) (pair_of (heap c) <$> l)) as H; [|by apply H].
  induction l as [|x l IH]; intros Hl; [done|].
  rewrite fmap_cons, !filter_cons.
  assert (x ∈ evictionList c) as Hx by (apply Hl; constructor).
  rewrite <- (IH (fun y Hy => Hl y (list_elem_of_further _ _ _ Hy))).
  destruct (decide (x <> e)) as [Hne|Hne].
  - rewrite decide_True; [done|]. intros Hk. apply abs_key in Hk; [|done]. congruence.
  - apply dec_stable in Hne as ->. rewrite decide_False; [done|]. intros Hk. by apply Hk, abs_key.
Qed.

End Abstraction.

Lemma heap_of_listed c e : lru_ok c -> e ∈ evictionList c -> exists k v,
  heap c !! e = Some (mkCacheEntry k v) /\ itemsMap c !! k = Some e.
Proof.
  intros (_ & Hmap & Hheap & _) He. destruct (Hheap e He) as [[k v] Hh].
  exists k, v. split; [done|]. apply Hmap. eauto.
Qed.

Lemma RetrieveFromCache_spec k c : lru_ok c ->
  let '(r, c') := RetrieveFromCache k c in
  lru_ok c' /\ CapacityCount c' = CapacityCount c /\
  Spec.retrieve k (abs c) = (r, abs c').
Proof.
  intros Hok. unfold RetrieveFromCache, Spec.retrieve. rewrite abs_lookup by done.
  destruct (itemsMap c !! k) as [e|] eqn:E; [|done]. simpl.
  pose proof Hok as (Hnd & Hmap & Hheap & Hfresh).
  pose proof (proj1 (Hmap k e) E) as (Hin & v & Hh). rewrite Hh. simpl. split_and!; [|done|].
  - split_and!; simpl; [by apply NoDup_MoveToFront| | |done].
    + intros k' e'. by rewrite elem_of_MoveToFront, Hmap.
    + intros e'. rewrite elem_of_MoveToFront by done. apply Hheap.
  - f_equal. unfold abs at 2. simpl. rewrite <- (abs_remove c Hok k e E).
    f_equal. unfold pair_of. by rewrite Hh.
Qed.

Lemma pair_of_alter h e f (l : list nat) : e ∉ l ->
  pair_of (alter f e h) <$> l = pair_of h <$> l.
Proof.
  intros He. apply list_fmap_ext. intros i x Hx%list_elem_of_lookup_2.
  unfold pair_of. rewrite lookup_alter_ne; [done|]. by intros ->.
Qed.

Lemma updateExistingEntry_spec k e v c : lru_ok c -> itemsMap c !! k = Some e ->
  lru_ok (updateExistingEntry e v c) /\
  abs (updateExistingEntry e v c) = (k, v) :: Spec.remove k (abs c).
Proof.
  intros Hok E. pose proof Hok as (Hnd & Hmap & Hheap & Hfresh).
  pose proof (proj1 (Hmap k e) E) as (Hin & v0 & Hh). split.
  - split_and!; simpl; [by apply NoDup_MoveToFront| | |].
    + intros k' e'. rewrite elem_of_MoveToFront, Hmap by done.
      destruct (decide (e = e')) as [<-|Hne]; [|by rewrite lookup_alter_ne].
      rewrite lookup_alter_eq, Hh. simpl. split; intros (? & v' & [= <- _]); eauto.
    + intros e'. rewrite elem_of_MoveToFront by done. intros He'.
      destruct (decide (e = e')) as [<-|Hne]; [by rewrite lookup_alter_eq, Hh|].
      rewrite lookup_alter_ne by done. by apply Hheap.
    + intros e'. destruct (decide (e = e')) as [<-|Hne]; [intros _; apply Hfresh; by rewrite Hh|].
      rewrite lookup_alter_ne by done. apply Hfresh.
  - unfold abs at 1. cbn [updateExistingEntry heap evictionList]. unfold list_MoveToFront.
    rewrite fmap_cons. f_equal.
    + unfold pair_of. by rewrite lookup_alter_eq, Hh.
    + rewrite pair_of_alter; [by apply abs_remove|]. rewrite elem_of_Remove. by intros [].
Qed.

Lemma addNewEntry_spec k v c : lru_ok c -> itemsMap c !! k = None ->
  lru_ok (addNewEntry k v c) /\ abs (addNewEntry k v c) = (k, v) :: abs c.
Proof.
  intros Hok E. pose proof Hok as (Hnd & Hmap & Hheap & Hfresh).
  assert (forall e, e ∈ evictionList c -> next_elem c <> e) as Hne.
  { intros e He <-. apply Hheap, Hfresh in He. lia. }
  split.
  - split_and!; simpl.
    + constructor; [|done]. intros He. by apply (Hne _ He).
    + intros k' e'. rewrite elem_of_cons. split.
      * intros [[<- <-]|[Hk He]]%lookup_insert_Some.
        { split; [by left|]. exists v. by rewrite lookup_insert_eq. }
        apply Hmap in He as (Hin & v' & Hh). split; [by right|]. exists v'.
        by rewrite lookup_insert_ne by (by apply Hne).
      * intros ([->|Hin] & v' & Hh).
        { rewrite lookup_insert_eq in Hh. injection Hh as <- _. by rewrite lookup_insert_eq. }
        rewrite lookup_insert_ne in Hh by (by apply Hne).
        assert (itemsMap c !! k' = Some e') as Hk' by (apply Hmap; eauto).
        rewrite lookup_insert_ne; [done|]. intros <-. congruence.
    + intros e' [->|Hin]%elem_of_cons; [by rewrite lookup_insert_eq|].
      rewrite lookup_insert_ne by (by apply Hne). by apply Hheap.
    + intros e'. destruct (decide (next_elem c = e')) as [<-|Hn]; [lia|].
      rewrite lookup_insert_ne by done. intros ?%Hfresh. lia.
  - unfold abs at 1. cbn [addNewEntry heap evictionList]. rewrite fmap_cons. f_equal.
    + unfold pair_of. by rewrite lookup_insert_eq.
    + apply list_fmap_ext. intros i x Hx%list_elem_of_lookup_2. unfold pair_of.
      by rewrite lookup_insert_ne by (by apply Hne).
Qed.

Lemma list_Remove_notin e l : e ∉ l -> list_Remove e l = l.
Proof.
  unfold list_Remove. induction l as [|x l IH]; [done|].
  rewrite not_elem_of_cons. intros [Hx Hl]. rewrite filter_cons, decide_True by congruence.
  by rewrite IH.
Qed.

Lemma list_Remove_last e l : NoDup l -> last l = Some e -> list_Remove e l = removelast l.
Proof.
  destruct l as [|x l _] using rev_ind; [done|]. rewrite last_snoc, removelast_last.
  intros Hnd [= ->]. apply NoDup_app in Hnd as (_ & Hd & _).
  assert (e ∉ l) as He by (intros H; apply (Hd _ H); constructor).
  unfold list_Remove. rewrite filter_app. fold (list_Remove e l).
  rewrite list_Remove_notin by done. cbn. rewrite decide_False by tauto. by rewrite app_nil_r.
Qed.

Lemma fmap_removelast {A B} (f : A -> B) l : f <$> removelast l = removelast (f <$> l).
Proof. induction l as [|x [|y l] IH]; [done..|]. cbn in *. by rewrite IH. Qed.

(** Evicting keeps the invariant and drops the least recently used pair. *)
Lemma evict_ok c e : lru_ok c -> e ∈ evictionList c -> forall k v,
  heap c !! e = Some (mkCacheEntry k v) ->
  lru_ok (mkLru (CapacityCount c) (list_Remove e (evictionList c)) (delete k (itemsMap c))
            (heap c) (next_elem c)).
Proof.
  intros Hok He k v Hh. pose proof Hok as (Hnd & Hmap & Hheap & Hfresh).
  assert (itemsMap c !! k = Some e) as Hk by (apply Hmap; eauto).
  split_and!; simpl; [by apply NoDup_Remove| | |done].
  - intros k' e'. rewrite elem_of_Remove, lookup_delete_Some, Hmap. split.
    + intros (Hne & Hin & v' & Hh'). split_and!; [|done|by eauto].
      intros ->. rewrite Hh in Hh'. congruence.
    + intros ((Hne & Hin) & v' & Hh'). split_and!; [|done|by eauto].
      intros ->. apply Hne. assert (itemsMap c !! k' = Some e') by (apply Hmap; eauto). congruence.
  - intros e' [_ He']%elem_of_Remove. by apply Hheap.
Qed.

Lemma enforceCapacity_spec c : lru_ok c ->
  lru_ok (enforceCapacity c) /\
  abs (enforceCapacity c)
  = (if zlen (abs c) <=? CapacityCount c then abs c else removelast (abs c)).
Proof.
  intros Hok. unfold enforceCapacity.
  assert (zlen (abs c) = zlen (evictionList c)) as ->.
  { unfold abs, zlen. by rewrite length_fmap. }
  destruct (zlen (evictionList c) <=? CapacityCount c); [done|].
  destruct (last (evictionList c)) as [e|] eqn:E.
  2: { apply last_None in E. unfold abs. rewrite E. done. }
  assert (e ∈ evictionList c) as He by (by apply last_Some_elem_of).
  destruct (heap_of_listed c e Hok He) as (k & v & Hh & Hk). rewrite Hh. cbn [key]. split.
  - by eapply evict_ok.
  - unfold abs. cbn. rewrite (list_Remove_last e) by (done || apply Hok). apply fmap_removelast.
Qed.

Lemma InsertIntoCache_spec k v c : lru_ok c ->
  lru_ok (InsertIntoCache k v c) /\
  CapacityCount (InsertIntoCache k v c) = CapacityCount c /\
  abs (InsertIntoCache k v c) = Spec.insert (CapacityCount c) k v (abs c).
Proof.
  intros Hok. unfold InsertIntoCache, Spec.insert. rewrite abs_lookup by done.
  destruct (itemsMap c !! k) as [e|] eqn:E; simpl.
  - destruct (heap_of_listed c e Hok) as (k' & v' & Hh & _); [by apply Hok in E as []|].
    rewrite Hh. simpl. destruct (updateExistingEntry_spec k e v c Hok E) as [? ->]. done.
  - destruct (addNewEntry_spec k v c Hok E) as [Ha Habs].
    destruct (enforceCapacity_spec _ Ha) as [He Habs']. rewrite Habs', Habs.
    split_and!; [done| |done]. unfold enforceCapacity. repeat case_match; done.
Qed.

Lemma RemoveFromCache_spec k c : lru_ok c ->
  lru_ok (RemoveFromCache k c) /\
  CapacityCount (RemoveFromCache k c) = CapacityCount c /\
  abs (RemoveFromCache k c) = Spec.remove k (abs c).
Proof.
  intros Hok. unfold RemoveFromCache. destruct (itemsMap c !! k) as [e|] eqn:E.
  - pose proof (proj1 (proj1 (proj2 Hok) k e) E) as (Hin & v & Hh).
    split_and!; [by eapply evict_ok|done|]. unfold abs at 1. cbn. by apply abs_remove.
  - split_and!; [done|done|]. symmetry. unfold Spec.remove, abs.
    assert (forall l : list nat, (forall x, x ∈ l -> x ∈ evictionList c) ->
      filter (fun p : string * bytes => fst p <> k) (pair_of (heap c) <$> l)
      = pair_of (heap c) <$> l) as H; [|by apply H].
    induction l as [|x l IH]; intros Hl; [done|]. rewrite fmap_cons, filter_cons, decide_True.
    + f_equal. apply IH. intros; apply Hl. by constructor.
    + intros Hx. apply abs_key in Hx; [congruence|done|]. apply Hl. constructor.
Qed.

(** *** Lookups in the recency list *)

Lemma spec_lookup_cons k k' v c :
  Spec.lookup k' ((k, v) :: c) = if decide (k = k') then Some v else Spec.lookup k' c.
Proof.
  unfold Spec.lookup. cbn [List.find fst]. case_bool_decide as E; simpl in E.
  - by rewrite decide_True.
  - by rewrite decide_False.
Qed.

Lemma spec_lookup_remove k k' c :
  Spec.lookup k' (Spec.remove k c) = if decide (k = k') then None else Spec.lookup k' c.
Proof.
  induction c as [|[k0 v0] c IH]; [by case_decide|].
  unfold Spec.remove in *. rewrite filter_cons. cbn [fst].
  destruct (decide (k0 <> k)) as [Hne|He]; [|apply dec_stable in He; subst k0].
  - rewrite !spec_lookup_cons, IH. repeat case_decide; congruence.
  - rewrite IH, spec_lookup_cons. by case_decide.
Qed.

Lemma spec_lookup_retrieve k k' c : Spec.lookup k' (Spec.retrieve k c).2 = Spec.lookup k' c.
Proof.
  unfold Spec.retrieve. destruct (Spec.lookup k c) as [v|] eqn:E; [|done]. cbn [snd].
  rewrite spec_lookup_cons, spec_lookup_remove. case_decide; congruence.
Qed.

Lemma spec_lookup_removelast k c v : Spec.lookup k (removelast c) = Some v -> Spec.lookup k c = Some v.
Proof.
  induction c as [|[k0 v0] c IH]; [done|]. destruct c as [|p c]; [done|].
  change (removelast ((k0, v0) :: p :: c)) with ((k0, v0) :: removelast (p :: c)).
  rewrite !spec_lookup_cons. by case_decide.
Qed.

(** An insertion adds its own pair at most, and may evict others. *)
Lemma spec_lookup_insert cap k v k' v' c : Spec.lookup k' (Spec.insert cap k v c) = Some v' ->
  if decide (k = k') then v' = v else Spec.lookup k' c = Some v'.
Proof.
  unfold Spec.insert. destruct (Spec.lookup k c).
  - rewrite spec_lookup_cons, spec_lookup_remove. case_decide; congruence.
  - assert (Spec.lookup k' ((k, v) :: c) = Some v' ->
      if decide (k = k') then v' = v else Spec.lookup k' c = Some v') as H.
    { rewrite spec_lookup_cons. case_decide; congruence. }
    cbn zeta. destruct (_ <=? cap); [exact H|]. intros Hr. by apply H, spec_lookup_removelast.
Qed.

(** With room for one pair, the pair inserted is found. *)
Lemma spec_lookup_inserted cap k v c : 1 <= cap -> zlen c <= cap ->
  Spec.lookup k (Spec.insert cap k v c) = Some v.
Proof.
  intros Hcap Hlen. unfold Spec.insert. destruct (Spec.lookup k c).
  - by rewrite spec_lookup_cons, decide_True.
  - cbn zeta. destruct (Z.leb_spec (zlen ((k, v) :: c)) cap); [by rewrite spec_lookup_cons, decide_True|].
    destruct c as [|p c]; [unfold zlen in *; simpl in *; lia|].
    change (removelast ((k, v) :: p :: c)) with ((k, v) :: removelast (p :: c)).
    by rewrite spec_lookup_cons, decide_True.
Qed.

(** ** Properties *)

Inductive lru_op := OpGet (k : string) | OpPut (k : string) (v : bytes) | OpDel (k : string).

(** Running a sequence of calls, with the results of the retrievals. *)
Definition lru_step (c : LruCache) (o : lru_op) : option (option bytes) * LruCache :=
  match o with
  | OpGet k => let '(r, c') := RetrieveFromCache k c in (Some r, c')
  | OpPut k v => (None, InsertIntoCache k v c)
  | OpDel k => (None, RemoveFromCache k c)
  end.

Definition spec_step (cap : Z) (c : Spec.cache) (o : lru_op)
    : option (option bytes) * Spec.cache :=
  match o with
  | OpGet k => let '(r, c') := Spec.retrieve k c in (Some r, c')
  | OpPut k v => (None, Spec.insert cap k v c)
  | OpDel k => (None, Spec.remove k c)
  end.

Fixpoint run {C} (step : C -> lru_op -> option (option bytes) * C) (c : C) (ops : list lru_op)
    : list (option (option bytes)) * C :=
  match ops with
  | [] => ([], c)
  | o :: ops' => let '(r, c') := step c o in
                 let '(rs, c'') := run step c' ops' in (r :: rs, c'')
  end.

Lemma lru_step_spec o c : lru_ok c ->
  let '(r, c') := lru_step c o in
  lru_ok c' /\ CapacityCount c' = CapacityCount c /\
  spec_step (CapacityCount c) (abs c) o = (r, abs c').
Proof.
  intros Hok. destruct o as [k|k v|k]; simpl.
  - pose proof (RetrieveFromCache_spec k c Hok) as H.
    destruct (RetrieveFromCache k c) as [r c']. destruct H as (? & ? & ->). done.
  - destruct (InsertIntoCache_spec k v c Hok) as (? & ? & ->). done.
  - destruct (RemoveFromCache_spec k c Hok) as (? & ? & ->). done.
Qed.

Lemma run_spec ops : forall c, lru_ok c ->
  let '(rs, c') := run lru_step c ops in
  lru_ok c' /\ run (spec_step (CapacityCount c)) (abs c) ops = (rs, abs c').
Proof.
  induction ops as [|o ops IH]; intros c Hok; simpl; [done|].
  pose proof (lru_step_spec o c Hok) as Ho.
  destruct (lru_step c o) as [r c1]. destruct Ho as (Hok1 & Hcap & ->).
  specialize (IH c1 Hok1). destruct (run lru_step c1 ops) as [rs c2].
  destruct IH as (Hok2 & Hr). rewrite Hcap in Hr. by rewrite Hr.
Qed.

Lemma spec_length cap ops : forall c rs c', zlen c <= Z.max 0 cap ->
  run (spec_step cap) c ops = (rs, c') -> zlen c' <= Z.max 0 cap.
Proof.
  assert (forall k (c : Spec.cache), (length (Spec.remove k c) <= length c)%nat) as Hrem.
  { intros k c. apply length_filter. }
  assert (forall k v (c : Spec.cache), Spec.lookup k c = Some v ->
    (length (Spec.remove k c) < length c)%nat) as Hrem2.
  { intros k v c. unfold Spec.lookup, Spec.remove. induction c as [|[k' v'] c IH]; [done|].
    cbn [List.find fst]. rewrite filter_cons. case_bool_decide as Hk; simpl in Hk.
    - intros _. rewrite decide_False by (simpl; tauto).
      pose proof (length_filter (fun p : string * bytes => p.1 <> k) c). simpl. lia.
    - intros H. rewrite decide_True by done. apply IH in H. simpl. lia. }
  induction ops as [|o ops IH]; intros c rs c' Hc; simpl; [by intros [= _ <-]|].
  destruct (spec_step cap c o) as [r c1] eqn:E.
  destruct (run (spec_step cap) c1 ops) as [rs1 c2] eqn:Er. intros [= _ <-].
  apply (IH c1 rs1); [|done]. unfold zlen in *. destruct o as [k|k v|k]; simpl in E.
  - unfold Spec.retrieve in E. destruct (Spec.lookup k c) as [v|] eqn:El; injection E as _ <-; [|done].
    apply Hrem2 in El. simpl. lia.
  - injection E as _ <-. unfold Spec.insert. destruct (Spec.lookup k c) as [v'|] eqn:El.
    + apply Hrem2 in El. simpl. lia.
    + unfold zlen. destruct (Z.leb_spec (Z.of_nat (length ((k, v) :: c))) cap); [lia|].
      rewrite removelast_firstn_len, length_take. simpl. lia.
  - injection E as _ <-. specialize (Hrem k c). lia.
Qed.

(** A cache that is within its capacity stays so. *)
Definition lru_bounded (c : LruCache) : Prop := lru_ok c /\ zlen (abs c) <= Z.max 0 (CapacityCount c).

Lemma lru_step_bounded o c : lru_bounded c ->
  let '(_, c') := lru_step c o in lru_bounded c' /\ CapacityCount c' = CapacityCount c.
Proof.
  intros [Hok Hlen]. pose proof (lru_step_spec o c Hok) as Ho. destruct (lru_step c o) as [r c'].
  destruct Ho as (Hok' & Hcap & Hs). split; [split; [done|]|done]. rewrite Hcap.
  apply (spec_length (CapacityCount c) [o] (abs c) [r]); [done|]. simpl. by rewrite Hs.
Qed.

(** C34. the cache is a least-recently-used cache. For every sequence of calls,
    the pointer structure returns what the abstract recency list returns, its
    list and map stay consistent, and it never holds more than its capacity
    (nothing at all when the capacity is not positive). *)
Theorem LruCache_refines_spec cap ops :
  let '(results, c) := run lru_step (NewLruCache cap) ops in
  run (spec_step cap) [] ops = (results, abs c) /\
  lru_ok c /\ zlen (abs c) <= Z.max 0 cap /\
  forall k, is_Some (itemsMap c !! k) <-> is_Some (Spec.lookup k (abs c)).
Proof.
  pose proof (run_spec ops _ (NewLruCache_ok cap)) as H.
  destruct (run lru_step (NewLruCache cap) ops) as [rs c]. destruct H as [Hok Hr].
  split_and!; [done|done| |].
  - eapply spec_length, Hr. unfold zlen. simpl. lia.
  - intros k. rewrite abs_lookup by done. destruct (itemsMap c !! k) as [e|] eqn:E; [|by split; intros [? ?]].
    simpl. destruct (heap_of_listed c e Hok) as (k' & v & -> & _); [by apply Hok in E as []|].
    split; by eexists.
Qed.
