(* ===== verification/GoHeap.v ===== *)
(** Go's container/heap as the compaction agent uses it: a binary heap in a
    slice, sifted by [up] and [down] with the strict comparison [Less]. *)
From S2P Require Import Prelude.

(** ** Definitions *)

Section Heap.
Context {A : Type}.
Variable less : A -> A -> bool.

(** [h.Less(i, j)] and [h.Swap(i, j)] on the slice. *)
Definition Less (l : list A) (i j : nat) : bool :=
  match l !! i, l !! j with Some x, Some y => less x y | _, _ => false end.

Definition Swap (i j : nat) (l : list A) : list A :=
  match l !! i, l !! j with
  | Some x, Some y => <[i := y]> (<[j := x]> l)
  | _, _ => l
  end.

(** [(j - 1) / 2]; Go's division gives 0 for [j = 0]. *)
Definition parent (j : nat) : nat := ((j - 1) / 2)%nat.

(** [up]: [j] at least halves in each turn, so [j + 1] turns are enough. *)
Fixpoint up_loop (fuel : nat) (l : list A) (j : nat) : list A :=
  match fuel with
  | O => l
  | S f =>
    let i := parent j in
    if decide (i = j) then l
    else if Less l j i then up_loop f (Swap i j l) i else l
  end.

Definition up (l : list A) (j : nat) : list A := up_loop (S j) l j.

(** [down] on the first [n] elements; [i] grows in each turn. *)
Fixpoint down_loop (fuel : nat) (l : list A) (i n : nat) : list A :=
  match fuel with
  | O => l
  | S f =>
    let j1 := (2 * i + 1)%nat in
    if decide (n <= j1)%nat then l
    else
      let j2 := (j1 + 1)%nat in
      let j := if decide (j2 < n)%nat then (if Less l j2 j1 then j2 else j1) else j1 in
      if Less l j i then down_loop f (Swap i j l) j n else l
  end.

Definition down (l : list A) (i n : nat) : list A := down_loop (S n) l i n.

(** [heap.Push]. *)
Definition Push (x : A) (l : list A) : list A := up (l ++ [x]) (length l).

(** [heap.Pop]: the minimum is swapped to the end and cut off. *)
Definition Pop (l : list A) : option (A * list A) :=
  match l with
  | [] => None
  | _ =>
    let n := (length l - 1)%nat in
    let l' := down (Swap 0 n l) 0 n in
    match l' !! n with Some x => Some (x, take n l') | None => None end
  end.

End Heap.

(** ** Correctness *)

Section HeapSpec.
Context {A : Type} (less : A -> A -> bool).

(** Not smaller: the order the heap maintains from parents to children. *)
Definition le (x y : A) : Prop := less y x = false.
Context `{!Transitive le} (less_asym : forall x y, less x y = true -> less y x = false).

Definition le_at (l : list A) (i j : nat) : Prop :=
  forall x y, l !! i = Some x -> l !! j = Some y -> le x y.

Definition heap_upto (l : list A) (n : nat) : Prop :=
  forall k, (0 < k < n)%nat -> le_at l (parent k) k.

Definition heap_ok (l : list A) : Prop := heap_upto l (length l).

Lemma Less_true l i j : Less less l i j = true ->
  exists x y, l !! i = Some x /\ l !! j = Some y /\ less x y = true.
Proof. unfold Less. destruct (l !! i) as [x|], (l !! j) as [y|]; try done. eauto. Qed.

Lemma Less_le l i j : Less less l i j = true -> le_at l i j.
Proof.
  intros (x & y & Hi & Hj & Hl)%Less_true x' y' Hx Hy. simplify_eq. by apply less_asym.
Qed.

Lemma not_Less_le l i j : Less less l i j = false -> le_at l j i.
Proof. intros H x y Hx Hy. unfold Less in H. rewrite Hx, Hy in H. done. Qed.

Lemma le_at_trans l i j k : (j < length l)%nat -> le_at l i j -> le_at l j k -> le_at l i k.
Proof.
  intros Hj H1 H2 x z Hx Hz. destruct (lookup_lt_is_Some_2 l j Hj) as [y Hy].
  transitivity y; [by apply H1|by apply H2].
Qed.

Lemma length_Swap i j (l : list A) : length (Swap i j l) = length l.
Proof. unfold Swap. repeat case_match; try done. by rewrite !length_insert. Qed.

Lemma Swap_perm i j (l : list A) : Swap i j l ≡ₚ l.
Proof.
  unfold Swap. destruct (l !! i) as [x|] eqn:Hi; [|done]. destruct (l !! j) as [y|] eqn:Hj; [|done].
  apply Permutation_inj. split; [by rewrite !length_insert|].
  exists (fun k => if decide (k = i) then j else if decide (k = j) then i else k).
  split.
  - intros a b. repeat case_decide; congruence.
  - intros k. pose proof (lookup_lt_Some _ _ _ Hi). pose proof (lookup_lt_Some _ _ _ Hj).
    destruct (decide (k = i)) as [->|Hki].
    + rewrite list_lookup_insert_eq by (by rewrite length_insert). done.
    + rewrite list_lookup_insert_ne by done. destruct (decide (k = j)) as [->|Hkj].
      * by rewrite list_lookup_insert_eq.
      * by rewrite list_lookup_insert_ne.
Qed.

Lemma lookup_Swap (l : list A) i j k : (i < length l)%nat -> (j < length l)%nat ->
  Swap i j l !! k = l !! (if decide (k = i) then j else if decide (k = j) then i else k).
Proof.
  intros Hi Hj. unfold Swap.
  destruct (lookup_lt_is_Some_2 l i Hi) as [x Hx]. destruct (lookup_lt_is_Some_2 l j Hj) as [y Hy].
  rewrite Hx, Hy. destruct (decide (k = i)) as [->|Hki].
  - rewrite list_lookup_insert_eq by (by rewrite length_insert). done.
  - rewrite list_lookup_insert_ne by done. destruct (decide (k = j)) as [->|Hkj].
    + by rewrite list_lookup_insert_eq.
    + by rewrite list_lookup_insert_ne.
Qed.

Lemma le_at_Swap l i j a b : (i < length l)%nat -> (j < length l)%nat ->
  le_at l (if decide (a = i) then j else if decide (a = j) then i else a)
          (if decide (b = i) then j else if decide (b = j) then i else b) ->
  le_at (Swap i j l) a b.
Proof. intros Hi Hj H x y. rewrite !lookup_Swap by done. apply H. Qed.

Lemma parent_children p k : (0 < k)%nat -> parent k = p <-> k = (2 * p + 1)%nat \/ k = (2 * p + 2)%nat.
Proof.
  unfold parent. intros. pose proof (Nat.div_mod_eq (k - 1) 2).
  pose proof (Nat.mod_upper_bound (k - 1) 2 ltac:(lia)). lia.
Qed.

Lemma parent_lt k : (0 < k)%nat -> (parent k < k)%nat.
Proof. intros Hk. destruct (proj1 (parent_children _ k Hk) eq_refl); lia. Qed.

(** *** up *)

(** A heap except that [j] may be smaller than its parent. *)
Definition up_inv (l : list A) (j : nat) : Prop :=
  (forall k, (0 < k < length l)%nat -> k <> j -> le_at l (parent k) k) /\
  (forall k, (0 < k < length l)%nat -> (0 < j)%nat -> parent k = j -> le_at l (parent j) k).

Lemma up_loop_perm f l j : up_loop less f l j ≡ₚ l.
Proof.
  revert l j; induction f as [|f IH]; intros l j; simpl; [done|].
  case_decide; [done|]. destruct (Less less l j (parent j)); [|done].
  by rewrite IH, Swap_perm.
Qed.

Lemma up_loop_ok f : forall l j, (j < f)%nat -> (j < length l)%nat ->
  up_inv l j -> heap_ok (up_loop less f l j).
Proof.
  induction f as [|f IH]; intros l j Hf Hj Hinv; [lia|]. simpl.
  destruct Hinv as [H1 H2].
  case_decide as Hd.
  { intros k Hk. destruct (decide (k = j)) as [->|]; [|by apply H1].
    pose proof (parent_lt j ltac:(lia)). lia. }
  assert (0 < j)%nat as Hj0.
  { destruct j; [|lia]. unfold parent in Hd. simpl in Hd. lia. }
  pose proof (parent_lt j Hj0) as Hp.
  destruct (Less less l j (parent j)) eqn:Hl.
  2: { intros k Hk. destruct (decide (k = j)) as [->|]; [by apply not_Less_le|by apply H1]. }
  apply IH; [lia|by rewrite length_Swap; lia|]. split; rewrite length_Swap.
  - intros k Hk Hne. apply le_at_Swap; [lia|lia|].
    destruct (decide (k = j)) as [->|Hkj].
    + rewrite decide_True by done. rewrite decide_False by lia. by apply Less_le.
    + rewrite (decide_False (P := k = parent j)) by done.
      destruct (decide (parent k = parent j)) as [He|Hpn].
      * apply le_at_trans with (parent j); [lia|by apply Less_le|].
        rewrite <- He. by apply H1.
      * destruct (decide (parent k = j)) as [Hpj|Hpj].
        { by apply H2. }
        by apply H1.
  - intros k Hk Hpp Hpk. apply le_at_Swap; [lia|lia|].
    pose proof (parent_lt (parent j) ltac:(lia)).
    pose proof (parent_lt k ltac:(lia)).
    rewrite (decide_False (P := parent (parent j) = parent j)) by lia.
    rewrite (decide_False (P := parent (parent j) = j)) by lia.
    rewrite (decide_False (P := k = parent j)) by lia.
    destruct (decide (k = j)) as [->|Hkj].
    + apply H1; lia.
    + apply le_at_trans with (parent j); [lia|apply H1; lia|]. rewrite <- Hpk. by apply H1.
Qed.

Lemma Push_perm x l : Push less x l ≡ₚ x :: l.
Proof. unfold Push, up. rewrite up_loop_perm. by rewrite Permutation_app_comm. Qed.

Lemma Push_ok x l : heap_ok l -> heap_ok (Push less x l).
Proof.
  intros H. apply up_loop_ok; [lia|rewrite length_app; simpl; lia|]. split; rewrite length_app; simpl.
  - intros k Hk Hne a b. pose proof (parent_lt k ltac:(lia)).
    rewrite !lookup_app_l by lia. apply H. lia.
  - intros k Hk Hl Hp. pose proof (parent_lt k ltac:(lia)). lia.
Qed.

(** *** down *)

(** The first [n] elements are a heap except that [i] may be larger than its
    children. *)
Definition down_inv (l : list A) (i n : nat) : Prop :=
  (forall k, (0 < k < n)%nat -> parent k <> i -> le_at l (parent k) k) /\
  (forall k, (0 < k < n)%nat -> (0 < i)%nat -> parent k = i -> le_at l (parent i) k).

Lemma down_loop_perm f l i n : down_loop less f l i n ≡ₚ l.
Proof.
  revert l i; induction f as [|f IH]; intros l i; cbn [down_loop]; [done|].
  case_decide; [done|]. case_match; [|done]. by rewrite IH, Swap_perm.
Qed.

Lemma down_loop_ok f : forall l i n, (n <= i + f)%nat -> (n <= length l)%nat ->
  down_inv l i n ->
  heap_upto (down_loop less f l i n) n /\
  (forall k, (n <= k)%nat -> down_loop less f l i n !! k = l !! k).
Proof.
  induction f as [|f IH]; intros l i n Hf Hn Hinv; cbn [down_loop].
  { split; [|done]. intros k Hk. apply (proj1 Hinv); [done|]. pose proof (parent_lt k ltac:(lia)). lia. }
  destruct Hinv as [H1 H2]. case_decide as Hj1.
  { split; [|done]. intros k Hk. apply H1; [done|]. rewrite parent_children by lia. lia. }
  set (j := if decide _ then _ else _).
  assert (parent j = i /\ (0 < j < n)%nat /\
    forall k, (0 < k < n)%nat -> parent k = i -> k <> j -> le_at l j k) as (Hpj & Hjn & Hjmin).
  { subst j. destruct (decide (2 * i + 1 + 1 < n)%nat) as [Hj2|Hj2].
    - destruct (Less less l (2 * i + 1 + 1) (2 * i + 1)) eqn:Hl.
      + split_and!; [rewrite parent_children; lia|lia|lia|].
        intros k Hk Hpk Hne. apply parent_children in Hpk; [|lia].
        replace k with (2 * i + 1)%nat by lia. by apply Less_le.
      + split_and!; [rewrite parent_children; lia|lia|lia|].
        intros k Hk Hpk Hne. apply parent_children in Hpk; [|lia].
        replace k with (2 * i + 1 + 1)%nat by lia. by apply not_Less_le.
    - split_and!; [rewrite parent_children; lia|lia|lia|].
      intros k Hk Hpk Hne. apply parent_children in Hpk; lia. }
  clearbody j. pose proof (parent_lt j ltac:(lia)) as Hij.
  destruct (Less less l j i) eqn:Hl.
  2: { split; [|done]. intros k Hk. destruct (decide (parent k = i)) as [Hpk|]; [|by apply H1].
    rewrite Hpk. destruct (decide (k = j)) as [->|Hkj]; [by apply not_Less_le|].
    apply le_at_trans with j; [lia|by apply not_Less_le|by apply Hjmin]. }
  destruct (IH (Swap i j l) j n) as [Ha Hb]; [lia|by rewrite length_Swap| |].
  - split.
    + intros k Hk Hpk. apply le_at_Swap; [lia|lia|].
      destruct (decide (parent k = i)) as [Hpi|Hpi].
      * rewrite (decide_False (P := k = i)) by (pose proof (parent_lt k ltac:(lia)); lia).
        destruct (decide (k = j)) as [->|Hkj]; [by apply Less_le|by apply Hjmin].
      * rewrite (decide_False (P := parent k = j)) by done.
        destruct (decide (k = i)) as [->|Hki]; [apply H2; lia|].
        rewrite (decide_False (P := k = j)) by congruence. by apply H1.
    + intros k Hk Hj0 Hpk. rewrite Hpj. apply le_at_Swap; [lia|lia|].
      pose proof (parent_lt k ltac:(lia)).
      rewrite decide_True by done. rewrite (decide_False (P := k = i)) by lia.
      rewrite (decide_False (P := k = j)) by lia. rewrite <- Hpk. apply H1; lia.
  - split; [done|]. intros k Hk. rewrite Hb by done. rewrite lookup_Swap by lia.
    rewrite !decide_False by lia. done.
Qed.

Lemma le_refl z : le z z.
Proof. unfold le. destruct (less z z) eqn:E; [|done]. by rewrite <- (less_asym _ _ E). Qed.

(** The root of a heap is a minimum. *)
Lemma heap_root l x y : heap_ok l -> l !! 0%nat = Some x -> y ∈ l -> le x y.
Proof.
  intros Hok Hx [k Hk]%list_elem_of_lookup. revert y Hk.
  induction k as [k IH] using lt_wf_ind; intros y Hk.
  destruct k as [|k]; [simplify_eq; apply le_refl|].
  pose proof (parent_lt (S k) ltac:(lia)) as Hp. pose proof (lookup_lt_Some _ _ _ Hk).
  destruct (lookup_lt_is_Some_2 l (parent (S k))) as [z Hz]; [lia|].
  transitivity z; [by apply (IH (parent (S k)))|]. eapply Hok; [|done|done]. lia.
Qed.

(** [Pop] of a non-empty heap removes a minimum and leaves a heap. *)
Lemma Pop_spec l : heap_ok l -> l <> [] ->
  exists x l', Pop less l = Some (x, l') /\ l !! 0%nat = Some x /\ l ≡ₚ x :: l' /\
    heap_ok l' /\ (forall y, y ∈ l -> le x y).
Proof.
  intros Hok Hne. unfold Pop, down. set (n := (length l - 1)%nat).
  destruct l as [|x l0] eqn:El; [done|]. rewrite <- El in *. clear Hne.
  assert (length l = S n) as Hlen by (subst n; rewrite El; simpl; lia).
  assert (l !! 0%nat = Some x) as Hx by (by rewrite El).
  destruct (down_loop_ok (S n) (Swap 0 n l) 0 n) as [Hh Hrest].
  { lia. }
  { rewrite length_Swap. lia. }
  { split; [|lia]. intros k Hk Hp. apply le_at_Swap; [lia|lia|].
    pose proof (parent_lt k ltac:(lia)). rewrite !decide_False by lia. apply Hok. lia. }
  set (l1 := down_loop less (S n) (Swap 0 n l) 0 n) in *.
  assert (l1 !! n = Some x) as Hn.
  { rewrite Hrest, lookup_Swap by lia. destruct (decide (n = 0%nat)) as [->|]; [done|].
    by rewrite decide_True. }
  assert (l1 ≡ₚ l) as Hperm by (unfold l1; by rewrite down_loop_perm, Swap_perm).
  assert (length l1 = S n) as Hl1 by (by rewrite Hperm).
  assert (l1 = take n l1 ++ [x]) as Hsplit.
  { rewrite <- (take_drop n l1) at 1. f_equal. rewrite (drop_S _ x) by done.
    rewrite drop_ge by lia. done. }
  rewrite Hn. exists x, (take n l1). split_and!; [done|done| | |].
  - rewrite <- Hperm, Hsplit at 1. by rewrite Permutation_app_comm.
  - intros k Hk a b. rewrite length_take in Hk. pose proof (parent_lt k ltac:(lia)).
    rewrite !lookup_take by lia. repeat case_decide; try done. apply Hh. lia.
  - intros y Hy. by eapply heap_root.
Qed.

Lemma Pop_nil : Pop less [] = None.
Proof. done. Qed.

End HeapSpec.
