(* ===== verification/MergeIterators.v ===== *)
(** The k-way merge of the compaction agent, mergeIterators in
    internal/agents/compaction_agent.go: a heap of the next entry of each
    source, popped in key order, equal keys collapsed to the last one popped. *)
From S2P Require Import Prelude Codec Domain SortedStringTable GoHeap.

(** ** Definitions *)

Record MergeItem := mkItem { item_Entry : Entry; SourceID : nat }.

(** [MergeHeap.Less]: keys only, the source does not break ties. *)
Definition item_less (a b : MergeItem) : bool :=
  str_ltb (Key (item_Entry a)) (Key (item_Entry b)).

(** The body of the loop on [entries] and [lastKey]. *)
Definition add_merged (st : list Entry * string) (top : Entry) : list Entry * string :=
  let '(entries, lastKey) := st in
  if decide ((0 < length entries)%nat /\ lastKey = Key top)
  then (removelast entries ++ [top], lastKey)
  else (entries ++ [top], Key top).

Section Merge.
Context {I : Type}.
Variable next : I -> option (Entry * I).

Fixpoint init_heap (i : nat) (iters : list I) (mh : list MergeItem) : list I * list MergeItem :=
  match iters with
  | [] => ([], mh)
  | iter :: rest =>
    match next iter with
    | Some (e, iter') =>
      let '(rest', mh') := init_heap (S i) rest (Push item_less (mkItem e i) mh) in
      (iter' :: rest', mh')
    | None => let '(rest', mh') := init_heap (S i) rest mh in (iter :: rest', mh')
    end
  end.

(** [for mh.Len() > 0 { ... }]; every turn pops one entry. *)
Fixpoint merge_loop (fuel : nat) (iters : list I) (mh : list MergeItem)
    (st : list Entry * string) : list Entry :=
  match fuel with
  | O => fst st
  | S f =>
    match Pop item_less mh with
    | None => fst st
    | Some (top, mh) =>
      let st := add_merged st (item_Entry top) in
      match iters !! SourceID top ≫= next with
      | Some (e, iter') =>
        merge_loop f (<[SourceID top := iter']> iters)
          (Push item_less (mkItem e (SourceID top)) mh) st
      | None => merge_loop f iters mh st
      end
    end
  end.

Definition mergeIterators (fuel : nat) (iters : list I) : list Entry :=
  let '(iters', mh) := init_heap 0 iters [] in merge_loop fuel iters' mh ([], ""%string).

End Merge.

(** On files: every turn consumes at least a 17-byte header, so the number of
    bytes (plus one turn to see the heap empty) is enough fuel. *)
Definition merge_files (iters : list bytes) : list Entry :=
  mergeIterators Next (S (length (concat iters))) iters.

(** *** Specification *)

(** [reads it es]: the iterator yields exactly [es]. *)
Class Reads {I} (next : I -> option (Entry * I)) (reads : I -> list Entry -> Prop) := {
  reads_nil : forall it, reads it [] -> next it = None;
  reads_cons : forall it e es, reads it (e :: es) ->
    exists it', next it = Some (e, it') /\ reads it' es;
}.

Definition file_reads (r : bytes) (es : list Entry) : Prop :=
  r = encode_table es /\ Forall entry_fits es.

(** ** Lemmas *)

#[export] Instance file_Reads : Reads Next file_reads.
Proof.
  split.
  - intros it [-> _]. done.
  - intros it e es [-> Hes]. inversion Hes; subst. exists (encode_table es).
    rewrite encode_table_cons, Next_encode by done. done.
Qed.

#[export] Instance item_le_trans : Transitive (le item_less).
Proof.
  intros a b c. unfold le, item_less.
  rewrite <- !not_true_iff_false, !str_ltb_lt. apply str_le_trans.
Qed.

Lemma item_less_asym x y : item_less x y = true -> item_less y x = false.
Proof.
  unfold item_less. rewrite <- not_true_iff_false, !str_ltb_lt. apply str_lt_le.
Qed.

Lemma item_le_key x y : le item_less x y -> key_le (item_Entry x) (item_Entry y).
Proof.
  unfold le, item_less, key_le, str_le. rewrite <- not_true_iff_false, str_ltb_lt. done.
Qed.

Lemma sorted_table_le es : sorted_table es -> StronglySorted key_le es.
Proof.
  induction 1 as [|e es _ IH Hall]; constructor; [done|].
  eapply Forall_impl; [exact Hall|]. intros x. apply str_lt_le.
Qed.

(** *** The sequence of pops *)

Section MergeSpec.
Context {I : Type} (next : I -> option (Entry * I)) (reads : I -> list Entry -> Prop).
Context `{!Reads next reads}.

Definition heap_entries (mh : list MergeItem) : list Entry := item_Entry <$> mh.

(** Every heap item bounds what is left of its source, and every source with
    something left has an item in the heap. *)
Definition merge_inv (rem : list (list Entry)) (mh : list MergeItem) : Prop :=
  heap_ok item_less mh /\
  (forall x, x ∈ mh -> exists l, rem !! SourceID x = Some l /\
     StronglySorted key_le (item_Entry x :: l)) /\
  (forall i l, rem !! i = Some l -> l <> [] -> exists x, x ∈ mh /\ SourceID x = i).

Lemma concat_insert_cons (rem : list (list Entry)) i e l : rem !! i = Some (e :: l) ->
  concat rem ≡ₚ e :: concat (<[i := l]> rem).
Proof.
  revert i; induction rem as [|r rem IH]; intros [|i] H; simpl in *; [done|done|by simplify_eq|].
  rewrite (IH i H). by rewrite Permutation_middle.
Qed.

Lemma merge_inv_min rem mh x mh' : merge_inv rem mh -> mh ≡ₚ x :: mh' ->
  (forall y, y ∈ mh -> le item_less x y) ->
  Forall (key_le (item_Entry x)) (heap_entries mh' ++ concat rem).
Proof.
  intros (_ & Hitem & Hcov) Hp Hmin. apply Forall_app. split.
  - apply Forall_fmap, Forall_forall. intros y Hy. apply item_le_key, Hmin.
    rewrite Hp. by constructor.
  - apply Forall_forall. intros e He. apply list_elem_of_In, in_concat in He as (l & Hl & He).
    apply list_elem_of_In in Hl, He. apply list_elem_of_lookup in Hl as [i Hi].
    destruct (Hcov i l Hi) as (y & Hy & Hs); [by intros ->; inversion He|].
    destruct (Hitem y Hy) as (l' & Hl' & Hsort). rewrite Hs, Hi in Hl'. injection Hl' as <-.
    transitivity (item_Entry y); [by apply item_le_key, Hmin|].
    inversion Hsort as [|? ? _ Hall]; subst. rewrite Forall_forall in Hall. by apply Hall.
Qed.

(** The popped item's source is exhausted. *)
Lemma merge_inv_done rem mh x mh' : merge_inv rem mh -> mh ≡ₚ x :: mh' -> heap_ok item_less mh' ->
  rem !! SourceID x = Some [] -> merge_inv rem mh'.
Proof.
  intros (_ & Hitem & Hcov) Hperm Hok' Hl. split_and!; [done| |].
  - intros y Hy. apply Hitem. rewrite Hperm. by constructor.
  - intros i l' Hi Hne'. destruct (Hcov i l' Hi Hne') as (y & Hy & Hsrc).
    rewrite Hperm in Hy. apply elem_of_cons in Hy as [->|Hy]; [|by exists y].
    rewrite Hsrc in Hl. by simplify_eq.
Qed.

Lemma merge_inv_source rem mh x : merge_inv rem mh -> x ∈ mh ->
  exists l, rem !! SourceID x = Some l /\ StronglySorted key_le (item_Entry x :: l).
Proof. intros (_ & Hitem & _). apply Hitem. Qed.

(** The next entry of the popped item's source takes its place. *)
Lemma merge_inv_next rem mh x mh' e l : merge_inv rem mh -> mh ≡ₚ x :: mh' -> heap_ok item_less mh' ->
  rem !! SourceID x = Some (e :: l) ->
  merge_inv (<[SourceID x := l]> rem) (Push item_less (mkItem e (SourceID x)) mh').
Proof.
  intros Hinv Hperm Hok' Hl. destruct (merge_inv_source _ _ x Hinv) as (l' & Hl' & Hsort); [rewrite Hperm; constructor|].
  rewrite Hl in Hl'. injection Hl' as <-. destruct Hinv as (_ & Hitem & Hcov).
  assert (Push item_less (mkItem e (SourceID x)) mh' ≡ₚ mkItem e (SourceID x) :: mh') as Hpush by apply Push_perm.
  pose proof (lookup_lt_Some _ _ _ Hl) as Hlt. split_and!.
  - by apply (Push_ok item_less item_less_asym).
  - intros y Hy. rewrite Hpush in Hy. apply elem_of_cons in Hy as [->|Hy]; simpl.
    + exists l. rewrite list_lookup_insert_eq by done. split; [done|]. by inversion Hsort.
    + destruct (Hitem y) as (ly & Hly & Hsy); [rewrite Hperm; by constructor|].
      destruct (decide (SourceID x = SourceID y)) as [Heq|Hneq].
      * rewrite <- Heq, Hl in Hly. injection Hly as <-. exists l. rewrite <- Heq.
        rewrite list_lookup_insert_eq by done. split; [done|].
        inversion Hsy as [|? ? Hs1 Hs2]; subst. inversion Hs1; inversion Hs2; subst. by constructor.
      * exists ly. by rewrite list_lookup_insert_ne.
  - intros i l' Hi Hne'. destruct (decide (SourceID x = i)) as [<-|Hni].
    + eexists. rewrite Hpush. split; [constructor|done].
    + rewrite list_lookup_insert_ne in Hi by done.
      destruct (Hcov i l' Hi Hne') as (y & Hy & Hsrc). exists y. split; [|done].
      rewrite Hpush, elem_of_cons. right. rewrite Hperm in Hy.
      apply elem_of_cons in Hy as [->|Hy]; [congruence|done].
Qed.

(** An empty heap: every source is exhausted. *)
Lemma merge_inv_nil rem : merge_inv rem [] -> concat rem = [].
Proof.
  intros (_ & _ & Hcov). apply concat_nil_Forall, Forall_lookup. intros i l Hi. destruct l as [|e l]; [done|].
  destruct (Hcov i (e :: l) Hi ltac:(done)) as (x & Hx & _). by inversion Hx.
Qed.

Lemma merge_loop_pops fuel : forall iters rem mh st,
  (length mh + length (concat rem) < fuel)%nat ->
  Forall2 reads iters rem -> merge_inv rem mh ->
  exists pops, merge_loop next fuel iters mh st = fst (fold_left add_merged pops st) /\
    pops ≡ₚ heap_entries mh ++ concat rem /\ StronglySorted key_le pops.
Proof.
  induction fuel as [|f IH]; intros iters rem mh st Hf Hr Hinv; [lia|].
  cbn [merge_loop]. destruct (decide (mh = [])) as [->|Hne].
  { exists []. rewrite Pop_nil, (merge_inv_nil _ Hinv). split_and!; [done|done|constructor]. }
  destruct (Pop_spec item_less item_less_asym mh (proj1 Hinv) Hne)
    as (x & mh' & -> & _ & Hperm & Hok' & Hmin).
  pose proof (merge_inv_min _ _ _ _ Hinv Hperm Hmin) as Hall.
  destruct (merge_inv_source _ _ x Hinv) as (l & Hl & _); [rewrite Hperm; constructor|].
  destruct (Forall2_lookup_r _ _ _ _ _ Hr Hl) as (it & Hit & Hreads). rewrite Hit. simpl.
  assert (length mh = S (length mh')) as Hlen by (by rewrite Hperm).
  destruct l as [|e l].
  - rewrite (reads_nil _ Hreads).
    destruct (IH iters rem mh' (add_merged st (item_Entry x))) as (pops & Hp & Hpp & Hs);
      [lia|done|by eapply merge_inv_done|].
    exists (item_Entry x :: pops). split_and!; [done| |].
    + rewrite Hpp. unfold heap_entries. by rewrite Hperm.
    + constructor; [done|]. by rewrite Hpp.
  - destruct (reads_cons _ _ _ Hreads) as (it' & -> & Hreads').
    pose proof (concat_insert_cons rem (SourceID x) e l Hl) as Hcc.
    assert (Push item_less (mkItem e (SourceID x)) mh' ≡ₚ mkItem e (SourceID x) :: mh') as Hpush
      by apply Push_perm.
    destruct (IH (<[SourceID x := it']> iters) (<[SourceID x := l]> rem)
      (Push item_less (mkItem e (SourceID x)) mh') (add_merged st (item_Entry x)))
      as (pops & Hp & Hpp & Hs); [|by apply Forall2_insert|by eapply merge_inv_next|].
    { rewrite Hpush. apply Permutation_length in Hcc. simpl in *. lia. }
    exists (item_Entry x :: pops). split_and!; [done| |].
    + rewrite Hpp. unfold heap_entries. rewrite Hpush, Hperm. simpl.
      rewrite Hcc. by rewrite Permutation_middle.
    + constructor; [done|]. rewrite Hpp. unfold heap_entries in *. rewrite Hpush.
      rewrite Hcc, Forall_app in Hall. rewrite Forall_cons in Hall. simpl.
      rewrite Forall_cons, Forall_app. tauto.
Qed.

(** Appending a source whose next entry (if any) was pushed. *)
Lemma merge_inv_snoc rem mh es : merge_inv rem mh -> StronglySorted key_le es ->
  merge_inv (rem ++ [tail es])
    (match head es with Some e => Push item_less (mkItem e (length rem)) mh | None => mh end).
Proof.
  intros (Hok & Hitem & Hcov) Hs.
  assert (forall x l, rem !! SourceID x = Some l -> (rem ++ [tail es]) !! SourceID x = Some l) as Happ.
  { intros x l Hl. by apply lookup_app_l_Some. }
  destruct es as [|e es]; simpl.
  - split_and!; [done| |].
    + intros x Hx. destruct (Hitem x Hx) as (l & Hl & ?). exists l. auto.
    + intros i l [Hi|[Hi Hl]]%lookup_app_Some Hne; [by eapply Hcov|].
      apply list_lookup_singleton_Some in Hl as [_ <-]. done.
  - assert (Push item_less (mkItem e (length rem)) mh ≡ₚ mkItem e (length rem) :: mh) as Hpush
      by apply Push_perm.
    split_and!; [by apply (Push_ok item_less item_less_asym)| |].
    + intros x Hx. rewrite Hpush in Hx. apply elem_of_cons in Hx as [->|Hx]; simpl.
      * exists es. by rewrite lookup_app_r, Nat.sub_diag by lia.
      * destruct (Hitem x Hx) as (l & Hl & ?). exists l. auto.
    + intros i l [Hi|[Hi Hl]]%lookup_app_Some Hne.
      * destruct (Hcov i l Hi Hne) as (x & Hx & ?). exists x. rewrite Hpush. split; [by constructor|done].
      * apply list_lookup_singleton_Some in Hl as [Hl _].
        eexists. rewrite Hpush. split; [constructor|]. simpl. lia.
Qed.

Lemma init_heap_spec iters ess : Forall2 reads iters ess -> Forall (StronglySorted key_le) ess ->
  forall rem mh, merge_inv rem mh ->
  exists iters' mh', init_heap next (length rem) iters mh = (iters', mh') /\
    Forall2 reads iters' (tail <$> ess) /\ merge_inv (rem ++ (tail <$> ess)) mh' /\
    heap_entries mh' ++ concat (tail <$> ess) ≡ₚ heap_entries mh ++ concat ess.
Proof.
  induction 1 as [|it es iters ess Hit _ IH]; intros Hs rem mh Hinv.
  { exists [], mh. simpl. rewrite app_nil_r. done. }
  inversion Hs as [|? ? Hes Hess]; subst. cbn [init_heap].
  pose proof (merge_inv_snoc rem mh es Hinv Hes) as Hinv1.
  assert (S (length rem) = length (rem ++ [tail es])) as Hlen by (rewrite length_app; simpl; lia).
  destruct es as [|e es]; cbn [head tail] in Hinv1, Hlen.
  - rewrite (reads_nil _ Hit), Hlen.
    destruct (IH Hess _ _ Hinv1) as (iters' & mh' & -> & Hr & Hinv' & Hp).
    exists (it :: iters'), mh'. split_and!; [done|by constructor|by rewrite <- app_assoc in Hinv'|done].
  - destruct (reads_cons _ _ _ Hit) as (it' & -> & Hit'). rewrite Hlen.
    destruct (IH Hess _ _ Hinv1) as (iters' & mh' & -> & Hr & Hinv' & Hp).
    exists (it' :: iters'), mh'.
    split_and!; [done|by constructor|by rewrite <- app_assoc in Hinv'|].
    rewrite fmap_cons. cbn [concat tail]. rewrite (Permutation_app_comm es), app_assoc, Hp.
    unfold heap_entries. rewrite Push_perm. simpl.
    rewrite <- app_assoc, (Permutation_app_comm (concat ess) es). by rewrite Permutation_middle.
Qed.

Lemma mergeIterators_pops iters ess fuel : Forall2 reads iters ess ->
  Forall (StronglySorted key_le) ess -> (length (concat ess) < fuel)%nat ->
  exists pops, mergeIterators next fuel iters = fst (fold_left add_merged pops ([], ""%string)) /\
    pops ≡ₚ concat ess /\ StronglySorted key_le pops.
Proof.
  intros Hr Hs Hf. unfold mergeIterators.
  destruct (init_heap_spec iters ess Hr Hs [] []) as (iters' & mh & Hi & Hr' & Hinv & Hp).
  { split_and!; [|intros x Hx; by inversion Hx|done]. intros k Hk. simpl in Hk. lia. }
  cbn [length] in Hi. rewrite Hi.
  simpl in Hp, Hinv.
  destruct (merge_loop_pops fuel iters' (tail <$> ess) mh ([], ""%string)) as (pops & -> & Hpp & Hss);
    [|done|done|].
  { apply Permutation_length in Hp. rewrite length_app in Hp. unfold heap_entries in Hp.
    rewrite length_fmap in Hp. lia. }
  exists pops. split_and!; [done|by rewrite Hpp|done].
Qed.

End MergeSpec.

(** *** Collapsing equal keys *)

Lemma StronglySorted_snoc {A} (R : A -> A -> Prop) l x :
  StronglySorted R l -> Forall (fun y => R y x) l -> StronglySorted R (l ++ [x]).
Proof.
  induction 1 as [|y l _ IH Hy]; intros Hx; [repeat constructor|].
  inversion Hx; subst. simpl. constructor; [by apply IH|]. apply Forall_app. by repeat constructor.
Qed.

Lemma StronglySorted_removelast {A} (R : A -> A -> Prop) l x :
  StronglySorted R (l ++ [x]) -> StronglySorted R l /\ Forall (fun y => R y x) l.
Proof.
  induction l as [|y l IH]; intros H; [by repeat constructor|].
  inversion H as [|? ? Hs Hf]; subst. destruct (IH Hs). apply Forall_app in Hf as [Hf Hx].
  inversion Hx; subst. split; by constructor.
Qed.

Lemma add_merged_spec st top : sorted_table (fst st) ->
  (forall l x, fst st = l ++ [x] -> Key x = snd st) ->
  Forall (fun y => key_le y top) (fst st) ->
  sorted_table (fst (add_merged st top)) /\
  (forall l x, fst (add_merged st top) = l ++ [x] -> Key x = snd (add_merged st top)) /\
  Forall (fun y => key_le y top) (fst (add_merged st top)) /\
  (forall k, last_entry k (fst (add_merged st top)) = last_entry k (fst st ++ [top])).
Proof.
  destruct st as [entries lastKey]. simpl. intros Hs Hlast Hle. unfold add_merged.
  assert (key_le top top) as Hrefl by apply str_lt_irrefl.
  destruct (decide _) as [[Hlen Hk]|Hn]; simpl.
  - destruct entries as [|x l _] using rev_ind; [simpl in Hlen; lia|].
    rewrite removelast_last. pose proof (Hlast l x eq_refl) as Hx.
    apply StronglySorted_removelast in Hs as [Hs Hf].
    apply Forall_app in Hle as [Hle _]. split_and!.
    + apply StronglySorted_snoc; [done|]. eapply Forall_impl; [exact Hf|].
      intros y. unfold key_lt. congruence.
    + intros l' y [_ [= <-]]%app_inj_2; [done|done].
    + apply Forall_app. split; [done|]. by constructor.
    + intros k. unfold last_entry. rewrite !fold_left_app. simpl.
      destruct (decide (Key x = k)), (decide (Key top = k)); congruence.
  - split_and!.
    + apply StronglySorted_snoc; [done|].
      destruct entries as [|x l _] using rev_ind; [constructor|].
      pose proof (Hlast l x eq_refl) as Hx. apply Forall_app in Hle as [_ Hle].
      inversion Hle as [|? ? Hxt _]; subst.
      assert (key_lt x top) as Hlt.
      { destruct (str_lt_total (Key x) (Key top)) as [H|[H|H]]; [done| |by destruct Hxt].
        exfalso. apply Hn. rewrite length_app. simpl. split; [lia|congruence]. }
      apply StronglySorted_removelast in Hs as [_ Hf]. apply Forall_app. split; [|by constructor].
      eapply Forall_impl; [exact Hf|]. intros y Hy. by apply str_lt_trans with (Key x).
    + intros l' y [_ [= <-]]%app_inj_2; [done|done].
    + apply Forall_app. split; [done|by constructor].
    + done.
Qed.

Lemma collapse_spec pops : forall st, StronglySorted key_le pops -> sorted_table (fst st) ->
  (forall l x, fst st = l ++ [x] -> Key x = snd st) ->
  Forall (fun y => Forall (key_le y) pops) (fst st) ->
  sorted_table (fst (fold_left add_merged pops st)) /\
  forall k, last_entry k (fst (fold_left add_merged pops st)) = last_entry k (fst st ++ pops).
Proof.
  induction pops as [|top pops IH]; intros st Hp Hs Hlast Hb; cbn [fold_left].
  { split; [done|]. by rewrite app_nil_r. }
  inversion Hp as [|? ? Hp' Htop]; subst.
  destruct (add_merged_spec st top Hs Hlast) as (Hs' & Hlast' & Hle' & Hk).
  { eapply Forall_impl; [exact Hb|]. intros y Hy. by inversion Hy. }
  destruct (IH (add_merged st top)) as [Hs'' Hk'']; [done|done|done| |].
  { eapply Forall_impl; [exact Hle'|]. intros y Hy. eapply Forall_impl; [exact Htop|].
    intros z Hz. by transitivity top. }
  split; [done|]. intros k. rewrite Hk''.
  change (top :: pops) with ([top] ++ pops). rewrite app_assoc.
  unfold last_entry. rewrite !fold_left_app. f_equal. rewrite <- fold_left_app. apply Hk.
Qed.

(** The merge of strictly sorted sources. *)
Lemma merge_spec {I} (next : I -> option (Entry * I)) reads `{!Reads next reads} iters ess fuel :
  Forall2 reads iters ess -> Forall sorted_table ess -> (length (concat ess) < fuel)%nat ->
  exists pops, pops ≡ₚ concat ess /\ sorted_table (mergeIterators next fuel iters) /\
    forall k, last_entry k (mergeIterators next fuel iters) = last_entry k pops.
Proof.
  intros Hr Hs Hf.
  destruct (mergeIterators_pops next reads iters ess fuel Hr) as (pops & -> & Hp & Hss); [|done|].
  { eapply Forall_impl; [exact Hs|]. apply sorted_table_le. }
  exists pops. split; [done|]. apply (collapse_spec pops ([], ""%string)); [done|constructor| |constructor].
  intros l x H. by destruct l.
Qed.

Lemma length_concat_tables ess :
  (length (concat ess) <= length (concat (encode_table <$> ess)))%nat.
Proof.
  induction ess as [|es ess IH]; [done|]. rewrite fmap_cons. cbn [concat]. rewrite !length_app.
  enough (length es <= length (encode_table es))%nat by lia. clear.
  induction es as [|e es IH]; [done|]. rewrite encode_table_cons, length_app.
  unfold encode_entry at 1. rewrite length_app, length_encode_header. simpl. lia.
Qed.

Lemma merge_files_spec ess : Forall sorted_table ess -> Forall (Forall entry_fits) ess ->
  exists pops, pops ≡ₚ concat ess /\ sorted_table (merge_files (encode_table <$> ess)) /\
    forall k, last_entry k (merge_files (encode_table <$> ess)) = last_entry k pops.
Proof.
  intros Hs Hf. apply (merge_spec Next file_reads); [|done|].
  - clear Hs. induction Hf; constructor; [by split|done].
  - pose proof (length_concat_tables ess). lia.
Qed.

Lemma sorted_table_nodup es : sorted_table es -> NoDup (Key <$> es).
Proof.
  induction 1 as [|e es _ IH Hall]; [constructor|]. rewrite fmap_cons. constructor; [|done].
  intros (e' & Heq & He')%list_elem_of_fmap. rewrite Forall_forall in Hall.
  apply (str_lt_irrefl (Key e)). rewrite Heq at 2. by apply Hall.
Qed.

Lemma last_entry_unique l e : e ∈ l -> (forall x, x ∈ l -> Key x = Key e -> x = e) ->
  last_entry (Key e) l = Some e.
Proof.
  intros He Hu. destruct (last_entry (Key e) l) as [x|] eqn:E.
  - apply last_entry_Some in E as [Hx Hk]. by rewrite (Hu x Hx Hk).
  - apply last_entry_in in E. exfalso. apply E. by apply list_elem_of_fmap_2.
Qed.

Lemma sorted_table_key_inj es x y : sorted_table es -> x ∈ es -> y ∈ es -> Key x = Key y -> x = y.
Proof.
  intros Hs Hx Hy Hk. pose proof (sorted_table_nodup es Hs) as Hn.
  pose proof (last_entry_nodup (Key y) es x Hn Hx Hk).
  pose proof (last_entry_nodup (Key y) es y Hn Hy eq_refl). congruence.
Qed.

Lemma elem_of_concat {A} (x : A) ess : x ∈ concat ess <-> exists es, es ∈ ess /\ x ∈ es.
Proof.
  rewrite list_elem_of_In, in_concat. split; intros (es & H1 & H2); exists es;
    split; by apply list_elem_of_In.
Qed.

(** Of a merge: every entry comes from a table, and a key that one table alone
    has keeps that table's entry. *)
Lemma merge_files_last ess k : Forall sorted_table ess -> Forall (Forall entry_fits) ess ->
  let m := merge_files (encode_table <$> ess) in
  sorted_table m /\
  (last_entry k m = None <-> forall es, es ∈ ess -> last_entry k es = None) /\
  (forall e, last_entry k m = Some e -> exists es, es ∈ ess /\ last_entry k es = Some e) /\
  (forall es e, es ∈ ess -> last_entry k es = Some e ->
     (forall es', es' ∈ ess -> is_Some (last_entry k es') -> es' = es) ->
     last_entry k m = Some e).
Proof.
  intros Hs Hf m. destruct (merge_files_spec ess Hs Hf) as (pops & Hp & Hm & Hk).
  fold m in Hm, Hk. rewrite (Hk k). rewrite Forall_forall in Hs. split_and!; [done| | |].
  - rewrite last_entry_in. split.
    + intros Hn es Hes. apply last_entry_in. intros (e & -> & He)%list_elem_of_fmap. apply Hn.
      apply list_elem_of_fmap_2. rewrite Hp. apply elem_of_concat. eauto.
    + intros Hall (e & -> & He)%list_elem_of_fmap. rewrite Hp, elem_of_concat in He.
      destruct He as (es & Hes & He). apply Hall in Hes. apply last_entry_in in Hes.
      apply Hes. by apply list_elem_of_fmap_2.
  - intros e [He Hke]%last_entry_Some. rewrite Hp, elem_of_concat in He.
    destruct He as (es & Hes & He). exists es. split; [done|].
    apply last_entry_nodup; [|done|done]. by apply sorted_table_nodup, Hs.
  - intros es e Hes [He Hke]%last_entry_Some Honly. subst k. apply last_entry_unique.
    + rewrite Hp. apply elem_of_concat. eauto.
    + intros x Hx Hkx. rewrite Hp, elem_of_concat in Hx. destruct Hx as (es' & Hes' & Hx).
      assert (es' = es) as ->.
      { apply Honly; [done|]. rewrite (last_entry_nodup _ _ x); [by eexists| |done|done].
        by apply sorted_table_nodup, Hs. }
      by apply (sorted_table_key_inj es); [apply Hs| | |].
Qed.

(** ** Properties *)

(** C33. what the merge of strictly sorted tables guarantees. The result is
    strictly sorted (so a valid table with unique keys), a key is in it exactly
    when some table has it, every entry of it is an entry of some table, and a
    key that only one table has keeps its entry. (Which table wins a tie is
    not guaranteed: see [merge_keeps_overwritten_value].) *)
Theorem merge_sorted_union ess k :
  Forall sorted_table ess -> Forall (Forall entry_fits) ess ->
  let m := merge_files (encode_table <$> ess) in
  sorted_table m /\
  (last_entry k m = None <-> forall es, es ∈ ess -> last_entry k es = None) /\
  (forall e, last_entry k m = Some e -> exists es, es ∈ ess /\ last_entry k es = Some e) /\
  (forall es e, es ∈ ess -> last_entry k es = Some e ->
     (forall es', es' ∈ ess -> is_Some (last_entry k es') -> es' = es) ->
     last_entry k m = Some e).
Proof. apply merge_files_last. Qed.

Definition older_table : list Entry :=
  [mkEntry "a" (to_bytes "1") 0 false; mkEntry "k" (to_bytes "old") 0 false].
Definition newer_table : list Entry := [mkEntry "k" (to_bytes "new") 0 false].

Lemma merge_sorted_union_witness :
  let m := merge_files (encode_table <$> [older_table; newer_table]) in
  sorted_table m /\
  (last_entry "a" m = None <-> forall es, es ∈ [older_table; newer_table] -> last_entry "a" es = None) /\
  (forall e, last_entry "a" m = Some e ->
     exists es, es ∈ [older_table; newer_table] /\ last_entry "a" es = Some e) /\
  (forall es e, es ∈ [older_table; newer_table] -> last_entry "a" es = Some e ->
     (forall es', es' ∈ [older_table; newer_table] -> is_Some (last_entry "a" es') -> es' = es) ->
     last_entry "a" m = Some e).
Proof.
  apply (merge_sorted_union [older_table; newer_table] "a");
    repeat constructor; vm_compute; congruence.
Defined.

(** Two tables of level 0, the older one first, as the compaction agent reads
    them: the merge keeps the overwritten value of [k]. The heap compares keys
    only, and here it yields the newer table's entry first. *)
Lemma merge_keeps_overwritten_value :
  last_entry "k" (merge_files (encode_table <$> [older_table; newer_table]))
  = Some (mkEntry "k" (to_bytes "old") 0 false).
Proof. vm_compute. reflexivity. Qed.
