(* ===== verification/Configuration.v ===== *)
(** The server's configuration, internal/config/configuration.go: its fields
    and the defaults [LoadConfigurationFromFile] starts from. *)
From S2P Require Import Prelude.
From Stdlib Require Import Floats.SpecFloat.

Record SystemConfiguration := mkConfig {
  DataDirectoryPath : string;
  WriteAheadLogFilePath : string;
  LogDirectoryPath : string;
  ServerPort : Z;
  MaximumMemtableSizeInBytes : Z;
  LevelZeroCompactionTriggerCount : Z;
  SSTableBlockSizeInBytes : Z;
  BloomFilterFalsePositiveRate : spec_float;
  CompactionIntervalInSeconds : Z;
  AuthenticationToken : string;
  AuthenticationSecret : string;
  EnableDiskDurability : bool;
  MaximumCpuCount : Z;
  MaximumSystemMemoryInBytes : Z;
  EnablePprofProfiling : bool;
  LogSeverityLevel : string;
  KeyCacheCapacityCount : Z;
}.

Definition DefaultServerPort : Z := 8080.
Definition DefaultMaximumMemtableSizeInBytes : Z := 64 * 1024 * 1024.
Definition DefaultKeyCacheCapacityCount : Z := 40000.
Definition DefaultCompactionIntervalInSeconds : Z := 5.

(** 0.01 as a binary64: 5764607523034235 * 2^-59. *)
Definition DefaultBloomFilterFalsePositiveRate : spec_float :=
  S754_finite false 5764607523034235 (-59).

(** The value [config] has before the file is decoded over it; it is also the
    whole result for an empty path. *)
Definition default_config : SystemConfiguration := {|
  DataDirectoryPath := "./data";
  WriteAheadLogFilePath := "./data/wal.log";
  LogDirectoryPath := "./logs";
  ServerPort := DefaultServerPort;
  MaximumMemtableSizeInBytes := DefaultMaximumMemtableSizeInBytes;
  LevelZeroCompactionTriggerCount := 4;
  SSTableBlockSizeInBytes := 4096;
  BloomFilterFalsePositiveRate := DefaultBloomFilterFalsePositiveRate;
  CompactionIntervalInSeconds := DefaultCompactionIntervalInSeconds;
  AuthenticationToken := "";
  AuthenticationSecret := "DEFAULT_SECRET_CHANGE_ME_IN_PROD";
  EnableDiskDurability := true;
  MaximumCpuCount := 0;
  MaximumSystemMemoryInBytes := 0;
  EnablePprofProfiling := false;
  LogSeverityLevel := "INFO";
  KeyCacheCapacityCount := DefaultKeyCacheCapacityCount;
|}.

(** The constant is the double nearest to 1/100. *)
Example rate_is_nearest :
  SFdiv 53 1024 (S754_finite false 1 0) (S754_finite false 100 0)
  = DefaultBloomFilterFalsePositiveRate.
Proof. vm_compute. reflexivity. Qed.
