(* ===== verification/SystemState.v ===== *)
(** The blackboard (internal/core/system_state.go) with the machine around it:
    the files and the global metrics (internal/metrics/system_metrics.go). The
    agents and the HTTP handlers are functions on this state; a lock held over
    a region makes the region one atomic step. *)
From S2P Require Import Prelude Codec Text Domain Hashing Configuration WriteAheadLog SortedStringTable.
From S2P Require MemoryTable LruCache Bloom.

(** ** Definitions *)

Abbreviation memtable := MemoryTable.ShardedMemoryTable.

Record SystemMetricsRegistry := mkMetrics {
  WriteOperationsCount : Z;
  ReadOperationsCount : Z;
  CacheHitCount : Z;
  CacheMissCount : Z;
  WriteOps : Z;
}.

Definition IncrementCacheHitCount (g : SystemMetricsRegistry) : SystemMetricsRegistry :=
  mkMetrics (WriteOperationsCount g) (ReadOperationsCount g) (i64 (CacheHitCount g + 1))
    (CacheMissCount g) (WriteOps g).

Definition IncrementReadOperationsCount (g : SystemMetricsRegistry) : SystemMetricsRegistry :=
  mkMetrics (WriteOperationsCount g) (i64 (ReadOperationsCount g + 1)) (CacheHitCount g)
    (CacheMissCount g) (WriteOps g).

Definition IncrementCacheMissCount (g : SystemMetricsRegistry) : SystemMetricsRegistry :=
  mkMetrics (WriteOperationsCount g) (ReadOperationsCount g) (CacheHitCount g)
    (i64 (CacheMissCount g + 1)) (WriteOps g).

(** [metrics.Global.WriteOps += int64(n)]. *)
Definition add_WriteOps (n : Z) (g : SystemMetricsRegistry) : SystemMetricsRegistry :=
  mkMetrics (WriteOperationsCount g) (ReadOperationsCount g) (CacheHitCount g)
    (CacheMissCount g) (i64 (WriteOps g + n)).

Definition GetCurrentState (g : SystemMetricsRegistry) : gmap string Z :=
  <["write_ops" := WriteOps g]> (<["read_ops" := ReadOperationsCount g]>
    (<["cache_hits" := CacheHitCount g]> ∅)).

Definition zero_metrics : SystemMetricsRegistry := mkMetrics 0 0 0 0 0.

Section State.
Context {B : Type}.

Record SystemState := mkState {
  Configuration : SystemConfiguration;
  MemTable : memtable;
  ImmutableMem : list memtable;
  ActiveWal : option DiskWAL;
  FrozenWALs : list DiskWAL;
  SSTables : list (list SSTableMetadata);
  BloomF : option B;
  KeyCache : option LruCache.LruCache;
}.

Record machine := mkMachine {
  bb : SystemState;
  fs : FileSystem;
  Global : SystemMetricsRegistry;
}.

Definition set_MemTable t s := mkState (Configuration s) t (ImmutableMem s) (ActiveWal s)
  (FrozenWALs s) (SSTables s) (BloomF s) (KeyCache s).
Definition set_ImmutableMem l s := mkState (Configuration s) (MemTable s) l (ActiveWal s)
  (FrozenWALs s) (SSTables s) (BloomF s) (KeyCache s).
Definition set_wals a f s := mkState (Configuration s) (MemTable s) (ImmutableMem s) a f
  (SSTables s) (BloomF s) (KeyCache s).
Definition set_SSTables t s := mkState (Configuration s) (MemTable s) (ImmutableMem s)
  (ActiveWal s) (FrozenWALs s) t (BloomF s) (KeyCache s).
Definition set_BloomF b s := mkState (Configuration s) (MemTable s) (ImmutableMem s)
  (ActiveWal s) (FrozenWALs s) (SSTables s) b (KeyCache s).
Definition set_KeyCache c s := mkState (Configuration s) (MemTable s) (ImmutableMem s)
  (ActiveWal s) (FrozenWALs s) (SSTables s) (BloomF s) c.

Definition with_bb (f : SystemState -> SystemState) (m : machine) : machine :=
  mkMachine (f (bb m)) (fs m) (Global m).
Definition with_fs (f : FileSystem) (m : machine) : machine := mkMachine (bb m) f (Global m).

(** [NewSystemState]; the filter is the argument [bloom] (its size formula is
    not modelled, see Bloom). *)
Definition NewSystemState (cfg : SystemConfiguration) (bloom : B) : SystemState :=
  mkState cfg (MemoryTable.NewMemoryTable (Z.quot (MaximumMemtableSizeInBytes cfg) 100)) []
    None [] (replicate 4 []) (Some bloom)
    (Some (LruCache.NewLruCache (KeyCacheCapacityCount cfg))).

(** *** What a reader of the blackboard sees *)

(** The frozen tables, newest first, as [tryServeFromMemory]'s loop visits them. *)
Fixpoint find_immutable (k : string) (newest_first : list memtable) : option Entry :=
  match newest_first with
  | [] => None
  | t :: rest =>
    match MemoryTable.Get k t with Some e => Some e | None => find_immutable k rest end
  end.

Definition lookup_memory (k : string) (s : SystemState) : option Entry :=
  match MemoryTable.Get k (MemTable s) with
  | Some e => Some e
  | None => find_immutable k (reverse (ImmutableMem s))
  end.

Context `{BloomFilter B}.

(** [bloom != nil && !bloom.Contains(...)] negated; [None] is a panic. *)
Definition may_contain (bloom : option B) (id : Z) (k : string) : option bool :=
  match bloom with None => Some true | Some b => bloom_Contains id (to_bytes k) b end.

(** The loop of [searchLevel] over one level, newest table first. *)
Fixpoint find_level (k : string) (bloom : option B) (f : FileSystem)
    (newest_first : list SSTableMetadata) : outcome (option Entry) :=
  match newest_first with
  | [] => Ok None
  | meta :: rest =>
    match may_contain bloom (FileID meta) k with
    | None => Panic
    | Some false => find_level k bloom f rest
    | Some true =>
      match FindInSSTable meta k f with
      | Some e => Ok (Some e)
      | None => find_level k bloom f rest
      end
    end
  end.

Fixpoint find_levels (k : string) (bloom : option B) (f : FileSystem)
    (levels : list (list SSTableMetadata)) : outcome (option Entry) :=
  match levels with
  | [] => Ok None
  | level :: rest =>
    match find_level k bloom f (reverse level) with
    | Ok None => find_levels k bloom f rest
    | r => r
    end
  end.

(** The entry the engine holds for a key: the newest in memory, else on disk. *)
Definition lookup_entry (k : string) (m : machine) : outcome (option Entry) :=
  match lookup_memory k (bb m) with
  | Some e => Ok (Some e)
  | None => find_levels k (BloomF (bb m)) (fs m) (SSTables (bb m))
  end.

(** The two callers of [WriteSortedStringTableToDisk], [processFlush] and
    [performMerge], hand it the blackboard's filter. *)
Definition write_table (entries : list Entry) (filename : string) (level : Z) (m : machine)
    : machine * outcome SSTableMetadata :=
  match WriteSortedStringTableToDisk entries filename level (BloomF (bb m)) (fs m) with
  | Ok (meta, bloom, f) => (with_bb (set_BloomF bloom) (with_fs f m), Ok meta)
  | Err => (m, Err)
  | Panic => (m, Panic)
  end.

End State.
Arguments SystemState B : clear implicits.
Arguments machine B : clear implicits.

(** *** Specification: the state as a map, and its invariant *)

Section Invariant.
Context `{BloomFilterLaws B}.

(** [opts]: the first table (newest first) that has the key. *)
Definition first_some {A} (l : list (option A)) : option A :=
  foldr (fun o r => match o with Some x => Some x | None => r end) None l.

(** A table on disk with the entries its file holds. *)
Definition meta_ok (f : FileSystem) (bloom : option B) (meta : SSTableMetadata)
    (es : list Entry) : Prop :=
  table_file meta es f /\ sorted_table es /\
  0 <= FileID meta /\ (forall k, k ∈ (Key <$> es) -> bloom_has bloom (FileID meta) k).

Definition wals (s : SystemState B) : list DiskWAL :=
  match ActiveWal s with Some w => w :: FrozenWALs s | None => FrozenWALs s end.

Definition entries_fit (t : memtable) : Prop :=
  forall k e, MemoryTable.Get k t = Some e -> entry_fits e.

(** [contents] lists, per level, the entries of each table file. *)
Definition state_ok (m : machine B) (contents : list (list (list Entry))) : Prop :=
  MemoryTable.table_ok (MemTable (bb m)) /\ entries_fit (MemTable (bb m)) /\
  Forall (fun t => MemoryTable.table_ok t /\ entries_fit t) (ImmutableMem (bb m)) /\
  bloom_opt_ok (BloomF (bb m)) /\
  Forall2 (Forall2 (meta_ok (fs m) (BloomF (bb m)))) (SSTables (bb m)) contents /\
  (2 <= length (SSTables (bb m)))%nat /\
  (forall w meta, w ∈ wals (bb m) -> meta ∈ concat (SSTables (bb m)) -> path w <> Filename meta) /\
  (forall w, w ∈ wals (bb m) -> is_Some (files (fs m) !! path w)).

Definition mem_spec (k : string) (s : SystemState B) : option Entry :=
  first_some (MemoryTable.Get k <$> (MemTable s :: reverse (ImmutableMem s))).

Definition level_spec (k : string) (level : list (list Entry)) : option Entry :=
  first_some (last_entry k <$> reverse level).

Definition disk_spec (k : string) (contents : list (list (list Entry))) : option Entry :=
  first_some (level_spec k <$> contents).

(** The contents with [ts], tables that a compaction took from level 0, where
    a failed compaction puts them back: below what was flushed since. *)
Definition with_taken (ts : list (list Entry)) (contents : list (list (list Entry))) : list (list (list Entry)) :=
  alter (fun level => ts ++ level) 0%nat contents.

Definition view_spec (k : string) (ts : list (list Entry)) (m : machine B)
    (contents : list (list (list Entry))) : option Entry :=
  first_some [mem_spec k (bb m); disk_spec k (with_taken ts contents)].

(** ** Lemmas *)

Lemma first_some_app {A} (l r : list (option A)) :
  first_some (l ++ r) = match first_some l with Some x => Some x | None => first_some r end.
Proof. induction l as [|[x|] l IH]; [done|done|exact IH]. Qed.

Lemma find_immutable_spec k l : find_immutable k l = first_some (MemoryTable.Get k <$> l).
Proof. induction l as [|t l IH]; [done|]. cbn. by rewrite IH. Qed.

Lemma lookup_memory_spec k s : lookup_memory k s = mem_spec k s.
Proof. unfold lookup_memory, mem_spec. by rewrite find_immutable_spec. Qed.

Lemma may_contain_total bloom id k : bloom_opt_ok bloom -> 0 <= id ->
  exists b, may_contain bloom id k = Some b /\ (bloom_has bloom id k -> b = true).
Proof.
  intros Hb Hid. destruct bloom as [b|]; simpl in *; [|by exists true].
  destruct (bloom_contains_total id (to_bytes k) b Hb Hid) as [r Hr].
  exists r. split; [done|]. congruence.
Qed.

Lemma find_level_spec k bloom f metas ess : bloom_opt_ok bloom ->
  Forall2 (meta_ok f bloom) metas ess ->
  find_level k bloom f metas = Ok (first_some (last_entry k <$> ess)).
Proof.
  intros Hb. induction 1 as [|meta es metas ess (Ht & Hs & Hid & Hk) _ IH]; [done|].
  cbn [find_level]. destruct (may_contain_total bloom (FileID meta) k Hb Hid) as (b & -> & Hbk).
  rewrite (FindInSSTable_last meta es f k Ht), IH, fmap_cons. cbn.
  destruct (last_entry k es) as [e|] eqn:E; [|by destruct b].
  rewrite Hbk; [done|]. apply Hk. apply last_entry_Some in E as [He <-].
  by apply list_elem_of_fmap_2.
Qed.

Lemma find_levels_spec k bloom f levels contents : bloom_opt_ok bloom ->
  Forall2 (Forall2 (meta_ok f bloom)) levels contents ->
  find_levels k bloom f levels = Ok (disk_spec k contents).
Proof.
  intros Hb. induction 1 as [|level content levels contents Hl _ IH]; [done|].
  cbn [find_levels]. rewrite (find_level_spec k bloom f (reverse level) (reverse content)).
  2: done. 2: by apply Forall2_reverse.
  unfold disk_spec. rewrite fmap_cons. cbn. fold (level_spec k content).
  destruct (level_spec k content); [done|]. by rewrite IH.
Qed.

(** What a lookup returns in a well-formed state; in particular, no panic. *)
Lemma lookup_entry_spec k m contents : state_ok m contents ->
  lookup_entry k m = Ok (first_some [mem_spec k (bb m); disk_spec k contents]).
Proof.
  intros (_ & _ & _ & Hb & Ht & _). unfold lookup_entry. rewrite lookup_memory_spec.
  cbn [first_some foldr]. destruct (mem_spec k (bb m)); [done|].
  rewrite (find_levels_spec _ _ _ _ _ Hb Ht). by destruct (disk_spec k contents).
Qed.

Lemma view_spec_nil k m contents : view_spec k [] m contents = first_some [mem_spec k (bb m); disk_spec k contents].
Proof. by destruct contents. Qed.

Lemma lookup_entry_view k m contents : state_ok m contents -> lookup_entry k m = Ok (view_spec k [] m contents).
Proof. intros Hok. by rewrite view_spec_nil, (lookup_entry_spec k m contents). Qed.

(** A table survives any change of the files that leaves its own alone. *)
Lemma meta_ok_other_file f f' bloom meta es :
  files f' !! Filename meta = files f !! Filename meta -> openable f' = openable f ->
  meta_ok f bloom meta es -> meta_ok f' bloom meta es.
Proof.
  intros Hf Ho ((Hopen & Hidx) & Hs & Hid & Hb). split_and!; [|done|done|done].
  split; [|done]. unfold os_Open in *. by rewrite Ho, Hf.
Qed.

Lemma Forall2_concat_elem {A C} (P : A -> C -> Prop) levels contents x :
  Forall2 (Forall2 P) levels contents -> x ∈ concat levels -> exists y, P x y.
Proof.
  induction 1 as [|level content levels contents Hl _ IH]; simpl; [by intros Hx; inversion Hx|].
  intros [Hx|Hx]%elem_of_app; [|by apply IH].
  apply list_elem_of_lookup in Hx as [i Hi]. destruct (Forall2_lookup_l _ _ _ _ _ Hl Hi) as (y & _ & Hy).
  by exists y.
Qed.

Lemma tables_ok_other_file f f' bloom levels contents :
  (forall meta, meta ∈ concat levels -> files f' !! Filename meta = files f !! Filename meta) ->
  openable f' = openable f ->
  Forall2 (Forall2 (meta_ok f bloom)) levels contents ->
  Forall2 (Forall2 (meta_ok f' bloom)) levels contents.
Proof.
  intros Hf Ho Hl. induction Hl as [|level content levels contents Hl _ IH]; constructor.
  - assert (forall meta, meta ∈ level -> files f' !! Filename meta = files f !! Filename meta) as Hlev.
    { intros meta Hm. apply Hf. simpl. apply elem_of_app. by left. }
    clear IH Hf. induction Hl as [|meta es level content Hm _ IH]; constructor.
    + eapply meta_ok_other_file; [|done|done]. apply Hlev. constructor.
    + apply IH. intros meta' Hm'. apply Hlev. by constructor.
  - apply IH. intros meta Hm. apply Hf. simpl. apply elem_of_app. by right.
Qed.

Lemma table_file_exists m contents meta : state_ok m contents ->
  meta ∈ concat (SSTables (bb m)) -> is_Some (files (fs m) !! Filename meta).
Proof.
  intros (_ & _ & _ & _ & Ht & _) Hm.
  destruct (Forall2_concat_elem _ _ _ _ Ht Hm) as (es & (Ho & _) & _).
  unfold os_Open in Ho. case_match; [by eexists|done].
Qed.

(** Memory may change freely while its tables stay well formed. *)
Lemma state_ok_memory m contents s' : state_ok m contents ->
  MemoryTable.table_ok (MemTable s') -> entries_fit (MemTable s') ->
  Forall (fun t => MemoryTable.table_ok t /\ entries_fit t) (ImmutableMem s') ->
  BloomF s' = BloomF (bb m) -> SSTables s' = SSTables (bb m) -> wals s' = wals (bb m) ->
  forall g, state_ok (mkMachine s' (fs m) g) contents.
Proof.
  intros (_ & _ & _ & Hb & Ht & Hl & Hw & Hf) ? ? ? Hbl Htb Hwl g.
  split_and!; simpl; rewrite ?Hbl, ?Htb, ?Hwl; done.
Qed.

Lemma wals_exist m contents q : state_ok m contents -> q ∈ path <$> wals (bb m) -> is_Some (files (fs m) !! q).
Proof. intros (_ & _ & _ & _ & _ & _ & _ & Hw) (w & -> & Hin)%list_elem_of_fmap. by apply Hw. Qed.

(** *** Growth: files of interest and the filter's answers stay *)

Definition bloom_le (b1 b2 : option B) : Prop :=
  forall id k, 0 <= id -> bloom_has b1 id k -> bloom_has b2 id k.

#[export] Instance bloom_le_preorder : PreOrder bloom_le.
Proof. split; [by intros b id k|]. intros b1 b2 b3 H1 H2 id k Hid Hk. by apply H2, H1. Qed.

Lemma meta_ok_bloom f bloom bloom' meta es : bloom_le bloom bloom' ->
  meta_ok f bloom meta es -> meta_ok f bloom' meta es.
Proof. intros Hb (Ht & Hs & Hid & Hk). split_and!; try done. intros k Hin. by apply Hb, Hk. Qed.

(** [m'] has the files of [own] as [m] has them, and at least its filter. *)
Record grows (own : list string) (m m' : machine B) : Prop := {
  gr_files : forall q, q ∈ own -> files (fs m') !! q = files (fs m) !! q;
  gr_openable : openable (fs m') = openable (fs m);
  gr_bloom : bloom_le (BloomF (bb m)) (BloomF (bb m'));
}.

Lemma grows_meta own m m' meta es : grows own m m' -> Filename meta ∈ own ->
  meta_ok (fs m) (BloomF (bb m)) meta es -> meta_ok (fs m') (BloomF (bb m')) meta es.
Proof.
  intros [Hf Ho Hb] Hin Hm. eapply meta_ok_bloom; [exact Hb|].
  apply (meta_ok_other_file (fs m)); [by apply Hf|done|done].
Qed.

Lemma grows_metas own m m' metas ess : grows own m m' ->
  (forall meta, meta ∈ metas -> Filename meta ∈ own) ->
  Forall2 (meta_ok (fs m) (BloomF (bb m))) metas ess ->
  Forall2 (meta_ok (fs m') (BloomF (bb m'))) metas ess.
Proof.
  intros Hg Hin Hm. induction Hm as [|meta es metas ess Hme _ IH]; constructor.
  - eapply grows_meta; [done| |done]. apply Hin. left.
  - apply IH. intros x Hx. apply Hin. by right.
Qed.

(** A new table file and a larger filter leave the state consistent. *)
Lemma state_ok_new_file m contents p data bloom : state_ok m contents -> files (fs m) !! p = None ->
  bloom_opt_ok bloom -> bloom_le (BloomF (bb m)) bloom ->
  state_ok (with_bb (set_BloomF bloom) (with_fs (fs_write p data (fs m)) m)) contents.
Proof.
  intros Hok Hp Hb Hm. pose proof (fun meta => table_file_exists m contents meta Hok) as Hex.
  destruct Hok as (Hm1 & Hm2 & Hm3 & _ & Ht & Hl & Hw & Hwf). split_and!; cbn; try done.
  - apply (tables_ok_other_file (fs m)); [|done|].
    + intros meta Hin. cbn. rewrite lookup_insert_ne; [done|]. intros ->.
      destruct (Hex meta Hin) as [x Hx]. congruence.
    + eapply Forall2_impl; [exact Ht|]. intros l c Hlc. eapply Forall2_impl; [exact Hlc|].
      intros meta es. by apply meta_ok_bloom.
  - intros w Hin. destruct (decide (p = path w)) as [->|Hne]; [rewrite lookup_insert_eq; by eexists|].
    rewrite lookup_insert_ne by done. by apply Hwf.
Qed.

(** Writing a table to a new file: nothing happens, or the file and the keys
    in the filter are all that is new. *)
Lemma write_table_spec m contents es p level : state_ok m contents -> files (fs m) !! p = None ->
  0 <= parse_file_id p -> sorted_table es -> Forall entry_fits es -> zlen (encode_table es) < 2 ^ 63 ->
  let '(m', r) := write_table es p level m in
  state_ok m' contents /\
  ((r = Err /\ m' = m /\ openable (fs m) p = false) \/
   exists meta bloom, r = Ok meta /\ openable (fs m) p = true /\
     m' = with_bb (set_BloomF bloom) (with_fs (fs_write p (encode_table es) (fs m)) m) /\
     bloom_le (BloomF (bb m)) bloom /\ meta_ok (fs m') (BloomF (bb m')) meta es /\ Filename meta = p).
Proof.
  intros Hok Hp Hid Hs Hfit Hlen. unfold write_table.
  destruct (openable (fs m) p) eqn:Ho.
  2: { unfold WriteSortedStringTableToDisk, os_Create. rewrite Ho. split; [done|by left]. }
  pose proof Hok as (_ & _ & _ & Hb & _).
  destruct (Write_spec es p level (BloomF (bb m)) (fs m)) as (meta & bloom & -> & Htab & Hname & Hfid & Hb' & Hk & Hmono);
    [done..|].
  split; [by apply state_ok_new_file|]. right. exists meta, bloom.
  split_and!; try done. split_and!; [exact Htab|exact Hs|lia|exact Hk].
Qed.

Lemma mem_disk_lookup k m m' contents : state_ok m contents -> state_ok m' contents ->
  mem_spec k (bb m') = mem_spec k (bb m) -> lookup_entry k m' = lookup_entry k m.
Proof. intros H1 H2 Hk. by rewrite (lookup_entry_spec k m contents), (lookup_entry_spec k m' contents), Hk. Qed.

End Invariant.
