(* ===== verification/Ingestion.v ===== *)
(** The ingestion agent, internal/agents/ingestion.go: batches of requests are
    logged, put into the memory table, and may rotate it. *)
From S2P Require Import Prelude Codec Text Domain Hashing Configuration WriteAheadLog SortedStringTable SystemState.
From S2P Require MemoryTable LruCache Bloom.

(** ** Definitions *)

(** A response channel is a number; what is sent on it is [None] for nil. *)
Inductive go_error := WalWriteError.

Record IngestReq := mkReq {
  req_Key : string;
  req_Val : bytes;
  req_TTL : Z;
  req_IsDeleted : bool;
  req_ResponseChannel : option nat;
}.

Definition sends := list (nat * option go_error).

(** [int(h.Sum32()) % numShards] on a 64-bit platform. *)
Definition shard_of (numShards : Z) (key : string) : nat :=
  Z.to_nat (Z.rem (fnv32a (to_bytes key)) numShards).

(** The number of ingestion shards: [runtime.NumCPU()] unless configured. *)
Definition ingest_shards (NumCPU : Z) (cfg : SystemConfiguration) : Z :=
  if 0 <? MaximumCpuCount cfg then MaximumCpuCount cfg else NumCPU.

(** [now] is [time.Now()] in Unix nanoseconds; [time.Duration] is an int64. *)
Definition createEntry (req : IngestReq) (now : Z) : Entry :=
  let exp := if 0 <? req_TTL req
             then i64 (now + i64 (req_TTL req * 1000000000)) else 0 in
  let valCopy := replicate (length (req_Val req)) Byte.x00 in
  mkEntry (req_Key req) valCopy exp (req_IsDeleted req).

Definition prepareEntries (batch : list IngestReq) (out : list Entry) (now : Z) : list Entry :=
  fold_left (fun out req => out ++ [createEntry req now]) batch out.

Definition notify (batch : list IngestReq) (r : option go_error) : sends :=
  omap (fun req => (fun ch => (ch, r)) <$> req_ResponseChannel req) batch.
Definition notifySuccess (batch : list IngestReq) : sends := notify batch None.
Definition notifyErrors (batch : list IngestReq) (err : go_error) : sends := notify batch (Some err).

(** [for i := range keys]: the requests of each shard, in submission order. *)
Definition groupItemsByShard (numShards : Z) (items : list (string * bytes * Z))
    : gmap nat (list IngestReq) :=
  fold_left (fun batches '(k, v, ttl) =>
    let shardID := shard_of numShards k in
    <[shardID := default [] (batches !! shardID) ++ [mkReq k v ttl false None]]> batches)
    items ∅.

(** [drainSingleQueue]: at most 100 of the requests already waiting. *)
Definition drainSingleQueue (queue batch : list IngestReq) : list IngestReq * list IngestReq :=
  let limit := Nat.min 100 (length queue) in (batch ++ take limit queue, drop limit queue).

Section Ingest.
Context {B : Type}.
Implicit Types (m : machine B) (s : SystemState B).

(** [None] is the error of [WriteBatch]. *)
Definition writeWalIfEnabled (entries : list Entry) m : option (machine B) :=
  if EnableDiskDurability (Configuration (bb m)) then
    match ActiveWal (bb m) with
    | None => Some m
    | Some w =>
      match WriteBatch w entries (fs m) with
      | None => None
      | Some f => Some (with_fs f m)
      end
    end
  else Some m.

Definition rotated_path (cfg : SystemConfiguration) (now : Z) : string :=
  (WriteAheadLogFilePath cfg ++ String "." (print_int now))%string.

Definition rotateWal (now : Z) m : machine B :=
  match NewDiskWAL (rotated_path (Configuration (bb m)) now) true (fs m) with
  | None => m
  | Some (nw, f) =>
    let frozen := match ActiveWal (bb m) with Some w => [w] | None => [] end in
    with_bb (set_wals (Some nw) (FrozenWALs (bb m) ++ frozen)) (with_fs f m)
  end.

Definition rotateMemTable (now : Z) m : machine B :=
  let s := bb m in
  let m := with_bb (fun s => set_MemTable (MemoryTable.NewMemoryTable (1024 * 1024))
             (set_ImmutableMem (ImmutableMem s ++ [MemTable s]) s)) m in
  if EnableDiskDurability (Configuration s) then
    match ActiveWal s with None => m | Some _ => rotateWal now m end
  else m.

(** The first loop of [applyToMemTable]; [entries] has the batch's length. *)
Fixpoint apply_loop (batch : list IngestReq) (entries : list Entry) s : SystemState B :=
  match batch, entries with
  | req :: batch', e :: entries' =>
    let s := set_MemTable (MemoryTable.Put (req_Key req) (req_Val req) (ExpiryTimestamp e)
               (req_IsDeleted req) (MemTable s)) s in
    let s := match KeyCache s with
             | None => s
             | Some c => set_KeyCache (Some (LruCache.RemoveFromCache (req_Key req) c)) s
             end in
    apply_loop batch' entries' s
  | _, _ => s
  end.

Definition applyToMemTable (batch : list IngestReq) (entries : list Entry) (now : Z) m : machine B :=
  let m := with_bb (apply_loop batch entries) m in
  if MaximumMemtableSizeInBytes (Configuration (bb m)) <=? MemoryTable.Size (MemTable (bb m))
  then rotateMemTable now m else m.

(** [now] is read by [prepareEntries], [now_rot] by [rotateWal]. *)
Definition processBatch (batch : list IngestReq) (now now_rot : Z) m : machine B * sends :=
  match batch with
  | [] => (m, [])
  | _ =>
    let entries := prepareEntries batch [] now in
    match writeWalIfEnabled entries m with
    | None => (m, notifyErrors batch WalWriteError)
    | Some m =>
      let m := applyToMemTable batch entries now_rot m in
      let m := mkMachine (bb m) (fs m) (add_WriteOps (zlen batch) (Global m)) in
      (m, notifySuccess batch)
    end
  end.

(** One turn of [runShard] on its single queue: the request received, what can
    be drained, one batch. *)
Definition run_single (req : IngestReq) (queue : list IngestReq) (now now_rot : Z) m
    : machine B * sends * list IngestReq :=
  let '(itemBuffer, queue) := drainSingleQueue queue [req] in
  let '(m, out) := processBatch itemBuffer now now_rot m in (m, out, queue).

(** One turn of [runShard] on its batch queue: the reply is always nil. *)
Definition run_batch (items : list IngestReq) (now now_rot : Z) m
    : machine B * option go_error :=
  let '(m, _) := processBatch items now now_rot m in (m, None).

(** [SubmitIngestionRequest] when its shard is idle: the shard receives the
    request alone and the reply is read back from the channel. *)
Definition SubmitIngestionRequest (key : string) (val : bytes) (ttl : Z) (deleted : bool)
    (now now_rot : Z) m : machine B * option go_error :=
  let '(m, out, _) := run_single (mkReq key val ttl deleted (Some 0%nat)) [] now now_rot m in
  (m, match out with (_, err) :: _ => err | [] => None end).

(** [dispatchAndAwaitBatches]: [order] is the order in which the shards get to
    their batches, [now id] and [now_rot id] the times shard [id] reads; the
    first error among the replies is the result. *)
Fixpoint dispatchAndAwaitBatches (batches : gmap nat (list IngestReq)) (order : list nat)
    (now now_rot : nat -> Z) m : machine B * option go_error :=
  match order with
  | [] => (m, None)
  | id :: order' =>
    let '(m, err) := run_batch (default [] (batches !! id)) (now id) (now_rot id) m in
    let '(m, finalErr) := dispatchAndAwaitBatches batches order' now now_rot m in
    (m, match err with Some _ => err | None => finalErr end)
  end.

Definition SubmitBatchIngestion (numShards : Z) (items : list (string * bytes * Z))
    (order : list nat) (now now_rot : nat -> Z) m : machine B * option go_error :=
  match items with
  | [] => (m, None)
  | _ => dispatchAndAwaitBatches (groupItemsByShard numShards items) order now now_rot m
  end.

End Ingest.

(** *** Specification *)

(** What a request stores: its own value (not the entry's copy), the entry's
    expiry. *)
Definition stored (now : Z) (req : IngestReq) : Entry :=
  mkEntry (req_Key req) (req_Val req) (ExpiryTimestamp (createEntry req now)) (req_IsDeleted req).

Definition item_req (item : string * bytes * Z) : IngestReq :=
  let '(k, v, ttl) := item in mkReq k v ttl false None.

(** The requests of shard [id] among the items, in order. *)
Definition shard_items (n : Z) (id : nat) (items : list (string * bytes * Z)) : list IngestReq :=
  filter (fun r => shard_of n (req_Key r) = id) (item_req <$> items).

Definition req_fits (req : IngestReq) : Prop :=
  slen (req_Key req) < 2 ^ 32 /\ zlen (req_Val req) < 2 ^ 32.

(** ** Lemmas *)

Lemma prepareEntries_map batch now out :
  prepareEntries batch out now = out ++ ((fun req => createEntry req now) <$> batch).
Proof.
  unfold prepareEntries. revert out; induction batch as [|req batch IH]; intros out; simpl.
  - by rewrite app_nil_r.
  - rewrite IH, <- app_assoc. done.
Qed.

Lemma createEntry_expiry req now : is_i64 (ExpiryTimestamp (createEntry req now)).
Proof. unfold createEntry. simpl. case_match; [apply i64_bound|unfold is_i64; lia]. Qed.

Lemma stored_fits req now : req_fits req -> entry_fits (stored now req).
Proof. intros [? ?]. split_and!; [done|done|apply createEntry_expiry]. Qed.

Lemma createEntry_fits req now : req_fits req -> entry_fits (createEntry req now).
Proof.
  intros [Hk Hv]. split_and!; [done| |apply createEntry_expiry].
  simpl. unfold zlen in *. by rewrite length_replicate.
Qed.

Lemma fold_put_last es k : forall mt, MemoryTable.table_ok mt ->
  MemoryTable.Get k (fold_left MemoryTable.put_entry es mt)
  = match last_entry k es with Some e => Some e | None => MemoryTable.Get k mt end.
Proof.
  induction es as [|e es IH] using rev_ind; intros mt Hok; [done|].
  unfold last_entry. rewrite !fold_left_app. cbn [fold_left]. unfold MemoryTable.put_entry at 1.
  case_decide as Hk.
  - subst k. rewrite MemoryTable.Get_Put_eq by (by apply MemoryTable.fold_put_ok). by destruct e.
  - rewrite MemoryTable.Get_Put_ne by done. by apply IH.
Qed.

Lemma Get_new_empty k c : MemoryTable.Get k (MemoryTable.NewMemoryTable c) = None.
Proof. apply MemoryTable.Get_New. Qed.

Section IngestSpec.
Context `{BloomFilterLaws B}.
Implicit Types (m : machine B) (s : SystemState B).

(** The loop is a sequence of puts; nothing else but the cache changes. *)
Lemma apply_loop_spec now batch : forall s, exists c,
  apply_loop batch ((fun req => createEntry req now) <$> batch) s
  = set_KeyCache c (set_MemTable (fold_left MemoryTable.put_entry (stored now <$> batch) (MemTable s)) s) /\
  (forall c0, KeyCache s = Some c0 ->
     c = Some (fold_left (fun c k => LruCache.RemoveFromCache k c) (req_Key <$> batch) c0)) /\
  (KeyCache s = None -> c = None).
Proof.
  induction batch as [|req batch IH]; intros s.
  { exists (KeyCache s). destruct s; simpl. split_and!; [done|by intros ? ->|done]. }
  rewrite !fmap_cons. cbn [apply_loop fold_left].
  set (mt1 := MemoryTable.Put _ _ _ _ _). set (s1 := set_MemTable mt1 s).
  change (KeyCache s1) with (KeyCache s).
  set (s2 := match KeyCache s with Some _ => _ | None => _ end).
  destruct (IH s2) as (c' & -> & Hc & Hn). exists c'.
  assert (MemTable s2 = mt1 /\ forall c0 t0,
    set_KeyCache c0 (set_MemTable t0 s2) = set_KeyCache c0 (set_MemTable t0 s)) as [-> Heq].
  { subst s2 s1. by destruct s as [? ? ? ? ? ? ? []]. }
  rewrite Heq. split_and!; [done| |].
  - intros c0 Hc0. apply Hc. subst s2. by rewrite Hc0.
  - intros Hc0. apply Hn. subst s2. by rewrite Hc0.
Qed.

Lemma entries_fit_puts es t : MemoryTable.table_ok t -> entries_fit t -> Forall entry_fits es ->
  entries_fit (fold_left MemoryTable.put_entry es t).
Proof.
  intros Hok Ht Hes k e. rewrite fold_put_last by done.
  destruct (last_entry k es) as [e'|] eqn:E; [|apply Ht].
  intros [= <-]. apply last_entry_Some in E as [E _]. rewrite Forall_forall in Hes. by apply Hes.
Qed.

Lemma mem_spec_puts k s t c es : MemoryTable.table_ok (MemTable s) ->
  t = fold_left MemoryTable.put_entry es (MemTable s) ->
  mem_spec k (set_KeyCache c (set_MemTable t s))
  = match last_entry k es with Some e => Some e | None => mem_spec k s end.
Proof.
  intros Hok ->. unfold mem_spec. rewrite !fmap_cons. cbn [first_some foldr MemTable ImmutableMem set_KeyCache set_MemTable].
  rewrite fold_put_last by done. by destruct (last_entry k es).
Qed.

(** The log can be written: it is off, absent, or open. *)
Definition wal_open m : Prop :=
  EnableDiskDurability (Configuration (bb m)) = true ->
  forall w, ActiveWal (bb m) = Some w -> closed w = false.

(** The name a rotation would create is new. *)
Definition rotation_fresh (now_rot : Z) m : Prop :=
  files (fs m) !! rotated_path (Configuration (bb m)) now_rot = None.

Lemma state_ok_append m contents w more : state_ok m contents -> ActiveWal (bb m) = Some w ->
  state_ok (with_fs (fs_append (path w) more (fs m)) m) contents.
Proof.
  intros (Hm & Hf & Hi & Hb & Ht & Hl & Hw & Hwf) Haw.
  assert (w ∈ wals (bb m)) as Hin by (unfold wals; rewrite Haw; constructor).
  split_and!; simpl; try done.
  - apply (tables_ok_other_file (fs m)); [|done|exact Ht]. intros meta Hmeta.
    unfold fs_append, fs_write. cbn. rewrite lookup_insert_ne; [done|]. by apply Hw.
  - intros w' Hw'. destruct (decide (path w = path w')) as [->|Hne].
    + rewrite lookup_insert_eq. by eexists.
    + rewrite lookup_insert_ne by done. by apply Hwf.
Qed.

Lemma writeWalIfEnabled_ok m contents entries : state_ok m contents -> wal_open m ->
  exists f, writeWalIfEnabled entries m = Some (with_fs f m) /\
    state_ok (with_fs f m) contents /\
    (forall p, files (fs m) !! p = None -> files f !! p = None).
Proof.
  intros Hok Hopen. unfold writeWalIfEnabled.
  assert (m = with_fs (fs m) m) as Hid by (by destruct m).
  destruct (EnableDiskDurability _) eqn:Hd; [|exists (fs m); rewrite <- Hid; done].
  destruct (ActiveWal (bb m)) as [w|] eqn:Haw; [|exists (fs m); rewrite <- Hid; done].
  unfold WriteBatch. rewrite (Hopen Hd w Haw). eexists. split_and!; [done|by apply state_ok_append|].
  intros p Hp. cbn. rewrite lookup_insert_ne; [done|]. intros <-.
  destruct Hok as (_ & _ & _ & _ & _ & _ & _ & Hwf).
  destruct (Hwf w) as [x Hx]; [unfold wals; rewrite Haw; constructor|congruence].
Qed.

Lemma rotateWal_ok m contents now : state_ok m contents -> rotation_fresh now m ->
  state_ok (rotateWal now m) contents /\ forall k, mem_spec k (bb (rotateWal now m)) = mem_spec k (bb m).
Proof.
  intros Hok Hfresh. unfold rotateWal, NewDiskWAL, os_OpenAppend.
  destruct (openable _ _) eqn:Ho; [|done]. split; [|done].
  pose proof (fun meta => table_file_exists m contents meta Hok) as Hex.
  destruct Hok as (Hm & Hf & Hi & Hb & Ht & Hl & Hw & Hwf).
  set (p := rotated_path _ _) in *.
  assert (forall meta, meta ∈ concat (SSTables (bb m)) -> p <> Filename meta) as Hne.
  { intros meta Hmeta Heq. unfold rotation_fresh in Hfresh. fold p in Hfresh.
    destruct (Hex meta Hmeta) as [x Hx]. congruence. }
  assert (forall w', w' ∈ wals (set_wals (Some (mkDiskWAL p true false))
      (FrozenWALs (bb m) ++ match ActiveWal (bb m) with Some w => [w] | None => [] end) (bb m)) ->
    path w' = p \/ w' ∈ wals (bb m)) as Hwals.
  { intros w'. unfold wals. cbn. rewrite elem_of_cons, elem_of_app.
    intros [->|[Hin|Hin]]; [by left| |]; right; destruct (ActiveWal (bb m)) as [w0|]; rewrite ?elem_of_cons.
    - by right.
    - done.
    - left. by apply list_elem_of_singleton in Hin.
    - by inversion Hin. }
  split_and!; simpl; try done.
  - apply (tables_ok_other_file (fs m)); [|done|exact Ht]. intros meta Hmeta.
    cbn. rewrite lookup_insert_ne; [done|by apply Hne].
  - intros w' meta Hw' Hmeta. destruct (Hwals w' Hw') as [->|Hin]; [by apply Hne|by apply Hw].
  - intros w' Hw'. destruct (Hwals w' Hw') as [->|Hin]; [rewrite lookup_insert_eq; by eexists|].
    destruct (decide (p = path w')) as [->|Hn]; [rewrite lookup_insert_eq; by eexists|].
    rewrite lookup_insert_ne by done. by apply Hwf.
Qed.

Lemma rotateMemTable_ok m contents now : state_ok m contents -> rotation_fresh now m ->
  state_ok (rotateMemTable now m) contents /\
  forall k, mem_spec k (bb (rotateMemTable now m)) = mem_spec k (bb m).
Proof.
  intros Hok Hfresh. unfold rotateMemTable.
  set (m1 := with_bb _ m).
  assert (state_ok m1 contents /\ forall k, mem_spec k (bb m1) = mem_spec k (bb m)) as [Hok1 Hv1].
  { pose proof Hok as (Hm & Hf & Hi & _). split.
    - eapply state_ok_memory; try done; simpl.
      + apply MemoryTable.NewMemoryTable_ok.
      + intros k e. by rewrite Get_new_empty.
      + apply Forall_app. split; [done|]. constructor; [done|constructor].
    - intros k. unfold mem_spec. cbn [m1 with_bb bb MemTable ImmutableMem set_MemTable set_ImmutableMem].
      rewrite reverse_snoc, !fmap_cons. cbn [first_some foldr]. by rewrite Get_new_empty. }
  destruct (EnableDiskDurability _); [|done]. destruct (ActiveWal (bb m)); [|done].
  destruct (rotateWal_ok m1 contents now Hok1) as [Hok2 Hv2]; [done|].
  split; [done|]. intros k. by rewrite Hv2.
Qed.

Lemma rotateMemTable_tables m now : MemTable (bb (rotateMemTable now m)) = MemoryTable.NewMemoryTable (1024 * 1024) /\
  ImmutableMem (bb (rotateMemTable now m)) = ImmutableMem (bb m) ++ [MemTable (bb m)].
Proof. unfold rotateMemTable, rotateWal. by repeat case_match. Qed.

Lemma applyToMemTable_ok m contents batch now now_rot : state_ok m contents ->
  Forall req_fits batch -> rotation_fresh now_rot m ->
  let m' := applyToMemTable batch (prepareEntries batch [] now) now_rot m in
  state_ok m' contents /\
  forall k, mem_spec k (bb m') = match last_entry k (stored now <$> batch) with
                                 | Some e => Some e | None => mem_spec k (bb m) end.
Proof.
  intros Hok Hfit Hfresh. unfold applyToMemTable. rewrite prepareEntries_map. cbn [app].
  destruct (apply_loop_spec now batch (bb m)) as (c & Hloop & _).
  set (m1 := with_bb _ m).
  assert (bb m1 = set_KeyCache c (set_MemTable
    (fold_left MemoryTable.put_entry (stored now <$> batch) (MemTable (bb m))) (bb m))) as Hb1.
  { unfold m1, with_bb. cbn. exact Hloop. }
  pose proof Hok as (Hm & Hf & Hi & _).
  assert (state_ok m1 contents) as Hok1.
  { destruct m1 as [s1 f1 g1] eqn:Em. unfold m1, with_bb in Em. injection Em as <- <- <-.
    cbn [bb] in Hb1. eapply state_ok_memory; rewrite ?Hb1; try done; simpl.
    - by apply MemoryTable.fold_put_ok.
    - apply entries_fit_puts; [done|done|]. apply Forall_fmap. eapply Forall_impl; [exact Hfit|].
      intros req. apply stored_fits. }
  assert (forall k, mem_spec k (bb m1) = match last_entry k (stored now <$> batch) with
    | Some e => Some e | None => mem_spec k (bb m) end) as Hv1.
  { intros k. rewrite Hb1. by apply mem_spec_puts. }
  destruct (_ <=? _); [|done].
  destruct (rotateMemTable_ok m1 contents now_rot Hok1) as [Hok2 Hv2].
  { unfold rotation_fresh in *. rewrite Hb1. done. }
  split; [done|]. intros k. by rewrite Hv2.
Qed.

(** A batch whose log write succeeds is applied, answered with nil, and leaves
    a well-formed state. *)
Lemma processBatch_mem m contents batch now now_rot : state_ok m contents -> wal_open m ->
  batch <> [] -> Forall req_fits batch -> rotation_fresh now_rot m ->
  let '(m', out) := processBatch batch now now_rot m in
  state_ok m' contents /\ out = notifySuccess batch /\
  forall k, mem_spec k (bb m') = match last_entry k (stored now <$> batch) with
                                | Some e => Some e | None => mem_spec k (bb m) end.
Proof.
  intros Hok Hopen Hne Hfit Hfresh. unfold processBatch. destruct batch as [|r batch]; [done|].
  set (b := r :: batch) in *. clearbody b.
  destruct (writeWalIfEnabled_ok m contents (prepareEntries b [] now) Hok Hopen) as (f & -> & Hok1 & Hf).
  destruct (applyToMemTable_ok (with_fs f m) contents b now now_rot Hok1 Hfit) as [Hok2 Hv].
  { unfold rotation_fresh in *. by apply Hf. }
  set (m2 := applyToMemTable _ _ _ _) in *.
  split_and!; [|done|exact Hv]. pose proof Hok2 as (? & ? & ? & ?). by eapply state_ok_memory.
Qed.

Lemma processBatch_ok m contents batch now now_rot : state_ok m contents -> wal_open m ->
  batch <> [] -> Forall req_fits batch -> rotation_fresh now_rot m ->
  let '(m', out) := processBatch batch now now_rot m in
  state_ok m' contents /\ out = notifySuccess batch /\
  forall k, lookup_entry k m' = match last_entry k (stored now <$> batch) with
                                | Some e => Ok (Some e) | None => lookup_entry k m end.
Proof.
  intros Hok Hopen Hne Hfit Hfresh.
  pose proof (processBatch_mem m contents batch now now_rot Hok Hopen Hne Hfit Hfresh) as Hp.
  destruct (processBatch batch now now_rot m) as [m' out]. destruct Hp as (Hok' & -> & Hv).
  split_and!; [done|done|]. intros k.
  rewrite (lookup_entry_spec k _ _ Hok'), (lookup_entry_spec k _ _ Hok). rewrite Hv.
  by destruct (last_entry k _).
Qed.

(** A batch touches no file but the active log and the one it may create. *)
Lemma processBatch_absent m contents batch now now_rot p : state_ok m contents -> wal_open m ->
  files (fs m) !! p = None -> p <> rotated_path (Configuration (bb m)) now_rot ->
  files (fs (fst (processBatch batch now now_rot m))) !! p = None.
Proof.
  intros Hok Hopen Hp Hne. unfold processBatch. destruct batch as [|r batch]; [done|].
  set (b := r :: batch) in *. clearbody b.
  destruct (writeWalIfEnabled_ok m contents (prepareEntries b [] now) Hok Hopen) as (f & -> & _ & Hf).
  cbn [fst fs]. unfold applyToMemTable. rewrite prepareEntries_map.
  destruct (apply_loop_spec now b (bb m)) as (c & Hloop & _). cbn [app].
  destruct (_ <=? _); [|by apply Hf]. unfold rotateMemTable.
  cbn [with_bb with_fs bb fs Configuration]. rewrite Hloop.
  destruct (EnableDiskDurability _); [|by apply Hf].
  cbn [ActiveWal set_KeyCache set_MemTable]. destruct (ActiveWal (bb m)); [|by apply Hf].
  unfold rotateWal, NewDiskWAL, os_OpenAppend. cbn [with_bb with_fs bb fs Configuration openable].
  rewrite ?Hloop. destruct (openable f _); [|by apply Hf]. cbn. rewrite lookup_insert_ne; [by apply Hf|done].
Qed.

(** Configuration and openness of the log survive a batch. *)
Lemma processBatch_config batch now now_rot m :
  Configuration (bb (fst (processBatch batch now now_rot m))) = Configuration (bb m).
Proof.
  unfold processBatch. destruct batch as [|r batch]; [done|].
  set (b := r :: batch) in *. clearbody b.
  assert (forall m1, writeWalIfEnabled (prepareEntries b [] now) m = Some m1 -> bb m1 = bb m) as Hw.
  { unfold writeWalIfEnabled. intros m1 Hm. repeat case_match; try done; by injection Hm as <-. }
  destruct (writeWalIfEnabled _ m) as [m1|]; [|done]. rewrite <- (Hw m1 eq_refl). clear Hw.
  cbn [fst bb]. unfold applyToMemTable. rewrite prepareEntries_map.
  destruct (apply_loop_spec now b (bb m1)) as (c & Hloop & _). cbn [app].
  unfold rotateMemTable, rotateWal. cbn [with_bb bb]. rewrite Hloop.
  repeat case_match; by cbn; rewrite ?Hloop.
Qed.

(** An acknowledged batch drops its keys from the cache. *)
Lemma processBatch_cache batch now now_rot m m1 :
  batch <> [] -> writeWalIfEnabled (prepareEntries batch [] now) m = Some m1 ->
  KeyCache (bb (fst (processBatch batch now now_rot m)))
  = fold_left (fun c k => LruCache.RemoveFromCache k c) (req_Key <$> batch) <$> KeyCache (bb m).
Proof.
  intros Hne Hw. unfold processBatch. destruct batch as [|r batch]; [done|].
  set (b := r :: batch) in *. clearbody b. rewrite Hw.
  assert (bb m1 = bb m) as <-.
  { unfold writeWalIfEnabled in Hw. repeat case_match; try done; by injection Hw as <-. }
  cbn [fst bb]. unfold applyToMemTable. rewrite prepareEntries_map.
  destruct (apply_loop_spec now b (bb m1)) as (c & Hloop & Hc & Hn). cbn [app].
  assert (c = fold_left (fun c k => LruCache.RemoveFromCache k c) (req_Key <$> b) <$> KeyCache (bb m1)) as ->.
  { destruct (KeyCache (bb m1)) as [c0|]; [by apply Hc|by apply Hn]. }
  unfold rotateMemTable, rotateWal. cbn [with_bb bb]. rewrite Hloop.
  repeat case_match; cbn; by rewrite ?Hloop.
Qed.

Lemma processBatch_wal_open batch now now_rot m : wal_open m ->
  wal_open (fst (processBatch batch now now_rot m)).
Proof.
  intros Hopen. unfold wal_open. rewrite processBatch_config. intros Hd w.
  unfold processBatch. destruct batch as [|r batch]; [by apply Hopen|].
  set (b := r :: batch) in *. clearbody b.
  assert (forall m1, writeWalIfEnabled (prepareEntries b [] now) m = Some m1 -> bb m1 = bb m) as Hw.
  { unfold writeWalIfEnabled. intros m1 Hm. repeat case_match; try done; by injection Hm as <-. }
  destruct (writeWalIfEnabled _ m) as [m1|]; [|by apply Hopen].
  specialize (Hopen Hd). rewrite <- (Hw m1 eq_refl) in Hopen. clear Hw.
  cbn [fst bb]. unfold applyToMemTable. rewrite prepareEntries_map.
  destruct (apply_loop_spec now b (bb m1)) as (c & Hloop & _). cbn [app].
  unfold rotateMemTable, rotateWal, NewDiskWAL. cbn [with_bb bb]. rewrite Hloop. cbn.
  repeat case_match; cbn; rewrite ?Hloop; try (by apply Hopen); try (intros [= <-]; by simplify_eq);
    try (intros Hx; cbn in Hx; apply Hopen; congruence).
Qed.

(** What a batch leaves alone: the configuration, the filter, the tables on
    disk, the frozen tables (one may join them) and every file but the logs in
    use and the one it may create, at [p]. *)
Record frame (p : string) (m m' : machine B) : Prop := {
  fr_config : Configuration (bb m') = Configuration (bb m);
  fr_bloom : BloomF (bb m') = BloomF (bb m);
  fr_tables : SSTables (bb m') = SSTables (bb m);
  fr_frozen : prefix (ImmutableMem (bb m)) (ImmutableMem (bb m'));
  fr_wals : path <$> wals (bb m') ≡ₚ path <$> wals (bb m) \/
            path <$> wals (bb m') ≡ₚ p :: (path <$> wals (bb m));
  fr_files : forall q, q <> p -> q ∉ path <$> wals (bb m) -> files (fs m') !! q = files (fs m) !! q;
  fr_openable : openable (fs m') = openable (fs m);
}.

Lemma frame_refl p m : frame p m m.
Proof. split; try done; by left. Qed.

(** Frames compose when the first one creates no file. *)
Lemma frame_trans p m1 m2 m3 : path <$> wals (bb m2) = path <$> wals (bb m1) ->
  frame p m1 m2 -> frame p m2 m3 -> frame p m1 m3.
Proof.
  intros Hw [C1 B1 T1 I1 W1 F1 O1] [C2 B2 T2 I2 W2 F2 O2]. rewrite Hw in *. split; try congruence.
  - exact (transitivity I1 I2).
  - intros q Hq Hin. by rewrite F2, F1.
Qed.

Lemma writeWalIfEnabled_frame p m m' entries : writeWalIfEnabled entries m = Some m' ->
  bb m' = bb m /\ frame p m m'.
Proof.
  unfold writeWalIfEnabled, WriteBatch. intros Hw. repeat case_match; simplify_eq; split; try done; try apply frame_refl.
  split; try done; [by left|]. intros q _ Hq. cbn. rewrite lookup_insert_ne; [done|].
  intros <-. apply Hq. apply list_elem_of_fmap_2. unfold wals. cbn.
  match goal with H : ActiveWal (bb m) = _ |- _ => rewrite H end. left.
Qed.

Lemma rotateWal_frame now m : ActiveWal (bb m) <> None ->
  frame (rotated_path (Configuration (bb m)) now) m (rotateWal now m).
Proof.
  intros Haw. unfold rotateWal, NewDiskWAL, os_OpenAppend. destruct (openable _ _) eqn:Ho; [|apply frame_refl].
  destruct (ActiveWal (bb m)) as [w|] eqn:Ew; [|done].
  split; try done; cbn.
  - right. unfold wals. rewrite Ew. cbn. rewrite fmap_app. cbn. constructor.
    by rewrite Permutation_app_comm.
  - intros q Hq _. by rewrite lookup_insert_ne.
Qed.

Lemma rotateMemTable_frame now m : frame (rotated_path (Configuration (bb m)) now) m (rotateMemTable now m).
Proof.
  unfold rotateMemTable. set (m1 := with_bb _ m). set (p := rotated_path _ _).
  assert (frame p m m1) as H1.
  { split; try done; cbn; [by eexists|by left]. }
  destruct (EnableDiskDurability _); [|done]. destruct (ActiveWal (bb m)) as [w|] eqn:Ew; [|done].
  eapply frame_trans; [|exact H1|apply (rotateWal_frame now m1)]; [done|]. cbn. congruence.
Qed.

Lemma processBatch_frame batch now now_rot m :
  frame (rotated_path (Configuration (bb m)) now_rot) m (fst (processBatch batch now now_rot m)).
Proof.
  unfold processBatch. destruct batch as [|r batch]; [apply frame_refl|].
  set (b := r :: batch) in *. clearbody b. set (p := rotated_path _ _).
  destruct (writeWalIfEnabled _ m) as [m1|] eqn:Ew; [|apply frame_refl].
  destruct (writeWalIfEnabled_frame p _ _ _ Ew) as [Hb1 H1]. cbn [fst].
  eapply (frame_trans p m m1); [by rewrite Hb1|done|]. clear Ew H1. subst p. rewrite <- Hb1. clear Hb1.
  unfold applyToMemTable. rewrite prepareEntries_map. cbn [app].
  destruct (apply_loop_spec now b (bb m1)) as (c & Hloop & _).
  set (m2 := with_bb _ m1). set (p := rotated_path _ _).
  assert (bb m2 = set_KeyCache c (set_MemTable (fold_left MemoryTable.put_entry (stored now <$> b) (MemTable (bb m1))) (bb m1)))
    as Hb2 by exact Hloop.
  assert (frame p m1 m2) as H2.
  { split; rewrite ?Hb2; try done. by left. }
  assert (frame p m2 (if MaximumMemtableSizeInBytes (Configuration (bb m2)) <=? MemoryTable.Size (MemTable (bb m2))
    then rotateMemTable now_rot m2 else m2)) as H3.
  { destruct (_ <=? _); [|apply frame_refl]. unfold p. rewrite <- (fr_config _ _ _ H2). apply rotateMemTable_frame. }
  set (m3 := if _ <=? _ then _ else _) in *. clearbody m3.
  assert (frame p m1 m3) as H4 by (eapply frame_trans; [|exact H2|exact H3]; by rewrite Hb2).
  destruct H4. by split.
Qed.

(** *** Grouping by shard *)

Lemma groupItemsByShard_spec n items id :
  default [] (groupItemsByShard n items !! id) = shard_items n id items.
Proof.
  unfold groupItemsByShard, shard_items.
  induction items as [|[[k v] ttl] items IH] using rev_ind; [done|].
  rewrite fold_left_app, fmap_app, filter_app. cbn [fold_left fmap list_fmap item_req].
  rewrite filter_cons, filter_nil. cbn [req_Key].
  destruct (decide (shard_of n k = id)) as [Heq|Hne].
  - rewrite Heq, lookup_insert_eq. cbn. by rewrite IH.
  - rewrite lookup_insert_ne, IH by done. by rewrite app_nil_r.
Qed.

(** A key's last request is found in its own shard's batch and in no other. *)
Lemma last_entry_shard n now items k id :
  last_entry k (stored now <$> shard_items n id items)
  = if decide (shard_of n k = id) then last_entry k (stored now <$> (item_req <$> items)) else None.
Proof.
  unfold shard_items. induction items as [|it items IH] using rev_ind; [by case_decide|].
  rewrite !fmap_app, filter_app, fmap_app. unfold last_entry in *. rewrite !fold_left_app, IH.
  cbn [fmap list_fmap]. rewrite filter_cons, filter_nil. cbn [fold_left].
  destruct (decide (shard_of n (req_Key (item_req it)) = id)) as [He|He]; cbn [fmap list_fmap fold_left stored Key].
  - destruct (decide (req_Key (item_req it) = k)) as [<-|Hk]; [|done]. by rewrite decide_True.
  - destruct (decide (req_Key (item_req it) = k)) as [<-|Hk]; [|done]. by rewrite !decide_False by done.
Qed.

(** *** Submission *)

Lemma item_req_fits items : Forall (fun it => req_fits (item_req it)) items ->
  forall n id, Forall req_fits (shard_items n id items).
Proof.
  intros Hf n id. rewrite Forall_forall in Hf. unfold shard_items. apply Forall_forall. intros r.
  rewrite list_elem_of_filter. intros [_ (it & -> & Hin)%list_elem_of_fmap]. by apply Hf.
Qed.

(** The views after a run of the shards in any duplicate-free order. *)
Lemma dispatch_spec n items contents now now_rot : forall order m,
  NoDup order -> state_ok m contents -> wal_open m ->
  Forall (fun it => req_fits (item_req it)) items ->
  Forall (fun id => rotation_fresh (now_rot id) m) order ->
  NoDup ((fun id => rotated_path (Configuration (bb m)) (now_rot id)) <$> order) ->
  let '(m', err) := dispatchAndAwaitBatches (groupItemsByShard n items) order now now_rot m in
  state_ok m' contents /\ err = None /\
  forall k, lookup_entry k m' =
    if decide (shard_of n k ∈ order) then
      match last_entry k (stored (now (shard_of n k)) <$> (item_req <$> items)) with
      | Some e => Ok (Some e) | None => lookup_entry k m end
    else lookup_entry k m.
Proof.
  induction order as [|id order IH]; intros m Hnd Hok Hopen Hfit Hfresh Hpaths; simpl.
  { done. }
  unfold run_batch. rewrite groupItemsByShard_spec.
  set (batch := shard_items n id items).
  apply NoDup_cons in Hnd as [Hid Hnd]. apply NoDup_cons in Hpaths as [Hp Hpaths].
  apply Forall_cons in Hfresh as [Hf1 Hfresh].
  assert (state_ok (fst (processBatch batch (now id) (now_rot id) m)) contents /\
    forall k, lookup_entry k (fst (processBatch batch (now id) (now_rot id) m)) =
      match last_entry k (stored (now id) <$> batch) with
      | Some e => Ok (Some e) | None => lookup_entry k m end) as [Hok1 Hv1].
  { destruct (decide (batch = [])) as [->|Hne]; [done|].
    pose proof (processBatch_ok m contents batch (now id) (now_rot id) Hok Hopen Hne
      (item_req_fits items Hfit n id) Hf1) as Hp1.
    destruct (processBatch batch _ _ m) as [m1 out]. by destruct Hp1 as (? & _ & ?). }
  pose proof (processBatch_wal_open batch (now id) (now_rot id) m Hopen) as Hopen1.
  pose proof (processBatch_config batch (now id) (now_rot id) m) as Hcfg1.
  assert (Forall (fun id' => rotation_fresh (now_rot id')
    (fst (processBatch batch (now id) (now_rot id) m))) order) as Hfresh1.
  { rewrite Forall_forall in Hfresh. apply Forall_forall. intros id' Hin. unfold rotation_fresh. rewrite Hcfg1.
    apply (processBatch_absent m contents); [done|done|by apply Hfresh|].
    intros Heq. apply Hp. rewrite <- Heq. by apply (list_elem_of_fmap_2 (fun id0 => _ (now_rot id0))). }
  destruct (processBatch batch (now id) (now_rot id) m) as [m1 out]. cbn [fst] in *.
  rewrite <- Hcfg1 in Hpaths.
  pose proof (IH m1 Hnd Hok1 Hopen1 Hfit Hfresh1 Hpaths) as IH1.
  destruct (dispatchAndAwaitBatches _ order now now_rot m1) as [m2 err2].
  destruct IH1 as (Hok2 & -> & Hv2). split_and!; [done|done|].
  intros k. rewrite Hv2, Hv1. unfold batch. rewrite last_entry_shard.
  destruct (decide (shard_of n k = id)) as [<-|Hne].
  - rewrite (decide_False (P := shard_of n k ∈ order)), (decide_True (P := shard_of n k ∈ _ :: _))
      by (done || constructor). done.
  - destruct (decide (shard_of n k ∈ order)) as [Hin|Hin];
      [rewrite decide_True by (by right)|rewrite decide_False by (by intros [?|?]%elem_of_cons)]; done.
Qed.

Lemma groupItemsByShard_dom n items id :
  id ∈ dom (groupItemsByShard n items) <-> exists it, it ∈ items /\ shard_of n (req_Key (item_req it)) = id.
Proof.
  unfold groupItemsByShard.
  induction items as [|[[k v] ttl] items IH] using rev_ind.
  { simpl. rewrite dom_empty. split; [by intros ?%elem_of_empty|intros (it & Hin & _); inversion Hin]. }
  rewrite fold_left_app. cbn [fold_left]. rewrite dom_insert, elem_of_union, elem_of_singleton, IH.
  split.
  - intros [->|(it & Hin & Heq)].
    + exists (k, v, ttl). split; [apply elem_of_app; right; constructor|done].
    + exists it. split; [apply elem_of_app; by left|done].
  - intros (it & [Hin|Hin]%elem_of_app & Heq); [right; by exists it|left].
    by apply list_elem_of_singleton in Hin as ->.
Qed.

Lemma last_entry_none_items k now items :
  (forall it, it ∈ items -> req_Key (item_req it) <> k) ->
  last_entry k (stored now <$> (item_req <$> items)) = None.
Proof.
  intros Hno. destruct (last_entry k _) as [e|] eqn:E; [|done].
  apply last_entry_Some in E as [Hin Hk].
  apply list_elem_of_fmap in Hin as (r & -> & (it & -> & Hin)%list_elem_of_fmap).
  by destruct (Hno it Hin).
Qed.

(** A batch over its shards. *)
Lemma SubmitBatch_spec m contents numShards items order now now_rot :
  state_ok m contents -> wal_open m -> Forall (fun it => req_fits (item_req it)) items ->
  order ≡ₚ elements (dom (groupItemsByShard numShards items)) ->
  Forall (fun id => rotation_fresh (now_rot id) m) order ->
  NoDup ((fun id => rotated_path (Configuration (bb m)) (now_rot id)) <$> order) ->
  let '(m', err) := SubmitBatchIngestion numShards items order now now_rot m in
  err = None /\ state_ok m' contents /\
  forall k, lookup_entry k m' =
    match last_entry k (stored (now (shard_of numShards k)) <$> (item_req <$> items)) with
    | Some e => Ok (Some e)
    | None => lookup_entry k m
    end.
Proof.
  intros Hok Hopen Hfit Hord Hfresh Hpaths. unfold SubmitBatchIngestion.
  destruct items as [|it items]; [done|]. set (its := it :: items) in *. clearbody its.
  assert (NoDup order) as Hnd by (rewrite Hord; apply NoDup_elements).
  pose proof (dispatch_spec numShards its contents now now_rot order m Hnd Hok Hopen Hfit Hfresh Hpaths) as Hd.
  destruct (dispatchAndAwaitBatches _ _ _ _ m) as [m' err].
  destruct Hd as (Hok' & -> & Hv). split_and!; [done|done|]. intros k. rewrite Hv.
  destruct (decide (shard_of numShards k ∈ order)) as [Hin|Hin]; [done|].
  rewrite last_entry_none_items; [done|]. intros it' Hit' Hk. apply Hin.
  rewrite Hord, elem_of_elements, groupItemsByShard_dom. exists it'. by rewrite Hk.
Qed.

End IngestSpec.

(** ** Properties *)

Section Properties.
Context `{BloomFilterLaws B}.
Implicit Types (m : machine B).

(** C15. A write that the server acknowledges is what a reader finds next: in a
    well-formed state whose log is open, [SubmitIngestionRequest] replies nil,
    the key then reads as the submitted value with its deadline (wherever the
    rotation put it), every other key reads as before, and the state stays
    well formed. *)
Theorem Submit_read_your_write m contents key val ttl deleted now now_rot :
  state_ok m contents -> wal_open m -> req_fits (mkReq key val ttl deleted None) ->
  rotation_fresh now_rot m ->
  let '(m', err) := SubmitIngestionRequest key val ttl deleted now now_rot m in
  err = None /\ state_ok m' contents /\
  lookup_entry key m' = Ok (Some (mkEntry key val
    (if 0 <? ttl then i64 (now + i64 (ttl * 1000000000)) else 0) deleted)) /\
  forall k, k <> key -> lookup_entry k m' = lookup_entry k m.
Proof.
  intros Hok Hopen Hfit Hfresh. unfold SubmitIngestionRequest, run_single. cbn [drainSingleQueue length Nat.min take drop app].
  set (req := mkReq key val ttl deleted (Some 0%nat)).
  pose proof (processBatch_ok m contents [req] now now_rot Hok Hopen ltac:(done)) as Hp.
  destruct (processBatch [req] now now_rot m) as [m' out].
  destruct Hp as (Hok' & -> & Hv); [by repeat constructor; apply Hfit|done|].
  split_and!; [done|done| |]; intros; rewrite Hv; unfold last_entry; cbn [fold_left fmap list_fmap].
  - by rewrite decide_True.
  - by rewrite decide_False.
Qed.

(** C14. A batch is applied as if its items had been written one after the
    other, whatever the order in which the shards get to run: every key of the
    batch then reads as its last item (stamped by its shard's clock), every
    other key as before, and the reply is nil. *)
Theorem SubmitBatch_any_order m contents numShards items order now now_rot :
  state_ok m contents -> wal_open m -> Forall (fun it => req_fits (item_req it)) items ->
  order ≡ₚ elements (dom (groupItemsByShard numShards items)) ->
  Forall (fun id => rotation_fresh (now_rot id) m) order ->
  NoDup ((fun id => rotated_path (Configuration (bb m)) (now_rot id)) <$> order) ->
  let '(m', err) := SubmitBatchIngestion numShards items order now now_rot m in
  err = None /\ state_ok m' contents /\
  forall k, lookup_entry k m' =
    match last_entry k (stored (now (shard_of numShards k)) <$> (item_req <$> items)) with
    | Some e => Ok (Some e)
    | None => lookup_entry k m
    end.
Proof.
  apply SubmitBatch_spec.
Qed.

(** When the log cannot be written, a single write reports the error and a
    batch write reports success; neither changes anything, so the items of the
    acknowledged batch are nowhere in the store. *)
Theorem Submit_wal_failure m w numShards items order key val ttl deleted now now_rot nows nows_rot :
  EnableDiskDurability (Configuration (bb m)) = true ->
  ActiveWal (bb m) = Some w -> closed w = true ->
  SubmitIngestionRequest key val ttl deleted now now_rot m = (m, Some WalWriteError) /\
  SubmitBatchIngestion numShards items order nows nows_rot m = (m, None).
Proof.
  intros Hd Hw Hc.
  assert (forall es, writeWalIfEnabled es m = None) as Hfail.
  { intros es. unfold writeWalIfEnabled, WriteBatch. by rewrite Hd, Hw, Hc. }
  assert (forall batch t1 t2, fst (processBatch batch t1 t2 m) = m) as Hsame.
  { intros [|r batch] t1 t2; [done|]. unfold processBatch. by rewrite Hfail. }
  split.
  - unfold SubmitIngestionRequest, run_single, processBatch. cbn. by rewrite Hfail.
  - unfold SubmitBatchIngestion. destruct items as [|it items]; [done|].
    induction order as [|id order IH]; [done|]. simpl. unfold run_batch.
    specialize (Hsame (default [] (groupItemsByShard numShards (it :: items) !! id)) (nows id) (nows_rot id)).
    destruct (processBatch _ _ _ _) as [m1 out]. cbn [fst] in Hsame. subst m1. by rewrite IH.
Qed.

End Properties.
