(* ===== verification/FlushAgent.v ===== *)
(** The flush agent, internal/agents/flush_agent.go: it writes the oldest frozen
    table to level 0 and, under the lock, replaces it by the written one. *)
From S2P Require Import Prelude Codec Text Domain Hashing Configuration WriteAheadLog SortedStringTable SystemState Ingestion.
From S2P Require MemoryTable LruCache.

Open Scope Z_scope.

(** ** Definitions *)

Section Flush.
Context `{BloomFilter B} `{MemoryTable.MapRange}.
Implicit Types (m : machine B).

(** The table [waitForFlush] returns; [None]: the agent waits. *)
Definition waitForFlush m : option memtable := head (ImmutableMem (bb m)).

Definition flush_path (cfg : SystemConfiguration) (now : Z) : string :=
  (DataDirectoryPath cfg ++ String "/" ("L0" ++ String "_" (print_int now ++ ".sst")))%string.

(** The entries of the table as [sort.Slice] orders them. The keys of a table
    are distinct, so the order is the only sorted one. *)
Definition flush_entries (table : memtable) : list Entry :=
  merge_sort key_le (MemoryTable.DumpToSlice table []).

(** [processFlush] up to the commit: the write, without the lock. *)
Definition write_flush (table : memtable) (now : Z) m : machine B * outcome SSTableMetadata :=
  write_table (flush_entries table) (flush_path (Configuration (bb m)) now) 0 m.

Definition rotateFrozenWal m : machine B :=
  if EnableDiskDurability (Configuration (bb m)) then
    match FrozenWALs (bb m) with
    | [] => m
    | w :: rest =>
      let '(_, f) := Delete w (fs m) in
      with_bb (set_wals (ActiveWal (bb m)) rest) (with_fs f m)
    end
  else m.

(** [commitFlush], one critical section; [Err] is the write's error, which is
    only logged. *)
Definition commitFlush (written : outcome SSTableMetadata) m : machine B :=
  match written with
  | Ok meta =>
    let levels := match SSTables (bb m) with [] => replicate 4 [] | l => l end in
    let m := with_bb (set_SSTables (alter (fun level => level ++ [meta]) 0%nat levels)) m in
    let m := with_bb (set_ImmutableMem (tail (ImmutableMem (bb m)))) m in
    rotateFrozenWal m
  | _ => m
  end.

(** [processFlush] without anything in between; a panic of the filter ends the
    program. *)
Definition processFlush (table : memtable) (now : Z) m : outcome (machine B) :=
  match write_flush table now m with
  | (_, Panic) => Panic
  | (m, written) => Ok (commitFlush written m)
  end.

(** The loop of [StartFlushAgentInBackground], one clock reading per turn; it
    stops here where the agent would wait. *)
Fixpoint flush_turns (nows : list Z) m : outcome (machine B) :=
  match nows, waitForFlush m with
  | now :: nows', Some table =>
    match processFlush table now m with Ok m => flush_turns nows' m | r => r end
  | _, _ => Ok m
  end.

(** The body of the loop of [applyToMemTable] for a request, by a shard that
    read [bb.MemTable] before another shard rotated it away: its [Put] goes to
    the table that is by now the oldest frozen one. *)
Definition late_put (req : IngestReq) (exp : Z) m : machine B :=
  with_bb (fun s =>
    let s := set_ImmutableMem (alter (MemoryTable.Put (req_Key req) (req_Val req) exp (req_IsDeleted req)) 0%nat
               (ImmutableMem s)) s in
    match KeyCache s with
    | None => s
    | Some c => set_KeyCache (Some (LruCache.RemoveFromCache (req_Key req) c)) s
    end) m.

End Flush.

(** ** Lemmas *)

(** Distinct keys in weak order are in strict order. *)
Lemma sorted_table_strict es : NoDup (Key <$> es) -> StronglySorted key_le es -> sorted_table es.
Proof.
  intros Hn Hs. induction Hs as [|e es Hs IH Hall]; [constructor|].
  rewrite fmap_cons in Hn. apply NoDup_cons in Hn as [He Hn]. constructor; [by apply IH|].
  rewrite Forall_forall in *. intros x Hx. specialize (Hall x Hx). unfold key_le, key_lt in *.
  destruct (str_lt_total (Key e) (Key x)) as [|[Heq|]]; [done| |done].
  exfalso. apply He. rewrite Heq. by apply list_elem_of_fmap_2.
Qed.

Section FlushSpec.
Context `{BloomFilterLaws B} `{MemoryTable.MapRange}.
Implicit Types (m : machine B) (t : memtable).

Lemma flush_entries_perm t : flush_entries t ≡ₚ MemoryTable.GetAll t.
Proof. apply merge_sort_Permutation. Qed.

(** A dump holds what the table answers. *)
Lemma flush_entries_spec t : MemoryTable.table_ok t -> entries_fit t ->
  sorted_table (flush_entries t) /\ Forall entry_fits (flush_entries t) /\
  forall k, last_entry k (flush_entries t) = MemoryTable.Get k t.
Proof.
  intros Hok Hfit.
  assert (forall e, e ∈ flush_entries t <-> MemoryTable.Get (Key e) t = Some e) as Hin.
  { intros e. rewrite flush_entries_perm. by apply MemoryTable.elem_of_GetAll. }
  assert (NoDup (Key <$> flush_entries t)) as Hn.
  { rewrite flush_entries_perm. by apply MemoryTable.GetAll_nodup. }
  split_and!.
  - apply sorted_table_strict; [done|]. by apply StronglySorted_merge_sort; apply _.
  - apply Forall_forall. intros e He. apply Hin in He. by apply Hfit in He.
  - intros k. destruct (MemoryTable.Get k t) as [e|] eqn:E.
    + pose proof (MemoryTable.Get_key k e t Hok E) as Hk. apply last_entry_nodup; [done| |done].
      apply Hin. by rewrite Hk.
    + destruct (last_entry k (flush_entries t)) as [e|] eqn:El; [|done].
      apply last_entry_Some in El as [He <-]. apply Hin in He. congruence.
Qed.

(** *** The two halves of a flush, with other steps in between *)

Definition flush_fresh (now : Z) m : Prop := files (fs m) !! flush_path (Configuration (bb m)) now = None.

(** A written table that waits for its commit: its file holds the oldest frozen
    table, and no log uses it. *)
Definition pending_ok m (written : option (outcome SSTableMetadata)) (es : list Entry) : Prop :=
  match written with
  | Some (Ok meta) => exists t, waitForFlush m = Some t /\ meta_ok (fs m) (BloomF (bb m)) meta es /\
      (forall k, last_entry k es = MemoryTable.Get k t) /\ Filename meta ∉ path <$> wals (bb m)
  | Some Panic => False
  | _ => True
  end.

Lemma flush_path_id cfg now : 0 <= now < 2 ^ 63 -> parse_file_id (flush_path cfg now) = now.
Proof. intros Hn. unfold flush_path. apply parse_file_id_name; [repeat constructor; done..|done]. Qed.

Lemma frozen_ok m contents t : state_ok m contents -> waitForFlush m = Some t ->
  MemoryTable.table_ok t /\ entries_fit t.
Proof.
  intros (_ & _ & Hi & _) Ht. unfold waitForFlush in Ht.
  destruct (ImmutableMem (bb m)) as [|t0 l]; [done|]. injection Ht as ->. by apply Forall_cons in Hi as [Hi _].
Qed.

(** What a flush writes. *)
Lemma write_flush_spec m contents t now : state_ok m contents -> waitForFlush m = Some t ->
  0 <= now < 2 ^ 63 -> flush_fresh now m -> zlen (encode_table (flush_entries t)) < 2 ^ 63 ->
  let p := flush_path (Configuration (bb m)) now in
  let '(m', r) := write_flush t now m in
  state_ok m' contents /\
  ((r = Err /\ m' = m /\ openable (fs m) p = false) \/
   exists meta bloom, r = Ok meta /\ openable (fs m) p = true /\
     m' = with_bb (set_BloomF bloom) (with_fs (fs_write p (encode_table (flush_entries t)) (fs m)) m) /\
     bloom_le (BloomF (bb m)) bloom /\ Filename meta = p /\ pending_ok m' (Some (Ok meta)) (flush_entries t)).
Proof.
  intros Hok Ht Hnow Hfresh Hlen p. unfold write_flush.
  destruct (frozen_ok m contents t Hok Ht) as [Htok Htfit].
  destruct (flush_entries_spec t Htok Htfit) as (Hs & Hfit & Hlast).
  pose proof (write_table_spec m contents (flush_entries t) p 0 Hok Hfresh) as Hw. fold p.
  destruct (write_table (flush_entries t) p 0 m) as [m' r].
  destruct Hw as [Hok' [?|(meta & bloom & -> & Ho & -> & Hle & Hmeta & Hname)]];
    [unfold p; rewrite flush_path_id; lia|done..|split; [done|by left]|].
  split; [done|]. right. exists meta, bloom. split_and!; try done.
  exists t. split_and!; [done|done|done|]. rewrite Hname. intros Hin.
  destruct (wals_exist m contents p Hok Hin) as [x Hx]. unfold flush_fresh in Hfresh. fold p in Hfresh. congruence.
Qed.

(** *** The commit *)

Lemma wals_split m w rest : FrozenWALs (bb m) = w :: rest ->
  wals (bb m) ≡ₚ w :: wals (set_wals (ActiveWal (bb m)) rest (bb m)).
Proof.
  intros Hf. unfold wals. rewrite Hf. cbn. destruct (ActiveWal (bb m)) as [a|]; [|done]. constructor.
Qed.

(** What the deletion of the log of a flushed table does: it touches neither
    tables nor the other logs. *)
Lemma rotateFrozenWal_shape m : exists f ws, rotateFrozenWal m = with_bb (set_wals (ActiveWal (bb m)) ws) (with_fs f m) /\
  openable f = openable (fs m) /\
  (forall q, files (fs m) !! q = None -> files f !! q = None) /\
  ((ws = FrozenWALs (bb m) /\ f = fs m) \/
   exists w, FrozenWALs (bb m) = w :: ws /\ forall q, q <> path w -> files f !! q = files (fs m) !! q).
Proof.
  unfold rotateFrozenWal. assert (m = with_bb (set_wals (ActiveWal (bb m)) (FrozenWALs (bb m))) (with_fs (fs m) m)) as Hid
    by (by destruct m as [[] ? ?]).
  destruct (EnableDiskDurability _); [|by eexists _, _; split_and!; [exact Hid|..|left]].
  destruct (FrozenWALs (bb m)) as [|w rest] eqn:Ef; [by eexists _, _; split_and!; [exact Hid|..|left]|].
  cbn [Delete]. eexists _, rest. split; [done|]. cbn. split_and!; [done| |right; exists w; split; [done|]].
  - intros q Hq. apply lookup_delete_None. by right.
  - intros q Hq. by rewrite lookup_delete_ne.
Qed.

Lemma rotateFrozenWal_ok m contents : state_ok m contents -> NoDup (path <$> wals (bb m)) ->
  let m' := rotateFrozenWal m in
  state_ok m' contents /\ (exists gone, path <$> wals (bb m) ≡ₚ gone ++ (path <$> wals (bb m')) /\
    forall q, q ∉ gone -> files (fs m') !! q = files (fs m) !! q).
Proof.
  intros Hok Hn. cbv zeta.
  destruct (rotateFrozenWal_shape m) as (f & ws & -> & Ho & _ & [[-> ->]|(w & Ef & Hf)]).
  { destruct m as [[] ? ?]. split; [done|by exists []]. }
  set (m' := with_bb _ _). pose proof (wals_split m w ws Ef) as Hp.
  change (wals (bb m)) with (wals (bb m)) in Hp. change (wals (set_wals _ ws _)) with (wals (bb m')) in Hp.
  assert (w ∈ wals (bb m)) as Hin by (rewrite Hp; left).
  split.
  - assert (forall w', w' ∈ wals (bb m') -> w' ∈ wals (bb m) /\ path w' <> path w) as Hrest.
    { intros w' Hw'. split; [rewrite Hp; by right|]. intros Heq. rewrite Hp, fmap_cons in Hn.
      apply NoDup_cons in Hn as [Hn _]. apply Hn. rewrite <- Heq. by apply list_elem_of_fmap_2. }
    destruct Hok as (Hm1 & Hm2 & Hm3 & Hb & Ht & Hl & Hw & Hwf). split_and!; try done.
    + apply (tables_ok_other_file (fs m)); [|done|exact Ht]. intros meta Hmeta. apply Hf.
      apply not_eq_sym. by apply Hw.
    + intros w' meta Hw' Hmeta. by apply Hw; [apply Hrest|].
    + intros w' Hw'. destruct (Hrest w' Hw') as [Hi Hne]. cbn. rewrite Hf by done. by apply Hwf.
  - exists [path w]. split; [by rewrite Hp|]. intros q Hq. apply Hf. by rewrite list_elem_of_singleton in Hq.
Qed.

(** The oldest frozen table in memory and the newest table of level 0 take the
    same place in the order of a lookup. *)
Lemma flush_lookup_spec k t rest es level levels (mt : memtable) :
  last_entry k es = MemoryTable.Get k t ->
  first_some [first_some (MemoryTable.Get k <$> mt :: reverse rest); disk_spec k ((level ++ [es]) :: levels)]
  = first_some [first_some (MemoryTable.Get k <$> mt :: reverse (t :: rest)); disk_spec k (level :: levels)].
Proof.
  intros Hk. rewrite reverse_cons, !fmap_cons, fmap_app. unfold disk_spec. rewrite !fmap_cons.
  unfold level_spec at 1. rewrite reverse_snoc, fmap_cons. cbn [first_some foldr].
  fold (first_some (A := Entry)). destruct (MemoryTable.Get k mt); [done|].
  change (foldr _ None ?l) with (first_some l). rewrite !first_some_app. cbn. rewrite Hk.
  destruct (first_some (MemoryTable.Get k <$> reverse rest)); [done|].
  destruct (MemoryTable.Get k t); [done|]. done.
Qed.

(** The written table takes the frozen one's place. *)
Definition replace_table (meta : SSTableMetadata) (s : SystemState B) : SystemState B :=
  set_ImmutableMem (tail (ImmutableMem s))
    (set_SSTables (alter (fun level => level ++ [meta]) 0%nat (SSTables s)) s).

Lemma wals_replace m meta : wals (bb (with_bb (replace_table meta) m)) = wals (bb m).
Proof. done. Qed.

Definition add_flushed (es : list Entry) (contents : list (list (list Entry))) : list (list (list Entry)) :=
  alter (fun level => level ++ [es]) 0%nat contents.

Lemma commitFlush_eq m contents meta : state_ok m contents ->
  commitFlush (Ok meta) m = rotateFrozenWal (with_bb (replace_table meta) m).
Proof.
  intros (_ & _ & _ & _ & _ & Hl & _). unfold commitFlush, replace_table.
  assert (match SSTables (bb m) with [] => replicate 4 [] | l => l end = SSTables (bb m)) as ->; [|done].
  destruct (SSTables (bb m)); [simpl in Hl; lia|done].
Qed.

(** The state stays well formed whatever the frozen table holds by now. *)
Lemma replace_table_state m contents meta es : state_ok m contents -> ImmutableMem (bb m) <> [] ->
  meta_ok (fs m) (BloomF (bb m)) meta es -> Filename meta ∉ path <$> wals (bb m) ->
  state_ok (with_bb (replace_table meta) m) (add_flushed es contents).
Proof.
  intros Hok Hne Hmeta Hw. set (m' := with_bb _ m).
  destruct (ImmutableMem (bb m)) as [|t0 rest] eqn:Ei; [done|].
  destruct Hok as (Hm1 & Hm2 & Hm3 & Hb & Htab & Hl & Hwn & Hwf).
  destruct (SSTables (bb m)) as [|l0 ls] eqn:Es; [simpl in Hl; lia|].
  apply Forall2_cons_inv_l in Htab as (c0 & cs & H0' & Hs & ->).
  split_and!; try done; cbn; rewrite ?Es, ?Ei; try done.
  - rewrite Ei in Hm3. by apply Forall_cons in Hm3 as [_ Hm3].
  - cbn. constructor; [|done]. apply Forall2_app; [done|]. by constructor; [|constructor].
  - intros w meta' Hin. cbn. rewrite !elem_of_app, list_elem_of_singleton.
    intros [[Hm'| ->]|Hm']; [by apply Hwn; [done|]; cbn; apply elem_of_app; left| |by apply Hwn; [done|]; cbn; apply elem_of_app; right].
    intros Heq. apply Hw. rewrite <- Heq. by apply list_elem_of_fmap_2.
Qed.

Lemma replace_table_ok m contents meta es : state_ok m contents -> pending_ok m (Some (Ok meta)) es ->
  state_ok (with_bb (replace_table meta) m) (add_flushed es contents) /\
  forall k ts, view_spec k ts (with_bb (replace_table meta) m) (add_flushed es contents) = view_spec k ts m contents.
Proof.
  intros Hok (t & Ht & Hmeta & Hlast & Hw). unfold waitForFlush in Ht.
  destruct (ImmutableMem (bb m)) as [|t0 rest] eqn:Ei; [done|]. injection Ht as ->. split.
  { apply replace_table_state; try done. by rewrite Ei. }
  destruct Hok as (_ & _ & _ & _ & Htab & Hl & _).
  destruct (SSTables (bb m)) as [|l0 ls]; [simpl in Hl; lia|].
  apply Forall2_cons_inv_l in Htab as (c0 & cs & _ & _ & ->).
  intros k ts. unfold view_spec, mem_spec.
  cbn [with_bb bb MemTable ImmutableMem set_ImmutableMem set_SSTables replace_table]. rewrite Ei.
  unfold with_taken, add_flushed. cbn [alter list_alter tail]. rewrite app_assoc.
  apply (flush_lookup_spec k t rest es (ts ++ c0) cs (MemTable (bb m))). apply Hlast.
Qed.

Lemma commitFlush_ok m contents meta es : state_ok m contents -> NoDup (path <$> wals (bb m)) ->
  pending_ok m (Some (Ok meta)) es ->
  let m' := commitFlush (Ok meta) m in
  state_ok m' (add_flushed es contents) /\
  (forall k ts, view_spec k ts m' (add_flushed es contents) = view_spec k ts m contents) /\
  exists gone, path <$> wals (bb m) ≡ₚ gone ++ (path <$> wals (bb m')) /\
    forall q, q ∉ gone -> files (fs m') !! q = files (fs m) !! q.
Proof.
  intros Hok Hn Hp m'. subst m'. rewrite (commitFlush_eq m contents) by done.
  destruct (replace_table_ok m contents meta es Hok Hp) as [Hok1 Hv1].
  destruct (rotateFrozenWal_ok _ _ Hok1 Hn) as (Hok2 & Hgone). split_and!; [done| |exact Hgone].
  intros k ts. rewrite <- Hv1. destruct (rotateFrozenWal_shape (with_bb (replace_table meta) m)) as (f & ws & -> & _).
  done.
Qed.

(** Everything else stays. *)
Lemma commitFlush_keeps m contents meta : state_ok m contents ->
  let m' := commitFlush (Ok meta) m in
  Configuration (bb m') = Configuration (bb m) /\ ActiveWal (bb m') = ActiveWal (bb m) /\
  BloomF (bb m') = BloomF (bb m) /\ KeyCache (bb m') = KeyCache (bb m) /\
  SSTables (bb m') = alter (fun level => level ++ [meta]) 0%nat (SSTables (bb m)) /\
  ImmutableMem (bb m') = tail (ImmutableMem (bb m)) /\ MemTable (bb m') = MemTable (bb m) /\
  openable (fs m') = openable (fs m) /\ (forall q, files (fs m) !! q = None -> files (fs m') !! q = None).
Proof.
  intros Hok m'. subst m'. rewrite (commitFlush_eq m contents) by done.
  by destruct (rotateFrozenWal_shape (with_bb (replace_table meta) m)) as (f & ws & -> & Ho & Hn & _).
Qed.

(** A late [Put] changes nothing but the oldest frozen table and the cache. *)
Lemma late_put_shape req exp m : exists c, late_put req exp m = with_bb (fun s => set_KeyCache c
  (set_ImmutableMem (alter (MemoryTable.Put (req_Key req) (req_Val req) exp (req_IsDeleted req)) 0%nat (ImmutableMem s)) s)) m.
Proof.
  unfold late_put, with_bb. destruct (KeyCache (bb m)) as [c|] eqn:E; cbn zeta; cbn [KeyCache set_ImmutableMem]; rewrite E.
  - by eexists.
  - exists None. destruct m as [[] ? ?]. cbn in E. by subst.
Qed.

(** The commit takes the frozen table away, late [Put] included. *)
Lemma commitFlush_late req exp m contents meta k : state_ok m contents ->
  lookup_entry k (commitFlush (Ok meta) (late_put req exp m)) = lookup_entry k (commitFlush (Ok meta) m).
Proof.
  intros Hok. destruct (late_put_shape req exp m) as [c ->].
  destruct m as [s f g]. destruct Hok as (_ & _ & _ & _ & _ & Hl & _). destruct s as [cfg mt imm aw fw tabs bl kc].
  unfold commitFlush, rotateFrozenWal, with_bb, lookup_entry, lookup_memory. cbn in *.
  assert (tail (alter (MemoryTable.Put (req_Key req) (req_Val req) exp (req_IsDeleted req)) 0%nat imm) = tail imm) as ->
    by by destruct imm.
  destruct (EnableDiskDurability cfg); [|done]. by destruct fw.
Qed.

(** *** The agent's loop *)

Lemma flush_path_inj cfg n1 n2 : 0 <= n1 < 2 ^ 63 -> 0 <= n2 < 2 ^ 63 ->
  flush_path cfg n1 = flush_path cfg n2 -> n1 = n2.
Proof. intros Hn1 Hn2 Heq. rewrite <- (flush_path_id cfg n1), Heq by done. by apply flush_path_id. Qed.

Lemma rotateFrozenWal_FrozenWALs m : EnableDiskDurability (Configuration (bb m)) = true ->
  FrozenWALs (bb (rotateFrozenWal m)) = tail (FrozenWALs (bb m)).
Proof. intros Hd. unfold rotateFrozenWal. rewrite Hd. destruct (FrozenWALs (bb m)) eqn:E; [by rewrite E|done]. Qed.

(** The log of the flushed table is gone from the disk. *)
Lemma rotateFrozenWal_deletes m w rest : EnableDiskDurability (Configuration (bb m)) = true ->
  FrozenWALs (bb m) = w :: rest -> files (fs (rotateFrozenWal m)) !! path w = None.
Proof. intros Hd Hf. unfold rotateFrozenWal. rewrite Hd, Hf. cbn. by rewrite lookup_delete_eq. Qed.

(** A time at which the disk takes a new table. *)
Definition can_flush m (now : Z) : Prop :=
  0 <= now < 2 ^ 63 /\ flush_fresh now m /\ openable (fs m) (flush_path (Configuration (bb m)) now) = true.

Definition table_bytes_fit t : Prop := zlen (encode_table (flush_entries t)) < 2 ^ 63.

(** One turn of the agent. *)
Lemma processFlush_ok m contents t now : state_ok m contents -> NoDup (path <$> wals (bb m)) ->
  waitForFlush m = Some t -> can_flush m now -> table_bytes_fit t ->
  exists m', processFlush t now m = Ok m' /\ state_ok m' (add_flushed (flush_entries t) contents) /\
    NoDup (path <$> wals (bb m')) /\ ImmutableMem (bb m') = tail (ImmutableMem (bb m)) /\
    Configuration (bb m') = Configuration (bb m) /\
    (EnableDiskDurability (Configuration (bb m)) = true -> FrozenWALs (bb m') = tail (FrozenWALs (bb m))) /\
    (forall now', now' <> now -> can_flush m now' -> can_flush m' now') /\
    (forall k, lookup_entry k m' = lookup_entry k m) /\
    (EnableDiskDurability (Configuration (bb m)) = true -> forall w, head (FrozenWALs (bb m)) = Some w ->
       files (fs m') !! path w = None) /\
    (forall q, files (fs m) !! q = None -> q <> flush_path (Configuration (bb m)) now -> files (fs m') !! q = None).
Proof.
  intros Hok Hn Ht (Hnow & Hfresh & Ho) Hlen. unfold processFlush.
  pose proof (write_flush_spec m contents t now Hok Ht Hnow Hfresh Hlen) as Hw. cbv zeta in Hw.
  destruct (write_flush t now m) as [m1 r].
  destruct Hw as [Hok1 [(_ & _ & Hno)|(meta & bloom & -> & _ & Hm1 & _ & _ & Hpend)]]; [congruence|].
  assert (bb m1 = set_BloomF bloom (bb m)) as Hb1 by by subst m1.
  destruct (commitFlush_ok m1 contents meta (flush_entries t) Hok1) as (Hok2 & Hv2 & gone & Hgone & _); [by rewrite Hb1|done|].
  destruct (commitFlush_keeps m1 contents meta Hok1) as (Hc & _ & _ & _ & _ & Hi & _ & Hop & Hnone).
  rewrite Hb1 in Hc, Hi. eexists. split_and!; [done|done| |done|done| | | | |].
  - rewrite Hb1 in Hgone. change (wals (set_BloomF _ _)) with (wals (bb m)) in Hgone.
    rewrite Hgone in Hn. by apply NoDup_app in Hn as (_ & _ & Hn).
  - intros Hd. rewrite (commitFlush_eq m1 contents) by done. rewrite rotateFrozenWal_FrozenWALs by (cbn; by rewrite Hb1).
    cbn. by rewrite Hb1.
  - intros now' Hne (Hr & Hf & Ho'). unfold can_flush, flush_fresh in *. rewrite Hc, Hop. split_and!; [lia..| |].
    + apply Hnone. subst m1. cbn. rewrite lookup_insert_ne; [done|]. intros Heq. apply Hne.
      symmetry. by apply (flush_path_inj (Configuration (bb m))).
    + by subst m1.
  - intros k. rewrite (lookup_entry_view k _ _ Hok2), Hv2, <- (lookup_entry_view k _ _ Hok1).
    rewrite (lookup_entry_view k _ _ Hok1), (lookup_entry_view k _ _ Hok). unfold view_spec, mem_spec. by rewrite Hb1.
  - intros Hd w Hw. rewrite (commitFlush_eq m1 contents) by done.
    destruct (FrozenWALs (bb m)) as [|w0 rest] eqn:Ef; [done|]. injection Hw as ->.
    apply (rotateFrozenWal_deletes _ w rest); cbn; by rewrite Hb1.
  - intros q Hq Hne. apply Hnone. subst m1. cbn. by rewrite lookup_insert_ne by congruence.
Qed.

(** The agent's turns, and the files that are not there. *)
Lemma flush_turns_ok frozen : forall m contents nows, ImmutableMem (bb m) = frozen ->
  state_ok m contents -> NoDup (path <$> wals (bb m)) ->
  (length frozen <= length nows)%nat -> NoDup nows -> Forall (can_flush m) nows -> Forall table_bytes_fit frozen ->
  exists m' contents', flush_turns nows m = Ok m' /\ ImmutableMem (bb m') = [] /\ state_ok m' contents' /\
    (EnableDiskDurability (Configuration (bb m)) = true ->
       FrozenWALs (bb m') = drop (length frozen) (FrozenWALs (bb m)) /\
       Forall (fun w => files (fs m') !! path w = None) (take (length frozen) (FrozenWALs (bb m)))) /\
    (forall k, lookup_entry k m' = lookup_entry k m) /\
    (forall q, files (fs m) !! q = None -> (forall now, now ∈ nows -> q <> flush_path (Configuration (bb m)) now) ->
       files (fs m') !! q = None).
Proof.
  induction frozen as [|t rest IH]; intros m contents nows Ei Hok Hn Hlen Hnd Hcan Hfit.
  { exists m, contents. destruct nows; simpl; rewrite ?Ei; unfold waitForFlush; rewrite ?Ei; split_and!; try done;
      intros _; split; (by rewrite drop_0 || constructor). }
  destruct nows as [|now nows]; [simpl in Hlen; lia|].
  assert (forall w, w ∈ FrozenWALs (bb m) -> forall now', now' ∈ now :: nows ->
    path w <> flush_path (Configuration (bb m)) now') as Hne.
  { intros w Hw now' Hin Heq. rewrite Forall_forall in Hcan. destruct (Hcan now' Hin) as (_ & Hf & _).
    destruct (wals_exist m contents (path w) Hok) as [c Hc].
    - apply list_elem_of_fmap_2. unfold wals. destruct (ActiveWal (bb m)); [by right|done].
    - unfold flush_fresh in Hf. congruence. }
  apply NoDup_cons in Hnd as [Hnow Hnd]. apply Forall_cons in Hcan as [Hc Hcan]. apply Forall_cons in Hfit as [Hf Hfit].
  assert (waitForFlush m = Some t) as Ht by (unfold waitForFlush; by rewrite Ei).
  destruct (processFlush_ok m contents t now Hok Hn Ht Hc Hf)
    as (m1 & Hp & Hok1 & Hn1 & Hi1 & Hcf & Hw1 & Hcan1 & Hv1 & Hdel & Hgone).
  rewrite Ei in Hi1. cbn [flush_turns]. rewrite Ht, Hp.
  destruct (IH m1 _ nows Hi1 Hok1 Hn1) as (m2 & c2 & Hr & He & Hok2 & Hw2 & Hv2 & Hg2); [simpl in Hlen; lia|done| |done|].
  { apply Forall_forall. intros x Hx. rewrite Forall_forall in Hcan. apply Hcan1; [|by apply Hcan].
    intros ->. done. }
  rewrite Hcf in Hg2. exists m2, c2. split_and!; [done..| | |].
  - intros Hd. rewrite Hcf in Hw2. destruct (Hw2 Hd) as [Hw2' Hall]. rewrite Hw1 in Hw2', Hall by done.
    destruct (FrozenWALs (bb m)) as [|w ws] eqn:Ef; [rewrite Hw2'; cbn; by rewrite drop_nil|]. cbn in Hw2', Hall |- *.
    split; [done|]. constructor; [|done]. apply Hg2; [by apply (Hdel Hd)|].
    intros now' Hin. apply Hne; [left|by right].
  - intros k. by rewrite Hv2.
  - intros q Hq Hqs. apply Hg2; [|intros now' Hin; apply Hqs; by right]. apply Hgone; [done|]. apply Hqs. left.
Qed.

End FlushSpec.

(** ** Properties *)

(** C20. The flush agent drains the frozen tables. Given as many turns as there
    are frozen tables, at different clock readings at which the disk takes a new
    file of that name, and tables whose encoding is shorter than 2^63 bytes, the
    agent's loop ends with none left, however many there were; with durability
    on, the log of each flushed table is off the list and its file off the disk;
    the state is consistent, and no key reads differently. *)
Theorem Flush_drains `{BloomFilterLaws B} `{MemoryTable.MapRange} (m : machine B) contents nows :
  state_ok m contents -> NoDup (path <$> wals (bb m)) ->
  (length (ImmutableMem (bb m)) <= length nows)%nat -> NoDup nows -> Forall (can_flush m) nows ->
  Forall table_bytes_fit (ImmutableMem (bb m)) ->
  exists m' contents', flush_turns nows m = Ok m' /\ ImmutableMem (bb m') = [] /\ state_ok m' contents' /\
    (EnableDiskDurability (Configuration (bb m)) = true ->
       FrozenWALs (bb m') = drop (length (ImmutableMem (bb m))) (FrozenWALs (bb m)) /\
       Forall (fun w => files (fs m') !! path w = None) (take (length (ImmutableMem (bb m))) (FrozenWALs (bb m)))) /\
    forall k, lookup_entry k m' = lookup_entry k m.
Proof.
  intros Hok Hn Hlen Hnd Hcan Hfit.
  destruct (flush_turns_ok (ImmutableMem (bb m)) m contents nows eq_refl Hok Hn Hlen Hnd Hcan Hfit)
    as (m' & c' & Hr & Hi & Hok' & Hw & Hv & _).
  by exists m', c'.
Qed.

(** C10. A write that loses the race against a rotation is acknowledged and lost.
    In a consistent state with no frozen table yet, a shard reads which table is the active one; before it puts its entry,
    another shard rotates that table away and the flush agent writes it to disk;
    then the put, into the frozen table, is seen by readers; but as soon as the
    flush is committed every key reads as before the rotation: the entry is in
    no table. *)
Theorem Late_put_is_lost `{BloomFilterLaws B} `{MemoryTable.MapRange} (m0 : machine B) contents now_rot now req exp m1 meta :
  state_ok m0 contents -> rotation_fresh now_rot m0 -> ImmutableMem (bb m0) = [] ->
  let loaded := MemTable (bb m0) in let m := rotateMemTable now_rot m0 in
  NoDup (path <$> wals (bb m)) -> can_flush m now -> table_bytes_fit loaded ->
  write_flush loaded now m = (m1, Ok meta) ->
  let m2 := late_put req exp m1 in let m3 := commitFlush (Ok meta) m2 in
  lookup_entry (req_Key req) m2 = Ok (Some (mkEntry (req_Key req) (req_Val req) exp (req_IsDeleted req))) /\
  forall k, lookup_entry k m3 = lookup_entry k m0.
Proof.
  intros Hok0 Hrot Himm loaded m Hn Hcan Hfit Hw m2 m3.
  destruct (rotateMemTable_ok m0 contents now_rot Hok0 Hrot) as [Hok Hv]. fold m in Hok, Hv.
  destruct (rotateMemTable_tables m0 now_rot) as [Hmt Him]. fold m in Hmt, Him. rewrite Himm in Him. cbn in Him.
  assert (waitForFlush m = Some loaded) as Ht by (unfold waitForFlush; by rewrite Him).
  destruct (frozen_ok m contents loaded Hok Ht) as [Htok _].
  destruct (processFlush_ok m contents loaded now Hok Hn Ht Hcan Hfit) as (m' & Hp & Hok' & _ & _ & _ & _ & _ & Hv' & _).
  unfold processFlush in Hp. rewrite Hw in Hp. apply (inj Ok) in Hp.
  destruct Hcan as (Hnow & Hfresh & _).
  pose proof (write_flush_spec m contents loaded now Hok Ht Hnow Hfresh Hfit) as Hws. cbv zeta in Hws. rewrite Hw in Hws.
  destruct Hws as [Hok1 [[? _]|(meta' & bloom & _ & _ & Hm1 & _)]]; [done|].
  assert (MemTable (bb m1) = MemTable (bb m) /\ ImmutableMem (bb m1) = ImmutableMem (bb m)) as [Hmt1 Him1] by by subst m1.
  split.
  - subst m2. destruct (late_put_shape req exp m1) as [c ->]. unfold lookup_entry, lookup_memory.
    cbn [with_bb bb set_KeyCache set_ImmutableMem MemTable ImmutableMem]. rewrite Hmt1, Him1, Hmt, Him, Get_new_empty.
    cbn. by rewrite MemoryTable.Get_Put_eq.
  - intros k. subst m3 m2. rewrite (commitFlush_late req exp m1 contents meta k Hok1), Hp, Hv'.
    rewrite (lookup_entry_spec k m contents Hok), (lookup_entry_spec k m0 contents Hok0). by rewrite Hv.
Qed.
