(* ===== verification/CompactionAgent.v ===== *)
(** The compaction agent, internal/agents/compaction_agent.go, around the merge
    of MergeIterators: it takes all tables of level 0 under the lock, merges
    them into one of level 1 without it, and commits the new table, or puts the
    old ones back, under the lock again. *)
From S2P Require Import Prelude Codec Text Domain Hashing Configuration WriteAheadLog SortedStringTable GoHeap MergeIterators SystemState Ingestion FlushAgent.
From S2P Require MemoryTable LruCache.

Open Scope Z_scope.

(** ** Definitions *)

Section Compaction.
Context `{BloomFilter B}.
Implicit Types (m : machine B) (tables : list SSTableMetadata).

(** The first critical section of [checkAndRunCompaction]; [None]: nothing to
    do. *)
Definition takeLevelZero m : option (list SSTableMetadata * machine B) :=
  match SSTables (bb m) with
  | [] => None
  | tables :: levels =>
    if zlen tables <? LevelZeroCompactionTriggerCount (Configuration (bb m)) then None
    else Some (tables, with_bb (set_SSTables ([] :: levels)) m)
  end.

(** Closing the iterators after an error changes no file. *)
Definition createIterators tables m : option (list bytes) :=
  mapM (fun meta => NewSSTableReader (Filename meta) (fs m)) tables.

Definition merged_path (dir : string) (now : Z) : string :=
  (dir ++ String "/" ("L1" ++ String "_" (print_int now ++ ".sst")))%string.

Definition performMerge tables (dir : string) (now : Z) m : machine B * outcome SSTableMetadata :=
  match createIterators tables m with
  | None => (m, Err)
  | Some iters => write_table (merge_files iters) (merged_path dir now) 1 m
  end.

(** A second level is appended when there is only one. *)
Definition commitCompaction (oldTables : list SSTableMetadata) (newMeta : SSTableMetadata) m : machine B :=
  let levels := SSTables (bb m) in
  let levels := if decide (length levels < 2)%nat then levels ++ [[]] else levels in
  let m := with_bb (set_SSTables (alter (fun level => level ++ [newMeta]) 1%nat levels)) m in
  with_fs (fold_left (fun f t => os_Remove (Filename t) f) oldTables (fs m)) m.

(** The second critical section, at the end of [executeCompaction]; level 0
    exists, since tables were taken from it. *)
Definition settleCompaction tables (merged : outcome SSTableMetadata) m : machine B :=
  match merged with
  | Ok newMeta => commitCompaction tables newMeta m
  | _ => with_bb (set_SSTables (alter (fun level => tables ++ level) 0%nat (SSTables (bb m)))) m
  end.

(** [executeCompaction] without anything in between; a panic of the filter ends
    the program. *)
Definition executeCompaction tables (now : Z) m : outcome (machine B) :=
  match performMerge tables (DataDirectoryPath (Configuration (bb m))) now m with
  | (_, Panic) => Panic
  | (m, merged) => Ok (settleCompaction tables merged m)
  end.

Definition checkAndRunCompaction (now : Z) m : outcome (machine B) :=
  match takeLevelZero m with
  | None => Ok m
  | Some (tables, m) => executeCompaction tables now m
  end.

End Compaction.

(** *** Specification: the keys of tables, by their indexes *)

Definition table_keys (tables : list SSTableMetadata) : gset string :=
  ⋃ ((fun t => dom (Index t)) <$> tables).

(** The keys that two of the tables have. *)
Fixpoint shared_keys (tables : list SSTableMetadata) : gset string :=
  match tables with
  | [] => ∅
  | t :: rest => (dom (Index t) ∩ table_keys rest) ∪ shared_keys rest
  end.

(** ** Lemmas *)

Lemma elem_of_table_keys k tables : k ∈ table_keys tables <-> exists t, t ∈ tables /\ k ∈ dom (Index t).
Proof.
  unfold table_keys. rewrite elem_of_union_list. split.
  - intros (X & (t & -> & Ht)%list_elem_of_fmap & Hk). eauto.
  - intros (t & Ht & Hk). exists (dom (Index t)). split; [|done]. by apply (list_elem_of_fmap_2 (fun t => dom (Index t))).
Qed.

Section CompactionSpec.
Context `{BloomFilterLaws B}.
Implicit Types (m : machine B) (tables : list SSTableMetadata) (ts : list (list Entry)).

(** The index of a table knows its keys. *)
Lemma table_file_dom meta es f k : table_file meta es f -> k ∈ dom (Index meta) <-> is_Some (last_entry k es).
Proof.
  intros (_ & Hi & _). rewrite elem_of_dom. split; intros [x Hx].
  - destruct (last_entry k es) eqn:E; [by eexists|]. apply last_entry_in, Hi in E. congruence.
  - destruct (Index meta !! k) eqn:E; [by eexists|]. apply Hi, last_entry_in in E. congruence.
Qed.

Lemma elem_of_table_keys_contents f bloom tables ts k : Forall2 (meta_ok f bloom) tables ts ->
  k ∈ table_keys tables <-> exists es, es ∈ ts /\ is_Some (last_entry k es).
Proof.
  intros Hm. rewrite elem_of_table_keys. split.
  - intros (t & Ht & Hk). apply list_elem_of_lookup in Ht as [i Hi].
    destruct (Forall2_lookup_l _ _ _ _ _ Hm Hi) as (es & He & (Hf & _)). exists es.
    split; [by eapply list_elem_of_lookup_2|]. by eapply table_file_dom.
  - intros (es & He & Hk). apply list_elem_of_lookup in He as [i Hi].
    destruct (Forall2_lookup_r _ _ _ _ _ Hm Hi) as (t & Ht & (Hf & _)). exists t.
    split; [by eapply list_elem_of_lookup_2|]. by eapply table_file_dom.
Qed.

Lemma unshared_unique f bloom tables ts k : Forall2 (meta_ok f bloom) tables ts -> k ∉ shared_keys tables ->
  forall es es', es ∈ ts -> es' ∈ ts -> is_Some (last_entry k es) -> is_Some (last_entry k es') -> es = es'.
Proof.
  induction 1 as [|t es tables ts Ht Hts IH]; intros Hk a b Ha Hb Hka Hkb; [by inversion Ha|].
  cbn [shared_keys] in Hk. rewrite not_elem_of_union, elem_of_intersection in Hk. destruct Hk as [Hk1 Hk2].
  assert (forall c, c ∈ ts -> is_Some (last_entry k c) -> is_Some (last_entry k es) -> False) as Hno.
  { intros c Hc Hkc Hke. apply Hk1. split; [by eapply table_file_dom; [apply Ht|]|].
    apply (elem_of_table_keys_contents f bloom tables ts); [done|by exists c]. }
  apply elem_of_cons in Ha as [->|Ha], Hb as [->|Hb]; [done| | |by apply IH].
  - by destruct (Hno b Hb Hkb Hka).
  - by destruct (Hno a Ha Hka Hkb).
Qed.

Lemma first_some_Some {A} (l : list (option A)) x : first_some l = Some x -> Some x ∈ l.
Proof. induction l as [|[y|] l IH]; simpl; [done|intros ->; left|]. intros Hx. right. by apply IH. Qed.

Lemma first_some_None {A} (l : list (option A)) : first_some l = None <-> forall o, o ∈ l -> o = None.
Proof.
  induction l as [|[y|] l IH]; simpl.
  - split; [|done]. intros _ o Ho. by inversion Ho.
  - split; [done|]. intros Hall. by specialize (Hall (Some y) ltac:(left)).
  - change (first_some l = None <-> forall o, o ∈ None :: l -> o = None). rewrite IH. split.
    + intros Hall o [->|Ho]%elem_of_cons; [done|by apply Hall].
    + intros Hall o Ho. apply Hall. by right.
Qed.

Lemma level_spec_None k ts : level_spec k ts = None <-> forall es, es ∈ ts -> last_entry k es = None.
Proof.
  unfold level_spec. rewrite first_some_None. split.
  - intros Hall es He. apply Hall. apply (list_elem_of_fmap_2 (last_entry k)). by apply elem_of_reverse.
  - intros Hall o (es & -> & He)%list_elem_of_fmap. apply Hall. by rewrite elem_of_reverse in He.
Qed.

Lemma level_spec_Some k ts e : level_spec k ts = Some e -> exists es, es ∈ ts /\ last_entry k es = Some e.
Proof.
  unfold level_spec. intros (es & He & Hin)%first_some_Some%list_elem_of_fmap. exists es.
  split; [by rewrite elem_of_reverse in Hin|done].
Qed.

Lemma level_spec_app k ts1 ts2 : level_spec k (ts1 ++ ts2) = first_some [level_spec k ts2; level_spec k ts1].
Proof.
  unfold level_spec. rewrite reverse_app, fmap_app, first_some_app.
  change (first_some [?a; ?b]) with (match a with Some x => Some x | None => match b with Some x => Some x | None => None end end).
  destruct (first_some (last_entry k <$> reverse ts2)); [done|]. by destruct (first_some _).
Qed.

Lemma disk_spec_cons k level levels : disk_spec k (level :: levels) = first_some [level_spec k level; disk_spec k levels].
Proof.
  unfold disk_spec. rewrite fmap_cons. cbn [first_some foldr]. destruct (level_spec k level); [done|].
  change (foldr _ None ?l) with (first_some l). by destruct (first_some _).
Qed.

Lemma metas_sorted f bloom tables ts : Forall2 (meta_ok f bloom) tables ts ->
  Forall sorted_table ts /\ Forall (Forall entry_fits) ts.
Proof.
  intros Hm. split; apply Forall_forall; intros es He; apply list_elem_of_lookup in He as [i Hi];
    destruct (Forall2_lookup_r _ _ _ _ _ Hm Hi) as (t & _ & ((_ & _ & _ & Hf) & Hs & _)); done.
Qed.

(** The merge keeps what a lookup finds of the keys no two tables share. *)
Lemma merge_unshared f bloom tables ts k : Forall2 (meta_ok f bloom) tables ts -> k ∉ shared_keys tables ->
  last_entry k (merge_files (encode_table <$> ts)) = level_spec k ts.
Proof.
  intros Hm Hk. destruct (metas_sorted _ _ _ _ Hm) as [Hs Hf].
  destruct (merge_files_last ts k Hs Hf) as (_ & Hnone & _ & Hone).
  destruct (level_spec k ts) as [e|] eqn:E.
  - apply level_spec_Some in E as (es & He & Hl). apply (Hone es e He Hl).
    intros es' He' Hl'. by apply (unshared_unique f bloom tables ts k).
  - apply Hnone. by apply level_spec_None.
Qed.

Lemma merge_fits ts : Forall sorted_table ts -> Forall (Forall entry_fits) ts ->
  sorted_table (merge_files (encode_table <$> ts)) /\ Forall entry_fits (merge_files (encode_table <$> ts)).
Proof.
  intros Hs Hf. split; [by apply (merge_files_last ts ""%string)|].
  apply Forall_forall. intros e He. destruct (merge_files_last ts (Key e) Hs Hf) as (Hsm & _ & Hfrom & _).
  destruct (Hfrom e) as (es & Hes & Hl).
  { apply last_entry_nodup; [by apply sorted_table_nodup|done|done]. }
  apply last_entry_Some in Hl as [Hin _]. rewrite Forall_forall in Hf. specialize (Hf es Hes).
  rewrite Forall_forall in Hf. by apply Hf.
Qed.

(** *** The three phases *)

Lemma takeLevelZero_ok m contents tables m' : state_ok m contents -> takeLevelZero m = Some (tables, m') ->
  exists ts rest levels, contents = ts :: rest /\ SSTables (bb m) = tables :: levels /\
    m' = with_bb (set_SSTables ([] :: levels)) m /\ Forall2 (meta_ok (fs m') (BloomF (bb m'))) tables ts /\
    state_ok m' ([] :: rest) /\
    (forall k, view_spec k ts m' ([] :: rest) = view_spec k [] m contents) /\
    (forall k, k ∉ table_keys tables -> level_spec k ts = None).
Proof.
  intros Hok Ht. unfold takeLevelZero in Ht. destruct (SSTables (bb m)) as [|l levels] eqn:Es; [done|].
  destruct (_ <? _); [done|]. injection Ht as -> <-.
  pose proof Hok as (Hm1 & Hm2 & Hm3 & Hb & Htab & Hl & Hwn & Hwf).
  rewrite Es in Htab. apply Forall2_cons_inv_l in Htab as (ts & rest & Hts & Hrest & ->).
  exists ts, rest, levels. split_and!; try done.
  - split_and!; try done; cbn; [by constructor| |].
    + by rewrite Es in Hl.
    + intros w meta Hw Hmeta. apply Hwn; [done|]. rewrite Es. simpl. apply elem_of_app. by right.
  - intros k. unfold view_spec. cbn. by rewrite app_nil_r.
  - intros k Hk. apply level_spec_None. intros es Hes.
    destruct (last_entry k es) eqn:E; [|done]. exfalso. apply Hk.
    apply (elem_of_table_keys_contents (fs m) (BloomF (bb m)) tables ts); [done|]. exists es. by rewrite E.
Qed.

Lemma createIterators_ok m tables ts : Forall2 (meta_ok (fs m) (BloomF (bb m))) tables ts ->
  createIterators tables m = Some (encode_table <$> ts).
Proof.
  intros Hm. unfold createIterators. apply mapM_Some. induction Hm as [|t es tables ts Ht _ IH]; constructor; [|done].
  by destruct Ht as ((Ho & _) & _).
Qed.

Lemma merged_path_id dir now : 0 <= now < 2 ^ 63 -> parse_file_id (merged_path dir now) = now.
Proof. intros Hn. unfold merged_path. apply parse_file_id_name; [repeat constructor; done..|done]. Qed.

Definition merge_fresh (now : Z) m : Prop :=
  files (fs m) !! merged_path (DataDirectoryPath (Configuration (bb m))) now = None.

(** The entries [performMerge] would write have sizes an int64 can count. *)
Definition merge_bytes_fit (tables : list SSTableMetadata) m : Prop :=
  forall iters, createIterators tables m = Some iters -> zlen (encode_table (merge_files iters)) < 2 ^ 63.

Lemma performMerge_spec m contents tables ts now : state_ok m contents ->
  Forall2 (meta_ok (fs m) (BloomF (bb m))) tables ts -> 0 <= now < 2 ^ 63 -> merge_fresh now m ->
  let es := merge_files (encode_table <$> ts) in
  zlen (encode_table es) < 2 ^ 63 ->
  let p := merged_path (DataDirectoryPath (Configuration (bb m))) now in
  let '(m', r) := performMerge tables (DataDirectoryPath (Configuration (bb m))) now m in
  state_ok m' contents /\
  ((r = Err /\ m' = m /\ openable (fs m) p = false) \/
   exists meta bloom, r = Ok meta /\ openable (fs m) p = true /\
     m' = with_bb (set_BloomF bloom) (with_fs (fs_write p (encode_table es) (fs m)) m) /\
     bloom_le (BloomF (bb m)) bloom /\ meta_ok (fs m') (BloomF (bb m')) meta es /\ Filename meta = p).
Proof.
  intros Hok Hm Hnow Hfresh es Hlen p. unfold performMerge. rewrite (createIterators_ok m tables ts) by done.
  destruct (metas_sorted _ _ _ _ Hm) as [Hs Hf]. destruct (merge_fits ts Hs Hf) as [Hs' Hf'].
  apply write_table_spec; try done. unfold p. rewrite merged_path_id; lia.
Qed.

Lemma fold_Remove_files tables : forall f q, q ∉ (Filename <$> tables) ->
  files (fold_left (fun f t => os_Remove (Filename t) f) tables f) !! q = files f !! q.
Proof.
  induction tables as [|t tables IH]; intros f q Hq; [done|]. cbn [fold_left].
  rewrite fmap_cons, not_elem_of_cons in Hq. destruct Hq as [Hq1 Hq2].
  rewrite IH by done. cbn. by rewrite lookup_delete_ne.
Qed.

Lemma fold_Remove_openable tables : forall f,
  openable (fold_left (fun f t => os_Remove (Filename t) f) tables f) = openable f.
Proof. induction tables as [|t tables IH]; intros f; [done|]. cbn [fold_left]. by rewrite IH. Qed.

(** A failed compaction puts the tables back where the view has them. *)
Lemma settle_restore_ok m contents tables ts : state_ok m contents ->
  Forall2 (meta_ok (fs m) (BloomF (bb m))) tables ts ->
  (forall w t, w ∈ wals (bb m) -> t ∈ tables -> path w <> Filename t) ->
  let m' := settleCompaction tables Err m in
  state_ok m' (with_taken ts contents) /\
  forall k, view_spec k [] m' (with_taken ts contents) = view_spec k ts m contents.
Proof.
  intros (Hm1 & Hm2 & Hm3 & Hb & Htab & Hl & Hwn & Hwf) Hm Hw. cbv zeta. split.
  - destruct (SSTables (bb m)) as [|l0 levels] eqn:Es; [simpl in Hl; lia|].
    apply Forall2_cons_inv_l in Htab as (c0 & cs & H0' & Hs & ->).
    split_and!; try done; cbn; rewrite ?Es; try done.
    + cbn. constructor; [|done]. by apply Forall2_app.
    + cbn. intros w t Hin. rewrite !elem_of_app. intros [[Ht|Ht]|Ht]; [by apply Hw| |];
        (apply Hwn; [done|]; simpl; apply elem_of_app; auto).
  - intros k. unfold view_spec, with_taken. by destruct contents.
Qed.

(** A committed compaction: the merged table goes to the end of level 1, below
    what level 0 has got since and above the older tables of level 1. *)
Definition add_merged_table (ms : list Entry) (contents : list (list (list Entry))) : list (list (list Entry)) :=
  alter (fun level => level ++ [ms]) 1%nat contents.

(** Of the taken tables a view uses what they say of the key. *)
Lemma view_spec_level k ts1 ts2 m contents : level_spec k ts1 = level_spec k ts2 ->
  view_spec k ts1 m contents = view_spec k ts2 m contents.
Proof.
  intros Hk. unfold view_spec, with_taken. destruct contents as [|c0 cs]; [done|]. cbn [alter list_alter].
  by rewrite !disk_spec_cons, !level_spec_app, Hk.
Qed.

Lemma level_spec_one k es : level_spec k [es] = last_entry k es.
Proof. unfold level_spec. cbn. by destruct (last_entry k es). Qed.

Lemma add_merged_view k ms m m' contents : (2 <= length contents)%nat ->
  mem_spec k (bb m') = mem_spec k (bb m) ->
  view_spec k [] m' (add_merged_table ms contents) = view_spec k [ms] m contents.
Proof.
  intros Hl Hmem. destruct contents as [|c0 [|c1 cs]]; [simpl in Hl; lia..|].
  unfold view_spec, with_taken, add_merged_table. cbn [alter list_alter app].
  rewrite Hmem, !disk_spec_cons. change (ms :: c0) with ([ms] ++ c0).
  rewrite !level_spec_app, level_spec_one. cbn.
  by destruct (mem_spec k (bb m)), (level_spec k c0), (last_entry k ms), (level_spec k c1).
Qed.

Lemma settle_commit_ok m contents tables meta ms : state_ok m contents ->
  meta_ok (fs m) (BloomF (bb m)) meta ms ->
  (forall w t, w ∈ wals (bb m) -> t ∈ meta :: tables -> path w <> Filename t) ->
  (forall t t', t ∈ tables -> t' ∈ meta :: concat (SSTables (bb m)) -> Filename t <> Filename t') ->
  let m' := settleCompaction tables (Ok meta) m in
  state_ok m' (add_merged_table ms contents) /\ SSTables (bb m') = alter (fun l => l ++ [meta]) 1%nat (SSTables (bb m)).
Proof.
  intros Hok Hmeta Hw Hd m'. subst m'.
  pose proof Hok as (Hm1 & Hm2 & Hm3 & Hb & Htab & Hl & Hwn & Hwf).
  unfold settleCompaction, commitCompaction. rewrite decide_False by lia. set (f := fold_left _ _ _).
  split; [|done].
  assert (forall q, q ∉ (Filename <$> tables) -> files f !! q = files (fs m) !! q) as Hf
    by (intros q Hq; by apply fold_Remove_files).
  assert (openable f = openable (fs m)) as Ho by apply fold_Remove_openable. clearbody f.
  assert (forall t', t' ∈ meta :: concat (SSTables (bb m)) -> files f !! Filename t' = files (fs m) !! Filename t') as Hkeep.
  { intros t' Ht'. apply Hf. intros (t & Heq & Ht)%list_elem_of_fmap. by apply (Hd t t'). }
  pose proof (tables_ok_other_file (fs m) f (BloomF (bb m)) _ _ (fun t Ht => Hkeep t ltac:(by right)) Ho Htab) as Htab'.
  assert (meta_ok f (BloomF (bb m)) meta ms) as Hmeta'
    by (apply (meta_ok_other_file (fs m)); [apply Hkeep; left|done|done]).
  destruct (SSTables (bb m)) as [|l0 [|l1 levels]] eqn:Es; [simpl in Hl; lia..|].
  apply Forall2_cons_inv_l in Htab' as (c0 & cs & H0' & Hs & ->).
  apply Forall2_cons_inv_l in Hs as (c1 & cs' & H1' & Hs & ->).
  split_and!; try done; cbn; rewrite ?Es; try done.
  - cbn. constructor; [done|]. constructor; [|done]. apply Forall2_app; [done|]. by constructor; [|constructor].
  - cbn. intros w t Hin. rewrite !elem_of_app, list_elem_of_singleton.
    intros [Ht|[[Ht| ->]|Ht]]; [| |apply Hw; [done|left]|]; (apply Hwn; [done|]; simpl; rewrite !elem_of_app; auto).
  - intros w Hin. rewrite Hf; [by apply Hwf|]. intros (t & Heq & Ht)%list_elem_of_fmap.
    apply (Hw w t); [done|by right|done].
Qed.

End CompactionSpec.

(** ** Properties *)

Section Properties.
Context `{BloomFilterLaws B}.
Implicit Types (m : machine B).

(** Logs and tables of a state are different files. *)
Definition files_apart m : Prop :=
  NoDup ((path <$> wals (bb m)) ++ (Filename <$> concat (SSTables (bb m)))).

Lemma files_apart_tables m tables levels : files_apart m -> SSTables (bb m) = tables :: levels ->
  (forall w t, w ∈ wals (bb m) -> t ∈ tables -> path w <> Filename t) /\
  (forall t t', t ∈ tables -> t' ∈ concat levels -> Filename t <> Filename t').
Proof.
  unfold files_apart. intros Hn Hss. rewrite Hss in Hn. cbn [concat] in Hn. rewrite fmap_app in Hn.
  apply NoDup_app in Hn as (_ & Hd & Hn). apply NoDup_app in Hn as (_ & Hd' & _). split.
  - intros w t Hw Ht Heq. apply (Hd (path w)); [by apply list_elem_of_fmap_2|]. rewrite Heq.
    apply elem_of_app. left. by apply list_elem_of_fmap_2.
  - intros t t' Ht Ht' Heq. apply (Hd' (Filename t)); [by apply list_elem_of_fmap_2|]. rewrite Heq. by apply list_elem_of_fmap_2.
Qed.

(** The whole compaction of the tables taken. *)
Lemma executeCompaction_ok m contents tables m1 now : state_ok m contents -> files_apart m ->
  takeLevelZero m = Some (tables, m1) -> 0 <= now < 2 ^ 63 -> merge_fresh now m ->
  merge_bytes_fit tables m ->
  exists m' contents', executeCompaction tables now m1 = Ok m' /\ state_ok m' contents' /\
    forall k, k ∉ shared_keys tables -> lookup_entry k m' = lookup_entry k m.
Proof.
  intros Hok Hap Htake Hnow Hfresh Hfit.
  destruct (takeLevelZero_ok _ _ _ _ Hok Htake) as (ts & rest & levels & -> & Hss & Hm1 & Hts & Hok1 & Hv1 & _).
  destruct (files_apart_tables m tables levels Hap Hss) as [Hw Hd].
  assert (merge_fresh now m1) as Hfresh1 by by subst m1. specialize (Hfit _ (createIterators_ok m tables ts ltac:(by subst m1))).
  pose proof (performMerge_spec m1 _ tables ts now Hok1 Hts Hnow Hfresh1 Hfit) as Hp. cbv zeta in Hp.
  unfold executeCompaction. destruct (performMerge _ _ _ _) as [m2 r].
  assert (forall m' contents', state_ok m' contents' ->
    (forall k, k ∉ shared_keys tables -> view_spec k [] m' contents' = view_spec k ts m1 ([] :: rest)) ->
    forall k, k ∉ shared_keys tables -> lookup_entry k m' = lookup_entry k m) as Hend.
  { intros m' contents' Hok' Hv k Hk. rewrite (lookup_entry_view k _ _ Hok'), (lookup_entry_view k _ _ Hok).
    by rewrite Hv, Hv1. }
  destruct Hp as [Hok2 [(-> & -> & _)|(meta & bloom & -> & _ & Hm2 & Hle & Hmeta & Hname)]].
  - destruct (settle_restore_ok m1 _ tables ts Hok1 Hts) as [Hok3 Hv3]; [by subst m1|].
    eexists _, _. split_and!; [done|exact Hok3|]. by apply (Hend _ _ Hok3).
  - assert (forall q, is_Some (files (fs m) !! q) -> Filename meta <> q) as Hnew.
    { intros q [x Hx] <-. rewrite Hname in Hx. subst m1. unfold merge_fresh in Hfresh. cbn in Hx. congruence. }
    destruct (settle_commit_ok m2 _ tables meta _ Hok2 Hmeta) as [Hok3 _].
    + intros w t Hin [->|Ht]%elem_of_cons; [|apply Hw; [by subst m2 m1|done]].
      apply not_eq_sym, Hnew. apply (wals_exist m (ts :: rest)); [done|]. apply list_elem_of_fmap_2. by subst m2 m1.
    + intros t t' Ht [->|Ht']%elem_of_cons.
      * apply not_eq_sym, Hnew. apply (table_file_exists m (ts :: rest)); [done|]. rewrite Hss. apply elem_of_app. by left.
      * apply Hd; [done|]. by subst m2 m1.
    + eexists _, _. split_and!; [done|exact Hok3|]. apply (Hend _ _ Hok3). intros k Hk.
      rewrite (add_merged_view k _ m2).
      * subst m2. change (view_spec k ?l (with_bb _ _) ?c) with (view_spec k l m1 c). apply view_spec_level. rewrite level_spec_one. by eapply merge_unshared.
      * destruct Hok2 as (_ & _ & _ & _ & Htab & Hl & _). by rewrite (Forall2_length _ _ _ Htab) in Hl.
      * done.
Qed.

(** C21. A compaction does not change what keys read as, when it is over, except
    possibly for keys that two of the compacted tables have. On a consistent
    state and at a time that names a new file, a tick of the compaction agent
    either has too few tables and does nothing, or ends in a consistent state
    (with level 0 merged into level 1 or, when the disk refuses the file,
    restored) in which every other key reads as before. *)
Theorem Compaction_keeps_unshared m contents now : state_ok m contents -> files_apart m ->
  0 <= now < 2 ^ 63 -> merge_fresh now m ->
  merge_bytes_fit (default [] (head (SSTables (bb m)))) m ->
  exists m' contents', checkAndRunCompaction now m = Ok m' /\ state_ok m' contents' /\
    forall k, k ∉ shared_keys (default [] (head (SSTables (bb m)))) -> lookup_entry k m' = lookup_entry k m.
Proof.
  intros Hok Hap Hnow Hfresh Hfit. unfold checkAndRunCompaction.
  destruct (takeLevelZero m) as [[tables m1]|] eqn:Htake; [|by exists m, contents].
  destruct (takeLevelZero_ok _ _ _ _ Hok Htake) as (_ & _ & levels & _ & Hss & _). rewrite Hss in Hfit |- *.
  by apply (executeCompaction_ok m contents).
Qed.

(** C23. While a compaction runs, what only level 0 held is not found. As soon as
    the agent has taken the tables, a key that is in them and neither in memory
    nor in the lower levels reads as missing, although it read as its entry
    before. *)
Theorem Compaction_hides_level_zero m contents tables m1 k : state_ok m contents ->
  takeLevelZero m = Some (tables, m1) -> k ∈ table_keys tables ->
  mem_spec k (bb m) = None -> disk_spec k (tail contents) = None ->
  lookup_entry k m1 = Ok None /\ exists e, lookup_entry k m = Ok (Some e).
Proof.
  intros Hok Htake Hk Hmem Hdisk.
  destruct (takeLevelZero_ok _ _ _ _ Hok Htake) as (ts & rest & levels & -> & Hss & Hm1 & Hts & Hok1 & Hv1 & _).
  cbn [tail] in Hdisk. split.
  - rewrite (lookup_entry_spec k _ _ Hok1). assert (mem_spec k (bb m1) = None) as -> by by subst m1. cbn [first_some foldr].
    rewrite disk_spec_cons. cbn. by rewrite Hdisk.
  - rewrite (lookup_entry_spec k _ _ Hok), Hmem, disk_spec_cons, Hdisk.
    destruct (level_spec k ts) as [e|] eqn:E; [by exists e|]. exfalso.
    apply (elem_of_table_keys_contents _ _ _ _ _ Hts) in Hk as (es & Hes & [x Hx]).
    rewrite level_spec_None in E. rewrite (E es Hes) in Hx. done.
Qed.

End Properties.
