(* ===== verification/Python.v ===== *)
(** What the Python scripts use of the language and its standard library:
    exceptions, stateful and fallible computations, numbers, dicts, sorting,
    statistics, f-strings; and, as a class, the world they act on. *)
From Stdlib Require Import QArith_base Qreduction.
From S2P Require Import Prelude Text PyFloat.

Open Scope Z_scope.
Set Warnings "-register-all".

(** ** Definitions *)

(** *** Exceptions *)

Inductive exn :=
| KeyError (k : string)
| IndexError
| ZeroDivisionError
| ValueError
| TypeError
| AttributeError
| OverflowError
| StatisticsError
| JSONDecodeError
| UnicodeDecodeError
| RequestException (reason : string)
| HTTPError (code : Z) (reason : string)
| URLError (reason : string)
| SndvError (code : Z) (message : string)
| CalledProcessError
| TimeoutExpired
| OSError (what : string)
| SystemExit (code : Z)
| KeyboardInterrupt
| NoFuel.

(** [NoFuel] is no Python exception: a loop did not end within the fuel of the
    model. Nothing catches it. *)
Definition is_exception (e : exn) : bool := match e with NoFuel => false | _ => true end.

(** What [except Exception] catches; a bare [except] catches every exception. *)
Definition is_Exception (e : exn) : bool :=
  match e with SystemExit _ | KeyboardInterrupt | NoFuel => false | _ => true end.

(** *** Computations: the state persists through an exception *)

Definition M (S A : Type) : Type := S -> S * (exn + A).

Section Monad.
Context {S : Type}.

Definition ret {A} (a : A) : M S A := fun s => (s, inr a).
Definition raise {A} (e : exn) : M S A := fun s => (s, inl e).
Definition bind {A C} (m : M S A) (k : A -> M S C) : M S C := fun s =>
  match m s with
  | (s, inr a) => k a s
  | (s, inl e) => (s, inl e)
  end.
Definition lift_exn {A} (r : exn + A) : M S A := fun s => (s, r).

(** A call in a [try] whose handler is bare, or [except Exception]. *)
Definition try_bare {A} (m : M S A) (handler : exn -> M S A) : M S A := fun s =>
  match m s with
  | (s, inr a) => (s, inr a)
  | (s, inl e) => if is_exception e then handler e s else (s, inl e)
  end.
Definition try_except {A} (m : M S A) (handler : exn -> M S A) : M S A := fun s =>
  match m s with
  | (s, inr a) => (s, inr a)
  | (s, inl e) => if is_Exception e then handler e s else (s, inl e)
  end.

(** [try: m finally: f]; an exception of [f] replaces the outcome. *)
Definition try_finally {A} (m : M S A) (f : M S unit) : M S A := fun s =>
  match m s with
  | (s, inl NoFuel) => (s, inl NoFuel)
  | (s, r) =>
    match f s with
    | (s, inr _) => (s, r)
    | (s, inl e) => (s, inl e)
    end
  end.

(** [for x in l: acc = body(acc, x)]. *)
Fixpoint for_each {A C} (l : list A) (acc : C) (body : C -> A -> M S C) : M S C :=
  match l with
  | [] => ret acc
  | x :: l' => bind (body acc x) (fun acc => for_each l' acc body)
  end.

(** [[f(x) for x in l]]. *)
Fixpoint comprehension {A C} (l : list A) (f : A -> M S C) : M S (list C) :=
  match l with
  | [] => ret []
  | x :: l' => bind (f x) (fun y => bind (comprehension l' f) (fun ys => ret (y :: ys)))
  end.

Definition get_state : M S S := fun s => (s, inr s).
Definition modify (f : S -> S) : M S unit := fun s => (f s, inr tt).
End Monad.

Declare Scope py_scope.
Delimit Scope py_scope with py.
Notation "x <- m ;; k" := (bind m (fun x => k)) (at level 87, m at next level, right associativity) : py_scope.
Notation "m ;;; k" := (bind m (fun _ => k)) (at level 87, right associativity) : py_scope.

(** Pure steps that may raise. *)
Definition ebind {A C} (r : exn + A) (k : A -> exn + C) : exn + C :=
  match r with inl e => inl e | inr a => k a end.
Notation "x <-! r ;; k" := (ebind r (fun x => k)) (at level 87, r at next level, right associativity) : py_scope.

(** *** Numbers *)

Inductive pynum := PInt (z : Z) | PFloat (f : float).

(** The conversion of the language is exact below 2^53. *)
Definition to_float (n : pynum) : float :=
  match n with PInt z => f_of_Z z | PFloat f => f end.

Definition num_lt (a b : pynum) : bool :=
  match a, b with
  | PInt x, PInt y => x <? y
  | _, _ => f_lt (to_float a) (to_float b)
  end.

Definition num_add (a b : pynum) : pynum :=
  match a, b with
  | PInt x, PInt y => PInt (x + y)
  | _, _ => PFloat (f_add (to_float a) (to_float b))
  end.

Definition num_mul (a b : pynum) : pynum :=
  match a, b with
  | PInt x, PInt y => PInt (x * y)
  | _, _ => PFloat (f_mul (to_float a) (to_float b))
  end.

Definition f_infinite (x : float) : bool :=
  match x with S754_infinity _ => true | _ => false end.

(** [a / b]. *)
Definition num_div (a b : pynum) : exn + pynum :=
  match a, b with
  | _, PInt 0 => inl ZeroDivisionError
  | PInt x, PInt y =>
    let q := match y with Zneg p => f_ratio (- x) p | _ => f_ratio x (Z.to_pos y) end in
    if f_infinite q then inl OverflowError else inr (PFloat q)
  | PInt x, PFloat _ | PFloat _, PInt x =>
    if f_infinite (f_of_Z x) then inl OverflowError
    else if f_is_zero (to_float b) then inl ZeroDivisionError
    else inr (PFloat (f_div (to_float a) (to_float b)))
  | PFloat x, PFloat y =>
    if f_is_zero y then inl ZeroDivisionError else inr (PFloat (f_div x y))
  end.

(** [a // b] on integers. *)
Definition floordiv (a b : Z) : exn + Z :=
  if b =? 0 then inl ZeroDivisionError else inr (a / b).

(** [int(n * c)] for a length [n] and a float literal [c]. *)
Definition int_mul (n : Z) (c : float) : exn + Z :=
  match int_of_float (f_mul (f_of_Z n) c) with
  | Some i => inr i
  | None => inl ValueError
  end.

(** [l[i]], negative indices included. *)
Definition index {A} (l : list A) (i : Z) : exn + A :=
  let j := if i <? 0 then zlen l + i else i in
  if j <? 0 then inl IndexError
  else match l !! Z.to_nat j with Some x => inr x | None => inl IndexError end.

(** [range(n)]. *)
Definition range (n : Z) : list Z := Z.of_nat <$> seq 0 (Z.to_nat n).

(** [sorted(l)] and [l.sort()] on numbers: stable, by [<]. *)
Fixpoint insert_sorted (x : pynum) (l : list pynum) : list pynum :=
  match l with
  | [] => [x]
  | y :: l' => if num_lt y x then y :: insert_sorted x l' else x :: l
  end.
Definition py_sort (l : list pynum) : list pynum := foldr insert_sorted [] l.

(** [min(l)], [max(l)] and [max(l, key=f)]: the first extremal element. *)
Definition py_min (l : list pynum) : exn + pynum :=
  match l with
  | [] => inl ValueError
  | x :: l' => inr (fold_left (fun b y => if num_lt y b then y else b) l' x)
  end.
Definition py_max_by {A} (key : A -> pynum) (l : list A) : exn + A :=
  match l with
  | [] => inl ValueError
  | x :: l' => inr (fold_left (fun b y => if num_lt (key b) (key y) then y else b) l' x)
  end.
Definition py_max (l : list pynum) : exn + pynum := py_max_by id l.

(** *** statistics *)

Definition Q_of_num (n : pynum) : option Q :=
  match n with PInt z => Some (z # 1)%Q | PFloat f => Q_of_float f end.

Definition is_int (n : pynum) : bool := match n with PInt _ => true | PFloat _ => false end.

(** [statistics.mean]: the exact sum, divided exactly, converted once; when a
    value is not finite, the sum of those that are not, divided. *)
Definition mean (l : list pynum) : exn + pynum :=
  match l with
  | [] => inl StatisticsError
  | _ =>
    match mapM Q_of_num l with
    | Some qs =>
      let r := Qred (Qdiv (fold_left Qplus qs (0 # 1)%Q) (zlen l # 1)%Q) in
      inr (if forallb is_int l && (Qden r =? 1)%positive then PInt (Qnum r)
           else PFloat (f_ratio (Qnum r) (Qden r)))
    | None =>
      let bad := to_float <$> filter (fun n => Q_of_num n = None) l in
      inr (PFloat (f_div (fold_left f_add bad (f_of_Z 0)) (f_of_Z (zlen l))))
    end
  end.

Definition median (l : list pynum) : exn + pynum :=
  let data := py_sort l in
  let n := zlen data in
  if n =? 0 then inl StatisticsError
  else if n mod 2 =? 1 then index data (n / 2)
  else match index data (n / 2 - 1), index data (n / 2) with
       | inr a, inr b => num_div (num_add a b) (PInt 2)
       | inl e, _ | _, inl e => inl e
       end.

(** *** Values and dicts (insertion-ordered) *)

Inductive pyval :=
| VNone
| VBool (b : bool)
| VNum (n : pynum)
| VStr (s : string)
| VList (l : list pyval)
| VDict (d : list (string * pyval)).

Abbreviation dict := (list (string * pyval)).

Definition VInt (z : Z) : pyval := VNum (PInt z).

Fixpoint dict_get (k : string) (d : dict) : option pyval :=
  match d with
  | [] => None
  | (k', v) :: d' => if decide (k' = k) then Some v else dict_get k d'
  end.

(** [d[k] = v]: in place, or appended. *)
Fixpoint dict_set (k : string) (v : pyval) (d : dict) : dict :=
  match d with
  | [] => [(k, v)]
  | (k', v') :: d' => if decide (k' = k) then (k, v) :: d' else (k', v') :: dict_set k v d'
  end.

(** [{**a, **b}]. *)
Definition dict_update (a b : dict) : dict := fold_left (fun d '(k, v) => dict_set k v d) b a.

(** [v[k]] and [v[k1][k2]]. *)
Definition subscript (v : pyval) (k : string) : exn + pyval :=
  match v with
  | VDict d => match dict_get k d with Some x => inr x | None => inl (KeyError k) end
  | _ => inl TypeError
  end.
Definition subscript2 (v : pyval) (k1 k2 : string) : exn + pyval :=
  match subscript v k1 with inl e => inl e | inr x => subscript x k2 end.

Definition truthy (v : pyval) : bool :=
  match v with
  | VNone | VBool false | VNum (PInt 0) | VStr EmptyString | VList [] | VDict [] => false
  | VNum (PFloat f) => negb (f_is_zero f)
  | _ => true
  end.

Definition as_num (v : pyval) : exn + pynum :=
  match v with
  | VNum n => inr n
  | VBool b => inr (PInt (if b then 1 else 0))
  | _ => inl ValueError
  end.

(** *** Strings: [s.strip()] on ASCII text *)

Definition py_space (c : ascii) : bool :=
  match N_of_ascii c with 32%N | 9%N | 10%N | 11%N | 12%N | 13%N => true | _ => false end.

Fixpoint lstrip (s : string) : string :=
  match s with String c s' => if py_space c then lstrip s' else s | EmptyString => s end.
Fixpoint rstrip_space (s : string) : string :=
  match s with
  | EmptyString => ""%string
  | String c s' =>
    let r := rstrip_space s' in
    if bool_decide (r = ""%string) && py_space c then ""%string else String c r
  end.
Definition strip (s : string) : string := rstrip_space (lstrip s).

(** *** Text: f-strings keep a formatted number next to its format *)

Inductive piece :=
| Txt (s : string)
| Fmt (spec : string) (v : pynum)
| Rpr (v : pyval)
| Exc (e : exn).

Abbreviation text := (list piece).

(** A line break; [c * n]. *)
Definition nl : piece := Txt (String (ascii_of_N 10) "").
Fixpoint times (n : nat) (c : ascii) : string :=
  match n with O => ""%string | S n => String c (times n c) end.
Definition ruler (c : ascii) (n : nat) : piece := Txt (times n c).

(** The contents the scripts write to files: [f.write] calls, or one
    [json.dump(v, f, indent=2)]. *)
Inductive content := CText (t : text) | CJson (v : pyval).

(** *** Processes and HTTP *)

Record completed := mkCompleted { returncode : Z; stdout : string; stderr : string }.

Record http_request := mkHttp {
  h_method : string;
  h_url : string;
  h_headers : list (string * string);
  h_body : option string;
  h_timeout : option Z;
}.

Record http_response := mkResponse { status_code : Z; reason : string; r_body : string }.

(** *** The world of the scripts: clocks, network, processes, files, terminal.
    [transport] is one HTTP exchange; its left result is a failed one, before
    the request was sent or after. *)
Inductive failure := NotSent (why : string) | Dropped (why : string).
Definition failure_reason (f : failure) : string := match f with NotSent why | Dropped why => why end.

Class PyWorld (W : Type) := {
  time_time : W -> W * float;
  perf_counter : W -> W * float;
  time_sleep : float -> W -> W;
  isoformat : W -> W * string;
  strftime : string -> W -> W * string;
  cwd : W -> string;
  transport : http_request -> W -> W * (failure + http_response);
  (** [None]: the program could not be started. *)
  exec : list string -> option Z -> W -> W * option (option completed);
  Popen : list string -> W -> W * option nat;
  p_kill : nat -> W -> W;
  p_terminate : nat -> W -> W;
  p_wait : nat -> Z -> W -> W * bool;
  mkdir_exist_ok : string -> W -> W * bool;
  write_file : string -> content -> W -> W * bool;
  (** [None]: there is no such file; [inl]: what asking for it, reading or
      decoding it raises. *)
  read_text : string -> W -> option (exn + string);
  (** Every path below a directory: relative name, is_file, size. *)
  rglob : string -> W -> list (string * bool * Z);
  getenv : string -> W -> option string;
  print : text -> W -> W;
  (** [str(e)]; its wording is the interpreter's and the libraries'. *)
  str_exn : exn -> W -> string;
}.

(** One [f.write]; an exception keeps what was written before it. *)
Definition emit (t : text) : M text unit := fun out => (out ++ t, inr tt).

Section Calls.
Context `{PyWorld W}.

Definition call {A} (f : W -> W * A) : M W A := fun w => let '(w, a) := f w in (w, inr a).
Definition act (f : W -> W) : M W unit := fun w => (f w, inr tt).

Definition now : M W float := call time_time.
Definition perf : M W float := call perf_counter.
Definition sleep (f : float) : M W unit := act (time_sleep f).
(** [print(t)] and [print(t, end=" ", flush=True)]. *)
Definition say (t : text) : M W unit := act (print (t ++ [nl])).
Definition say_on (t : text) : M W unit := act (print (t ++ [Txt " "])).

(** [subprocess.run(cmd, timeout=t)] without [check]. *)
Definition run_process (cmd : list string) (timeout : option Z) : M W completed := fun w =>
  match exec cmd timeout w with
  | (w, None) => (w, inl (OSError "exec"))
  | (w, Some None) => (w, inl TimeoutExpired)
  | (w, Some (Some c)) => (w, inr c)
  end.

(** [subprocess.run(cmd, check=True)]. *)
Definition run_checked (cmd : list string) : M W completed := fun w =>
  match run_process cmd None w with
  | (w, inr c) => if returncode c =? 0 then (w, inr c) else (w, inl CalledProcessError)
  | r => r
  end.

Definition popen (cmd : list string) : M W nat := fun w =>
  match Popen cmd w with
  | (w, Some p) => (w, inr p)
  | (w, None) => (w, inl (OSError "exec"))
  end.

(** [proc.wait(timeout=t)]. *)
Definition wait_process (p : nat) (t : Z) : M W unit := fun w =>
  let '(w, done) := p_wait p t w in (w, if done : bool then inr tt else inl TimeoutExpired).

Definition mkdir (p : string) : M W unit := fun w =>
  let '(w, ok) := mkdir_exist_ok p w in (w, if ok : bool then inr tt else inl (OSError p)).

(** [with open(p, "w") as f: ...] written at once. *)
Definition save (p : string) (c : content) : M W unit := fun w =>
  let '(w, ok) := write_file p c w in (w, if ok : bool then inr tt else inl (OSError p)).

(** *** Text files: a writer that may stop in the middle *)

(** [with open(path, 'w') as f: body]: what was written before an exception
    stays in the file. *)
Definition with_open (path : string) (body : M text unit) : M W unit := fun w =>
  let '(t, r) := body [] in
  match save path (CText t) w with
  | (w, inr _) => (w, r)
  | (w, inl e) => (w, inl e)
  end.

(** [requests.get/post] and a session's: any status is a response. *)
Definition send (r : http_request) : M W http_response := fun w =>
  match transport r w with
  | (w, inl f) => (w, inl (RequestException (failure_reason f)))
  | (w, inr resp) => (w, inr resp)
  end.

(** [urllib.request.urlopen]: a status outside 2xx is an exception (a
    response here carries no Location, so none is followed). Only a failure to
    send the request is wrapped in a URLError. *)
Definition urlopen (r : http_request) : M W http_response := fun w =>
  match transport r w with
  | (w, inl (NotSent why)) => (w, inl (URLError why))
  | (w, inl (Dropped why)) => (w, inl (OSError why))
  | (w, inr resp) =>
    if (200 <=? status_code resp) && (status_code resp <? 300) then (w, inr resp)
    else (w, inl (HTTPError (status_code resp) (reason resp)))
  end.

End Calls.

(** [l[int(len(l) * c)]]. *)
Definition percentile (l : list pynum) (c : float) : exn + pynum :=
  match int_mul (zlen l) c with
  | inr i => index l i
  | inl e => inl e
  end.

(** ** Lemmas *)

(** The latencies of the scripts: a difference of clock readings times 1000,
    or the literal 3000. *)
Definition lat_ok (n : pynum) : Prop :=
  match n with PInt z => z = 3000 | PFloat f => f_nan f = false end.

Definition num_le (a b : pynum) : Prop := num_lt b a = false.

Lemma num_lt_float a b : lat_ok a -> lat_ok b -> num_lt a b = f_lt (to_float a) (to_float b).
Proof. destruct a, b; simpl; try done. by intros -> ->. Qed.

Lemma lat_ok_float a : lat_ok a -> f_nan (to_float a) = false.
Proof. destruct a; simpl; [by intros ->|done]. Qed.

Lemma num_le_trans a b c : lat_ok a -> lat_ok b -> lat_ok c -> num_le a b -> num_le b c -> num_le a c.
Proof.
  unfold num_le. intros Ha Hb Hc. rewrite !num_lt_float by done.
  by apply f_le_trans; apply lat_ok_float.
Qed.

Lemma num_le_refl a : num_le a a.
Proof. unfold num_le. destruct a; simpl; [apply Z.ltb_irrefl|apply f_lt_irrefl]. Qed.

Lemma num_lt_le a b : lat_ok a -> lat_ok b -> num_lt a b = true -> num_le a b.
Proof.
  unfold num_le. intros Ha Hb. rewrite !num_lt_float by done.
  destruct (f_le_total (to_float a) (to_float b)); [by apply lat_ok_float..| |done]. congruence.
Qed.

Lemma insert_sorted_perm x l : insert_sorted x l ≡ₚ x :: l.
Proof.
  induction l as [|y l IH]; simpl; [done|]. case_match; [|done]. rewrite IH. constructor.
Qed.

Lemma py_sort_perm l : py_sort l ≡ₚ l.
Proof. induction l as [|x l IH]; simpl; [done|]. by rewrite insert_sorted_perm, IH. Qed.

Lemma zlen_py_sort l : zlen (py_sort l) = zlen l.
Proof. unfold zlen. by rewrite py_sort_perm. Qed.

Lemma insert_sorted_sorted x l : lat_ok x -> Forall lat_ok l ->
  StronglySorted num_le l -> StronglySorted num_le (insert_sorted x l).
Proof.
  intros Hx Hl Hs. induction Hs as [|y l Hs IH Hy]; simpl; [by repeat constructor|].
  apply Forall_cons in Hl as [Hyok Hl]. destruct (num_lt y x) eqn:E.
  - constructor; [by apply IH|]. rewrite insert_sorted_perm. constructor; [by apply num_lt_le|done].
  - constructor; [by constructor|]. constructor; [done|].
    rewrite Forall_forall in *. intros z Hz. apply num_le_trans with y; auto.
Qed.

Lemma py_sort_sorted l : Forall lat_ok l -> StronglySorted num_le (py_sort l).
Proof.
  induction 1 as [|x l Hx Hl IH]; simpl; [constructor|].
  apply insert_sorted_sorted; [done| |done]. by rewrite py_sort_perm.
Qed.

Lemma index_in {A} (l : list A) i : 0 <= i < zlen l -> exists x, index l i = inr x /\ l !! Z.to_nat i = Some x.
Proof.
  intros Hi. unfold index. rewrite (proj2 (Z.ltb_ge i 0)), (proj2 (Z.ltb_ge i 0)) by lia.
  destruct (lookup_lt_is_Some_2 l (Z.to_nat i)) as [x Hx]; [unfold zlen in *; lia|].
  rewrite Hx. by exists x.
Qed.

Lemma index_last {A} (l : list A) x : index (l ++ [x]) (-1) = inr x.
Proof.
  unfold index. cbn -[zlen]. rewrite zlen_app. change (zlen [x]) with 1.
  replace (zlen l + 1 + -1) with (zlen l) by lia.
  pose proof (zlen_nonneg l). rewrite (proj2 (Z.ltb_ge _ 0)) by lia.
  unfold zlen. rewrite Nat2Z.id, lookup_app_r, Nat.sub_diag by lia. done.
Qed.

Lemma sorted_lookup l i j x y : StronglySorted num_le l -> (i <= j)%nat ->
  l !! i = Some x -> l !! j = Some y -> num_le x y.
Proof.
  intros Hs. revert i j. induction Hs as [|z l Hs IH Hz]; intros i j Hij Hi Hj; [done|].
  destruct i as [|i], j as [|j]; simpl in *; simplify_eq; try lia.
  - apply num_le_refl.
  - rewrite Forall_forall in Hz. apply Hz. by eapply list_elem_of_lookup_2.
  - apply (IH i j); [lia|done|done].
Qed.

(** A percentile of a non-empty list is one of its elements. *)
Lemma percentile_index l c : 0 < zlen l < 2 ^ 53 -> c = f_0_95 \/ c = f_0_99 ->
  exists i x, int_of_float (f_mul (f_of_Z (zlen l)) c) = Some i /\
    percentile l c = inr x /\ l !! Z.to_nat i = Some x /\ 0 <= i < zlen l.
Proof.
  intros Hn Hc. destruct (percentile_index_bound (zlen l) c Hn Hc) as (i & Hi & Hb).
  destruct (index_in l i Hb) as (x & Hx & Hl). exists i, x. split_and!; [done| |done|lia|lia].
  unfold percentile, int_mul. by rewrite Hi.
Qed.

(** The three percentiles of a benchmark exist and are ordered. *)
Lemma percentiles_ordered l : 0 < zlen l < 2 ^ 53 -> StronglySorted num_le l ->
  exists p50 p95 p99, index l (zlen l / 2) = inr p50 /\ percentile l f_0_95 = inr p95 /\
    percentile l f_0_99 = inr p99 /\ num_le p50 p95 /\ num_le p95 p99 /\
    p50 ∈ l /\ p95 ∈ l /\ p99 ∈ l.
Proof.
  intros Hn Hs.
  destruct (index_in l (zlen l / 2)) as (p50 & H50 & L50); [zlia|].
  destruct (percentile_index l f_0_95 Hn) as (i & p95 & Hi & H95 & L95 & Bi); [by left|].
  destruct (percentile_index l f_0_99 Hn) as (j & p99 & Hj & H99 & L99 & Bj); [by right|].
  pose proof (median_index_order (zlen l) i Hn Hi). pose proof (percentile_index_order (zlen l) i j Hn Hi Hj).
  exists p50, p95, p99. split_and!; [done|done|done| | |by eapply list_elem_of_lookup_2..].
  - apply (sorted_lookup l (Z.to_nat (zlen l / 2)) (Z.to_nat i)); [done|zlia|done|done].
  - apply (sorted_lookup l (Z.to_nat i) (Z.to_nat j)); [done|lia|done|done].
Qed.

(** *** Dicts *)

Lemma dict_get_set_eq k v d : dict_get k (dict_set k v d) = Some v.
Proof. induction d as [|[k' v'] d IH]; simpl; repeat (case_decide; simpl); congruence. Qed.

Lemma dict_get_set_ne k k' v d : k <> k' -> dict_get k (dict_set k' v d) = dict_get k d.
Proof.
  intros Hne. induction d as [|[k0 v0] d IH]; simpl; [by rewrite decide_False|].
  repeat (case_decide; simpl); congruence.
Qed.

Lemma dict_set_set k v v' d : dict_set k v' (dict_set k v d) = dict_set k v' d.
Proof.
  induction d as [|[k0 v0] d IH]; simpl; [by rewrite decide_True|].
  repeat (case_decide; simpl); congruence.
Qed.

(** *** Computations *)

Lemma bind_ret_l {S A C} (a : A) (k : A -> M S C) s : bind (ret a) k s = k a s.
Proof. done. Qed.

Lemma bind_assoc {S A C D} (m : M S A) (k : A -> M S C) (h : C -> M S D) s :
  bind (bind m k) h s = bind m (fun x => bind (k x) h) s.
Proof. unfold bind. by destruct (m s) as [s' [e|a]]. Qed.

Lemma for_each_app {S A C} (l l' : list A) (body : C -> A -> M S C) acc s :
  for_each (l ++ l') acc body s = bind (for_each l acc body) (fun a => for_each l' a body) s.
Proof.
  revert acc s; induction l as [|x l IH]; intros acc s; [done|]. cbn [for_each app].
  rewrite bind_assoc. unfold bind at 1 2. destruct (body acc x s) as [s' [e|a]]; [done|]. apply IH.
Qed.

Lemma for_each_ext {S A C} (l : list A) (f g : C -> A -> M S C) acc s :
  (forall acc x s, f acc x s = g acc x s) -> for_each l acc f s = for_each l acc g s.
Proof.
  intros Hfg. revert acc s; induction l as [|x l IH]; intros acc s; [done|]. cbn [for_each].
  unfold bind. rewrite Hfg. destruct (g acc x s) as [s' [e|a]]; [done|]. apply IH.
Qed.

(** A loop whose body never raises is a fold over world and accumulator, and
    keeps what its body keeps. *)
Lemma for_each_invariant {S A C} (Inv : nat -> S -> C -> Prop) (body : C -> A -> M S C) l :
  forall i acc s, Inv i s acc ->
  (forall j x acc s, l !! j = Some x -> Inv (i + j)%nat s acc ->
     exists s' acc', body acc x s = (s', inr acc') /\ Inv (Datatypes.S (i + j)) s' acc') ->
  exists s' acc', for_each l acc body s = (s', inr acc') /\ Inv (i + length l)%nat s' acc'.
Proof.
  induction l as [|x l IH]; intros i acc s Hinv Hbody.
  - exists s, acc. by rewrite Nat.add_0_r.
  - destruct (Hbody 0%nat x acc s) as (s1 & acc1 & Hb & Hinv1); [done|by rewrite Nat.add_0_r|].
    rewrite Nat.add_0_r in Hinv1.
    destruct (IH (Datatypes.S i) acc1 s1 Hinv1) as (s2 & acc2 & Hf & Hinv2).
    { intros j y acc' s' Hj Hi. replace (Datatypes.S i + j)%nat with (i + Datatypes.S j)%nat in * by lia.
      by apply Hbody. }
    exists s2, acc2. cbn [for_each length]. unfold bind at 1. rewrite Hb, Hf. split; [done|].
    by replace (i + Datatypes.S (length l))%nat with (Datatypes.S i + length l)%nat by lia.
Qed.

Lemma bind_emit {A} t (k : unit -> M text A) out : bind (emit t) k out = k tt (out ++ t).
Proof. done. Qed.

Lemma for_each_ok {S A} (l : list A) (body : A -> M S unit) (ok : A -> Prop) :
  (forall x s, ok x -> exists s', body x s = (s', inr tt)) -> Forall ok l ->
  forall s, exists s', for_each l tt (fun _ x => body x) s = (s', inr tt).
Proof.
  intros Hb. induction 1 as [|x l Hx Hl IH]; intros s; [by exists s|].
  cbn [for_each]. unfold bind at 1. destruct (Hb x s Hx) as [s1 ->]. apply IH.
Qed.

Lemma length_range n : length (range n) = Z.to_nat n.
Proof. unfold range. by rewrite length_fmap, length_seq. Qed.

Lemma range_lookup n j x : range n !! j = Some x -> x = Z.of_nat j /\ 0 <= x < n.
Proof.
  unfold range. rewrite list_lookup_fmap. intros (y & Hy & ->)%fmap_Some.
  apply lookup_seq in Hy as [-> Hy]. lia.
Qed.

(** *** Triples: what holds after a computation, and after its exception *)

Definition triple {S A} (P : S -> Prop) (m : M S A) (Q : A -> S -> Prop) (E : exn -> S -> Prop) : Prop :=
  forall s, P s -> match m s with (s', inr a) => Q a s' | (s', inl e) => E e s' end.

Section Triples.
Context {S : Type}.
Implicit Types P : S -> Prop.
Implicit Types E : exn -> S -> Prop.

Lemma triple_ret {A} P (a : A) (Q : A -> S -> Prop) E : (forall s, P s -> Q a s) -> triple P (ret a) Q E.
Proof. intros HQ s. apply HQ. Qed.

Lemma triple_bind {A C} P (m : M S A) (k : A -> M S C) (R : A -> S -> Prop) Q E :
  triple P m R E -> (forall a, triple (R a) (k a) Q E) -> triple P (bind m k) Q E.
Proof.
  intros Hm Hk s Hs. unfold bind. specialize (Hm s Hs). destruct (m s) as [s' [e|a]]; [done|]. by apply Hk.
Qed.

Lemma triple_lift {A} P (r : exn + A) Q E :
  (forall s, P s -> match r with inr a => Q a s | inl e => E e s end) -> triple P (lift_exn r) Q E.
Proof. intros HQ s Hs. specialize (HQ s Hs). unfold lift_exn. by destruct r. Qed.

Lemma triple_conseq {A} P P' (m : M S A) (Q Q' : A -> S -> Prop) (E E' : exn -> S -> Prop) :
  triple P' m Q' E' -> (forall s, P s -> P' s) -> (forall a s, Q' a s -> Q a s) ->
  (forall e s, E' e s -> E e s) -> triple P m Q E.
Proof.
  intros Hm HP HQ HE s Hs. specialize (Hm s (HP s Hs)). destruct (m s) as [s' [e|a]]; auto.
Qed.

Lemma triple_for_each {A C} (I : C -> S -> Prop) (l : list A) (body : C -> A -> M S C) E :
  (forall c x, triple (I c) (body c x) I E) -> forall c, triple (I c) (for_each l c body) I E.
Proof.
  intros Hb. induction l as [|x l IH]; intros c; [by apply triple_ret|].
  cbn [for_each]. by eapply triple_bind; [apply Hb|].
Qed.

Lemma triple_try_except {A} P (m : M S A) h (Q : A -> S -> Prop) E E' :
  triple P m Q E' ->
  (forall e, is_Exception e = true -> triple (E' e) (h e) Q E) ->
  (forall e s, is_Exception e = false -> E' e s -> E e s) ->
  triple P (try_except m h) Q E.
Proof.
  intros Hm Hh He s Hs. unfold try_except. specialize (Hm s Hs). destruct (m s) as [s' [e|a]]; [|done].
  destruct (is_Exception e) eqn:Ee; [by apply Hh|by apply He].
Qed.
End Triples.

#[export] Hint Rewrite zlen_py_sort length_range @length_fmap : sndv_rw.
