(* ===== verification/Json.v ===== *)
(** The JSON texts that travel between the scripts and the server: Python's
    [json.dumps] of the payloads the scripts build, and the grammar that both
    [json.loads] and Go's encoding/json accept. Strings are ASCII where it
    matters (a text of the theorems); a byte above 127 is read as it is, and a
    [\u] escape of a surrogate as the three bytes of its number (GoJson does to
    them what encoding/json does; Python's joining of two of them is left out). *)
From S2P Require Import Prelude Text PyFloat Python.

Open Scope Z_scope.
Set Warnings "-register-all".

(** ** Definitions *)

Inductive json :=
| JNull
| JBool (b : bool)
| JNum (n : pynum)
| JStr (s : string)
| JArr (l : list json)
| JObj (d : list (string * json)).

(** What the scripts send: strings and integers in lists and dicts. *)
Inductive payload :=
| PStr (s : string)
| PNum (z : Z)
| PList (l : list payload)
| PDict (d : list (string * payload)).

Fixpoint payload_json (p : payload) : json :=
  match p with
  | PStr s => JStr s
  | PNum z => JNum (PInt z)
  | PList l => JArr (map payload_json l)
  | PDict d => JObj (map (fun '(k, v) => (k, payload_json v)) d)
  end.

(** *** Printing *)

Definition chr (n : N) : ascii := ascii_of_N n.
Definition quote : ascii := chr 34.
Definition backslash : ascii := chr 92.

Definition hex_char (n : N) : ascii := if (n <? 10)%N then chr (48 + n) else chr (87 + n).

(** One character of [py_encode_basestring_ascii]. *)
Definition escape_char (c : ascii) : string :=
  let n := N_of_ascii c in
  if (n =? 34)%N then String backslash (String quote "")
  else if (n =? 92)%N then String backslash (String backslash "")
  else if (n =? 10)%N then String backslash "n"
  else if (n =? 13)%N then String backslash "r"
  else if (n =? 9)%N then String backslash "t"
  else if (n =? 12)%N then String backslash "f"
  else if (n =? 8)%N then String backslash "b"
  else if ((n <? 32) || (126 <? n))%N then
    String backslash (String "u" (String "0" (String "0"
      (String (hex_char (n / 16)) (String (hex_char (n mod 16)) "")))))
  else String c "".

Fixpoint escape (s : string) : string :=
  match s with EmptyString => ""%string | String c s' => (escape_char c ++ escape s')%string end.

Definition dump_string (s : string) : string :=
  (String quote (escape s) ++ String quote "")%string.

Fixpoint concat_sep (sep : string) (l : list string) : string :=
  match l with
  | [] => ""%string
  | [x] => x
  | x :: l' => (x ++ sep ++ concat_sep sep l')%string
  end.

(** [json.dumps(p)], with the separators [", "] and [": "]. *)
Fixpoint dumps (p : payload) : string :=
  match p with
  | PStr s => dump_string s
  | PNum z => print_int z
  | PList l => (String "[" (concat_sep ", " (map dumps l)) ++ "]")%string
  | PDict d =>
    (String "{" (concat_sep ", " (map (fun '(k, v) => dump_string k ++ ": " ++ dumps v) d)) ++ "}")%string
  end.

(** *** Parsing *)

Definition is_space (c : ascii) : bool :=
  match N_of_ascii c with 32%N | 9%N | 10%N | 13%N => true | _ => false end.

Fixpoint skip_ws (s : string) : string :=
  match s with
  | String c s' => if is_space c then skip_ws s' else s
  | EmptyString => s
  end.

Definition hex_value (c : ascii) : option N :=
  let n := N_of_ascii c in
  if ((48 <=? n) && (n <=? 57))%N then Some (n - 48)%N
  else if ((97 <=? n) && (n <=? 102))%N then Some (n - 87)%N
  else if ((65 <=? n) && (n <=? 70))%N then Some (n - 55)%N
  else None.

Definition hex4 (a b c d : ascii) : option N :=
  match hex_value a, hex_value b, hex_value c, hex_value d with
  | Some a, Some b, Some c, Some d => Some (a * 4096 + b * 256 + c * 16 + d)%N
  | _, _, _, _ => None
  end.

(** The UTF-8 bytes of a code point of one [\u] escape. *)
Definition utf8 (n : N) : string :=
  if (n <? 128)%N then String (chr n) ""
  else if (n <? 2048)%N then String (chr (192 + n / 64)) (String (chr (128 + n mod 64)) "")
  else String (chr (224 + n / 4096)) (String (chr (128 + n / 64 mod 64)) (String (chr (128 + n mod 64)) "")).

(** After the opening quote: the string and what follows the closing quote;
    a raw control character is an error. *)
Fixpoint parse_chars (s : string) : option (string * string) :=
  match s with
  | EmptyString => None
  | String c s1 =>
    if decide (c = quote) then Some (""%string, s1)
    else if decide (c = backslash) then
      match s1 with
      | EmptyString => None
      | String e s2 =>
        let one (x : ascii) := '(r, t) ← parse_chars s2; Some (String x r, t) in
        match N_of_ascii e with
        | 34%N => one quote
        | 92%N => one backslash
        | 47%N => one "/"%char
        | 110%N => one (chr 10)
        | 114%N => one (chr 13)
        | 116%N => one (chr 9)
        | 102%N => one (chr 12)
        | 98%N => one (chr 8)
        | 117%N =>
          match s2 with
          | String h1 (String h2 (String h3 (String h4 s3))) =>
            match hex4 h1 h2 h3 h4 with
            | Some n => '(r, t) ← parse_chars s3; Some ((utf8 n ++ r)%string, t)
            | None => None
            end
          | _ => None
          end
        | _ => None
        end
      end
    else if (N_of_ascii c <? 32)%N then None
    else '(r, t) ← parse_chars s1; Some (String c r, t)
  end.

(** The digits at the head: their value, their number, and the rest. *)
Fixpoint take_digits (s : string) (acc : Z) (n : nat) : Z * nat * string :=
  match s with
  | String c s' =>
    match digit_value c with
    | Some d => take_digits s' (acc * 10 + d) (S n)
    | None => (acc, n, s)
    end
  | EmptyString => (acc, n, s)
  end.

(** [mantissa * 10^exponent] as a number. *)
Definition decimal (m : Z) (e : Z) : pynum :=
  if 0 <=? e then PFloat (f_ratio (m * 10 ^ e) 1) else PFloat (f_ratio m (Z.to_pos (10 ^ (- e)))).

Definition parse_exponent (s : string) : option (option Z * string) :=
  match s with
  | String c s1 =>
    if decide (c = "e"%char \/ c = "E"%char) then
      let '(sgn, s2) := match s1 with
                        | String "-" s2 => (-1, s2) | String "+" s2 => (1, s2) | _ => (1, s1)
                        end in
      let '(v, n, s3) := take_digits s2 0 0 in
      if decide (n = 0%nat) then None else Some (Some (sgn * v), s3)
    else Some (None, s)
  | EmptyString => Some (None, s)
  end.

Definition leading_zero (s : string) (n : nat) : bool :=
  match s with String "0" _ => (1 <? n)%nat | _ => false end.

Definition parse_number (s : string) : option (pynum * string) :=
  let '(sgn, s1) := match s with String "-" s1 => (-1, s1) | _ => (1, s) end in
  let '(v, n, s2) := take_digits s1 0 0 in
  if decide (n = 0%nat) then None
  else if leading_zero s1 n then None
  else
    let frac := match s2 with
                | String "." s3 =>
                  let '(v', n', s4) := take_digits s3 v 0 in
                  if decide (n' = 0%nat) then None else Some (Some (v', n'), s4)
                | _ => Some (None, s2)
                end in
    '(fr, s5) ← frac;
    '(ex, s6) ← parse_exponent s5;
    Some (match fr, ex with
          | None, None => PInt (sgn * v)
          | _, _ =>
            let '(m, k) := match fr with Some (v', n') => (v', n') | None => (v, 0%nat) end in
            decimal (sgn * m) (default 0 ex - Z.of_nat k)
          end, s6).

Fixpoint strip_prefix (p s : string) : option string :=
  match p, s with
  | EmptyString, _ => Some s
  | String a p', String b s' => if decide (a = b) then strip_prefix p' s' else None
  | _, EmptyString => None
  end.

(** The grammar; [fuel] bounds the nesting of calls. *)
Fixpoint parse_value (fuel : nat) (s : string) : option (json * string) :=
  match fuel with
  | O => None
  | S fuel =>
    match skip_ws s with
    | String c s1 =>
      match N_of_ascii c with
      | 34%N => '(r, t) ← parse_chars s1; Some (JStr r, t)
      | 91%N =>
        match skip_ws s1 with
        | String "]" t => Some (JArr [], t)
        | _ => '(l, t) ← parse_elements fuel s1; Some (JArr l, t)
        end
      | 123%N =>
        match skip_ws s1 with
        | String "}" t => Some (JObj [], t)
        | _ => '(l, t) ← parse_members fuel s1; Some (JObj l, t)
        end
      | 110%N => t ← strip_prefix "null" (String c s1); Some (JNull, t)
      | 116%N => t ← strip_prefix "true" (String c s1); Some (JBool true, t)
      | 102%N => t ← strip_prefix "false" (String c s1); Some (JBool false, t)
      | _ => '(n, t) ← parse_number (String c s1); Some (JNum n, t)
      end
    | EmptyString => None
    end
  end
with parse_elements (fuel : nat) (s : string) : option (list json * string) :=
  match fuel with
  | O => None
  | S fuel =>
    '(v, t) ← parse_value fuel s;
    match skip_ws t with
    | String "," t' => '(l, t'') ← parse_elements fuel t'; Some (v :: l, t'')
    | String "]" t' => Some ([v], t')
    | _ => None
    end
  end
with parse_members (fuel : nat) (s : string) : option (list (string * json) * string) :=
  match fuel with
  | O => None
  | S fuel =>
    match skip_ws s with
    | String c s1 =>
      if decide (c = quote) then
        '(k, t) ← parse_chars s1;
        match skip_ws t with
        | String ":" t' =>
          '(v, t'') ← parse_value fuel t';
          match skip_ws t'' with
          | String "," t3 => '(l, t4) ← parse_members fuel t3; Some ((k, v) :: l, t4)
          | String "}" t3 => Some ([(k, v)], t3)
          | _ => None
          end
        | _ => None
        end
      else None
    | EmptyString => None
    end
  end.

(** A whole document; every call of the grammar is paid by a character. *)
Definition parse (s : string) : option json :=
  '(v, t) ← parse_value (2 * String.length s + 2) s;
  if decide (skip_ws t = ""%string) then Some v else None.

(** [json.loads]: the last member of a name wins. *)
Fixpoint json_py (j : json) : pyval :=
  match j with
  | JNull => VNone
  | JBool b => VBool b
  | JNum n => VNum n
  | JStr s => VStr s
  | JArr l => VList (map json_py l)
  | JObj d => VDict (fold_left (fun acc '(k, v) => dict_set k v acc) (map (fun '(k, v) => (k, json_py v)) d) [])
  end.

Definition loads (s : string) : exn + pyval :=
  match parse s with Some j => inr (json_py j) | None => inl JSONDecodeError end.

(** ** Lemmas *)

Definition ascii_char (c : ascii) : Prop := (N_of_ascii c < 128)%N.
Definition ascii_string (s : string) : Prop := Forall ascii_char (list_ascii_of_string s).

Definition ascii_check (s : string) : bool :=
  forallb (fun c => (N_of_ascii c <? 128)%N) (list_ascii_of_string s).

Lemma ascii_check_ok s : ascii_check s = true -> ascii_string s.
Proof.
  unfold ascii_check, ascii_string. rewrite forallb_forall, Forall_forall.
  intros H c Hc. apply N.ltb_lt, H. by apply list_elem_of_In.
Qed.

Section PayloadInd.
Variable P : payload -> Prop.
Hypothesis HStr : forall s, P (PStr s).
Hypothesis HNum : forall z, P (PNum z).
Hypothesis HList : forall l, Forall P l -> P (PList l).
Hypothesis HDict : forall d, Forall (fun kv => P kv.2) d -> P (PDict d).

Fixpoint payload_ind' (p : payload) : P p :=
  match p with
  | PStr s => HStr s
  | PNum z => HNum z
  | PList l => HList l ((fix go l : Forall P l :=
      match l with [] => Forall_nil_2 _ | x :: l' => Forall_cons_2 _ _ _ (payload_ind' x) (go l') end) l)
  | PDict d => HDict d ((fix go d : Forall (fun kv => P kv.2) d :=
      match d with [] => Forall_nil_2 _ | kv :: d' => Forall_cons_2 _ _ _ (payload_ind' kv.2) (go d') end) d)
  end.
End PayloadInd.

(** Strings are ASCII, integers 64-bit. *)
Fixpoint payload_ok (p : payload) : Prop :=
  match p with
  | PStr s => ascii_string s
  | PNum z => is_i64 z
  | PList l => foldr (fun x P => payload_ok x /\ P) True l
  | PDict d => foldr (fun '(k, x) P => (ascii_string k /\ payload_ok x) /\ P) True d
  end.

(** Calls of the grammar a payload's text takes. *)
Fixpoint psize (p : payload) : nat :=
  match p with
  | PStr _ | PNum _ => 1
  | PList l => 1 + foldr (fun x n => 1 + psize x + n) 0 l
  | PDict d => 1 + foldr (fun '(_, x) n => 1 + psize x + n) 0 d
  end%nat.

Lemma string_app_assoc (a b c : string) : ((a ++ b) ++ c)%string = (a ++ (b ++ c))%string.
Proof. induction a as [|x a IH]; [done|]. exact (f_equal (String x) IH). Qed.

Lemma string_app_nil_r (a : string) : (a ++ "")%string = a.
Proof. induction a as [|x a IH]; [done|]. exact (f_equal (String x) IH). Qed.

Lemma strip_prefix_app p s : strip_prefix p (p ++ s)%string = Some s.
Proof.
  induction p as [|c p IH]; [done|]. change (String c p ++ s)%string with (String c (p ++ s)). cbn [strip_prefix].
  by rewrite decide_True.
Qed.

Lemma escape_char_parse c r : ascii_char c ->
  parse_chars (escape_char c ++ r) = ('(x, t) ← parse_chars r; Some (String c x, t)).
Proof.
  unfold ascii_char. destruct c as [[] [] [] [] [] [] [] []]; intros H; try (exfalso; by vm_compute in H); reflexivity.
Qed.

Lemma escape_parse s t : ascii_string s -> parse_chars (escape s ++ String quote t) = Some (s, t).
Proof.
  unfold ascii_string. induction s as [|c s IH]; cbn [escape list_ascii_of_string].
  - intros _. reflexivity.
  - intros [Hc Hs]%Forall_cons. rewrite string_app_assoc, escape_char_parse by done.
    rewrite IH by done. done.
Qed.

Lemma skip_ws_nonspace c s : is_space c = false -> skip_ws (String c s) = String c s.
Proof. intros H. simpl. by rewrite H. Qed.

(** A text after which a number ends. *)
Definition num_end (t : string) : Prop :=
  match t with EmptyString => True | String c _ => c = ","%char \/ c = "]"%char \/ c = "}"%char end.

Lemma take_digits_end t acc n : num_end t -> take_digits t acc n = (acc, n, t).
Proof. destruct t as [|c t]; simpl; [done|]. by intros [->|[-> | ->]]. Qed.

Lemma take_digits_print f : forall n rest, 0 <= n < 10 ^ Z.of_nat f ->
  exists k : nat, (n = 0 -> (k <= 1)%nat) /\ (f <> O -> (1 <= k)%nat) /\ forall acc cnt,
    take_digits (print_digits f n rest) acc cnt = take_digits rest (acc * 10 ^ Z.of_nat k + n) (cnt + k).
Proof.
  induction f as [|f IH]; intros n rest Hn.
  { exists 0%nat. split; [lia|]. split; [lia|]. intros acc cnt. simpl in *. f_equal; lia. }
  cbn [print_digits]. pose proof (Z.mod_pos_bound n 10 ltac:(lia)) as Hm.
  destruct (Z.ltb_spec n 10).
  - exists 1%nat. split; [lia|]. split; [lia|]. intros acc cnt. cbn [take_digits].
    rewrite digit_value_char by lia. f_equal; [|lia]. rewrite Z.mod_small by lia. lia.
  - destruct (IH (n / 10) (String (digit_char (n mod 10)) rest)) as (k & _ & _ & Hp).
    { rewrite Nat2Z.inj_succ, Z.pow_succ_r in Hn by lia. zlia. }
    exists (S k). split; [lia|]. split; [lia|]. intros acc cnt. rewrite Hp. cbn [take_digits].
    rewrite digit_value_char by lia. f_equal; [|lia].
    rewrite Nat2Z.inj_succ, Z.pow_succ_r by lia. zlia.
Qed.

(** A positive number starts with a non-zero digit. *)
Lemma print_digits_first f : forall n rest, 0 < n < 10 ^ Z.of_nat f ->
  exists d s, print_digits f n rest = String (digit_char d) s /\ 1 <= d < 10.
Proof.
  induction f as [|f IH]; intros n rest Hn; [simpl in Hn; lia|].
  cbn [print_digits]. destruct (Z.ltb_spec n 10).
  - rewrite Z.mod_small by lia. exists n, rest. split; [done|lia].
  - apply IH. rewrite Nat2Z.inj_succ, Z.pow_succ_r in Hn by lia. zlia.
Qed.

Lemma print_digits_app f n rest t : (print_digits f n rest ++ t)%string = print_digits f n (rest ++ t).
Proof.
  revert n rest; induction f as [|f IH]; intros n rest; [done|]. cbn [print_digits].
  case_match; [done|]. by rewrite IH.
Qed.

Lemma parse_tail t v sgn : num_end t ->
  ('(fr, s5) ← match t with
    | String "." s3 => let '(v', n', s4) := take_digits s3 v 0 in
                       if decide (n' = 0%nat) then None else Some (Some (v', n'), s4)
    | _ => Some (None, t)
    end;
   '(ex, s6) ← parse_exponent s5;
   Some (match fr, ex with
         | None, None => PInt (sgn * v)
         | _, _ => let '(m, k) := match fr with Some (v', n') => (v', n') | None => (v, 0%nat) end in
                   decimal (sgn * m) (default 0 ex - Z.of_nat k)
         end, s6)) = Some (PInt (sgn * v), t).
Proof. destruct t as [|c t]; [done|]. by intros [->|[-> | ->]]. Qed.

Lemma parse_digits_number n t : 0 <= n < 10 ^ 20 -> num_end t ->
  parse_number (print_digits 20 n t) = Some (PInt n, t) /\
  parse_number (String "-" (print_digits 20 n t)) = Some (PInt (- n), t).
Proof.
  intros Hn Ht. destruct (take_digits_print 20 n t) as (k & Hk0 & Hk1 & Htd); [simpl; lia|].
  specialize (Htd 0 0%nat). rewrite (take_digits_end t) in Htd by done.
  replace (0 * 10 ^ Z.of_nat k + n) with n in Htd by lia.
  assert (exists d s, print_digits 20 n t = String (digit_char d) s /\ 0 <= d < 10 /\ (d = 0 -> n = 0)) as (d & s & Hs & Hd & Hd0).
  { destruct (decide (n = 0)) as [->|Hnz]; [exists 0, t; split; [done|lia]|].
    destruct (print_digits_first 20 n t) as (d & s & Hs & Hd); [simpl; lia|]. exists d, s. split; [done|lia]. }
  assert (leading_zero (print_digits 20 n t) (0 + k) = false) as Hlz.
  { rewrite Hs. assert (d = 0 \/ d = 1 \/ d = 2 \/ d = 3 \/ d = 4 \/ d = 5 \/ d = 6 \/ d = 7 \/ d = 8 \/ d = 9) as Hcase by lia.
    destruct Hcase as [->|Hcase]; [|by repeat (destruct Hcase as [->|Hcase]; [done|]); subst].
    cbn [leading_zero digit_char]. change (ascii_of_N _) with "0"%char. cbn -[Nat.ltb].
    apply Nat.ltb_ge. specialize (Hk0 (Hd0 eq_refl)). lia. }
  assert (1 <= k)%nat by (by apply Hk1).
  split; unfold parse_number.
  - assert (match print_digits 20 n t with String "-" s1 => (-1, s1) | _ => (1, print_digits 20 n t) end
      = (1, print_digits 20 n t)) as ->.
    { rewrite Hs. assert (digit_char d <> "-"%char) as Hne by (by apply digit_char_ne).
      destruct (digit_char d) as [[] [] [] [] [] [] [] []]; done. }
    rewrite Htd, decide_False, Hlz by lia. rewrite parse_tail by done. by rewrite Z.mul_1_l.
  - rewrite Htd, decide_False, Hlz by lia. by rewrite parse_tail.
Qed.

Lemma parse_print_int z t : is_i64 z -> num_end t ->
  parse_number (print_int z ++ t) = Some (PInt z, t).
Proof.
  intros Hz Ht. unfold is_i64 in Hz. unfold print_int. destruct (Z.ltb_spec z 0).
  - change ((String "-" (print_digits 20 (- z) "") ++ t)%string)
      with (String "-" (print_digits 20 (- z) "" ++ t)).
    rewrite print_digits_app. change ("" ++ t)%string with t. destruct (parse_digits_number (- z) t) as [_ ->]; [lia|done|].
    by rewrite Z.opp_involutive.
  - rewrite print_digits_app. change ("" ++ t)%string with t. by destruct (parse_digits_number z t) as [-> _]; [lia| |].
Qed.

(** *** Heads of printed values *)

Lemma print_int_head z : exists c s, print_int z = String c s /\ (c = "-"%char \/ digit_value c <> None).
Proof.
  unfold print_int. destruct (Z.ltb_spec z 0); [by eexists _, _; split; [|left]|].
  destruct (print_digits_head 20 z "") as (c & s & -> & Hc); [lia|done|]. eexists _, _. by split; [|right].
Qed.

Lemma digit_value_facts c : c = "-"%char \/ digit_value c <> None ->
  is_space c = false /\ c <> "]"%char /\
  forall (A : Type) (a b d e f g h : A), match N_of_ascii c with
    | 34%N => a | 91%N => b | 123%N => d | 110%N => e | 116%N => f | 102%N => g | _ => h end = h.
Proof.
  intros [->|Hc]; [done|].
  destruct c as [[] [] [] [] [] [] [] []]; try (exfalso; by apply Hc); by split_and!.
Qed.

Lemma dumps_head p : exists c s, dumps p = String c s /\ is_space c = false /\ c <> "]"%char.
Proof.
  destruct p as [s|z|l|d]; [by eexists _, _| |by eexists _, _..].
  destruct (print_int_head z) as (c & s & Hs & Hc). destruct (digit_value_facts c Hc) as (? & ? & _).
  exists c, s. by split_and!.
Qed.

Lemma parse_value_space fuel s : parse_value fuel (String " " s) = parse_value fuel s.
Proof. by destruct fuel. Qed.
Lemma parse_members_space fuel s : parse_members fuel (String " " s) = parse_members fuel s.
Proof. by destruct fuel. Qed.
Lemma parse_elements_space fuel s : parse_elements fuel (String " " s) = parse_elements fuel s.
Proof. destruct fuel; [done|]. cbn [parse_elements]. by rewrite parse_value_space. Qed.

(** *** The round trip *)

Definition reads_back (p : payload) : Prop := forall fuel t,
  payload_ok p -> (psize p <= fuel)%nat -> num_end t ->
  parse_value fuel (dumps p ++ t) = Some (payload_json p, t).

Lemma elements_read_back l : Forall reads_back l -> forall fuel t, l <> [] ->
  payload_ok (PList l) -> (psize (PList l) <= S fuel)%nat ->
  parse_elements fuel (concat_sep ", " (map dumps l) ++ String "]" t) = Some (map payload_json l, t).
Proof.
  induction 1 as [|p l Hp Hl IH]; intros fuel t Hne Hok Hf; [done|].
  cbn in Hok, Hf. destruct Hok as [Hpok Hlok]. destruct fuel as [|fuel]; [lia|].
  cbn [parse_elements map]. destruct l as [|q l].
  - cbn [concat_sep]. rewrite Hp; [done|done|lia|by right; left].
  - assert (concat_sep ", " (dumps p :: map dumps (q :: l)) =
      (dumps p ++ String "," (String " " (concat_sep ", " (map dumps (q :: l)))))%string) as -> by done.
    rewrite string_app_assoc. rewrite Hp; [|done|lia|by left].
    cbn [mbind option_bind]. change ((String "," (String " " ?x) ++ ?y)%string) with (String "," (String " " (x ++ y))).
    rewrite skip_ws_nonspace by done. cbv iota. rewrite parse_elements_space.
    rewrite IH; [done|done|done|]. cbn in Hf |- *. lia.
Qed.

Definition dump_member (kv : string * payload) : string :=
  (dump_string kv.1 ++ ": " ++ dumps kv.2)%string.

Lemma dumps_dict d : dumps (PDict d) = (String "{" (concat_sep ", " (map dump_member d)) ++ "}")%string.
Proof.
  cbn [dumps]. do 3 f_equal. induction d as [|[k v] d IH]; [done|]. cbn [map]. by rewrite IH.
Qed.

(** One member, before a comma or the closing brace. *)
Lemma member_read_back k p fuel c t : reads_back p -> ascii_string k -> payload_ok p ->
  (psize p <= fuel)%nat -> c = ","%char \/ c = "}"%char ->
  parse_members (S fuel) (dump_member (k, p) ++ String c t) =
    if decide (c = ","%char) then '(l, t4) ← parse_members fuel t; Some ((k, payload_json p) :: l, t4)
    else Some ([(k, payload_json p)], t).
Proof.
  intros Hp Hk Hok Hf Hc. unfold dump_member, dump_string. cbn [fst snd].
  rewrite !string_app_assoc.
  change ((String quote (escape k) ++ ?x)%string) with (String quote (escape k ++ x)).
  cbn [parse_members]. rewrite skip_ws_nonspace by done. rewrite decide_True by done.
  change ((String quote "" ++ ?x)%string) with (String quote x).
  rewrite escape_parse by done. cbn [mbind option_bind].
  change ((": " ++ ?x)%string) with (String ":" (String " " x)).
  rewrite skip_ws_nonspace by done. cbv iota. rewrite parse_value_space.
  rewrite Hp; [|done|done|by destruct Hc as [-> | ->]; [left|right; right]].
  cbn [mbind option_bind]. destruct Hc as [-> | ->]; rewrite skip_ws_nonspace by done; done.
Qed.

Lemma members_read_back d : Forall (fun kv => reads_back kv.2) d -> forall fuel t, d <> [] ->
  payload_ok (PDict d) -> (psize (PDict d) <= S fuel)%nat ->
  parse_members fuel (concat_sep ", " (map dump_member d) ++ String "}" t)
  = Some (map (fun '(k, v) => (k, payload_json v)) d, t).
Proof.
  induction 1 as [|[k p] d Hp Hd IH]; intros fuel t Hne Hok Hf; [done|].
  cbn in Hok, Hf, Hp. destruct Hok as [[Hk Hpok] Hdok]. destruct fuel as [|fuel]; [lia|].
  destruct d as [|kv d].
  - cbn [map concat_sep]. rewrite (member_read_back k p fuel "}" t) by (done || lia || by right). done.
  - assert (concat_sep ", " (map dump_member ((k, p) :: kv :: d)) =
      (dump_member (k, p) ++ String "," (String " " (concat_sep ", " (map dump_member (kv :: d)))))%string) as -> by done.
    rewrite string_app_assoc.
    change ((String "," (String " " ?x) ++ ?y)%string) with (String "," (String " " (x ++ y))).
    rewrite (member_read_back k p fuel ",") by (done || lia || by left).
    rewrite decide_True by done. rewrite parse_members_space.
    rewrite IH; [done|done|done|]. cbn in Hf |- *. lia.
Qed.

Lemma concat_sep_head sep x l : exists s, concat_sep sep (x :: l) = (x ++ s)%string.
Proof. destruct l; [exists ""%string|by eexists]. simpl. by rewrite string_app_nil_r. Qed.

Lemma reads_back_all p : reads_back p.
Proof.
  induction p as [s|z|l IH|d IH] using payload_ind'; intros fuel t Hok Hf Ht;
    (destruct fuel as [|fuel]; [simpl in Hf; lia|]); cbn [payload_json].
  - cbn [dumps]. unfold dump_string. rewrite string_app_assoc.
    change ((String quote (escape s) ++ ?x)%string) with (String quote (escape s ++ x)).
    cbn [parse_value]. rewrite skip_ws_nonspace by done. cbv iota.
    change ((String quote "" ++ t)%string) with (String quote t).
    change (N_of_ascii quote) with 34%N. cbv iota. by rewrite escape_parse.
  - cbn [dumps parse_value]. pose proof (parse_print_int z t Hok Ht) as Hnum.
    destruct (print_int_head z) as (c & s & Hs & Hc). rewrite Hs in *.
    destruct (digit_value_facts c Hc) as (Hsp & _ & Hm).
    change ((String c s ++ t)%string) with (String c (s ++ t)) in *.
    rewrite skip_ws_nonspace by done. rewrite Hm. by rewrite Hnum.
  - change (dumps (PList l)) with (String "[" (concat_sep ", " (map dumps l) ++ "]")).
    change ((String "[" ?x ++ t)%string) with (String "[" (x ++ t)). rewrite string_app_assoc.
    change (("]" ++ t)%string) with (String "]" t).
    cbn [parse_value]. rewrite skip_ws_nonspace by done. change (N_of_ascii "[") with 91%N. cbv iota.
    destruct l as [|p l]; [done|].
    destruct (concat_sep_head ", " (dumps p) (map dumps l)) as [r Hr].
    destruct (dumps_head p) as (c & s & Hs & Hsp & Hne).
    assert (exists s', (concat_sep ", " (map dumps (p :: l)) ++ String "]" t)%string = String c s') as [s' Hs'].
    { cbn [map]. rewrite Hr, Hs. by eexists. }
    pose proof (elements_read_back (p :: l) IH fuel t ltac:(done) Hok Hf) as He.
    rewrite Hs' in *. rewrite skip_ws_nonspace by done.
    destruct c as [[] [] [] [] [] [] [] []]; try done; by rewrite He.
  - rewrite dumps_dict.
    change ((String "{" ?x ++ "}")%string) with (String "{" (x ++ "}")).
    change ((String "{" ?x ++ t)%string) with (String "{" (x ++ t)). rewrite string_app_assoc.
    change (("}" ++ t)%string) with (String "}" t).
    cbn [parse_value]. rewrite skip_ws_nonspace by done. change (N_of_ascii "{") with 123%N. cbv iota.
    destruct d as [|[k p] d]; [done|].
    destruct (concat_sep_head ", " (dump_member (k, p)) (map dump_member d)) as [r Hr].
    assert (exists s', (concat_sep ", " (map dump_member ((k, p) :: d)) ++ String "}" t)%string
      = String quote s') as [s' Hs'] by (cbn [map]; rewrite Hr; by eexists).
    pose proof (members_read_back ((k, p) :: d) IH fuel t ltac:(done) Hok Hf) as He.
    rewrite Hs' in *. rewrite skip_ws_nonspace by done. change quote with (ascii_of_N 34) in *.
    cbn -[parse_members] in He |- *. by rewrite He.
Qed.

Lemma length_concat_sep {A} (f : A -> string) (n : A -> nat) l :
  Forall (fun x => S (n x) <= 2 * String.length (f x))%nat l ->
  (foldr (fun x k => 1 + n x + k) 0 l <= 2 * String.length (concat_sep ", " (map f l)))%nat.
Proof.
  induction 1 as [|x l Hx Hl IH]; [done|]. cbn [foldr map]. destruct l as [|y l]; [cbn in *; lia|].
  assert (concat_sep ", " (f x :: map f (y :: l)) = (f x ++ ", " ++ concat_sep ", " (map f (y :: l)))%string) as -> by done.
  rewrite !length_string_app. lia.
Qed.

Lemma psize_length p : (S (psize p) <= 2 * String.length (dumps p))%nat.
Proof.
  induction p as [s|z|l IH|d IH] using payload_ind'.
  - cbn [dumps psize]. unfold dump_string. rewrite length_string_app. cbn. lia.
  - cbn [dumps psize]. destruct (print_int_head z) as (c & s & -> & _). cbn. lia.
  - cbn [dumps psize]. rewrite length_string_app. cbn [String.length].
    pose proof (length_concat_sep dumps psize l IH). lia.
  - rewrite dumps_dict, length_string_app. cbn [String.length psize].
    pose proof (length_concat_sep dump_member (fun kv => psize kv.2) d) as Hlen.
    assert (foldr (fun kv k => 1 + psize kv.2 + k) 0 d = foldr (fun '(_, x) n => 1 + psize x + n) 0 d)%nat as Hfold.
    { clear. induction d as [|[k v] d IH]; [done|]. cbn in *. by rewrite IH. }
    cbn beta in Hlen. rewrite Hfold in Hlen.
    specialize (Hlen ltac:(eapply Forall_impl; [exact IH|]; intros [k v] Hv; unfold dump_member;
      rewrite !length_string_app; cbn in *; lia)). lia.
Qed.

(** What a script sends is what the server's JSON decoder reads. *)
Lemma parse_dumps p : payload_ok p -> parse (dumps p) = Some (payload_json p).
Proof.
  intros Hok. unfold parse.
  pose proof (reads_back_all p (2 * String.length (dumps p) + 2)%nat ""%string Hok) as H.
  rewrite string_app_nil_r in H. rewrite H; [done| |done].
  pose proof (psize_length p). lia.
Qed.

(** Keys that need no quoting, in JSON or in a URL. *)
Definition plain_char (c : ascii) : bool :=
  let n := N_of_ascii c in
  ((48 <=? n) && (n <=? 57) || (65 <=? n) && (n <=? 90) || (97 <=? n) && (n <=? 122)
   || (n =? 95) || (n =? 45))%N.
Definition plain (s : string) : Prop := Forall (fun c => plain_char c = true) (list_ascii_of_string s).

Lemma plain_ascii s : plain s -> ascii_string s.
Proof.
  intros Hs. eapply Forall_impl; [exact Hs|]. intros c. unfold plain_char, ascii_char.
  rewrite !orb_true_iff, !andb_true_iff, !N.leb_le, !N.eqb_eq. lia.
Qed.

Lemma plain_app s t : plain s -> plain t -> plain (s ++ t).
Proof.
  unfold plain. induction s as [|c s IH]; intros Hs Ht; [done|]. cbn in *.
  apply Forall_cons in Hs as [Hc Hs]. constructor; auto.
Qed.

Lemma print_int_plain z : plain (print_int z).
Proof.
  apply Forall_forall. intros c Hin. destruct (plain_char c) eqn:E; [done|exfalso].
  assert (digit_value c = None) as Hd.
  { revert E. unfold plain_char, digit_value. destruct c as [[] [] [] [] [] [] [] []]; done. }
  assert (c <> "-"%char) as Hm by (by intros ->).
  pose proof (print_int_no_char z c Hd Hm) as Hno. unfold no_char in Hno. rewrite Forall_forall in Hno. by apply (Hno c).
Qed.

Lemma ascii_app s t : ascii_string s -> ascii_string t -> ascii_string (s ++ t).
Proof.
  unfold ascii_string. induction s as [|c s IH]; [done|]. intros [Hc Hs]%Forall_cons Ht. constructor; [done|by apply IH].
Qed.

Lemma escape_ascii s : ascii_string (escape s).
Proof.
  induction s as [|c s IH]; [by constructor|]. cbn [escape]. apply ascii_app; [|done].
  apply ascii_check_ok. destruct c as [[] [] [] [] [] [] [] []]; reflexivity.
Qed.

Lemma dump_string_ascii s : ascii_string (dump_string s).
Proof. apply ascii_app; [constructor; [done|apply escape_ascii]|by apply ascii_check_ok]. Qed.

Lemma concat_sep_ascii {A} (f : A -> string) l : Forall (fun x => ascii_string (f x)) l ->
  ascii_string (concat_sep ", " (map f l)).
Proof.
  induction 1 as [|x l Hx Hl IH]; [by constructor|]. cbn [map]. destruct l as [|y l]; [done|].
  change (concat_sep ", " (f x :: map f (y :: l))) with (f x ++ ", " ++ concat_sep ", " (map f (y :: l)))%string.
  apply ascii_app; [done|]. apply ascii_app; [by apply ascii_check_ok|done].
Qed.

(** [json.dumps] escapes everything else. *)
Lemma dumps_ascii p : ascii_string (dumps p).
Proof.
  induction p as [s|z|l IH|d IH] using payload_ind'.
  - apply dump_string_ascii.
  - apply plain_ascii, print_int_plain.
  - cbn [dumps]. apply ascii_app; [constructor; [done|by apply concat_sep_ascii]|by apply ascii_check_ok].
  - rewrite dumps_dict. apply ascii_app; [|by apply ascii_check_ok]. constructor; [done|].
    apply concat_sep_ascii. eapply Forall_impl; [exact IH|]. intros [k v] Hv. unfold dump_member.
    apply ascii_app; [apply dump_string_ascii|]. apply ascii_app; [by apply ascii_check_ok|exact Hv].
Qed.
