(* ===== verification/GoJson.v ===== *)
(** What the server uses of encoding/json: a text is parsed by the grammar of
    Json, a value nested more than 10,000 deep is an error, then the members are
    stored into the fields of a struct. Bytes that are not UTF-8 and surrogates
    without their other half become U+FFFD; a member's name matches a field's up
    to the simple folding of Unicode. *)
From S2P Require Import Prelude Text PyFloat Python Json.

Open Scope Z_scope.

(** ** Definitions *)

(** *** Strings: [utf8.DecodeRune] and [utf16.DecodeRune], as [unquoteBytes] uses
    them *)

Definition within (lo hi : N) (c : ascii) : bool := ((lo <=? N_of_ascii c) && (N_of_ascii c <=? hi))%N.

(** U+FFFD. *)
Definition replacement (s : string) : string := String (chr 239) (String (chr 191) (String (chr 189) s)).

(** The bytes to come after the first two of a rune, if these can begin one:
    no overlong form, no surrogate, nothing above U+10FFFF. *)
Definition further (a b : ascii) : option nat :=
  if within 194 223 a && within 128 191 b then Some 0%nat
  else if within 224 224 a && within 160 191 b || within 237 237 a && within 128 159 b
       || (within 225 236 a || within 238 239 a) && within 128 191 b then Some 1%nat
  else if within 240 240 a && within 144 191 b || within 244 244 a && within 128 143 b
       || within 241 243 a && within 128 191 b then Some 2%nat
  else None.

(** A byte that begins no rune is replaced. *)
Fixpoint to_valid (s : string) : string :=
  match s with
  | EmptyString => ""%string
  | String a s1 =>
    if within 0 127 a then String a (to_valid s1)
    else match s1 with
         | String b s2 =>
           match further a b with
           | Some O => String a (String b (to_valid s2))
           | Some (S O) =>
             match s2 with
             | String c s3 => if within 128 191 c then String a (String b (String c (to_valid s3)))
                              else replacement (to_valid s1)
             | EmptyString => replacement (to_valid s1)
             end
           | Some _ =>
             match s2 with
             | String c (String d s4) =>
               if within 128 191 c && within 128 191 d
               then String a (String b (String c (String d (to_valid s4))))
               else replacement (to_valid s1)
             | _ => replacement (to_valid s1)
             end
           | None => replacement (to_valid s1)
           end
         | EmptyString => replacement ""
         end
  end.

(** The UTF-8 bytes of a rune above U+FFFF, from its surrogates' last two
    bytes. *)
Definition joined (b c e f : ascii) (s : string) : string :=
  let low x := (N_of_ascii x mod 64)%N in
  let n := (65536 + (low b mod 16 * 64 + low c) * 1024 + (low e mod 16 * 64 + low f))%N in
  String (chr (240 + n / 262144)) (String (chr (128 + n / 4096 mod 64))
    (String (chr (128 + n / 64 mod 64)) (String (chr (128 + n mod 64)) s))).

(** What the escapes [\uD800] to [\uDFFF] stand for, two by two; in a text that
    is valid nothing else begins with these bytes. *)
Fixpoint join_surrogates (s : string) : string :=
  match s with
  | String a s1 =>
    match s1 with
    | String b (String c s3) =>
      if within 237 237 a && within 160 191 b then
        match s3 with
        | String d (String e (String f s6)) =>
          if within 160 175 b && within 237 237 d && within 176 191 e then joined b c e f (join_surrogates s6)
          else replacement (join_surrogates s3)
        | _ => replacement (join_surrogates s3)
        end
      else String a (join_surrogates s1)
    | _ => s
    end
  | EmptyString => s
  end.

(** *** Fields: a member's name and a field's match if [foldName] makes the same
    of them; null leaves a field as it is; any other mismatch is an error of the
    whole call. *)

(** [foldName] on the runes that fold to ASCII: the letters, and two above them,
    U+017F (the long s) and U+212A (the Kelvin sign). No other rune's orbit under
    [unicode.SimpleFold] has an ASCII member, and the names of the fields are
    ASCII in lower case, so the others may stay as they are. *)
Definition lower (c : ascii) : ascii :=
  let n := N_of_ascii c in if ((65 <=? n) && (n <=? 90))%N then ascii_of_N (n + 32) else c.
Fixpoint fold_name (s : string) : string :=
  match s with
  | EmptyString => ""%string
  | String a s1 =>
    match s1 with
    | String b s2 =>
      if within 197 197 a && within 191 191 b then String "s" (fold_name s2)
      else match s2 with
           | String c s3 =>
             if within 226 226 a && within 132 132 b && within 170 170 c then String "k" (fold_name s3)
             else String (lower a) (fold_name s1)
           | EmptyString => String (lower a) (fold_name s1)
           end
    | EmptyString => String (lower a) ""
    end
  end.

Definition field_is (name k : string) : bool := bool_decide (fold_name k = name).

Definition set_string (j : json) (old : string) : option string :=
  match j with JStr s => Some (join_surrogates s) | JNull => Some old | _ => None end.
Definition set_int (j : json) (old : Z) : option Z :=
  match j with
  | JNum (PInt z) => if decide (is_i64 z) then Some z else None
  | JNull => Some old
  | _ => None
  end.
Definition set_bool (j : json) (old : bool) : option bool :=
  match j with JBool b => Some b | JNull => Some old | _ => None end.
(** [strconv.ParseFloat] refuses what rounds to an infinity. (The sign of a zero
    is not kept.) *)
Definition set_float (j : json) (old : float) : option float :=
  match j with
  | JNum n => if f_finite (to_float n) then Some (to_float n) else None
  | JNull => Some old
  | _ => None
  end.

Fixpoint fold_option {A C} (f : A -> C -> option A) (l : list C) (a : A) : option A :=
  match l with
  | [] => Some a
  | x :: l' => a ← f a x; fold_option f l' a
  end.

(** What the members [d] leave in the field [name]. The fields of a struct do
    not depend on each other, so each can be read off the members on its own. *)
Definition field {A} (name : string) (set : json -> A -> option A) (d : list (string * json)) (old : A)
    : option A :=
  fold_option (fun old '(k, j) => if field_is name k then set j old else Some old) d old.

(** *** Texts *)

(** The objects and arrays around the innermost value: the length that the
    scanner's [parseState] reaches, at most [maxNestingDepth]. *)
Fixpoint json_depth (j : json) : Z :=
  match j with
  | JArr l => 1 + foldr Z.max 0 (map json_depth l)
  | JObj d => 1 + foldr Z.max 0 (map (fun '(_, x) => json_depth x) d)
  | _ => 0
  end.

Definition maxNestingDepth : Z := 10000.
Definition scanned (j : json) : option json := if json_depth j <=? maxNestingDepth then Some j else None.

(** [json.Unmarshal]: the whole text is one value. *)
Definition Unmarshal {A} (decode : json -> option A) (body : string) : option A :=
  j ← parse (to_valid body); scanned j ≫= decode.

(** [json.NewDecoder(r).Decode]: the first value of the input. What follows it
    is not read, and need not be apart from it: the scanner complains about a
    byte behind a literal only when it is asked for the next value. (A zero
    before a digit is such a value, and no value here; neither is an object.) *)
Definition Decode {A} (decode : json -> option A) (input : string) : option A :=
  let text := to_valid input in
  '(j, _) ← parse_value (2 * String.length text + 2) text;
  scanned j ≫= decode.

(** ** Lemmas *)

Lemma within_range lo hi c : within lo hi c = true <-> (lo <= N_of_ascii c <= hi)%N.
Proof. unfold within. by rewrite andb_true_iff, !N.leb_le. Qed.

(** A text in ASCII is left as it is. *)
Lemma to_valid_ascii s : ascii_string s -> to_valid s = s.
Proof.
  unfold ascii_string. induction s as [|c s IH]; [done|]. intros [Hc Hs]%Forall_cons. cbn [to_valid].
  assert (within 0 127 c = true) as -> by (apply within_range; unfold ascii_char in Hc; lia). by rewrite IH.
Qed.

Lemma join_surrogates_ascii s : ascii_string s -> join_surrogates s = s.
Proof.
  unfold ascii_string. induction s as [|c s IH]; [done|]. intros [Hc Hs]%Forall_cons. cbn [join_surrogates].
  destruct s as [|b [|c' s]]; [done..|].
  assert (within 237 237 c = false) as ->; [|by rewrite IH].
  apply not_true_is_false. rewrite within_range. unfold ascii_char in Hc. lia.
Qed.

(** What a member gives: [utf8.RuneError] for a stray byte and for half a pair,
    the rune for a whole one. *)
Example strings_read :
  (fun text => Unmarshal (fun j => set_string j "") (String quote text ++ String quote "")) <$>
    [String (chr 200) "a"; "\ud83d\ude00"; "\ud83d."; "\ude00\u20ac"]%string
  = (fun l => Some (string_of_list_ascii (chr <$> l))) <$>
    [[239; 191; 189; 97]; [240; 159; 152; 128]; [239; 191; 189; 46]; [239; 191; 189; 226; 130; 172]]%N.
Proof. vm_compute. reflexivity. Qed.

Lemma fold_option_app {A C} (f : A -> C -> option A) l1 l2 : forall a,
  fold_option f (l1 ++ l2) a = fold_option f l1 a ≫= fold_option f l2.
Proof. induction l1 as [|x l1 IH]; intros a; [done|]. cbn. destruct (f a x); [apply IH|done]. Qed.

(** A property every assignment has, the field has. *)
Lemma field_ind {A} (P : A -> Prop) name set d (old a : A) :
  (forall j x y, set j x = Some y -> P x -> P y) -> P old -> field name set d old = Some a -> P a.
Proof.
  intros Hset. unfold field. revert old. induction d as [|[k j] d IH]; intros old Hold; cbn.
  - by intros [= <-].
  - destruct (field_is name k); [|by apply IH]. destruct (set j old) as [x|] eqn:E; [|done].
    apply IH. by eapply Hset.
Qed.

(** A field no member names keeps its value. *)
Lemma field_absent {A} name set d (old : A) :
  Forall (fun kv => field_is name kv.1 = false) d -> field name set d old = Some old.
Proof. induction 1 as [|[k j] d Hk _ IH]; [done|]. unfold field in *. cbn in *. by rewrite Hk. Qed.

(** The last of several members of one name decides. *)
Lemma field_last {A} name set d1 k j d2 (old a : A) : field_is name k = true ->
  Forall (fun kv => field_is name kv.1 = false) d2 ->
  field name set (d1 ++ (k, j) :: d2) old = Some a -> exists x, set j x = Some a.
Proof.
  intros Hk Hd2. unfold field. rewrite fold_option_app. destruct (fold_option _ d1 old) as [x|]; [|done].
  cbn [mbind option_bind fold_option]. rewrite Hk. destruct (set j x) as [y|] eqn:E; [|done]. cbn [mbind option_bind].
  fold (field name set d2 y). rewrite field_absent by done. intros [= <-]. by exists x.
Qed.

Lemma set_int_typed j x y : set_int j x = Some y -> is_i64 x -> is_i64 y.
Proof. destruct j as [| |[z|]| | |]; simpl; try done; [by intros [= <-]|]. case_decide; [by intros [= <-]|done]. Qed.

Lemma set_float_finite j x y : set_float j x = Some y -> f_finite x = true -> f_finite y = true.
Proof.
  destruct j as [| |n| | |]; simpl; try done; [by intros [= <-]|].
  destruct (f_finite (to_float n)) eqn:E; [|done]. by intros [= <-].
Qed.

(** What the decoder reads it holds as it was read. *)
Lemma scanned_some j j' : scanned j = Some j' -> j' = j.
Proof. unfold scanned. destruct (_ <=? _); [by intros [= <-]|done]. Qed.

Lemma scanned_shallow j : json_depth j <= maxNestingDepth -> scanned j = Some j.
Proof. intros Hj. unfold scanned. by rewrite (proj2 (Z.leb_le _ _) Hj). Qed.

(** *** Names *)

Definition long_s (s : string) : string := String (chr 197) (String (chr 191) s).
Definition kelvin (s : string) : string := String (chr 226) (String (chr 132) (String (chr 170) s)).

(** The two runes beyond ASCII that name a field, raw and escaped; others do
    not: the Cyrillic letters that look the same, half of the long s. *)
Example names_folded :
  (fun k => (field_is "key" k, field_is "server_port" k)) <$>
    ["KEY"; kelvin "ey"; kelvin "eY"; long_s "erver_port"; String (chr 83) ("ERVER_POR" ++ "T");
     String (chr 208) (String (chr 154) "ey"); String (chr 197) "erver_port"; kelvin ""; ""]%string
  = [(true, false); (true, false); (true, false); (false, true); (false, true);
     (false, false); (false, false); (false, false); (false, false)] /\
  (fun text => Unmarshal (fun j => match j with JObj d => field "key" set_string d "" | _ => None end) text) <$>
    [String "{" (String quote (kelvin "ey") ++ String quote (":" ++ String quote ("a" ++ String quote "}")));
     String "{" (String quote "\u212aey" ++ String quote (":" ++ String quote ("a" ++ String quote "}")))]%string
  = [Some "a"; Some "a"]%string.
Proof. vm_compute. by split. Qed.

(** *** Nesting *)

Definition nested (n : nat) : string :=
  (string_of_list_ascii (repeat "["%char n) ++ string_of_list_ascii (repeat "]"%char n))%string.

(** The last depth that is read and the first that is not. *)
Example nesting_limit :
  (fun n => bool_decide (is_Some (Unmarshal (fun j => Some j) (nested (Z.to_nat n))))) <$> [3; 10000; 10001]
    = [true; true; false].
Proof. vm_compute. reflexivity. Qed.
