(* ===== verification/JsonSize.v ===== *)
(** How much a JSON text can hold: no string of a parsed value is longer than
    the text, so the lengths the log and the tables write in 32 bits fit for
    every request body of less than a gigabyte. *)
From S2P Require Import Prelude Text PyFloat Python Json GoJson.

Open Scope Z_scope.

(** ** Definitions *)

Fixpoint strings_upto (n : nat) (j : json) : Prop :=
  match j with
  | JStr s => (String.length s <= n)%nat
  | JArr l => foldr (fun x P => strings_upto n x /\ P) True l
  | JObj d => foldr (fun '(_, x) P => strings_upto n x /\ P) True d
  | _ => True
  end.

Definition elements_upto (n : nat) (l : list json) : Prop := foldr (fun x P => strings_upto n x /\ P) True l.
Definition members_upto (n : nat) (d : list (string * json)) : Prop := foldr (fun '(_, x) P => strings_upto n x /\ P) True d.

(** What a reader of the text promises: its value is small and its rest is of
    the text. *)
Definition reads_part {A} (n : nat) (small : A -> Prop) (read : string -> option (A * string)) : Prop :=
  forall s x t, (String.length s <= n)%nat -> read s = Some (x, t) -> small x /\ (String.length t <= String.length s)%nat.

(** ** Lemmas *)

Lemma utf8_length n : (String.length (utf8 n) <= 3)%nat.
Proof. unfold utf8. repeat case_match; cbn; lia. Qed.

Lemma parse_chars_length n : forall s r t, (String.length s <= n)%nat -> parse_chars s = Some (r, t) ->
  (String.length r + String.length t < String.length s)%nat.
Proof.
  induction n as [|n IH]; intros s r t Hn Hp; [destruct s; [done|simpl in Hn; lia]|].
  destruct s as [|c s1]; [done|]. cbn [parse_chars String.length] in *.
  assert (forall s' x r' t' k, (String.length s' <= n)%nat ->
    ('(r, t) ← parse_chars s'; Some ((x ++ r)%string, t)) = Some (r', t') -> (String.length x <= k)%nat ->
    (String.length r' + String.length t' < String.length s' + k)%nat) as Hgo.
  { intros s' x r' t' k Hs' Hb Hx. destruct (parse_chars s') as [[r0 t0]|] eqn:E; [|done].
    cbn [mbind option_bind] in Hb. injection Hb as <- <-. rewrite length_string_app.
    pose proof (IH _ _ _ Hs' E). lia. }
  assert (forall s' (x : ascii) r' t', (String.length s' <= n)%nat ->
    ('(r, t) ← parse_chars s'; Some (String x r, t)) = Some (r', t') ->
    (String.length r' + String.length t' < S (String.length s'))%nat) as Hone.
  { intros s' x r' t' Hs' Hb. pose proof (Hgo s' (String x "") r' t' 1%nat Hs' Hb (le_n 1)). lia. }
  destruct (decide (c = quote)) as [_|_]; [injection Hp as <- <-; cbn; lia|].
  destruct (decide (c = backslash)) as [_|_].
  - destruct s1 as [|e s2]; [done|]. cbn [String.length] in *.
    assert (forall x : ascii, ('(r, t) ← parse_chars s2; Some (String x r, t)) = Some (r, t) ->
      (String.length r + String.length t < S (S (String.length s2)))%nat) as Hx.
    { intros x Hb. pose proof (Hone s2 x r t ltac:(lia) Hb). lia. }
    destruct (N_of_ascii e) as [|q]; [done|].
    repeat (match type of Hp with context [match ?p with xI _ => _ | xO _ => _ | xH => _ end] => destruct p end;
      try done; try (by eapply Hx)).
    destruct s2 as [|h1 [|h2 [|h3 [|h4 s3]]]]; try done. destruct (hex4 h1 h2 h3 h4) as [v|]; [|done].
    cbn [String.length] in *. pose proof (Hgo s3 (utf8 v) r t 3%nat ltac:(lia) Hp (utf8_length v)). lia.
  - destruct (_ <? 32)%N; [done|]. apply (Hone s1 c); [lia|done].
Qed.

Lemma skip_ws_length s : (String.length (skip_ws s) <= String.length s)%nat.
Proof. induction s as [|c s IH]; [done|]. cbn. destruct (is_space c); cbn; lia. Qed.

Lemma strip_prefix_length p : forall s t, strip_prefix p s = Some t -> (String.length t <= String.length s)%nat.
Proof.
  induction p as [|a p IH]; intros s t; cbn; [by intros [= <-]|]. destruct s as [|b s]; [done|].
  destruct (decide (a = b)); [|done]. intros Hs. specialize (IH _ _ Hs). cbn. lia.
Qed.

Lemma take_digits_length s : forall acc n, (String.length (take_digits s acc n).2 <= String.length s)%nat.
Proof.
  induction s as [|c s IH]; intros acc n; [done|]. cbn. destruct (digit_value c) as [d|]; [|done].
  specialize (IH (acc * 10 + d) (S n)). lia.
Qed.

Lemma parse_exponent_length s ex t : parse_exponent s = Some (ex, t) -> (String.length t <= String.length s)%nat.
Proof.
  destruct s as [|c s1]; cbn [parse_exponent]; [by intros [= _ <-]|].
  destruct (decide _); [|by intros [= _ <-]].
  set (st := match s1 with String "-" s2 => (-1, s2) | String "+" s2 => (1, s2) | _ => (1, s1) end).
  assert (String.length st.2 <= String.length s1)%nat as Hst.
  { unfold st. repeat (case_match; try (cbn; lia)). }
  destruct st as [sgn s2]. cbn [snd] in Hst. pose proof (take_digits_length s2 0 0) as H1.
  destruct (take_digits s2 0 0) as [[v k] s3]. destruct (decide (k = 0%nat)); [done|]. intros [= _ <-]. cbn in *. lia.
Qed.

Lemma parse_number_length s n t : parse_number s = Some (n, t) -> (String.length t <= String.length s)%nat.
Proof.
  unfold parse_number. set (st := match s with String "-" s1 => (-1, s1) | _ => (1, s) end).
  assert (String.length st.2 <= String.length s)%nat as Hst.
  { unfold st. repeat (case_match; try (cbn; lia)). }
  destruct st as [sgn s1]. cbn [snd] in Hst. pose proof (take_digits_length s1 0 0) as H1.
  destruct (take_digits s1 0 0) as [[v k] s2]. cbn [snd] in H1.
  destruct (decide (k = 0%nat)); [done|]. destruct (leading_zero s1 k); [done|].
  set (frac := match s2 with String "." s3 => _ | _ => _ end).
  assert (forall fr s5, frac = Some (fr, s5) -> (String.length s5 <= String.length s2)%nat) as Hfrac.
  { unfold frac. intros fr s5. clear frac. destruct s2 as [|c s3]; [by intros [= _ <-]|].
    pose proof (take_digits_length s3 v 0) as Hd. destruct (take_digits s3 v 0) as [[v' k'] s4]. cbn [snd] in Hd.
    destruct c as [[] [] [] [] [] [] [] []]; try (by intros [= _ <-]).
    destruct (decide (k' = 0%nat)); [done|]. intros [= _ <-]. cbn. lia. }
  clearbody frac. destruct frac as [[fr s5]|]; [|done]. cbn [mbind option_bind]. specialize (Hfrac _ _ eq_refl).
  destruct (parse_exponent s5) as [[ex s6]|] eqn:E; [|done]. cbn [mbind option_bind]. intros [= _ <-].
  pose proof (parse_exponent_length _ _ _ E). lia.
Qed.

Lemma reads_part_bind {A C} n (P : A -> Prop) (Q : C -> Prop) read (f : A -> C) s x t :
  reads_part n P read -> (forall a, P a -> Q (f a)) -> (String.length s <= n)%nat ->
  ('(a, t) ← read s; Some (f a, t)) = Some (x, t) -> Q x /\ (String.length t <= String.length s)%nat.
Proof.
  intros Hr Hf Hs. destruct (read s) as [[a t']|] eqn:E; [|done]. cbn [mbind option_bind]. intros [= <- <-].
  destruct (Hr _ _ _ Hs E). split; [by apply Hf|done].
Qed.

(** After the bracket: the empty list, or what [read] finds. *)
Lemma bracket_part {A} n (P : list A -> Prop) read (close : ascii) (f : list A -> json) s1 j t :
  reads_part n P read -> P [] -> (forall l, P l -> strings_upto n (f l)) -> (String.length s1 <= n)%nat ->
  match skip_ws s1 with
  | String c t => if decide (c = close) then Some (f [], t) else '(l, t) ← read s1; Some (f l, t)
  | EmptyString => '(l, t) ← read s1; Some (f l, t)
  end = Some (j, t) -> strings_upto n j /\ (String.length t <= String.length s1)%nat.
Proof.
  intros Hr Hnil Hf Hs. pose proof (skip_ws_length s1) as Hw.
  destruct (skip_ws s1) as [|c t1]; [by eapply reads_part_bind|].
  destruct (decide (c = close)); [|by eapply reads_part_bind]. intros [= <- <-]. cbn in Hw. split; [by apply Hf|lia].
Qed.

Lemma parse_value_part n fuel : reads_part n (elements_upto n) (parse_elements fuel) ->
  reads_part n (members_upto n) (parse_members fuel) -> reads_part n (strings_upto n) (parse_value (S fuel)).
Proof.
  intros He Hm s j t Hn. cbn [parse_value]. pose proof (skip_ws_length s) as Hs.
  destruct (skip_ws s) as [|c s1]; [done|]. cbn [String.length] in Hs.
  assert (forall p v, (t ← strip_prefix p (String c s1); Some (v, t)) = Some (j, t) -> strings_upto n v ->
    strings_upto n j /\ (String.length t <= String.length s)%nat) as Hlit.
  { intros p v. destruct (strip_prefix p _) as [t'|] eqn:E; [|done]. cbn [mbind option_bind]. intros [= <- <-] Hv.
    apply strip_prefix_length in E. cbn in E. split; [done|lia]. }
  assert (('(v, t) ← parse_number (String c s1); Some (JNum v, t)) = Some (j, t) ->
    strings_upto n j /\ (String.length t <= String.length s)%nat) as Hnum.
  { destruct (parse_number _) as [[v t']|] eqn:E; [|done]. cbn [mbind option_bind]. intros [= <- <-].
    apply parse_number_length in E. cbn in E. split; [done|lia]. }
  assert (('(r, t) ← parse_chars s1; Some (JStr r, t)) = Some (j, t) ->
    strings_upto n j /\ (String.length t <= String.length s)%nat) as Hstr.
  { destruct (parse_chars s1) as [[r t']|] eqn:E; [|done]. cbn [mbind option_bind]. intros [= <- <-].
    pose proof (parse_chars_length _ _ _ _ (le_n _) E). cbn. lia. }
  pose proof (bracket_part n (elements_upto n) (parse_elements fuel) "]" JArr s1 j t He I (fun _ H => H) ltac:(lia)) as Harr.
  pose proof (bracket_part n (members_upto n) (parse_members fuel) "}" JObj s1 j t Hm I (fun _ H => H) ltac:(lia)) as Hobj.
  assert (forall P, P /\ (String.length t <= String.length s1)%nat -> P /\ (String.length t <= String.length s)%nat) as Hle.
  { intros P [HP Ht]. split; [exact HP|lia]. }
  destruct (N_of_ascii c) as [|p]; [exact Hnum|].
  do 7 (try destruct p as [p|p|]; try exact Hnum; try exact Hstr; try exact (fun H => Hlit _ _ H I));
    intros Hp; apply Hle; (destruct (skip_ws s1) as [|c1 t1]; [|destruct c1 as [[] [] [] [] [] [] [] []]]);
    first [exact (Hobj Hp) | exact (Harr Hp)].
Qed.

Lemma parse_elements_part n fuel : reads_part n (strings_upto n) (parse_value fuel) ->
  reads_part n (elements_upto n) (parse_elements fuel) -> reads_part n (elements_upto n) (parse_elements (S fuel)).
Proof.
  intros Hv He s l t Hn. cbn [parse_elements]. destruct (parse_value fuel s) as [[v t1]|] eqn:Ev; [|done].
  destruct (Hv _ _ _ Hn Ev) as [Hv1 Ht1]. cbn [mbind option_bind]. pose proof (skip_ws_length t1) as Hw.
  destruct (skip_ws t1) as [|c t2]; [done|]. cbn [String.length] in Hw.
  assert (('(l, t'') ← parse_elements fuel t2; Some (v :: l, t'')) = Some (l, t) ->
    elements_upto n l /\ (String.length t <= String.length t2)%nat) as Hmore.
  { apply (reads_part_bind n (elements_upto n)); [exact He|by split|lia]. }
  assert (Some ([v], t2) = Some (l, t) -> elements_upto n l /\ (String.length t <= String.length t2)%nat) as Hlast.
  { by intros [= <- <-]. }
  destruct c as [[] [] [] [] [] [] [] []]; try done; intros Hp; (apply Hmore in Hp || apply Hlast in Hp);
    (split; [apply Hp|destruct Hp; lia]).
Qed.

Lemma parse_members_part n fuel : reads_part n (strings_upto n) (parse_value fuel) ->
  reads_part n (members_upto n) (parse_members fuel) -> reads_part n (members_upto n) (parse_members (S fuel)).
Proof.
  intros Hv Hm s d t Hn. cbn [parse_members]. pose proof (skip_ws_length s) as Hw0.
  destruct (skip_ws s) as [|c s1]; [done|]. cbn [String.length] in Hw0. destruct (decide (c = quote)) as [_|_]; [|done].
  destruct (parse_chars s1) as [[k t1]|] eqn:Ek; [|done]. cbn [mbind option_bind].
  pose proof (parse_chars_length _ _ _ _ (le_n _) Ek) as Hk. pose proof (skip_ws_length t1) as Hw1.
  destruct (skip_ws t1) as [|c1 t2]; [done|]. cbn [String.length] in Hw1.
  assert (match parse_value fuel t2 with
      | Some (v, t'') => match skip_ws t'' with
          | String "," t3 => '(l, t4) ← parse_members fuel t3; Some ((k, v) :: l, t4)
          | String "}" t3 => Some ([(k, v)], t3)
          | _ => None end
      | None => None end = Some (d, t) -> members_upto n d /\ (String.length t <= String.length s)%nat) as Hgo.
  { destruct (parse_value fuel t2) as [[v t3]|] eqn:Ev; [|done].
    destruct (Hv t2 v t3 ltac:(lia) Ev) as [Hv1 Ht3]. pose proof (skip_ws_length t3) as Hw3.
    destruct (skip_ws t3) as [|c3 t4]; [done|]. cbn [String.length] in Hw3.
    assert (('(l, t'') ← parse_members fuel t4; Some ((k, v) :: l, t'')) = Some (d, t) ->
      members_upto n d /\ (String.length t <= String.length t4)%nat) as Hmore.
    { apply (reads_part_bind n (members_upto n)); [exact Hm|by split|lia]. }
    assert (Some ([(k, v)], t4) = Some (d, t) -> members_upto n d /\ (String.length t <= String.length t4)%nat) as Hlast.
    { by intros [= <- <-]. }
    destruct c3 as [[] [] [] [] [] [] [] []]; try done; intros Hp; (apply Hmore in Hp || apply Hlast in Hp);
      (split; [apply Hp|destruct Hp; lia]). }
  destruct c1 as [[] [] [] [] [] [] [] []]; try done; exact Hgo.
Qed.

Lemma parse_parts n fuel : reads_part n (strings_upto n) (parse_value fuel) /\
  reads_part n (elements_upto n) (parse_elements fuel) /\ reads_part n (members_upto n) (parse_members fuel).
Proof.
  induction fuel as [|fuel (Hv & He & Hm)]; [done|].
  split_and!; [by apply parse_value_part|by apply parse_elements_part|by apply parse_members_part].
Qed.

Lemma parse_strings n text j : (String.length text <= n)%nat -> parse text = Some j -> strings_upto n j.
Proof.
  unfold parse. intros Hn. destruct (parse_value _ text) as [[v t]|] eqn:E; [|done]. cbn [mbind option_bind].
  case_decide; [|done]. intros [= <-]. by apply (proj1 (parse_parts n _) text v t Hn) in E as [? _].
Qed.

(** *** What Go makes of a string is at most three times as long. *)

Lemma to_valid_length n : forall s, (String.length s <= n)%nat ->
  (String.length (to_valid s) <= 3 * String.length s)%nat.
Proof.
  induction n as [|n IH]; intros s Hs; [destruct s; [done|simpl in Hs; lia]|].
  destruct s as [|a s1]; [done|]. cbn [String.length] in Hs.
  assert (String.length (replacement (to_valid s1)) <= 3 * S (String.length s1))%nat as Hbad.
  { cbn. specialize (IH s1 ltac:(lia)). lia. }
  cbn [to_valid]. destruct (within 0 127 a); [cbn; specialize (IH s1 ltac:(lia)); lia|].
  destruct s1 as [|b s2]; [cbn; lia|]. cbn [String.length] in *.
  destruct (further a b) as [[|[|k]]|]; [|..|exact Hbad].
  - specialize (IH s2 ltac:(lia)). cbn. lia.
  - destruct s2 as [|c s3]; [exact Hbad|]. destruct (within 128 191 c); [|exact Hbad]. cbn [String.length] in *.
    specialize (IH s3 ltac:(lia)). lia.
  - destruct s2 as [|c [|d s4]]; [exact Hbad..|]. destruct (_ && _); [|exact Hbad]. cbn [String.length] in *.
    specialize (IH s4 ltac:(lia)). lia.
Qed.

Lemma join_surrogates_step a b c s3 : join_surrogates (String a (String b (String c s3))) =
  if within 237 237 a && within 160 191 b then
    match s3 with
    | String d (String e (String f s6)) =>
      if within 160 175 b && within 237 237 d && within 176 191 e then joined b c e f (join_surrogates s6)
      else replacement (join_surrogates s3)
    | _ => replacement (join_surrogates s3)
    end
  else String a (join_surrogates (String b (String c s3))).
Proof. reflexivity. Qed.

Lemma join_surrogates_length n : forall s, (String.length s <= n)%nat ->
  (String.length (join_surrogates s) <= String.length s)%nat.
Proof.
  induction n as [|n IH]; intros s Hs; [destruct s; [done|simpl in Hs; lia]|].
  destruct s as [|a [|b [|c s3]]]; [done..|]. cbn [String.length] in Hs.
  change (String.length (String a (String b (String c s3)))) with (3 + String.length s3)%nat.
  rewrite join_surrogates_step. destruct (_ && _).
  - pose proof (IH s3 ltac:(lia)) as H3.
    destruct s3 as [|d [|e [|f s6]]]; [cbn in *; lia..|].
    destruct (_ && _ && _); [|cbn [replacement String.length] in *; lia].
    unfold joined. cbn [String.length] in *. specialize (IH s6 ltac:(lia)). lia.
  - change (String.length (String a ?x)) with (S (String.length x)).
    specialize (IH (String b (String c s3)) ltac:(cbn; lia)).
    change (String.length (String b (String c s3))) with (S (S (String.length s3))) in IH. lia.
Qed.

Lemma set_string_length n j old s : strings_upto n j -> (String.length old <= n)%nat -> set_string j old = Some s ->
  (String.length s <= n)%nat.
Proof.
  intros Hj Ho. destruct j as [| | |v| |]; simpl; try done; intros [= <-]; [done|].
  pose proof (join_surrogates_length _ v (le_n _)). cbn in Hj. lia.
Qed.

Lemma members_upto_Forall n d : members_upto n d -> Forall (fun kv => strings_upto n kv.2) d.
Proof. induction d as [|[k j] d IH]; [constructor|]. intros [Hj Hd]. constructor; [done|by apply IH]. Qed.

Lemma elements_upto_Forall n l : elements_upto n l -> Forall (strings_upto n) l.
Proof. induction l as [|j l IH]; [constructor|]. intros [Hj Hl]. constructor; [done|by apply IH]. Qed.

(** What a body that is decoded holds. *)
Lemma Unmarshal_strings {A} (decode : json -> option A) body x : Unmarshal decode body = Some x ->
  exists j, decode j = Some x /\ strings_upto (3 * String.length body) j.
Proof.
  unfold Unmarshal. destruct (parse (to_valid body)) as [j|] eqn:Ep; [|done]. cbn [mbind option_bind].
  destruct (scanned j) as [j'|] eqn:Ej; [|done]. apply scanned_some in Ej as ->. cbn [mbind option_bind]. intros Hx.
  exists j. split; [done|].
  eapply parse_strings; [apply (to_valid_length _ _ (le_n _))|done].
Qed.
