(* ===== verification/ConfigFile.v ===== *)
(** Loading the configuration file, [LoadConfigurationFromFile] of
    internal/config/configuration.go. *)
From S2P Require Import Prelude Codec Text Domain Configuration PyFloat Python Json GoJson.

Open Scope Z_scope.

(** ** Definitions *)

(** The members of the file's object over the configuration [c]. *)
Definition set_config (d : list (string * json)) (c : SystemConfiguration) : option SystemConfiguration :=
  data_directory_path ← field "data_directory_path" set_string d (DataDirectoryPath c);
  write_ahead_log_file_path ← field "write_ahead_log_file_path" set_string d (WriteAheadLogFilePath c);
  log_directory_path ← field "log_directory_path" set_string d (LogDirectoryPath c);
  server_port ← field "server_port" set_int d (ServerPort c);
  maximum_memtable_size_in_bytes ← field "maximum_memtable_size_in_bytes" set_int d (MaximumMemtableSizeInBytes c);
  level_zero_compaction_trigger_count ←
    field "level_zero_compaction_trigger_count" set_int d (LevelZeroCompactionTriggerCount c);
  sstable_block_size_in_bytes ← field "sstable_block_size_in_bytes" set_int d (SSTableBlockSizeInBytes c);
  bloom_filter_false_positive_rate ←
    field "bloom_filter_false_positive_rate" set_float d (BloomFilterFalsePositiveRate c);
  compaction_interval_in_seconds ← field "compaction_interval_in_seconds" set_int d (CompactionIntervalInSeconds c);
  authentication_token ← field "authentication_token" set_string d (AuthenticationToken c);
  authentication_secret ← field "authentication_secret" set_string d (AuthenticationSecret c);
  enable_disk_durability ← field "enable_disk_durability" set_bool d (EnableDiskDurability c);
  maximum_cpu_count ← field "maximum_cpu_count" set_int d (MaximumCpuCount c);
  maximum_system_memory_in_bytes ← field "maximum_system_memory_in_bytes" set_int d (MaximumSystemMemoryInBytes c);
  enable_pprof_profiling ← field "enable_pprof_profiling" set_bool d (EnablePprofProfiling c);
  log_severity_level ← field "log_severity_level" set_string d (LogSeverityLevel c);
  key_cache_capacity_count ← field "key_cache_capacity_count" set_int d (KeyCacheCapacityCount c);
  Some {|
    DataDirectoryPath := data_directory_path;
    WriteAheadLogFilePath := write_ahead_log_file_path;
    LogDirectoryPath := log_directory_path;
    ServerPort := server_port;
    MaximumMemtableSizeInBytes := maximum_memtable_size_in_bytes;
    LevelZeroCompactionTriggerCount := level_zero_compaction_trigger_count;
    SSTableBlockSizeInBytes := sstable_block_size_in_bytes;
    BloomFilterFalsePositiveRate := bloom_filter_false_positive_rate;
    CompactionIntervalInSeconds := compaction_interval_in_seconds;
    AuthenticationToken := authentication_token;
    AuthenticationSecret := authentication_secret;
    EnableDiskDurability := enable_disk_durability;
    MaximumCpuCount := maximum_cpu_count;
    MaximumSystemMemoryInBytes := maximum_system_memory_in_bytes;
    EnablePprofProfiling := enable_pprof_profiling;
    LogSeverityLevel := log_severity_level;
    KeyCacheCapacityCount := key_cache_capacity_count;
  |}.

Definition decode_config (c : SystemConfiguration) (j : json) : option SystemConfiguration :=
  match j with JObj d => set_config d c | JNull => Some c | _ => None end.

(** [None] is an error: the file cannot be opened, or its first value is no
    JSON or does not fit. *)
Definition LoadConfigurationFromFile (f : FileSystem) (filePath : string) : option SystemConfiguration :=
  let config := default_config in
  if decide (filePath = ""%string) then Some config
  else
    file ← os_Open filePath f;
    Decode (decode_config config) (of_bytes file).

(** The template, with apostrophes for the quotes. *)
Fixpoint requote (s : string) : string :=
  match s with
  | EmptyString => ""%string
  | String c s' => String (if decide (c = "'"%char) then quote else c) (requote s')
  end.

Definition ConfigurationTemplate : string := requote "{
  'data_directory_path': './data',
  'write_ahead_log_file_path': './data/wal.log',
  'log_directory_path': './logs',
  'server_port': 8080,
  'maximum_memtable_size_in_bytes': 67108864,
  'level_zero_compaction_trigger_count': 4,
  'sstable_block_size_in_bytes': 4096,
  'bloom_filter_false_positive_rate': 0.01,
  'compaction_interval_in_seconds': 5,
  'authentication_secret': 'CHANGE_ME',
  'enable_disk_durability': true,
  'maximum_cpu_count': 0,
  'maximum_system_memory_in_bytes': 0,
  'enable_pprof_profiling': false,
  'key_cache_capacity_count': 40000,
  'log_severity_level': 'INFO'
}".

(** *** Specification *)

(** The Go types: every integer is one of 64 bits, the rate is a number. *)
Definition config_typed (c : SystemConfiguration) : Prop :=
  Forall is_i64 [ServerPort c; MaximumMemtableSizeInBytes c; LevelZeroCompactionTriggerCount c;
    SSTableBlockSizeInBytes c; CompactionIntervalInSeconds c; MaximumCpuCount c;
    MaximumSystemMemoryInBytes c; KeyCacheCapacityCount c] /\
  f_finite (BloomFilterFalsePositiveRate c) = true.

(** No member of [d] is called [name], up to [foldName]. *)
Definition unnamed (d : list (string * json)) (name : string) : Prop :=
  Forall (fun kv => field_is name kv.1 = false) d.

(** The fields of [c] that [d] does not name are those of [c0]. *)
Definition others_kept (d : list (string * json)) (c0 c : SystemConfiguration) : Prop :=
  Forall (fun '(name, proj) => unnamed d name -> proj c = proj c0)
    [("data_directory_path", DataDirectoryPath); ("write_ahead_log_file_path", WriteAheadLogFilePath);
     ("log_directory_path", LogDirectoryPath); ("authentication_token", AuthenticationToken);
     ("authentication_secret", AuthenticationSecret); ("log_severity_level", LogSeverityLevel)]%string /\
  Forall (fun '(name, proj) => unnamed d name -> proj c = proj c0)
    [("server_port", ServerPort); ("maximum_memtable_size_in_bytes", MaximumMemtableSizeInBytes);
     ("level_zero_compaction_trigger_count", LevelZeroCompactionTriggerCount);
     ("sstable_block_size_in_bytes", SSTableBlockSizeInBytes);
     ("compaction_interval_in_seconds", CompactionIntervalInSeconds); ("maximum_cpu_count", MaximumCpuCount);
     ("maximum_system_memory_in_bytes", MaximumSystemMemoryInBytes);
     ("key_cache_capacity_count", KeyCacheCapacityCount)]%string /\
  Forall (fun '(name, proj) => unnamed d name -> proj c = proj c0)
    [("enable_disk_durability", EnableDiskDurability); ("enable_pprof_profiling", EnablePprofProfiling)]%string /\
  (unnamed d "bloom_filter_false_positive_rate" ->
     BloomFilterFalsePositiveRate c = BloomFilterFalsePositiveRate c0).

(** ** Lemmas *)

(** A successful assignment of all fields, one equation per field. *)
Ltac split_fields :=
  repeat match goal with
  | H : (_ ← ?x; _) = Some _ |- _ =>
    let v := fresh "v" in let E := fresh "E" in
    destruct x as [v|] eqn:E; [cbn [mbind option_bind] in H|discriminate H]
  end.

Lemma field_absent_eq {A} name set d (old a : A) : field name set d old = Some a -> unnamed d name -> a = old.
Proof. intros Hf Hd. rewrite field_absent in Hf by done. by injection Hf. Qed.

Lemma field_int name d old a : field name set_int d old = Some a -> is_i64 old -> is_i64 a.
Proof. intros Hf Ho. by apply (field_ind is_i64 name set_int d old a set_int_typed). Qed.

Lemma field_float name d old a : field name set_float d old = Some a -> f_finite old = true -> f_finite a = true.
Proof. intros Hf Ho. by apply (field_ind (fun x => f_finite x = true) name set_float d old a set_float_finite). Qed.

(** The goal is about a field: its equation and the lemma close it. *)
Ltac use_field lem :=
  match goal with
  | E : field ?n ?set ?d ?o = Some ?v |- is_i64 ?v => apply (lem n d o v E); assumption
  | E : field ?n ?set ?d ?o = Some ?v |- f_finite ?v = true => apply (lem n d o v E); assumption
  | E : field ?n ?set ?d ?o = Some ?v |- unnamed ?d ?n -> ?v = ?o => exact (lem _ n set d o v E)
  | |- True => exact I
  end.

Lemma set_config_typed d c c' : set_config d c = Some c' -> config_typed c -> config_typed c'.
Proof.
  intros Hs [Hi Hf]. unfold set_config in Hs. split_fields. apply (inj Some) in Hs as <-. unfold config_typed in *. cbn in *.
  rewrite !Forall_cons in Hi. destruct_and?. split.
  - rewrite !Forall_cons, Forall_nil. split_and!; use_field field_int.
  - use_field field_float.
Qed.

Lemma set_config_kept d c c' : set_config d c = Some c' -> others_kept d c c'.
Proof.
  intros Hs. unfold set_config in Hs. split_fields. apply (inj Some) in Hs as <-. unfold others_kept. cbn.
  rewrite !Forall_cons, !Forall_nil. split_and!; use_field (@field_absent_eq).
Qed.

Lemma others_kept_refl d c : others_kept d c c.
Proof. unfold others_kept. rewrite !Forall_cons, !Forall_nil. by split_and!. Qed.

Lemma default_config_typed : config_typed default_config.
Proof. split; [|reflexivity]. apply (bool_decide_unpack _). vm_compute. exact I. Qed.

(** The template is the defaults, but for the secret it asks to change. *)
Example template_loads :
  Decode (decode_config default_config) ConfigurationTemplate = Some {|
    DataDirectoryPath := DataDirectoryPath default_config;
    WriteAheadLogFilePath := WriteAheadLogFilePath default_config;
    LogDirectoryPath := LogDirectoryPath default_config;
    ServerPort := ServerPort default_config;
    MaximumMemtableSizeInBytes := MaximumMemtableSizeInBytes default_config;
    LevelZeroCompactionTriggerCount := LevelZeroCompactionTriggerCount default_config;
    SSTableBlockSizeInBytes := SSTableBlockSizeInBytes default_config;
    BloomFilterFalsePositiveRate := BloomFilterFalsePositiveRate default_config;
    CompactionIntervalInSeconds := CompactionIntervalInSeconds default_config;
    AuthenticationToken := AuthenticationToken default_config;
    AuthenticationSecret := "CHANGE_ME";
    EnableDiskDurability := EnableDiskDurability default_config;
    MaximumCpuCount := MaximumCpuCount default_config;
    MaximumSystemMemoryInBytes := MaximumSystemMemoryInBytes default_config;
    EnablePprofProfiling := EnablePprofProfiling default_config;
    LogSeverityLevel := LogSeverityLevel default_config;
    KeyCacheCapacityCount := KeyCacheCapacityCount default_config |}.
Proof. vm_compute. reflexivity. Qed.

(** A decoder reads a prefix: an object is accepted whatever follows it, which
    [Unmarshal] would refuse. *)
Example decode_ignores_rest :
  ServerPort <$> Decode (decode_config default_config) (requote "{'SERVER_port': 9} garbage") = Some 9 /\
  Unmarshal (decode_config default_config) (requote "{'SERVER_port': 9} garbage") = None.
Proof. by vm_compute. Qed.

(** So is a null, whatever follows it. *)
Example decode_null_prefix : Decode (decode_config default_config) "nullx" = Some default_config.
Proof. by vm_compute. Qed.

(** A name is matched by folding its runes: the long s is an s. *)
Example long_s_names_port :
  ServerPort <$> Decode (decode_config default_config)
    (String "{" (String quote (long_s "erver_port" ++ String quote ":9}"))) = Some 9.
Proof. by vm_compute. Qed.

(** ** Properties *)

(** C16. A loaded configuration is well typed and complete. Whatever the file
    holds, loading either fails or gives a configuration in which every integer
    is one of 64 bits and the rate is a finite number. It comes from the members
    of the file's object (none for an empty path or a [null]): a field no member
    names (names are compared as [foldName] folds them: the case of a letter, the
    long s and the Kelvin sign do not matter) keeps its default. *)
Theorem Load_typed f filePath c : LoadConfigurationFromFile f filePath = Some c ->
  config_typed c /\
  exists d, others_kept d default_config c /\
    (d <> [] -> exists file rest, os_Open filePath f = Some file /\
       parse_value (2 * String.length (to_valid (of_bytes file)) + 2) (to_valid (of_bytes file)) = Some (JObj d, rest)).
Proof.
  unfold LoadConfigurationFromFile. intros Hl.
  assert (forall c', Some default_config = Some c' -> config_typed c' /\ exists d, others_kept d default_config c' /\
    (d <> [] -> exists file rest, os_Open filePath f = Some file /\
       parse_value (2 * String.length (to_valid (of_bytes file)) + 2) (to_valid (of_bytes file)) = Some (JObj d, rest))) as Hdef.
  { intros c' [= <-]. split; [apply default_config_typed|]. exists []. split; [apply others_kept_refl|done]. }
  case_decide; [by apply Hdef|].
  destruct (os_Open filePath f) as [file|] eqn:Ef; [|done]. cbn [mbind option_bind] in Hl. unfold Decode in Hl.
  destruct (parse_value _ _) as [[j rest]|] eqn:Ep; [|done]. cbn [mbind option_bind] in Hl.
  destruct (scanned j) as [j'|] eqn:Ej; [|done].
  apply scanned_some in Ej as ->. cbn [mbind option_bind] in Hl. destruct j as [| | | | |d]; try done; cbn [decode_config] in Hl; [by apply Hdef|].
  split; [eapply set_config_typed; [exact Hl|apply default_config_typed]|].
  exists d. split; [by apply set_config_kept|]. intros _. by exists file, rest.
Qed.

(** *** At a concrete input *)

Definition template_disk : FileSystem :=
  mkFS {[ "sndv.json"%string := to_bytes ConfigurationTemplate ]} (fun _ => true).

Lemma Load_typed_witness : exists c, LoadConfigurationFromFile template_disk "sndv.json" = Some c /\ config_typed c.
Proof.
  assert (LoadConfigurationFromFile template_disk "sndv.json" = Decode (decode_config default_config) ConfigurationTemplate) as He
    by (by vm_compute).
  rewrite template_loads in He. eexists. split; [exact He|]. by apply (Load_typed template_disk "sndv.json").
Defined.
