(* ===== verification/Requests.v ===== *)
(** What the benchmark scripts share: the payloads they send, the requests that
    carry them, the loop that waits for a server, the rate they report. *)
From S2P Require Import Prelude PyFloat Python Json.

Open Scope Z_scope.

(** ** Definitions *)

(** ["x" * n]. *)
Definition x_times (n : nat) : string := times n "x".

Definition item (key : string) (value : string) : payload :=
  PDict [("key", PStr key); ("value", PStr value); ("ttl", PNum 0)]%string.

Definition json_post (url : string) (body : payload) (timeout : Z) : http_request :=
  mkHttp "POST" url [("Content-Type", "application/json")]%string (Some (dumps body)) (Some timeout).

(** [(time.perf_counter() - start) * 1000]. *)
Definition ms_since (start now : float) : pynum := num_mul (PFloat (f_sub now start)) (PInt 1000).

(** [x / duration if duration > 0 else 0]. *)
Definition rate (count : Z) (duration : float) : exn + pynum :=
  if num_lt (PInt 0) (PFloat duration) then num_div (PInt count) (PFloat duration) else inr (PInt 0).

(** [requests.get(url, timeout=t)]. *)
Definition get_url (url : string) (timeout : option Z) : http_request := mkHttp "GET" url [] None timeout.

Definition batch_of (keys : list string) (value : string) : payload :=
  PDict [("items"%string, PList ((fun k => item k value) <$> keys))].

(** The response, or the exception a bare [except] would catch. *)
Definition attempt {W A} (m : M W A) : M W (exn + A) := fun w =>
  match m w with
  | (w, inr a) => (w, inr (inr a))
  | (w, inl e) => if is_exception e then (w, inr (inl e)) else (w, inl e)
  end.

Section Waiting.
Context `{PyWorld W}.
Local Open Scope py_scope.

(** [time.time()] loops take [fuel] turns at most in the model. *)
Fixpoint wait_loop (fuel : nat) (start timeout : float) (req : http_request) : M W bool :=
  match fuel with
  | O => raise NoFuel
  | S fuel =>
    t <- now ;;
    if f_lt (f_sub t start) timeout then
      resp <- attempt (send req) ;;
      let up := match resp with inr resp => status_code resp =? 200 | inl _ => false end in
      if up then ret true
      else sleep f_0_5 ;;; wait_loop fuel start timeout req
    else ret false
  end.

End Waiting.

(** ** Lemmas *)

(** [rate] does not raise for a count below 2^53, whatever the duration. *)
Lemma rate_total count duration : 0 <= count < 2 ^ 53 -> exists tps, rate count duration = inr tps.
Proof.
  intros Hc. unfold rate. destruct (num_lt (PInt 0) (PFloat duration)) eqn:E; [|by eexists].
  unfold num_div. assert (f_infinite (f_of_Z count) = false) as ->.
  { destruct (decide (count = 0)) as [->|Hne]; [done|].
    destruct (f_of_Z_exact count) as (m & e & -> & _); [lia|done]. }
  assert (f_is_zero (to_float (PFloat duration)) = false) as ->.
  { cbn in *. by destruct duration. }
  by eexists.
Qed.

(** A request is never anything but a response or an exception. *)
Lemma attempt_send `{PyWorld W} req (w : W) :
  attempt (send req) w =
    let '(w', r) := transport req w in
    (w', inr match r with inl why => inl (RequestException (failure_reason why)) | inr resp => inr resp end).
Proof. unfold attempt, send. by destruct (transport req w) as [w' [why|resp]]. Qed.

Lemma x_times_ascii n : ascii_string (x_times n).
Proof.
  unfold ascii_string, x_times.
  induction n as [|n IH]; [constructor|]. cbn. constructor; [done|apply IH].
Qed.

Section RequestLemmas.
Context `{PyWorld W}.

Lemma bind_call {A C} (f : W -> W * A) (k : A -> M W C) w :
  bind (call f) k w = let '(w', a) := f w in k a w'.
Proof. unfold bind, call. by destruct (f w). Qed.

Lemma bind_attempt_send {C} req (k : exn + http_response -> M W C) w :
  bind (attempt (send req)) k w =
    let '(w', r) := transport req w in
    k (match r with inl why => inl (RequestException (failure_reason why)) | inr resp => inr resp end) w'.
Proof. unfold bind. rewrite attempt_send. by destruct (transport req w). Qed.

Lemma bind_lift {S A C} (a : A) (k : A -> M S C) s : bind (lift_exn (inr a)) k s = k a s.
Proof. done. Qed.

(** A successful exchange with this status. *)
Definition answers (req : http_request) (w : W) (code : Z) : Prop :=
  exists resp, (transport req w).2 = inr resp /\ status_code resp = code.

(** The counting loops of the other two benchmarks: a request per turn, a gain
    that depends on its outcome. *)
Lemma counting_loop {A} (req : A -> http_request) (gain : exn + http_response -> bool) (step : Z) l :
  0 <= step -> forall n w, exists w' k,
  for_each l n (fun n x =>
    (resp <- attempt (send (req x)) ;; ret (if gain resp then n + step else n))%py) w
  = (w', inr (n + step * k)) /\ 0 <= k <= zlen l /\
  ((forall x w, x ∈ l -> exists r, (transport (req x) w).2 = inr r /\ gain (inr r) = true) -> k = zlen l).
Proof.
  intros Hs. induction l as [|x l IH]; intros n w.
  { exists w, 0. unfold zlen. cbn. unfold ret. split_and!; try lia; try done. by rewrite Z.mul_0_r, Z.add_0_r. }
  cbn [for_each]. unfold bind at 1. rewrite bind_attempt_send.
  destruct (transport (req x) w) as [w1 r] eqn:Et. set (o := match r with inl _ => _ | inr _ => _ end).
  unfold ret at 1. destruct (IH (if gain o then n + step else n) w1) as (w2 & k & -> & Hk & Hall).
  exists w2, ((if gain o then 1 else 0) + k). unfold zlen in *. cbn [length].
  split; [|split; [destruct (gain o); lia|]].
  { do 2 f_equal. destruct (gain o); lia. }
  intros Hresp. rewrite Hall by (intros y w0 Hy; apply Hresp; by right).
  destruct (Hresp x w) as (r' & Hr & Hg); [by left|]. rewrite Et in Hr. cbn in Hr. subst r. unfold o. rewrite Hg. lia.
Qed.

End RequestLemmas.

(** *** Waiting *)

(** One turn of the loop on a server that is not up. *)
Definition wait_turn `{PyWorld W} (req : http_request) (w : W) : W :=
  time_sleep f_0_5 (transport req (time_time w).1).1.

(** The clock passes the deadline within [n] turns. *)
Definition passes_within `{PyWorld W} (n : nat) (start timeout : float) (req : http_request) (w : W) : Prop :=
  exists k, (k < n)%nat /\ f_lt (f_sub (time_time (Nat.iter k (wait_turn req) w)).2 start) timeout = false.

Lemma wait_loop_returns `{PyWorld W} n start timeout req : forall w,
  passes_within n start timeout req w -> exists w' b, wait_loop n start timeout req w = (w', inr b).
Proof.
  induction n as [|n IH]; intros w (k & Hk & Hp); [lia|]. cbn [wait_loop]. unfold now. rewrite bind_call.
  destruct (time_time w) as [w1 t] eqn:Et. destruct (f_lt (f_sub t start) timeout) eqn:Elt; [|by eexists _, _].
  rewrite bind_attempt_send. destruct (transport req w1) as [w2 r] eqn:Er.
  destruct (match _ with inr _ => _ | inl _ => _ end); [by eexists _, _|].
  unfold bind, sleep, act. apply IH. destruct k as [|k]; [simpl in Hp; rewrite Et in Hp; cbn in Hp; congruence|].
  exists k. split; [lia|]. rewrite Nat.iter_succ_r in Hp. unfold wait_turn at 2 in Hp. rewrite Et in Hp. cbn [fst] in Hp. by rewrite Er in Hp.
Qed.

(** A wait that nothing answers with 200 does not end in True. *)
Lemma wait_loop_no_answer `{PyWorld W} n start timeout req w w' b :
  (forall w, ~ answers req w 200) -> wait_loop n start timeout req w = (w', inr b) -> b = false.
Proof.
  intros Hno. revert w. induction n as [|n IH]; intros w; [done|]. cbn [wait_loop]. unfold now. rewrite bind_call.
  destruct (time_time w) as [w1 t]. destruct (f_lt _ _); [|by intros [= _ <-]]. rewrite bind_attempt_send.
  destruct (transport req w1) as [w2 r] eqn:Er.
  assert ((match match r with inl why => inl (RequestException (failure_reason why)) | inr resp => inr resp end : exn + http_response with
    | inr resp => status_code resp =? 200 | inl _ => false end) = false) as ->.
  { destruct r as [|resp]; [done|]. apply Z.eqb_neq. intros Hs. apply (Hno w1). exists resp. by rewrite Er. }
  apply IH.
Qed.
