(* ===== verification/HttpApi.v ===== *)
(** The HTTP router, internal/api/http_router.go. A handler maps the request it
    reads off the fasthttp context to the calls it makes on that context; what
    fasthttp sends for them is not modelled here. *)
From S2P Require Import Prelude Codec Text Domain Hashing Configuration WriteAheadLog SortedStringTable SystemState Ingestion PyFloat Python Json GoJson.
From S2P Require MemoryTable LruCache.

Open Scope Z_scope.

(** ** Definitions *)

Inductive ctx_call :=
| CtxError (msg : string) (code : Z)
| SetStatusCode (code : Z)
| SetContentType (ty : string)
| CtxWrite (s : string)
| CtxEncode (g : SystemMetricsRegistry).

(** What a handler reads: [ctx.Method()], [ctx.Path()], the Authorization
    header, [ctx.PostBody()], [ctx.QueryArgs().Peek("key")]. *)
Record ctx_request := mkCtx {
  Method : string;
  Path : string;
  Authorization : string;
  PostBody : string;
  QueryKey : string;
}.

(** The clock and the scheduler as one request meets them. *)
Record env := mkEnv {
  e_now : Z;
  e_now_rot : Z;
  e_order : list nat;
  e_nows : nat -> Z;
  e_nows_rot : nat -> Z;
}.

(** *** The payloads, as encoding/json fills them *)

Record SinglePutRequestPayload := mkPut { put_Key : string; put_Value : string; put_TimeToLive : Z }.

Definition zero_put : SinglePutRequestPayload := mkPut "" "" 0.

Definition set_put_field (p : SinglePutRequestPayload) (kv : string * json)
    : option SinglePutRequestPayload :=
  let '(k, j) := kv in
  if field_is "key" k then s ← set_string j (put_Key p); Some (mkPut s (put_Value p) (put_TimeToLive p))
  else if field_is "value" k then s ← set_string j (put_Value p); Some (mkPut (put_Key p) s (put_TimeToLive p))
  else if field_is "ttl" k then z ← set_int j (put_TimeToLive p); Some (mkPut (put_Key p) (put_Value p) z)
  else Some p.

(** A null leaves a struct as it is. *)
Definition decode_item (p : SinglePutRequestPayload) (j : json) : option SinglePutRequestPayload :=
  match j with
  | JObj d => fold_option set_put_field d p
  | JNull => Some p
  | _ => None
  end.

Definition decode_put (j : json) : option SinglePutRequestPayload := decode_item zero_put j.

(** An array is decoded into the elements the slice's memory holds already. *)
Fixpoint decode_items (old : list SinglePutRequestPayload) (l : list json) : option (list SinglePutRequestPayload) :=
  match l with
  | [] => Some []
  | j :: l' => p ← decode_item (default zero_put (head old)) j; ps ← decode_items (tail old) l'; Some (p :: ps)
  end.

(** The slice [items] and what its memory holds behind them: a repeated member
    is decoded over the earlier one; null and the empty array are new slices. *)
Definition set_items (st : list SinglePutRequestPayload * list SinglePutRequestPayload) (kv : string * json)
    : option (list SinglePutRequestPayload * list SinglePutRequestPayload) :=
  let '(k, j) := kv in
  if field_is "items" k then
    match j with
    | JArr [] | JNull => Some ([], [])
    | JArr l => let memory := st.1 ++ st.2 in items ← decode_items memory l; Some (items, drop (length l) memory)
    | _ => None
    end
  else Some st.

Definition decode_batch (j : json) : option (list SinglePutRequestPayload) :=
  match j with
  | JObj d => fst <$> fold_option set_items d ([], [])
  | JNull => Some []
  | _ => None
  end.

Section Router.
Context `{BloomFilter B}.
Implicit Types (m : machine B) (ctx : ctx_request).

(** paseto's [V2.Decrypt(token, key, ...) == nil], the text of the log's
    error, and the number of ingestion shards. *)
Context (decrypt : string -> string -> bool) (error_text : go_error -> string) (numShards : Z).

(** [fmt.Sprintf("%-32s", secret)[:32]]. *)
Fixpoint pad (n : nat) (s : string) : string :=
  match n, s with
  | O, _ => ""%string
  | S n, EmptyString => String " " (pad n "")
  | S n, String c s' => String c (pad n s')
  end.

Definition checkAuth ctx m : bool :=
  let configToken := AuthenticationToken (Configuration (bb m)) in
  let headerToken := Authorization ctx in
  if bool_decide (configToken = ""%string) && bool_decide (headerToken = ""%string) then true
  else decrypt headerToken (pad 32 (AuthenticationSecret (Configuration (bb m)))).

(** [Some calls]: the method is refused with these calls. *)
Definition isMethodAllowed ctx (methods : list string) : option (list ctx_call) :=
  if decide (Method ctx ∈ methods) then None else Some [CtxError "Method Not Allowed" 405].

Definition writeJSON (key : string) (val : bytes) : list ctx_call :=
  let q := String quote "" in
  [SetContentType "application/json";
   CtxWrite ("{" ++ q ++ "key" ++ q ++ ":" ++ q ++ key ++ q ++ "," ++ q ++ "val" ++ q ++ ":" ++ q
             ++ of_bytes val ++ q ++ "}")%string].

Definition updateMetrics m : machine B :=
  mkMachine (bb m) (fs m) (IncrementReadOperationsCount (IncrementCacheHitCount (Global m))).

(** [None] is the Go [false]: the search goes on. *)
Definition tryServeFromCache (key : string) m : machine B * option (list ctx_call) :=
  match KeyCache (bb m) with
  | None => (m, None)
  | Some c =>
    let '(r, c) := LruCache.RetrieveFromCache key c in
    let m := with_bb (set_KeyCache (Some c)) m in
    match r with
    | Some val => (updateMetrics m, Some (writeJSON key val))
    | None => (m, None)
    end
  end.

Definition processEntry (now : Z) (e : Entry) m : machine B * list ctx_call :=
  if IsDeleted e then (m, [CtxError "Not Found" 404])
  else if (0 <? ExpiryTimestamp e) && (ExpiryTimestamp e <? now) then (m, [CtxError "Not Found" 404])
  else
    let m := match KeyCache (bb m) with
             | None => m
             | Some c => with_bb (set_KeyCache (Some (LruCache.InsertIntoCache (Key e) (Value e) c))) m
             end in
    (m, writeJSON (Key e) (Value e)).

Definition tryServeFromMemory (now : Z) (key : string) m : machine B * option (list ctx_call) :=
  match lookup_memory key (bb m) with
  | Some e => let '(m, out) := processEntry now e m in (m, Some out)
  | None => (m, None)
  end.

Definition tryServeFromDisk (now : Z) (key : string) m : machine B * outcome (option (list ctx_call)) :=
  match find_levels key (BloomF (bb m)) (fs m) (SSTables (bb m)) with
  | Ok (Some e) => let '(m, out) := processEntry now e m in (m, Ok (Some out))
  | Ok None => (m, Ok None)
  | Err => (m, Err)
  | Panic => (m, Panic)
  end.

Definition findAndServe (now : Z) (key : string) m : machine B * outcome (option (list ctx_call)) :=
  match tryServeFromCache key m with
  | (m, Some out) => (m, Ok (Some out))
  | (m, None) =>
    match tryServeFromMemory now key m with
    | (m, Some out) => (m, Ok (Some out))
    | (m, None) => tryServeFromDisk now key m
    end
  end.

Definition HandleSinglePutRequest (e : env) ctx m : machine B * outcome (list ctx_call) :=
  match isMethodAllowed ctx ["POST"; "PUT"]%string with
  | Some out => (m, Ok out)
  | None =>
    match Unmarshal decode_put (PostBody ctx) with
    | None => (m, Ok [CtxError "Bad Request" 400])
    | Some payload =>
      let '(m, err) := SubmitIngestionRequest (put_Key payload) (to_bytes (put_Value payload))
                         (put_TimeToLive payload) false (e_now e) (e_now_rot e) m in
      match err with
      | Some err => (m, Ok [CtxError (error_text err) 500])
      | None => (m, Ok [SetStatusCode 201])
      end
    end
  end.

Definition HandleGetRequest (e : env) ctx m : machine B * outcome (list ctx_call) :=
  match isMethodAllowed ctx ["GET"]%string with
  | Some out => (m, Ok out)
  | None =>
    let key := QueryKey ctx in
    if decide (key = ""%string) then (m, Ok [CtxError "Missing key" 400])
    else match findAndServe (e_now e) key m with
         | (m, Ok (Some out)) => (m, Ok out)
         | (m, Ok None) => (m, Ok [CtxError "Not Found" 404])
         | (m, Err) => (m, Err)
         | (m, Panic) => (m, Panic)
         end
  end.

Definition unpackBatch (req : list SinglePutRequestPayload) : list (string * bytes * Z) :=
  (fun item => (put_Key item, to_bytes (put_Value item), put_TimeToLive item)) <$> req.

Definition HandleBatchPutRequest (e : env) ctx m : machine B * outcome (list ctx_call) :=
  match isMethodAllowed ctx ["POST"]%string with
  | Some out => (m, Ok out)
  | None =>
    match Unmarshal decode_batch (PostBody ctx) with
    | None => (m, Ok [CtxError "Bad Request" 400])
    | Some req =>
      let '(m, err) := SubmitBatchIngestion numShards (unpackBatch req) (e_order e) (e_nows e)
                         (e_nows_rot e) m in
      match err with
      | Some err => (m, Ok [CtxError (error_text err) 500])
      | None => (m, Ok [SetStatusCode 201])
      end
    end
  end.

Definition HandleDeleteRequest (e : env) ctx m : machine B * outcome (list ctx_call) :=
  match isMethodAllowed ctx ["DELETE"; "POST"]%string with
  | Some out => (m, Ok out)
  | None =>
    let key := QueryKey ctx in
    if decide (key = ""%string) then (m, Ok [CtxError "Missing key" 400])
    else
      let '(m, err) := SubmitIngestionRequest key [] 0 true (e_now e) (e_now_rot e) m in
      match err with
      | Some err => (m, Ok [CtxError (error_text err) 500])
      | None => (m, Ok [SetStatusCode 200])
      end
  end.

Definition HandleMetricsRequest ctx m : machine B * outcome (list ctx_call) :=
  match isMethodAllowed ctx ["GET"]%string with
  | Some out => (m, Ok out)
  | None => (m, Ok [SetContentType "application/json"; CtxEncode (Global m)])
  end.

Definition routePath (e : env) ctx m : machine B * outcome (list ctx_call) :=
  if decide (Path ctx = "/put"%string) then HandleSinglePutRequest e ctx m
  else if decide (Path ctx = "/get"%string) then HandleGetRequest e ctx m
  else if decide (Path ctx = "/batch"%string) then HandleBatchPutRequest e ctx m
  else if decide (Path ctx = "/delete"%string) then HandleDeleteRequest e ctx m
  else if decide (Path ctx = "/metrics"%string) then HandleMetricsRequest ctx m
  else (m, Ok [CtxError "Not Found" 404]).

(** A panic is not stopped: [recover] answers nil when it is called by a
    function ([recoverPanic]) that the deferred one calls. *)
Definition handleRequest (e : env) ctx m : machine B * outcome (list ctx_call) :=
  if checkAuth ctx m then routePath e ctx m else (m, Ok [CtxError "Unauthorized" 401]).

End Router.

(** *** Specification *)

(** What a reader of key [k] is entitled to at time [now]. *)
Definition visible (now : Z) (o : option Entry) : option bytes :=
  match o with
  | Some e => if IsDeleted e then None
              else if (0 <? ExpiryTimestamp e) && (ExpiryTimestamp e <? now) then None
              else Some (Value e)
  | None => None
  end.

Definition serve (k : string) (v : option bytes) : list ctx_call :=
  match v with Some v => writeJSON k v | None => [CtxError "Not Found" 404] end.

Section Invariant.
Context `{BloomFilterLaws B}.

(** The cache is well formed and repeats, for each of its keys, the value of
    the key's entry, which is not a tombstone (but may have expired). *)
Definition cache_ok (m : machine B) : Prop :=
  match KeyCache (bb m) with
  | None => True
  | Some c =>
    LruCache.lru_ok c /\
    forall k v, LruCache.Spec.lookup k (LruCache.abs c) = Some v ->
      exists e, lookup_entry k m = Ok (Some e) /\ IsDeleted e = false /\ Value e = v
  end.

End Invariant.

(** ** Lemmas *)

Section RouterLemmas.
Context `{BloomFilterLaws B}.
Implicit Types (m : machine B).

Definition cached (k : string) m : option bytes :=
  KeyCache (bb m) ≫= fun c => LruCache.Spec.lookup k (LruCache.abs c).

Lemma lookup_entry_key k e m contents : state_ok m contents ->
  lookup_entry k m = Ok (Some e) -> Key e = k.
Proof.
  intros Hok. rewrite (lookup_entry_spec k m contents Hok). intros Hok'.
  assert (first_some [mem_spec k (bb m); disk_spec k contents] = Some e) as Hf by congruence. clear Hok'.
  assert (forall (l : list (option Entry)) e0, (forall o, o ∈ l -> forall e', o = Some e' -> Key e' = k) ->
    first_some l = Some e0 -> Key e0 = k) as Hfirst.
  { induction l as [|[x|] l IH]; intros e0 Hl; simpl; [done| |].
    - intros [= <-]. by apply (Hl (Some x)); [left|].
    - apply IH. intros o Ho. apply Hl. by right. }
  destruct Hok as (Hm & _ & Hi & _).
  revert Hf. apply Hfirst. intros o Ho e' ->. rewrite !elem_of_cons in Ho.
  destruct Ho as [Ho|[Ho|Ho]]; [| |by inversion Ho]; symmetry in Ho; revert Ho.
  - apply Hfirst. intros o' Ho' e2 ->. apply list_elem_of_fmap in Ho' as (t & Ht & Hin).
    symmetry in Ht. apply (MemoryTable.Get_key k e2 t); [|done].
    apply elem_of_cons in Hin as [->|Hin]; [done|]. rewrite elem_of_reverse in Hin.
    rewrite Forall_forall in Hi. by apply Hi.
  - apply Hfirst. intros o' Ho' e2 ->. apply list_elem_of_fmap in Ho' as (lev & Hlev & _).
    symmetry in Hlev. revert Hlev. apply Hfirst. intros o2 Ho2 e3 ->.
    apply list_elem_of_fmap in Ho2 as (es & Hes & _). symmetry in Hes. by apply last_entry_Some in Hes as [_ ?].
Qed.

(** Cache and metrics are no part of what [state_ok] and a lookup depend on. *)
Lemma lookup_entry_cache k c m : lookup_entry k (with_bb (set_KeyCache c) m) = lookup_entry k m.
Proof. done. Qed.

Definition cache_wf m : Prop :=
  match KeyCache (bb m) with None => True | Some c => LruCache.lru_ok c end.

Lemma cache_ok_iff m : cache_ok m <-> cache_wf m /\
  forall k v, cached k m = Some v -> exists e, lookup_entry k m = Ok (Some e) /\ IsDeleted e = false /\ Value e = v.
Proof. unfold cache_ok, cache_wf, cached. destruct (KeyCache (bb m)) as [c|]; [done|]. by split. Qed.

Lemma cached_insert c k v m : cache_wf m -> KeyCache (bb m) = Some c ->
  let m' := with_bb (set_KeyCache (Some (LruCache.InsertIntoCache k v c))) m in
  cache_wf m' /\ forall k' v', cached k' m' = Some v' -> if decide (k = k') then v' = v else cached k' m = Some v'.
Proof.
  unfold cache_wf, cached. intros Hc Hk. rewrite Hk in Hc |- *. cbn [KeyCache with_bb bb set_KeyCache mbind option_bind].
  destruct (LruCache.InsertIntoCache_spec k v c Hc) as (Hc' & _ & Habs). split; [done|].
  rewrite Habs. intros k' v'. apply LruCache.spec_lookup_insert.
Qed.

Lemma fold_remove_spec ks : forall c, LruCache.lru_ok c ->
  let c' := fold_left (fun c k => LruCache.RemoveFromCache k c) ks c in
  LruCache.lru_ok c' /\ LruCache.CapacityCount c' = LruCache.CapacityCount c /\
  forall k, LruCache.Spec.lookup k (LruCache.abs c')
    = if decide (k ∈ ks) then None else LruCache.Spec.lookup k (LruCache.abs c).
Proof.
  induction ks as [|k0 ks IH]; intros c Hc; cbn [fold_left].
  { split_and!; [done|done|]. intros k. by rewrite decide_False by (intros Hx; inversion Hx). }
  destruct (LruCache.RemoveFromCache_spec k0 c Hc) as (Hc1 & Hcap & Habs).
  destruct (IH _ Hc1) as (Hc2 & Hcap2 & Hl). split_and!; [done|congruence|]. intros k. rewrite Hl, Habs.
  rewrite LruCache.spec_lookup_remove. destruct (decide (k ∈ ks)) as [Hin|Hin].
  - by rewrite decide_True by (by right).
  - destruct (decide (k0 = k)) as [->|Hne]; [by rewrite decide_True by left|].
    by rewrite decide_False by (by intros [?|?]%elem_of_cons).
Qed.

(** A batch the engine acknowledges uncaches its keys, and keeps the cache
    coherent. *)
Lemma processBatch_cached m contents batch now now_rot :
  state_ok m contents -> wal_open m -> cache_wf m -> batch <> [] ->
  let m' := fst (processBatch batch now now_rot m) in
  cache_wf m' /\ forall k, cached k m' = if decide (k ∈ req_Key <$> batch) then None else cached k m.
Proof.
  intros Hok Hopen Hc Hne. cbv zeta.
  destruct (writeWalIfEnabled_ok m contents (prepareEntries batch [] now) Hok Hopen) as (f & Hw & _).
  pose proof (processBatch_cache batch now now_rot m _ Hne Hw) as Hkc.
  unfold cache_wf, cached in *. rewrite Hkc.
  destruct (KeyCache (bb m)) as [c|]; [|split; [done|]; intros k; by case_decide].
  cbn [fmap option_fmap option_map mbind option_bind].
  by destruct (fold_remove_spec (req_Key <$> batch) c Hc) as (Hlru' & _ & Hl).
Qed.

Lemma processBatch_cache_ok m contents batch now now_rot :
  state_ok m contents -> wal_open m -> cache_ok m -> batch <> [] -> Forall req_fits batch ->
  rotation_fresh now_rot m ->
  let m' := fst (processBatch batch now now_rot m) in
  cache_ok m' /\ forall req, req ∈ batch -> cached (req_Key req) m' = None.
Proof.
  intros Hok Hopen [Hc Hcoh]%cache_ok_iff Hne Hfit Hfresh. cbv zeta.
  destruct (processBatch_cached m contents batch now now_rot Hok Hopen Hc Hne) as [Hc' Hk].
  pose proof (processBatch_ok m contents batch now now_rot Hok Hopen Hne Hfit Hfresh) as Hp.
  destruct (processBatch batch now now_rot m) as [m' out]. cbn [fst] in *. destruct Hp as (_ & _ & Hv). split.
  - apply cache_ok_iff. split; [done|]. intros k v. rewrite Hk. case_decide as Hin; [done|]. intros Hkv.
    destruct (Hcoh k v Hkv) as (e & He & ?). exists e. rewrite Hv.
    destruct (last_entry k (stored now <$> batch)) as [e'|] eqn:El; [|done].
    apply last_entry_Some in El as [He' <-]. exfalso. apply Hin.
    apply list_elem_of_fmap in He' as (req & -> & Hreq). by apply (list_elem_of_fmap_2 req_Key).
  - intros req Hreq. rewrite Hk. by rewrite decide_True by by apply list_elem_of_fmap_2.
Qed.

Lemma Submit_cache_ok m contents key val ttl deleted now now_rot :
  state_ok m contents -> wal_open m -> cache_ok m -> req_fits (mkReq key val ttl deleted None) ->
  rotation_fresh now_rot m ->
  let '(m', _) := SubmitIngestionRequest key val ttl deleted now now_rot m in
  cache_ok m' /\ cached key m' = None.
Proof.
  intros Hok Hopen Hc Hfit Hfresh. unfold SubmitIngestionRequest, run_single.
  cbn [drainSingleQueue length Nat.min take drop app].
  set (req := mkReq key val ttl deleted (Some 0%nat)).
  destruct (processBatch_cache_ok m contents [req] now now_rot Hok Hopen Hc) as [Hc' Hk];
    [done|by repeat constructor; apply Hfit|done|].
  destruct (processBatch [req] now now_rot m) as [m' out]. split; [done|]. apply (Hk req). left.
Qed.

(** What the cache lookup leaves behind. *)
Definition touch_cache (k : string) m : machine B :=
  match KeyCache (bb m) with
  | None => m
  | Some c => with_bb (set_KeyCache (Some (LruCache.RetrieveFromCache k c).2)) m
  end.

Lemma touch_cache_spec k m : cache_wf m -> cache_wf (touch_cache k m) /\
  Global (touch_cache k m) = Global m /\ forall k', cached k' (touch_cache k m) = cached k' m.
Proof.
  unfold cache_wf, touch_cache, cached. destruct (KeyCache (bb m)) as [c|] eqn:E; [|by rewrite E].
  intros Hc. cbn [KeyCache with_bb bb set_KeyCache mbind option_bind].
  pose proof (LruCache.RetrieveFromCache_spec k c Hc) as Hr.
  destruct (LruCache.RetrieveFromCache k c) as [r c']. destruct Hr as (Hlru' & _ & Habs). cbn [fst snd].
  split_and!; [done|done|]. intros k'. assert (LruCache.abs c' = (LruCache.Spec.retrieve k (LruCache.abs c)).2) as -> by by rewrite Habs.
  apply LruCache.spec_lookup_retrieve.
Qed.

Lemma tryServeFromCache_spec k m : cache_wf m ->
  tryServeFromCache k m =
    match cached k m with
    | Some v => (updateMetrics (touch_cache k m), Some (writeJSON k v))
    | None => (touch_cache k m, None)
    end.
Proof.
  unfold tryServeFromCache, touch_cache, cache_wf, cached. destruct (KeyCache (bb m)) as [c|]; [|done].
  intros Hc. cbn [mbind option_bind]. pose proof (LruCache.RetrieveFromCache_spec k c Hc) as Hr.
  destruct (LruCache.RetrieveFromCache k c) as [r c']. destruct Hr as (_ & _ & Habs). cbn [fst snd].
  unfold LruCache.Spec.retrieve in Habs. destruct (LruCache.Spec.lookup k _); by injection Habs as <- _.
Qed.

(** Serving a key changes the cache and the counters only. *)
Lemma findAndServe_only_cache now k m : exists c g,
  fst (findAndServe now k m) = mkMachine (set_KeyCache c (bb m)) (fs m) g.
Proof.
  assert (exists c g, (tryServeFromCache k m).1 = mkMachine (set_KeyCache c (bb m)) (fs m) g) as (c & g & Hm1).
  { unfold tryServeFromCache, updateMetrics. destruct m as [[? ? ? ? ? ? ? [kc|]] f0 g0]; cbn; repeat case_match; by eexists _, _. }
  assert (forall e m1 c1 g1, m1 = mkMachine (set_KeyCache c1 (bb m)) (fs m) g1 ->
    exists c2 g2, (processEntry now e m1).1 = mkMachine (set_KeyCache c2 (bb m)) (fs m) g2) as Hpe.
  { intros e m1 c1 g1 ->. unfold processEntry. repeat case_match; by eexists _, _. }
  unfold findAndServe. destruct (tryServeFromCache k m) as [m1 [out|]]; [by exists c, g|]. cbn in Hm1.
  unfold tryServeFromMemory. destruct (lookup_memory k (bb m1)) as [e|].
  - destruct (Hpe e m1 c g Hm1) as (c2 & g2 & He). destruct (processEntry now e m1) as [m2 out]. by exists c2, g2.
  - unfold tryServeFromDisk. destruct (find_levels _ _ _ _) as [[e|]| |]; try (by exists c, g).
    destruct (Hpe e m1 c g Hm1) as (c2 & g2 & He). destruct (processEntry now e m1) as [m2 out]. by exists c2, g2.
Qed.

Lemma set_cache_same m c g : let m' := mkMachine (set_KeyCache c (bb m)) (fs m) g in
  (forall contents, state_ok m contents -> state_ok m' contents) /\
  (forall k, lookup_entry k m' = lookup_entry k m) /\ Configuration (bb m') = Configuration (bb m) /\
  ActiveWal (bb m') = ActiveWal (bb m) /\ fs m' = fs m.
Proof. done. Qed.

(** What serving an entry does to the cache. *)
Lemma processEntry_spec now e m : cache_wf m ->
  let '(m', out) := processEntry now e m in
  out = serve (Key e) (visible now (Some e)) /\ Global m' = Global m /\ cache_wf m' /\
  forall k' v, cached k' m' = Some v ->
    cached k' m = Some v \/ (k' = Key e /\ IsDeleted e = false /\ Value e = v).
Proof.
  intros Hc. unfold processEntry, visible. destruct (IsDeleted e) eqn:Hd; [by split_and!; auto|].
  destruct (_ && _); [by split_and!; auto|]. destruct (KeyCache (bb m)) as [c|] eqn:E; [|by split_and!; auto].
  destruct (cached_insert c (Key e) (Value e) m Hc E) as [Hc' Hk]. split_and!; [done..|].
  intros k' v Hv. specialize (Hk k' v Hv). case_decide; [right|by left]. by subst.
Qed.

(** The search order: cache, memory, disk. The cache may hold anything. *)
Lemma findAndServe_serves now k m contents : state_ok m contents -> cache_wf m ->
  let '(m', r) := findAndServe now k m in
  exists o, lookup_entry k m = Ok o /\
    match cached k m with
    | Some v => r = Ok (Some (writeJSON k v)) /\ Global m' = Global (updateMetrics m)
    | None => r = Ok (match o with Some _ => Some (serve k (visible now o)) | None => None end) /\
              Global m' = Global m
    end /\ cache_wf m' /\
    forall k' v, cached k' m' = Some v ->
      cached k' m = Some v \/ (k' = k /\ exists e, o = Some e /\ IsDeleted e = false /\ Value e = v).
Proof.
  intros Hok Hc. unfold findAndServe. rewrite tryServeFromCache_spec by done.
  destruct (touch_cache_spec k m Hc) as (Hc1 & Hg & Hk1).
  assert (lookup_entry k (touch_cache k m) = lookup_entry k m) as Hl by (unfold touch_cache; by destruct (KeyCache (bb m))).
  set (mc := touch_cache k m) in *. clearbody mc.
  destruct (lookup_entry k m) as [o| |] eqn:Hlook;
    [|by rewrite (lookup_entry_spec k m contents Hok) in Hlook..].
  destruct (cached k m) as [v|] eqn:Ec.
  { exists o. unfold updateMetrics. cbn [Global]. rewrite Hg. split_and!; [done..|]. intros k' v' Hv. left. by rewrite <- Hk1. }
  assert (forall e, o = Some e -> let '(m', out) := processEntry now e mc in
    (out = serve k (visible now o) /\ Global m' = Global m) /\ cache_wf m' /\
    forall k' v, cached k' m' = Some v ->
      cached k' m = Some v \/ (k' = k /\ exists e0, o = Some e0 /\ IsDeleted e0 = false /\ Value e0 = v)) as Hpe.
  { intros e ->. pose proof (processEntry_spec now e mc Hc1) as Hp. destruct (processEntry now e mc) as [m' out].
    destruct Hp as (-> & Hg' & Hc' & Hk'). pose proof (lookup_entry_key k e m contents Hok Hlook) as Hkey.
    split_and!; [by rewrite Hkey|by rewrite Hg'|done|]. intros k' v Hv.
    destruct (Hk' k' v Hv) as [?|(-> & ? & ?)]; [left; by rewrite <- Hk1|right]. split; [done|]. by exists e. }
  unfold lookup_entry in Hl. unfold tryServeFromMemory, tryServeFromDisk.
  destruct (lookup_memory k (bb mc)) as [e|].
  - injection Hl as <-. specialize (Hpe e eq_refl). destruct (processEntry now e mc) as [m' out].
    destruct Hpe as ((-> & Hg') & Hc' & Hk'). exists (Some e). by split_and!.
  - rewrite Hl. destruct o as [e|].
    + specialize (Hpe e eq_refl). destruct (processEntry now e mc) as [m' out].
      destruct Hpe as ((-> & Hg') & Hc' & Hk'). exists (Some e). by split_and!.
    + exists None. split_and!; [done..|]. intros k' v Hv. left. by rewrite <- Hk1.
Qed.

(** *** The two halves of a search

    [findAndServe] takes no lock between finding an entry and caching it: what
    it answers is settled by the first half, [fetch], and the second, [fill],
    puts the value of the entry (if there is one to serve) into the cache. *)
Definition fetch (now : Z) (k : string) m : machine B * outcome (option (list ctx_call)) * option Entry :=
  match tryServeFromCache k m with
  | (m, Some out) => (m, Ok (Some out), None)
  | (m, None) =>
    match lookup_entry k m with
    | Ok (Some e) =>
      (m, Ok (Some (serve (Key e) (visible now (Some e)))), match visible now (Some e) with Some _ => Some e | None => None end)
    | Ok None => (m, Ok None, None)
    | Err => (m, Err, None)
    | Panic => (m, Panic, None)
    end
  end.

Definition fill (e : Entry) m : machine B :=
  match KeyCache (bb m) with
  | None => m
  | Some c => with_bb (set_KeyCache (Some (LruCache.InsertIntoCache (Key e) (Value e) c))) m
  end.

Lemma findAndServe_halves now k m :
  findAndServe now k m =
    let '(m', r, found) := fetch now k m in (match found with Some e => fill e m' | None => m' end, r).
Proof.
  unfold findAndServe, fetch, tryServeFromMemory, tryServeFromDisk, lookup_entry.
  destruct (tryServeFromCache k m) as [m1 [out|]]; [done|].
  assert (forall e, processEntry now e m1 = (match match visible now (Some e) with Some _ => Some e | None => None end with
    Some e => fill e m1 | None => m1 end, serve (Key e) (visible now (Some e)))) as Hpe.
  { intros e. unfold processEntry, visible, fill. by repeat case_match; simplify_eq. }
  destruct (lookup_memory k (bb m1)) as [e|]; [by rewrite Hpe|].
  destruct (find_levels _ _ _ _) as [[e|]| |]; [by rewrite Hpe|done..].
Qed.

Lemma fill_spec e m : cache_wf m -> cache_wf (fill e m) /\
  forall k v, cached k (fill e m) = Some v -> if decide (Key e = k) then v = Value e else cached k m = Some v.
Proof.
  intros Hc. unfold fill. destruct (KeyCache (bb m)) as [c|] eqn:E; [by apply cached_insert|].
  split; [done|]. intros k v. unfold cached. by rewrite E.
Qed.

(** The first half settles the answer and leaves the cached values alone. *)
Lemma fetch_spec now k m contents : state_ok m contents -> cache_wf m ->
  let '(m', r, found) := fetch now k m in
  exists o, lookup_entry k m = Ok o /\
    r = Ok (match cached k m with
            | Some v => Some (serve k (Some v))
            | None => match o with Some _ => Some (serve k (visible now o)) | None => None end
            end) /\
    (exists c g, m' = mkMachine (set_KeyCache c (bb m)) (fs m) g) /\ cache_wf m' /\
    forall k', cached k' m' = cached k' m.
Proof.
  intros Hok Hc. unfold fetch. rewrite tryServeFromCache_spec by done.
  destruct (touch_cache_spec k m Hc) as (Hc1 & _ & Hk1).
  assert (exists c g, touch_cache k m = mkMachine (set_KeyCache c (bb m)) (fs m) g) as (c & g & Htc).
  { unfold touch_cache. destruct m as [[? ? ? ? ? ? ? [kc|]] f0 g0]; by eexists _, _. }
  assert (lookup_entry k (touch_cache k m) = lookup_entry k m) as Hl by by rewrite Htc.
  destruct (lookup_entry k m) as [o| |] eqn:Hlook;
    [|by rewrite (lookup_entry_spec k m contents Hok) in Hlook..].
  destruct (cached k m) as [v|]; [exists o; split_and!; try done; rewrite Htc; by eexists _, _|].
  rewrite Hl. destruct o as [e|].
  - exists (Some e). rewrite (lookup_entry_key k e m contents Hok Hlook). split_and!; try done. rewrite Htc. by eexists _, _.
  - exists None. split_and!; try done. rewrite Htc. by eexists _, _.
Qed.

(** *** A cache that takes what it is given *)

Definition cache_takes m : Prop :=
  exists c, KeyCache (bb m) = Some c /\ LruCache.lru_bounded c /\ 1 <= LruCache.CapacityCount c.

Lemma fetch_takes now k m : cache_takes m -> cache_takes (fetch now k m).1.1.
Proof.
  intros (c & Hk & Hb & Hcap). pose proof (LruCache.lru_step_bounded (LruCache.OpGet k) c Hb) as Hs. cbn in Hs.
  unfold fetch, tryServeFromCache. rewrite Hk. destruct (LruCache.RetrieveFromCache k c) as [[v|] c'];
    destruct Hs as [Hb' Hcap']; (eassert (cache_takes (with_bb (set_KeyCache (Some c')) m)) as Ht;
      [exists c'; split_and!; [done..|lia]|]).
  - done.
  - by destruct (lookup_entry k _) as [[e|]| |].
Qed.

Lemma processBatch_takes m contents batch now now_rot : state_ok m contents -> wal_open m -> batch <> [] ->
  cache_takes m -> cache_takes (fst (processBatch batch now now_rot m)).
Proof.
  intros Hok Hopen Hne (c & Hk & Hb & Hcap).
  destruct (writeWalIfEnabled_ok m contents (prepareEntries batch [] now) Hok Hopen) as (f & Hw & _).
  unfold cache_takes. rewrite (processBatch_cache batch now now_rot m _ Hne Hw), Hk. eexists. split; [done|].
  clear Hk. revert c Hb Hcap. induction (req_Key <$> batch) as [|k ks IH]; intros c Hb Hcap; [done|].
  cbn [fold_left]. destruct (LruCache.lru_step_bounded (LruCache.OpDel k) c Hb) as [Hb' Hcap']. apply IH; [done|]. cbn in Hcap'. lia.
Qed.

Lemma fill_cached e m : cache_takes m -> cached (Key e) (fill e m) = Some (Value e).
Proof.
  intros (c & Hk & [Hok Hlen] & Hcap). unfold fill, cached. rewrite Hk. cbn [KeyCache with_bb bb set_KeyCache mbind option_bind].
  destruct (LruCache.InsertIntoCache_spec (Key e) (Value e) c Hok) as (_ & _ & ->).
  apply LruCache.spec_lookup_inserted; lia.
Qed.

(** With a coherent cache. *)
Lemma findAndServe_spec now k m contents : state_ok m contents -> cache_ok m ->
  let '(m', r) := findAndServe now k m in
  state_ok m' contents /\ cache_ok m' /\ (forall k', lookup_entry k' m' = lookup_entry k' m) /\
  Configuration (bb m') = Configuration (bb m) /\ ActiveWal (bb m') = ActiveWal (bb m) /\ fs m' = fs m /\
  exists o, lookup_entry k m = Ok o /\
    match cached k m with
    | Some v => r = Ok (Some (writeJSON k v)) /\ Global m' = Global (updateMetrics m)
    | None => r = Ok (match o with Some _ => Some (serve k (visible now o)) | None => None end) /\
              Global m' = Global m
    end.
Proof.
  intros Hok [Hc Hcoh]%cache_ok_iff. pose proof (findAndServe_serves now k m contents Hok Hc) as Hs.
  destruct (findAndServe_only_cache now k m) as (c & g & Hm'). destruct (findAndServe now k m) as [m' r].
  cbn [fst] in Hm'. destruct (set_cache_same m c g) as (Hsame & Hl & Hrest). rewrite <- Hm' in *.
  destruct Hs as (o & Ho & Hr & Hc' & Hk'). split_and!; [by apply Hsame| |done|apply Hrest..|by exists o].
  apply cache_ok_iff. split; [done|]. intros k' v Hv. rewrite Hl.
  destruct (Hk' k' v Hv) as [?|(-> & e & -> & ? & ?)]; [by apply Hcoh|by exists e].
Qed.

End RouterLemmas.

(** *** The payloads the clients send *)

Definition put_payload (key value : string) (ttl : Z) : payload :=
  PDict [("key", PStr key); ("value", PStr value); ("ttl", PNum ttl)]%string.

Lemma decode_put_payload key value ttl : is_i64 ttl ->
  decode_put (payload_json (put_payload key value ttl)) = Some (mkPut (join_surrogates key) (join_surrogates value) ttl).
Proof.
  intros Ht. unfold decode_put, put_payload. cbn [payload_json map decode_item fold_option].
  change (set_put_field zero_put ("key"%string, JStr key)) with (Some (mkPut (join_surrogates key) "" 0)).
  cbn [mbind option_bind].
  change (set_put_field (mkPut ?k "" 0) ("value"%string, JStr value)) with (Some (mkPut k (join_surrogates value) 0)).
  cbn [mbind option_bind].
  change (set_put_field (mkPut ?k ?v 0) ("ttl"%string, JNum (PInt ttl)))
    with (z ← set_int (JNum (PInt ttl)) 0; Some (mkPut k v z)).
  cbn [set_int]. by rewrite decide_True.
Qed.

Lemma put_payload_ok key value ttl : ascii_string key -> ascii_string value -> is_i64 ttl ->
  payload_ok (put_payload key value ttl).
Proof. intros Hk Hv Ht. cbn. split_and!; try done; by apply ascii_check_ok. Qed.

(** A put is one object deep. *)
Lemma scanned_put key value ttl :
  scanned (payload_json (put_payload key value ttl)) = Some (payload_json (put_payload key value ttl)).
Proof. by apply scanned_shallow. Qed.

Lemma Unmarshal_put key value ttl : ascii_string key -> ascii_string value -> is_i64 ttl ->
  Unmarshal decode_put (dumps (put_payload key value ttl)) = Some (mkPut key value ttl).
Proof.
  intros Hk Hv Ht. unfold Unmarshal. rewrite to_valid_ascii by apply dumps_ascii.
  rewrite parse_dumps by (by apply put_payload_ok). cbn [mbind option_bind].
  rewrite scanned_put. cbn [mbind option_bind]. by rewrite decode_put_payload, !join_surrogates_ascii.
Qed.

Definition batch_payload (items : list (string * string * Z)) : payload :=
  PDict [("items"%string, PList ((fun '(k, v, ttl) => put_payload k v ttl) <$> items))].

Lemma decode_items_puts items : Forall (fun '(k, v, ttl) => ascii_string k /\ ascii_string v /\ is_i64 ttl) items ->
  decode_items [] (map payload_json ((fun '(k, v, ttl) => put_payload k v ttl) <$> items))
  = Some ((fun '(k, v, ttl) => mkPut k v ttl) <$> items).
Proof.
  induction 1 as [|[[k v] ttl] items (Hk & Hv & Ht) Hitems IH]; [done|]. cbn [fmap list_fmap map decode_items head default tail].
  fold (decode_put (payload_json (put_payload k v ttl))). change (default zero_put (@None SinglePutRequestPayload)) with zero_put.
  fold (decode_put (payload_json (put_payload k v ttl))).
  rewrite decode_put_payload, !join_surrogates_ascii by done. cbn [mbind option_bind]. by rewrite IH.
Qed.

(** A member twice: the second item keeps the value the first one had. *)
Example items_twice : decode_batch (JObj
    [("items", JArr [JObj [("key", JStr "a"); ("value", JStr "1")]; JObj [("key", JStr "b")]]);
     ("items", JArr [JObj [("key", JStr "c")]])])%string
  = Some [mkPut "c" "1" 0].
Proof. reflexivity. Qed.

(** A batch is three deep. *)
Lemma scanned_batch items :
  scanned (payload_json (batch_payload items)) = Some (payload_json (batch_payload items)).
Proof.
  apply scanned_shallow. unfold batch_payload, maxNestingDepth. cbn [payload_json map json_depth foldr].
  assert (foldr Z.max 0 (map json_depth (map payload_json ((fun '(k, v, ttl) => put_payload k v ttl) <$> items))) <= 1); [|lia].
  induction items as [|[[k v] ttl] items IH]; [done|]. cbn in *. lia.
Qed.

Lemma Unmarshal_batch items :
  Forall (fun '(k, v, ttl) => ascii_string k /\ ascii_string v /\ is_i64 ttl) items ->
  Unmarshal decode_batch (dumps (batch_payload items)) = Some ((fun '(k, v, ttl) => mkPut k v ttl) <$> items).
Proof.
  intros Hit. unfold Unmarshal. rewrite to_valid_ascii by apply dumps_ascii. rewrite parse_dumps.
  - cbn [mbind option_bind]. rewrite scanned_batch. cbn [mbind option_bind]. unfold batch_payload. cbn [payload_json map decode_batch fold_option].
    destruct items as [|it items]; [done|]. set (l := map payload_json _).
    assert (set_items ([], []) ("items"%string, JArr l) = (items ← decode_items [] l; Some (items, []))) as -> by done.
    unfold l. rewrite decode_items_puts by done. reflexivity.
  - cbn. split; [split; [by apply ascii_check_ok|]|done].
    induction Hit as [|[[k v] ttl] items (Hk & Hv & Ht) Hit IH]; [done|]. split; [|exact IH].
    by apply put_payload_ok.
Qed.

Lemma last_entry_batch k now batch : last_entry k (stored now <$> batch) = None <-> k ∉ req_Key <$> batch.
Proof. rewrite last_entry_in. by rewrite <- list_fmap_compose. Qed.

(** ** Properties *)

Section Properties.
Context `{BloomFilterLaws B}.
Context (decrypt : string -> string -> bool) (error_text : go_error -> string) (numShards : Z).
Implicit Types (m : machine B).

(** A server in a consistent state whose log can be written. *)
Definition server_ok m (contents : list (list (list Entry))) : Prop :=
  state_ok m contents /\ wal_open m /\ cache_ok m.

Lemma routePath_eq e ctx m :
  (Path ctx = "/put"%string -> routePath error_text numShards e ctx m = HandleSinglePutRequest error_text e ctx m) /\
  (Path ctx = "/get"%string -> routePath error_text numShards e ctx m = HandleGetRequest e ctx m) /\
  (Path ctx = "/batch"%string ->
     routePath error_text numShards e ctx m = HandleBatchPutRequest error_text numShards e ctx m) /\
  (Path ctx = "/delete"%string -> routePath error_text numShards e ctx m = HandleDeleteRequest error_text e ctx m) /\
  (Path ctx = "/metrics"%string -> routePath error_text numShards e ctx m = HandleMetricsRequest ctx m) /\
  (Path ctx = "/health"%string -> routePath error_text numShards e ctx m = (m, Ok [CtxError "Not Found" 404])).
Proof. unfold routePath. split_and!; intros ->; reflexivity. Qed.

Lemma checkAuth_config ctx m m' : Configuration (bb m') = Configuration (bb m) ->
  checkAuth decrypt ctx m' = checkAuth decrypt ctx m.
Proof. unfold checkAuth. by intros ->. Qed.

Lemma Submit_server_ok m contents key val ttl deleted now now_rot :
  server_ok m contents -> req_fits (mkReq key val ttl deleted None) -> rotation_fresh now_rot m ->
  let '(m', err) := SubmitIngestionRequest key val ttl deleted now now_rot m in
  server_ok m' contents /\ Configuration (bb m') = Configuration (bb m) /\ err = None /\
  cached key m' = None /\
  lookup_entry key m' = Ok (Some (mkEntry key val
    (if 0 <? ttl then i64 (now + i64 (ttl * 1000000000)) else 0) deleted)) /\
  forall k, k <> key -> lookup_entry k m' = lookup_entry k m.
Proof.
  intros (Hok & Hopen & Hc) Hfit Hfresh.
  pose proof (Submit_cache_ok m contents key val ttl deleted now now_rot Hok Hopen Hc Hfit Hfresh) as Hsc.
  unfold SubmitIngestionRequest, run_single in *. cbn [drainSingleQueue length Nat.min take drop app] in *.
  set (req := mkReq key val ttl deleted (Some 0%nat)) in *.
  pose proof (processBatch_ok m contents [req] now now_rot Hok Hopen ltac:(done)) as Hp.
  pose proof (processBatch_wal_open [req] now now_rot m Hopen) as Hopen'.
  pose proof (processBatch_config [req] now now_rot m) as Hcfg.
  destruct (processBatch [req] now now_rot m) as [m' out]. cbn [fst] in *.
  destruct Hp as (Hok' & -> & Hv); [by repeat constructor; apply Hfit|done|]. destruct Hsc as [Hsc Hnc].
  split_and!; try done; intros; rewrite Hv; unfold last_entry; cbn [fold_left fmap list_fmap].
  - by rewrite decide_True.
  - by rewrite decide_False.
Qed.

Lemma handleGet_spec e ctx m contents : server_ok m contents ->
  Method ctx = "GET"%string -> Path ctx = "/get"%string -> QueryKey ctx <> ""%string ->
  checkAuth decrypt ctx m = true ->
  let '(m', out) := handleRequest decrypt error_text numShards e ctx m in
  server_ok m' contents /\ (forall k, lookup_entry k m' = lookup_entry k m) /\
  Configuration (bb m') = Configuration (bb m) /\
  exists o, lookup_entry (QueryKey ctx) m = Ok o /\
    out = Ok match cached (QueryKey ctx) m with
             | Some v => writeJSON (QueryKey ctx) v
             | None => serve (QueryKey ctx) (visible (e_now e) o)
             end.
Proof.
  intros (Hok & Hopen & Hc) Hm Hp Hk Hauth. unfold handleRequest. rewrite Hauth.
  rewrite (proj1 (proj2 (routePath_eq _ _ _)) Hp).
  unfold HandleGetRequest, isMethodAllowed. rewrite Hm, decide_True by left. rewrite decide_False by done.
  pose proof (findAndServe_spec (e_now e) (QueryKey ctx) m contents Hok Hc) as Hf.
  destruct (findAndServe _ _ m) as [m' r].
  destruct Hf as (Hok' & Hc' & Hl & Hcf & Hw & Hfs & o & Ho & Hr).
  assert (server_ok m' contents) as Hs.
  { split_and!; [done| |done]. unfold wal_open. by rewrite Hcf, Hw. }
  destruct (cached _ m) as [v|].
  - destruct Hr as [-> _]. split_and!; try done. by exists o.
  - destruct Hr as [-> _]. destruct o as [e0|]; split_and!; try done; by eexists.
Qed.

(** C13. GET serves the newest entry, as the cache lets it. In a consistent state
    an authorised GET of a key the cache does not hold answers with the value of
    the key's newest entry, or Not Found when there is none, when it is a
    tombstone, or when its deadline is past; of a key the cache holds, with the
    cached value, which is that of the newest entry, no tombstone, whether its
    deadline is past or not; it changes no key's content, and the state
    stays consistent. *)
Theorem Get_serves_newest e ctx m contents : server_ok m contents ->
  Method ctx = "GET"%string -> Path ctx = "/get"%string -> QueryKey ctx <> ""%string ->
  checkAuth decrypt ctx m = true ->
  let k := QueryKey ctx in
  let '(m', out) := handleRequest decrypt error_text numShards e ctx m in
  exists o, lookup_entry k m = Ok o /\
    (cached k m = None -> out = Ok (serve k (visible (e_now e) o))) /\
    (forall v, cached k m = Some v -> out = Ok (serve k (Some v)) /\
       exists en, o = Some en /\ IsDeleted en = false /\ Value en = v) /\
    server_ok m' contents /\ forall k', lookup_entry k' m' = lookup_entry k' m.
Proof.
  intros Hs Hm Hp Hk Hauth k. pose proof (handleGet_spec e ctx m contents Hs Hm Hp Hk Hauth) as Hg.
  destruct (handleRequest _ _ _ e ctx m) as [m' out]. destruct Hg as (Hs' & Hl & _ & o & Ho & ->).
  exists o. fold k in Ho |- *. split_and!; try done.
  - by intros ->.
  - intros v Hv. rewrite Hv. split; [done|]. destruct Hs as (_ & _ & Hc). unfold cached, cache_ok in *.
    destruct (KeyCache (bb m)) as [c|]; [|done]. destruct Hc as [_ Hc]. cbn in Hv.
    destruct (Hc k v Hv) as (en & He & ? & ?). exists en. split_and!; try done. congruence.
Qed.

(** An authorised PUT of a text that decodes, answered 201. *)
Lemma handlePut_decoded e ctx m contents key value ttl : server_ok m contents -> rotation_fresh (e_now_rot e) m ->
  checkAuth decrypt ctx m = true -> Method ctx = "POST"%string -> Path ctx = "/put"%string ->
  Unmarshal decode_put (PostBody ctx) = Some (mkPut key value ttl) -> slen key < 2 ^ 32 -> slen value < 2 ^ 32 ->
  let '(m', out) := handleRequest decrypt error_text numShards e ctx m in
  out = Ok [SetStatusCode 201] /\ server_ok m' contents /\ Configuration (bb m') = Configuration (bb m) /\
  cached key m' = None /\
  lookup_entry key m' = Ok (Some (mkEntry key (to_bytes value)
    (if 0 <? ttl then i64 (e_now e + i64 (ttl * 1000000000)) else 0) false)) /\
  forall k, k <> key -> lookup_entry k m' = lookup_entry k m.
Proof.
  intros Hs Hfresh Hauth Hm Hp Hb Hlk Hlv.
  unfold handleRequest. rewrite Hauth, (proj1 (routePath_eq _ _ _) Hp).
  unfold HandleSinglePutRequest, isMethodAllowed.
  rewrite Hm, decide_True by left. rewrite Hb. cbn [put_Key put_Value put_TimeToLive].
  pose proof (Submit_server_ok m contents key (to_bytes value) ttl false (e_now e) (e_now_rot e) Hs) as Hsub.
  destruct (SubmitIngestionRequest _ _ _ _ _ _ m) as [m1 err].
  destruct Hsub as (Hs1 & Hcf & -> & Hnc & He & Hl); [split; cbn; rewrite ?zlen_to_bytes; done|done|].
  by split_and!.
Qed.

(** The text Python's client sends. *)
Lemma handlePut_spec e ctx m contents key value ttl : server_ok m contents -> rotation_fresh (e_now_rot e) m ->
  checkAuth decrypt ctx m = true -> Method ctx = "POST"%string -> Path ctx = "/put"%string ->
  PostBody ctx = dumps (put_payload key value ttl) ->
  ascii_string key -> ascii_string value -> is_i64 ttl -> slen key < 2 ^ 32 -> slen value < 2 ^ 32 ->
  let '(m', out) := handleRequest decrypt error_text numShards e ctx m in
  out = Ok [SetStatusCode 201] /\ server_ok m' contents /\ Configuration (bb m') = Configuration (bb m) /\
  cached key m' = None /\
  lookup_entry key m' = Ok (Some (mkEntry key (to_bytes value)
    (if 0 <? ttl then i64 (e_now e + i64 (ttl * 1000000000)) else 0) false)) /\
  forall k, k <> key -> lookup_entry k m' = lookup_entry k m.
Proof.
  intros Hs Hfresh Hauth Hm Hp Hb Hk Hv Ht Hlk Hlv.
  apply handlePut_decoded; try done. by rewrite Hb, Unmarshal_put.
Qed.

(** An authorised DELETE, answered 200. *)
Lemma handleDelete_spec e ctx m contents : server_ok m contents -> rotation_fresh (e_now_rot e) m ->
  checkAuth decrypt ctx m = true -> Method ctx ∈ ["DELETE"; "POST"]%string -> Path ctx = "/delete"%string ->
  QueryKey ctx <> ""%string -> slen (QueryKey ctx) < 2 ^ 32 ->
  let '(m', out) := handleRequest decrypt error_text numShards e ctx m in
  out = Ok [SetStatusCode 200] /\ server_ok m' contents /\ Configuration (bb m') = Configuration (bb m) /\
  cached (QueryKey ctx) m' = None /\
  lookup_entry (QueryKey ctx) m' = Ok (Some (mkEntry (QueryKey ctx) [] 0 true)) /\
  forall k, k <> QueryKey ctx -> lookup_entry k m' = lookup_entry k m.
Proof.
  intros Hs Hfresh Hauth Hm Hp Hne Hlk.
  unfold handleRequest. rewrite Hauth, (proj1 (proj2 (proj2 (proj2 (routePath_eq _ _ _)))) Hp).
  unfold HandleDeleteRequest, isMethodAllowed. rewrite decide_True by done. rewrite decide_False by done.
  pose proof (Submit_server_ok m contents (QueryKey ctx) [] 0 true (e_now e) (e_now_rot e) Hs) as Hsub.
  destruct (SubmitIngestionRequest _ _ _ _ _ _ m) as [m1 err].
  destruct Hsub as (Hs1 & Hcf & -> & Hnc & He & Hl); [split; cbn; [done|unfold zlen; simpl; lia]|done|].
  by split_and!.
Qed.

(** C12. A value put over HTTP is the value got over HTTP: after an authorised
    [POST /put] with the JSON text a client sends, which is answered 201, a GET
    of that key serves exactly that value until the deadline, and Not Found
    after it. *)
Theorem Put_then_Get e1 e2 put get m contents key value ttl : server_ok m contents ->
  rotation_fresh (e_now_rot e1) m -> checkAuth decrypt put m = true -> checkAuth decrypt get m = true ->
  Method put = "POST"%string -> Path put = "/put"%string ->
  PostBody put = dumps (put_payload key value ttl) ->
  Method get = "GET"%string -> Path get = "/get"%string -> QueryKey get = key ->
  key <> ""%string -> ascii_string key -> ascii_string value -> is_i64 ttl ->
  slen key < 2 ^ 32 -> slen value < 2 ^ 32 ->
  let '(m1, out1) := handleRequest decrypt error_text numShards e1 put m in
  let '(m2, out2) := handleRequest decrypt error_text numShards e2 get m1 in
  let deadline := if 0 <? ttl then i64 (e_now e1 + i64 (ttl * 1000000000)) else 0 in
  out1 = Ok [SetStatusCode 201] /\
  out2 = Ok (serve key (if (0 <? deadline) && (deadline <? e_now e2) then None
                        else Some (to_bytes value))).
Proof.
  intros Hs Hfresh Ha1 Ha2 Hm1 Hp1 Hb Hm2 Hp2 Hq Hne Hk Hv Ht Hlk Hlv.
  pose proof (handlePut_spec e1 put m contents key value ttl Hs Hfresh Ha1 Hm1 Hp1 Hb Hk Hv Ht Hlk Hlv) as Hput.
  destruct (handleRequest _ _ _ e1 put m) as [m1 out1]. destruct Hput as (-> & Hs1 & Hcf & Hnc & He & _).
  rewrite <- (checkAuth_config get m m1 Hcf) in Ha2. subst key.
  pose proof (handleGet_spec e2 get m1 contents Hs1 Hm2 Hp2 Hne Ha2) as Hg.
  destruct (handleRequest _ _ _ e2 get m1) as [m2 out2]. destruct Hg as (_ & _ & _ & o & Ho & ->).
  split; [done|]. rewrite Hnc. rewrite He in Ho. by apply (inj Ok) in Ho as <-.
Qed.

(** A delete hides a key for good: after an authorised DELETE, answered
    200, a GET of that key is Not Found at any later time. *)
Theorem Delete_then_Get e1 e2 del get m contents : server_ok m contents ->
  rotation_fresh (e_now_rot e1) m -> checkAuth decrypt del m = true -> checkAuth decrypt get m = true ->
  Method del = "DELETE"%string -> Path del = "/delete"%string ->
  Method get = "GET"%string -> Path get = "/get"%string -> QueryKey get = QueryKey del ->
  QueryKey del <> ""%string -> slen (QueryKey del) < 2 ^ 32 ->
  let '(m1, out1) := handleRequest decrypt error_text numShards e1 del m in
  let '(_, out2) := handleRequest decrypt error_text numShards e2 get m1 in
  out1 = Ok [SetStatusCode 200] /\ out2 = Ok [CtxError "Not Found" 404].
Proof.
  intros Hs Hfresh Ha1 Ha2 Hm1 Hp1 Hm2 Hp2 Hq Hne Hlk.
  pose proof (handleDelete_spec e1 del m contents Hs Hfresh Ha1 ltac:(rewrite Hm1; left) Hp1 Hne Hlk) as Hdel.
  destruct (handleRequest _ _ _ e1 del m) as [m1 out1]. destruct Hdel as (-> & Hs1 & Hcf & Hnc & He & _).
  rewrite <- (checkAuth_config get m m1 Hcf) in Ha2. rewrite <- Hq in Hne.
  pose proof (handleGet_spec e2 get m1 contents Hs1 Hm2 Hp2 Hne Ha2) as Hg.
  destruct (handleRequest _ _ _ e2 get m1) as [m2 out2]. destruct Hg as (_ & _ & _ & o & Ho & ->).
  split; [done|]. rewrite Hq, Hnc. rewrite Hq, He in Ho. by apply (inj Ok) in Ho as <-.
Qed.

(** A fresh entry served from the engine is in the cache afterwards. *)
Lemma processEntry_fills now en k c m : cache_ok m -> KeyCache (bb m) = Some c ->
  1 <= LruCache.CapacityCount c -> zlen (LruCache.abs c) <= LruCache.CapacityCount c ->
  cached k m = None -> Key en = k -> IsDeleted en = false -> now <= ExpiryTimestamp en ->
  cached k (processEntry now en (touch_cache k m)).1 = Some (Value en).
Proof.
  intros Hc Hkc Hcap Hlen Hnc Hken Hd Hnow. unfold processEntry. rewrite Hd.
  destruct (Z.ltb_spec (ExpiryTimestamp en) now); [lia|]. rewrite andb_false_r.
  unfold cache_ok in Hc. rewrite Hkc in Hc. destruct Hc as [Hlru _].
  pose proof (LruCache.RetrieveFromCache_spec k c Hlru) as Hr. unfold touch_cache. rewrite Hkc.
  destruct (LruCache.RetrieveFromCache k c) as [r c'] eqn:Er. destruct Hr as (Hlru' & Hcap' & Habs).
  cbn [KeyCache with_bb bb set_KeyCache snd fst]. unfold cached.
  cbn [KeyCache with_bb bb set_KeyCache fst mbind option_bind].
  destruct (LruCache.InsertIntoCache_spec (Key en) (Value en) c' Hlru') as (_ & _ & ->).
  rewrite Hken. apply LruCache.spec_lookup_inserted; [lia|].
  unfold cached in Hnc. rewrite Hkc in Hnc. cbn in Hnc.
  unfold LruCache.Spec.retrieve in Habs. rewrite Hnc in Habs. injection Habs as _ <-. lia.
Qed.

Lemma handleGet_fills e get m contents c en : server_ok m contents ->
  Method get = "GET"%string -> Path get = "/get"%string -> QueryKey get <> ""%string ->
  checkAuth decrypt get m = true ->
  KeyCache (bb m) = Some c -> 1 <= LruCache.CapacityCount c -> zlen (LruCache.abs c) <= LruCache.CapacityCount c ->
  lookup_entry (QueryKey get) m = Ok (Some en) -> IsDeleted en = false -> cached (QueryKey get) m = None ->
  e_now e <= ExpiryTimestamp en ->
  cached (QueryKey get) (handleRequest decrypt error_text numShards e get m).1 = Some (Value en).
Proof.
  intros (Hok & _ & Hc) Hm Hp Hk Hauth Hkc Hcap Hlen Hen Hd Hnc Hnow. set (k := QueryKey get) in *.
  unfold handleRequest. rewrite Hauth. rewrite (proj1 (proj2 (routePath_eq _ _ _)) Hp).
  unfold HandleGetRequest, isMethodAllowed. rewrite Hm, decide_True by left. fold k. rewrite decide_False by done.
  unfold findAndServe. rewrite tryServeFromCache_spec, Hnc by by apply cache_ok_iff.
  unfold tryServeFromMemory, tryServeFromDisk.
  pose proof (processEntry_fills (e_now e) en k c m Hc Hkc Hcap Hlen Hnc
    (lookup_entry_key _ _ _ _ Hok Hen) Hd Hnow) as Hpe.
  unfold lookup_entry in Hen.
  assert (lookup_memory k (bb (touch_cache k m)) = lookup_memory k (bb m) /\
    find_levels k (BloomF (bb (touch_cache k m))) (fs (touch_cache k m)) (SSTables (bb (touch_cache k m)))
    = find_levels k (BloomF (bb m)) (fs m) (SSTables (bb m))) as [E1 E2].
  { unfold touch_cache. by destruct (KeyCache (bb m)). }
  rewrite E1. destruct (lookup_memory k (bb m)) as [e0|].
  - injection Hen as ->. by destruct (processEntry (e_now e) en (touch_cache k m)).
  - rewrite E2, Hen. by destruct (processEntry (e_now e) en (touch_cache k m)).
Qed.

(** C11. The cache outlives the deadline. In a consistent state with a cache that
    holds no more than its capacity, of at least one key, but not this one: a GET
    in time fills the cache; after it, a GET past the deadline still serves the
    value, whereas without the first GET it is Not Found: the cache stores no
    expiry. *)
Theorem Cache_outlives_deadline e1 e2 get m contents c en : server_ok m contents ->
  Method get = "GET"%string -> Path get = "/get"%string -> QueryKey get <> ""%string ->
  checkAuth decrypt get m = true ->
  KeyCache (bb m) = Some c -> 1 <= LruCache.CapacityCount c -> zlen (LruCache.abs c) <= LruCache.CapacityCount c ->
  lookup_entry (QueryKey get) m = Ok (Some en) -> IsDeleted en = false -> cached (QueryKey get) m = None ->
  0 < ExpiryTimestamp en -> e_now e1 <= ExpiryTimestamp en < e_now e2 ->
  let k := QueryKey get in
  let '(m1, out1) := handleRequest decrypt error_text numShards e1 get m in
  let '(_, out2) := handleRequest decrypt error_text numShards e2 get m1 in
  let '(_, out3) := handleRequest decrypt error_text numShards e2 get m in
  out1 = Ok (serve k (Some (Value en))) /\ out2 = Ok (serve k (Some (Value en))) /\ out3 = Ok (serve k None).
Proof.
  intros Hs Hm Hp Hk Hauth Hkc Hcap Hlen Hen Hd Hnc Hexp Hnow k.
  assert (visible (e_now e1) (Some en) = Some (Value en)) as Hv1.
  { unfold visible. rewrite Hd. destruct (Z.ltb_spec (ExpiryTimestamp en) (e_now e1)); [lia|by rewrite andb_false_r]. }
  assert (visible (e_now e2) (Some en) = None) as Hv2.
  { unfold visible. rewrite Hd. rewrite (proj2 (Z.ltb_lt _ _)) by lia. by rewrite (proj2 (Z.ltb_lt _ _)) by lia. }
  pose proof (handleGet_spec e2 get m contents Hs Hm Hp Hk Hauth) as Hg3.
  pose proof (handleGet_spec e1 get m contents Hs Hm Hp Hk Hauth) as Hg1.
  destruct (handleRequest _ _ _ e2 get m) as [m3 out3]. destruct Hg3 as (_ & _ & _ & o3 & Ho3 & ->).
  pose proof (handleGet_fills e1 get m contents c en Hs Hm Hp Hk Hauth Hkc Hcap Hlen Hen Hd Hnc ltac:(lia)) as Hc1.
  destruct (handleRequest _ _ _ e1 get m) as [m1 out1]. destruct Hg1 as (Hs1 & Hl1 & Hcf & o1 & Ho1 & ->). cbn [fst] in Hc1.
  rewrite <- (checkAuth_config get m m1 Hcf) in Hauth.
  pose proof (handleGet_spec e2 get m1 contents Hs1 Hm Hp Hk Hauth) as Hg2.
  destruct (handleRequest _ _ _ e2 get m1) as [m2 out2]. destruct Hg2 as (_ & _ & _ & o2 & _ & ->).
  fold k in Ho1, Ho3, Hen, Hnc, Hc1 |- *. rewrite Hen in Ho1, Ho3. injection Ho1 as <-. injection Ho3 as <-.
  by rewrite Hc1, Hnc, Hv1, Hv2.
Qed.

(** C22. A read overtaken by a write poisons the cache. A reader finds a live
    entry; before it caches the value, a batch that writes the same key is
    processed and acknowledged; then every later GET is answered with the old
    value, at any time, although the engine holds the new entry: nothing orders
    the reader's insertion into the cache after the writer's removal. *)
Theorem Overtaken_read_poisons_cache (m : machine B) contents now k m1 r x batch now_w now_rot later :
  state_ok m contents -> wal_open m -> cache_takes m ->
  fetch now k m = (m1, r, Some x) -> Key x = k ->
  batch <> [] -> Forall req_fits batch -> rotation_fresh now_rot m -> k ∈ req_Key <$> batch ->
  let '(m2, out) := processBatch batch now_w now_rot m1 in
  let m3 := fill x m2 in
  out = notifySuccess batch /\ lookup_entry k m3 = Ok (last_entry k (stored now_w <$> batch)) /\
  snd (findAndServe later k m3) = Ok (Some (serve k (Some (Value x)))).
Proof.
  intros Hok Hw Hct Hf Hkx Hne Hfit Hfresh Hin.
  assert (cache_wf m) as Hc by (destruct Hct as (c & Hk & [? _] & _); unfold cache_wf; by rewrite Hk).
  pose proof (fetch_spec now k m contents Hok Hc) as Hs. pose proof (fetch_takes now k m Hct) as Hct1.
  rewrite Hf in Hs, Hct1. cbn [fst] in Hct1. destruct Hs as (_ & _ & _ & (c1 & g1 & Hm1) & Hc1 & _).
  assert (state_ok m1 contents) as Hok1 by (subst m1; by apply set_cache_same).
  assert (wal_open m1) as Hw1 by by subst m1.
  assert (rotation_fresh now_rot m1) as Hfresh1 by by subst m1.
  pose proof (processBatch_ok m1 contents batch now_w now_rot Hok1 Hw1 Hne Hfit Hfresh1) as Hp.
  pose proof (processBatch_takes m1 contents batch now_w now_rot Hok1 Hw1 Hne Hct1) as Hct2.
  destruct (processBatch batch now_w now_rot m1) as [m2 out]. cbn [fst] in Hct2. destruct Hp as (Hok2 & -> & Hv2).
  pose proof (fill_cached x m2 Hct2) as Hcached. rewrite Hkx in Hcached.
  assert (cache_wf m2) as Hc2 by (destruct Hct2 as (c & Hk & [? _] & _); unfold cache_wf; by rewrite Hk).
  destruct (fill_spec x m2 Hc2) as [Hc3 _].
  assert (exists c, fill x m2 = mkMachine (set_KeyCache c (bb m2)) (fs m2) (Global m2)) as [c3 Hm3].
  { unfold fill. destruct m2 as [[? ? ? ? ? ? ? [kc|]] f0 g0]; by eexists. }
  split_and!; [done| |].
  - rewrite Hm3. change (lookup_entry k (mkMachine _ _ _)) with (lookup_entry k m2). rewrite Hv2.
    destruct (last_entry k _) as [e|] eqn:E; [done|]. by apply last_entry_batch in E.
  - assert (state_ok (fill x m2) contents) as Hok3 by (rewrite Hm3; by apply set_cache_same).
    pose proof (findAndServe_serves later k _ contents Hok3 Hc3) as Hs. rewrite Hcached in Hs.
    destruct (findAndServe later k (fill x m2)) as [m4 r4]. by destruct Hs as (_ & _ & [-> _] & _).
Qed.

End Properties.
