(* ===== verification/HttpSpec.v ===== *)
(** What the HTTP interface promises: to one client after the other it is a map
    from keys to entries, every request has an answer that its text and the map
    determine, and none panics. *)
From S2P Require Import Prelude Codec Text Domain Hashing Configuration WriteAheadLog SortedStringTable SystemState Ingestion PyFloat Python Json GoJson JsonSize HttpApi.
From S2P Require MemoryTable LruCache.

Open Scope Z_scope.

(** ** Definitions *)

(** What a request asks for. *)
Inductive api_call :=
| Refused (msg : string) (code : Z)
| PutCall (item : SinglePutRequestPayload)
| BatchCall (items : list SinglePutRequestPayload)
| GetCall (k : string)
| DeleteCall (k : string)
| MetricsCall.

(** The methods of a path. *)
Definition methods_of (path : string) : option (list string) :=
  if decide (path = "/put")%string then Some ["POST"; "PUT"]%string
  else if decide (path = "/batch")%string then Some ["POST"]%string
  else if decide (path = "/get")%string then Some ["GET"]%string
  else if decide (path = "/delete")%string then Some ["DELETE"; "POST"]%string
  else if decide (path = "/metrics")%string then Some ["GET"]%string
  else None.

Definition with_key (ctx : ctx_request) (call : string -> api_call) : api_call :=
  if decide (QueryKey ctx = "")%string then Refused "Missing key" 400 else call (QueryKey ctx).

Definition with_body {A} (decode : json -> option A) (ctx : ctx_request) (call : A -> api_call) : api_call :=
  match Unmarshal decode (PostBody ctx) with Some x => call x | None => Refused "Bad Request" 400 end.

Definition arguments (ctx : ctx_request) : api_call :=
  if decide (Path ctx = "/put")%string then with_body decode_put ctx PutCall
  else if decide (Path ctx = "/batch")%string then with_body decode_batch ctx BatchCall
  else if decide (Path ctx = "/get")%string then with_key ctx GetCall
  else if decide (Path ctx = "/delete")%string then with_key ctx DeleteCall
  else MetricsCall.

Definition call_of (authorised : bool) (ctx : ctx_request) : api_call :=
  if authorised then
    match methods_of (Path ctx) with
    | None => Refused "Not Found" 404
    | Some methods => if decide (Method ctx ∈ methods) then arguments ctx else Refused "Method Not Allowed" 405
    end
  else Refused "Unauthorized" 401.

(** The map: the entry of each key, tombstones and expired ones included. *)
Definition store_of : Type := string -> option Entry.

Definition put_req (item : SinglePutRequestPayload) : IngestReq :=
  mkReq (put_Key item) (to_bytes (put_Value item)) (put_TimeToLive item) false None.

Definition store_put (now : Z) (req : IngestReq) (s : store_of) : store_of :=
  fun k => if decide (req_Key req = k) then Some (stored now req) else s k.

Section Spec.
Context (numShards : Z).

(** The items of a batch are stored in their order, each at the time its shard
    reads. *)
Definition call_next (e : env) (call : api_call) (s : store_of) : store_of :=
  match call with
  | PutCall item => store_put (e_now e) (put_req item) s
  | BatchCall items =>
    fold_left (fun s item => store_put (e_nows e (shard_of numShards (put_Key item))) (put_req item) s) items s
  | DeleteCall k => store_put (e_now e) (mkReq k [] 0 true None) s
  | _ => s
  end.

(** A get may serve the value of an entry that has expired, if it is cached. *)
Definition call_answer (e : env) (call : api_call) (s : store_of) (out : list ctx_call) : Prop :=
  match call with
  | Refused msg code => out = [CtxError msg code]
  | PutCall _ | BatchCall _ => out = [SetStatusCode 201]
  | DeleteCall _ => out = [SetStatusCode 200]
  | GetCall k =>
    out = serve k (visible (e_now e) (s k)) \/
    exists en, s k = Some en /\ IsDeleted en = false /\ out = serve k (Some (Value en))
  | MetricsCall => exists g, out = [SetContentType "application/json"; CtxEncode g]
  end.

Fixpoint session (authorised : ctx_request -> bool) (s : store_of) (reqs : list (env * ctx_request))
    (outs : list (outcome (list ctx_call))) : Prop :=
  match reqs, outs with
  | [], [] => True
  | (e, ctx) :: reqs', out :: outs' =>
    let call := call_of (authorised ctx) ctx in
    (exists calls, out = Ok calls /\ call_answer e call s calls) /\ session authorised (call_next e call s) reqs' outs'
  | _, _ => False
  end.

Definition session_end (authorised : ctx_request -> bool) (s : store_of) (reqs : list (env * ctx_request)) : store_of :=
  fold_left (fun s '(e, ctx) => call_next e (call_of (authorised ctx) ctx) s) reqs s.

(** Sizes that the 32-bit lengths of the log hold; the shards of a batch run in
    some order. *)
Definition request_ok (req : env * ctx_request) : Prop :=
  let '(e, ctx) := req in
  3 * slen (PostBody ctx) < 2 ^ 32 /\ slen (QueryKey ctx) < 2 ^ 32 /\
  match call_of true ctx with
  | BatchCall items => e_order e ≡ₚ elements (dom (groupItemsByShard numShards (unpackBatch items)))
  | _ => True
  end.

(** The clock readings that may name a log file. *)
Definition rotations (req : env * ctx_request) : list Z :=
  let '(e, ctx) := req in
  match call_of true ctx with
  | PutCall _ | DeleteCall _ => [e_now_rot e]
  | BatchCall _ => e_nows_rot e <$> e_order e
  | _ => []
  end.

End Spec.

Section Serve.
Context `{BloomFilter B}.
Context (decrypt : string -> string -> bool) (error_text : go_error -> string) (numShards : Z).

(** One request after the other. *)
Fixpoint serve_all (reqs : list (env * ctx_request)) (m : machine B) : machine B * list (outcome (list ctx_call)) :=
  match reqs with
  | [] => (m, [])
  | (e, ctx) :: reqs' =>
    let '(m, out) := handleRequest decrypt error_text numShards e ctx m in
    let '(m, outs) := serve_all reqs' m in
    (m, out :: outs)
  end.

(** None of them names a file that exists, or one that another names. *)
Definition clock_fresh (m : machine B) (times : list Z) : Prop :=
  NoDup (rotated_path (Configuration (bb m)) <$> times) /\ Forall (fun t => rotation_fresh t m) times.

End Serve.

(** ** Lemmas *)

(** *** What is decoded is no longer than three times the body. *)

Definition payload_upto (n : nat) (p : SinglePutRequestPayload) : Prop :=
  (String.length (put_Key p) <= n)%nat /\ (String.length (put_Value p) <= n)%nat.

Lemma set_put_field_upto n p kv p' : payload_upto n p -> strings_upto n kv.2 -> set_put_field p kv = Some p' ->
  payload_upto n p'.
Proof.
  destruct kv as [k j]. intros [Hk Hv] Hj. unfold set_put_field.
  destruct (field_is "key" k); [|destruct (field_is "value" k); [|destruct (field_is "ttl" k)]].
  - destruct (set_string j (put_Key p)) as [s|] eqn:E; [|done]. intros [= <-].
    split; [exact (set_string_length _ _ _ _ Hj Hk E)|done].
  - destruct (set_string j (put_Value p)) as [s|] eqn:E; [|done]. intros [= <-].
    split; [done|exact (set_string_length _ _ _ _ Hj Hv E)].
  - destruct (set_int j _); [|done]. by intros [= <-].
  - by intros [= <-].
Qed.

Lemma fold_option_ind {A C} (P : A -> Prop) (Q : C -> Prop) (f : A -> C -> option A) l : forall a a',
  (forall x c y, P x -> Q c -> f x c = Some y -> P y) -> Forall Q l -> P a -> fold_option f l a = Some a' -> P a'.
Proof.
  induction l as [|c l IH]; intros a a' Hf Hl Ha; cbn; [by intros [= <-]|]. apply Forall_cons in Hl as [Hc Hl].
  destruct (f a c) as [y|] eqn:E; [|done]. apply IH; [done|done|]. by eapply Hf.
Qed.

Lemma zero_put_upto n : payload_upto n zero_put.
Proof. split; cbn; lia. Qed.

Lemma decode_item_upto n p j p' : payload_upto n p -> strings_upto n j -> decode_item p j = Some p' -> payload_upto n p'.
Proof.
  intros Hp Hj. destruct j as [| | | | |d]; cbn [decode_item]; try done; [by intros [= <-]|].
  apply (fold_option_ind (payload_upto n) (fun kv => strings_upto n kv.2)); [|by apply members_upto_Forall|done].
  intros x c y Hx Hc. by apply set_put_field_upto.
Qed.

Lemma decode_put_upto n j p : strings_upto n j -> decode_put j = Some p -> payload_upto n p.
Proof. apply decode_item_upto, zero_put_upto. Qed.

Lemma decode_items_upto n l : Forall (strings_upto n) l -> forall old items, Forall (payload_upto n) old ->
  decode_items old l = Some items -> Forall (payload_upto n) items.
Proof.
  induction 1 as [|j l Hj Hl IH]; intros old items Hold; cbn [decode_items]; [by intros [= <-]|].
  destruct (decode_item _ j) as [p|] eqn:Ep; [|done]. cbn [mbind option_bind].
  destruct (decode_items (tail old) l) as [ps|] eqn:Eps; [|done]. intros [= <-]. constructor.
  - eapply decode_item_upto; [|exact Hj|exact Ep]. destruct Hold; [apply zero_put_upto|done].
  - eapply IH; [|exact Eps]. by destruct Hold.
Qed.

Lemma decode_batch_upto n j items : strings_upto n j -> decode_batch j = Some items -> Forall (payload_upto n) items.
Proof.
  intros Hj. destruct j as [| | | | |d]; cbn [decode_batch]; try done; [by intros [= <-]|].
  destruct (fold_option set_items d ([], [])) as [st|] eqn:Ef; [|done]. intros [= <-].
  apply (fold_option_ind (fun st => Forall (payload_upto n) (st.1 ++ st.2)) (fun kv => strings_upto n kv.2)) in Ef;
    [by apply Forall_app in Ef as [? _]| |by apply members_upto_Forall|done].
  intros x [k v] y Hx Hc. unfold set_items. destruct (field_is "items" k); [|by intros [= <-]].
  destruct v as [| | | |[|v l]|]; try done; [by intros [= <-]..|].
  destruct (decode_items _ (v :: l)) as [items|] eqn:Ed; [|done]. intros [= <-]. apply Forall_app. split.
  - eapply decode_items_upto; [by apply elements_upto_Forall in Hc|exact Hx|exact Ed].
  - by apply Forall_drop.
Qed.

Lemma put_req_fits n p : payload_upto n p -> Z.of_nat n < 2 ^ 32 -> req_fits (put_req p).
Proof.
  intros [Hk Hv] Hn. unfold req_fits, put_req. cbn [req_Key req_Val]. rewrite zlen_to_bytes. unfold slen. lia.
Qed.

(** *** The map after a batch *)

Lemma unpackBatch_reqs items : item_req <$> unpackBatch items = put_req <$> items.
Proof. unfold unpackBatch. by rewrite <- list_fmap_compose. Qed.

Lemma fold_store n e items s k :
  fold_left (fun s item => store_put (e_nows e (shard_of n (put_Key item))) (put_req item) s) items s k =
  match last_entry k (stored (e_nows e (shard_of n k)) <$> (put_req <$> items)) with Some en => Some en | None => s k end.
Proof.
  induction items as [|item items IH] using rev_ind; [done|].
  rewrite fold_left_app, !fmap_app. unfold last_entry in *. rewrite fold_left_app. cbn [fold_left fmap list_fmap].
  unfold store_put at 1. cbn [stored Key]. destruct (decide (req_Key (put_req item) = k)) as [<-|Hne]; [done|exact IH].
Qed.

Section Machine.
Context `{BloomFilterLaws B}.
Context (decrypt : string -> string -> bool) (error_text : go_error -> string) (numShards : Z).
Implicit Types (m : machine B) (s : store_of).

(** *** Log files *)

Definition creates (times : list Z) m m' : Prop :=
  Configuration (bb m') = Configuration (bb m) /\
  forall p, p ∉ (rotated_path (Configuration (bb m)) <$> times) -> files (fs m) !! p = None -> files (fs m') !! p = None.

Lemma creates_nothing times m m' : Configuration (bb m') = Configuration (bb m) -> fs m' = fs m -> creates times m m'.
Proof. intros Hc Hf. split; [done|]. intros p _. by rewrite Hf. Qed.

Lemma creates_fresh times rest m m' : clock_fresh m (times ++ rest) -> creates times m m' -> clock_fresh m' rest.
Proof.
  intros [Hnd Hfr] [Hc Hk]. rewrite fmap_app in Hnd. apply NoDup_app in Hnd as (_ & Hdis & Hnd).
  apply Forall_app in Hfr as [_ Hfr]. split; [by rewrite Hc|].
  rewrite Forall_forall in Hfr |- *. intros t Ht. unfold rotation_fresh. rewrite Hc. apply Hk; [|by apply Hfr].
  intros Hin. apply (Hdis _ Hin). by apply (list_elem_of_fmap_2 (rotated_path (Configuration (bb m)))).
Qed.

Lemma creates_trans times1 times2 m1 m2 m3 : creates times1 m1 m2 -> creates times2 m2 m3 ->
  creates (times1 ++ times2) m1 m3.
Proof.
  intros [Hc1 Hf1] [Hc2 Hf2]. split; [congruence|]. intros p Hp Hn. rewrite fmap_app, not_elem_of_app in Hp.
  rewrite Hc1 in Hf2. apply Hf2; [apply Hp|]. by apply Hf1; [apply Hp|].
Qed.

(** *** Batches, to the server's invariant *)

Lemma batch_server_ok m contents batch now now_rot : server_ok m contents -> Forall req_fits batch ->
  rotation_fresh now_rot m ->
  let m' := (processBatch batch now now_rot m).1 in server_ok m' contents /\ creates [now_rot] m m'.
Proof.
  intros (Hok & Hopen & Hc) Hfit Hfresh. cbv zeta. split.
  - destruct (decide (batch = [])) as [->|Hne]; [done|]. split_and!.
    + pose proof (processBatch_ok m contents batch now now_rot Hok Hopen Hne Hfit Hfresh) as Hp.
      destruct (processBatch batch now now_rot m). by destruct Hp.
    + by apply processBatch_wal_open.
    + by apply (processBatch_cache_ok m contents batch now now_rot Hok Hopen Hc Hne Hfit Hfresh).
  - split; [apply processBatch_config|]. intros p Hp Hn. apply (processBatch_absent m contents); try done.
    intros ->. apply Hp. by left.
Qed.

Lemma dispatch_server_ok contents batches now now_rot : (forall id, Forall req_fits (default [] (batches !! id))) ->
  forall order m rest, server_ok m contents -> clock_fresh m ((now_rot <$> order) ++ rest) ->
  let m' := (dispatchAndAwaitBatches batches order now now_rot m).1 in
  server_ok m' contents /\ creates (now_rot <$> order) m m'.
Proof.
  intros Hfit. induction order as [|id order IH]; intros m rest Hs Hfresh; cbn [dispatchAndAwaitBatches fst].
  { split; [done|by apply creates_nothing]. }
  destruct (batch_server_ok m contents _ (now id) (now_rot id) Hs (Hfit id)) as [Hs1 Hc1].
  { destruct Hfresh as [_ Hf]. by apply Forall_cons in Hf as [? _]. }
  unfold run_batch. destruct (processBatch _ _ _ m) as [m1 out]. cbn [fst] in *.
  destruct (IH m1 rest Hs1) as [Hs2 Hc2]; [by apply (creates_fresh [now_rot id] _ m)|].
  destruct (dispatchAndAwaitBatches _ order _ _ m1) as [m2 err]. cbn [fst] in *. split; [done|].
  by apply (creates_trans [now_rot id] _ m m1).
Qed.

Lemma submit_fst key val ttl deleted now now_rot m :
  (SubmitIngestionRequest key val ttl deleted now now_rot m).1 =
  (processBatch [mkReq key val ttl deleted (Some 0%nat)] now now_rot m).1.
Proof.
  unfold SubmitIngestionRequest, run_single. cbn [drainSingleQueue length Nat.min take drop app].
  by destruct (processBatch _ _ _ m).
Qed.

(** *** One write *)

Definition reads m s : Prop := forall k, lookup_entry k m = Ok (s k).

Lemma submit_step m contents s req now now_rot rest : server_ok m contents -> reads m s -> req_fits req ->
  clock_fresh m (now_rot :: rest) ->
  let '(m', err) := SubmitIngestionRequest (req_Key req) (req_Val req) (req_TTL req) (req_IsDeleted req) now now_rot m in
  err = None /\ server_ok m' contents /\ reads m' (store_put now req s) /\ creates [now_rot] m m'.
Proof.
  intros Hs Hr Hfit Hfresh. assert (rotation_fresh now_rot m) as Hf by (destruct Hfresh as [_ Hf]; by apply Forall_cons in Hf as [? _]).
  pose proof (Submit_server_ok m contents (req_Key req) (req_Val req) (req_TTL req) (req_IsDeleted req) now now_rot Hs Hfit Hf) as Hsub.
  pose proof (submit_fst (req_Key req) (req_Val req) (req_TTL req) (req_IsDeleted req) now now_rot m) as Hfst.
  pose proof (batch_server_ok m contents [mkReq (req_Key req) (req_Val req) (req_TTL req) (req_IsDeleted req) (Some 0%nat)]
    now now_rot Hs ltac:(by repeat constructor; apply Hfit) Hf) as [_ Hc].
  destruct (SubmitIngestionRequest _ _ _ _ _ _ m) as [m' err]. cbn [fst] in Hfst. rewrite <- Hfst in Hc.
  destruct Hsub as (Hs' & _ & -> & _ & He & Hl). split_and!; try done.
  intros k. unfold store_put. destruct (decide (req_Key req = k)) as [<-|Hne]; [exact He|]. by rewrite Hl.
Qed.

Lemma batch_step m contents s e items rest : server_ok m contents -> reads m s -> Forall req_fits (put_req <$> items) ->
  e_order e ≡ₚ elements (dom (groupItemsByShard numShards (unpackBatch items))) ->
  clock_fresh m ((e_nows_rot e <$> e_order e) ++ rest) ->
  let '(m', err) := SubmitBatchIngestion numShards (unpackBatch items) (e_order e) (e_nows e) (e_nows_rot e) m in
  err = None /\ server_ok m' contents /\ reads m' (call_next numShards e (BatchCall items) s) /\
  creates (e_nows_rot e <$> e_order e) m m'.
Proof.
  intros Hs Hr Hfit Hord Hfresh.
  assert (Forall (fun it => req_fits (item_req it)) (unpackBatch items)) as Hits.
  { rewrite <- unpackBatch_reqs in Hfit. rewrite Forall_fmap in Hfit. exact Hfit. }
  destruct Hs as (Hok & Hopen & Hc). pose proof Hfresh as [Hnd Hfr]. rewrite fmap_app in Hnd.
  apply NoDup_app in Hnd as (Hnd & _ & _). apply Forall_app in Hfr as [Hfr _]. rewrite Forall_fmap in Hfr.
  rewrite <- list_fmap_compose in Hnd.
  pose proof (SubmitBatch_spec m contents numShards _ _ (e_nows e) (e_nows_rot e) Hok Hopen Hits Hord Hfr Hnd) as Hb.
  pose proof (dispatch_server_ok contents (groupItemsByShard numShards (unpackBatch items)) (e_nows e) (e_nows_rot e)
    ltac:(intros id; rewrite groupItemsByShard_spec; by apply item_req_fits) (e_order e) m rest ltac:(done) Hfresh) as Hd.
  assert ((SubmitBatchIngestion numShards (unpackBatch items) (e_order e) (e_nows e) (e_nows_rot e) m).1 =
    (dispatchAndAwaitBatches (groupItemsByShard numShards (unpackBatch items)) (e_order e) (e_nows e) (e_nows_rot e) m).1) as Heq.
  { unfold SubmitBatchIngestion. destruct (unpackBatch items) eqn:E; [|done].
    assert (e_order e = []) as ->; [|done]. apply Permutation_nil_r. rewrite Hord.
    change (groupItemsByShard numShards []) with (∅ : gmap nat (list IngestReq)). by rewrite dom_empty_L, elements_empty. }
  rewrite <- Heq in Hd. destruct (SubmitBatchIngestion _ _ _ _ _ m) as [m' err]. cbn [fst] in Hd.
  destruct Hb as (-> & _ & Hl), Hd as [Hs' Hcr]. split_and!; try done.
  intros k. cbn [call_next]. rewrite fold_store, Hl, unpackBatch_reqs. destruct (last_entry _ _); [done|apply Hr].
Qed.

(** *** One request *)

(** What a handler that was asked for [call] has to return. *)
Definition answered (e : env) (call : api_call) m s contents (times : list Z)
    (r : machine B * outcome (list ctx_call)) : Prop :=
  exists calls, r.2 = Ok calls /\ call_answer e call s calls /\
    server_ok r.1 contents /\ reads r.1 (call_next numShards e call s) /\ creates times m r.1.

Lemma answered_refused e msg code m s contents times : server_ok m contents -> reads m s ->
  answered e (Refused msg code) m s contents times (m, Ok [CtxError msg code]).
Proof. intros Hs Hr. eexists. split_and!; [done..|by apply creates_nothing]. Qed.

Lemma answered_put e item m s contents rest : server_ok m contents -> reads m s -> req_fits (put_req item) ->
  clock_fresh m (e_now_rot e :: rest) ->
  answered e (PutCall item) m s contents [e_now_rot e]
    (let '(m, err) := SubmitIngestionRequest (put_Key item) (to_bytes (put_Value item)) (put_TimeToLive item) false
                        (e_now e) (e_now_rot e) m in
     match err with Some err => (m, Ok [CtxError (error_text err) 500]) | None => (m, Ok [SetStatusCode 201]) end).
Proof.
  intros Hs Hr Hfit Hfresh. pose proof (submit_step m contents s (put_req item) (e_now e) _ rest Hs Hr Hfit Hfresh) as Hsub.
  cbn [put_req req_Key req_Val req_TTL req_IsDeleted] in Hsub.
  destruct (SubmitIngestionRequest _ _ _ _ _ _ m) as [m' err]. destruct Hsub as (-> & Hs' & Hr' & Hc).
  eexists. by split_and!.
Qed.

Lemma answered_delete e k m s contents rest : server_ok m contents -> reads m s -> slen k < 2 ^ 32 ->
  clock_fresh m (e_now_rot e :: rest) ->
  answered e (DeleteCall k) m s contents [e_now_rot e]
    (let '(m, err) := SubmitIngestionRequest k [] 0 true (e_now e) (e_now_rot e) m in
     match err with Some err => (m, Ok [CtxError (error_text err) 500]) | None => (m, Ok [SetStatusCode 200]) end).
Proof.
  intros Hs Hr Hk Hfresh.
  pose proof (submit_step m contents s (mkReq k [] 0 true None) (e_now e) _ rest Hs Hr ltac:(by split) Hfresh) as Hsub.
  cbn [req_Key req_Val req_TTL req_IsDeleted] in Hsub.
  destruct (SubmitIngestionRequest _ _ _ _ _ _ m) as [m' err]. destruct Hsub as (-> & Hs' & Hr' & Hc).
  eexists. by split_and!.
Qed.

Lemma answered_batch e items m s contents rest : server_ok m contents -> reads m s ->
  Forall req_fits (put_req <$> items) ->
  e_order e ≡ₚ elements (dom (groupItemsByShard numShards (unpackBatch items))) ->
  clock_fresh m ((e_nows_rot e <$> e_order e) ++ rest) ->
  answered e (BatchCall items) m s contents (e_nows_rot e <$> e_order e)
    (let '(m, err) := SubmitBatchIngestion numShards (unpackBatch items) (e_order e) (e_nows e) (e_nows_rot e) m in
     match err with Some err => (m, Ok [CtxError (error_text err) 500]) | None => (m, Ok [SetStatusCode 201]) end).
Proof.
  intros Hs Hr Hfit Hord Hfresh. pose proof (batch_step m contents s e items rest Hs Hr Hfit Hord Hfresh) as Hb.
  destruct (SubmitBatchIngestion _ _ _ _ _ m) as [m' err]. destruct Hb as (-> & Hs' & Hr' & Hc).
  eexists. by split_and!.
Qed.

Lemma answered_get e k m s contents : server_ok m contents -> reads m s ->
  answered e (GetCall k) m s contents []
    (match findAndServe (e_now e) k m with
     | (m, Ok (Some out)) => (m, Ok out)
     | (m, Ok None) => (m, Ok [CtxError "Not Found" 404])
     | (m, Err) => (m, Err)
     | (m, Panic) => (m, Panic)
     end).
Proof.
  intros (Hok & Hopen & Hc) Hr. pose proof (findAndServe_spec (e_now e) k m contents Hok Hc) as Hf.
  destruct (findAndServe _ _ m) as [m' r]. destruct Hf as (Hok' & Hc' & Hl & Hcf & Hw & Hfs & o & Ho & Hout).
  assert (o = s k) as -> by (rewrite Hr in Ho; by injection Ho).
  assert (server_ok m' contents) as Hs' by (split_and!; [done|unfold wal_open; by rewrite Hcf, Hw|done]).
  assert (reads m' s) as Hr' by (intros k'; by rewrite Hl).
  apply cache_ok_iff in Hc as [_ Hc]. destruct (cached k m) as [v|] eqn:Ek; destruct Hout as [-> _].
  - destruct (Hc k v Ek) as (en & He & Hd & Hv). rewrite Hr in He. injection He as He.
    exists (writeJSON k v). split_and!; [done|right; exists en|done..|by apply creates_nothing].
    split_and!; [done|done|]. by rewrite Hv.
  - exists (serve k (visible (e_now e) (s k))). split_and!; [|by left|destruct (s k); done..|].
    + by destruct (s k).
    + destruct (s k); by apply creates_nothing.
Qed.

(** The handler of each path, and what its requests ask for. *)
Lemma routes e ctx m : let call := call_of true ctx in let run := routePath error_text numShards e ctx m in
  let allowed methods := decide (Method ctx ∈ methods) in let refuse := Refused "Method Not Allowed" 405 in
  (call = (if allowed ["POST"; "PUT"]%string then with_body decode_put ctx PutCall else refuse)
     /\ run = HandleSinglePutRequest error_text e ctx m) \/
  (call = (if allowed ["POST"]%string then with_body decode_batch ctx BatchCall else refuse)
     /\ run = HandleBatchPutRequest error_text numShards e ctx m) \/
  (call = (if allowed ["GET"]%string then with_key ctx GetCall else refuse) /\ run = HandleGetRequest e ctx m) \/
  (call = (if allowed ["DELETE"; "POST"]%string then with_key ctx DeleteCall else refuse)
     /\ run = HandleDeleteRequest error_text e ctx m) \/
  (call = (if allowed ["GET"]%string then MetricsCall else refuse) /\ run = HandleMetricsRequest ctx m) \/
  (call = Refused "Not Found" 404 /\ run = (m, Ok [CtxError "Not Found" 404])).
Proof.
  cbv zeta. unfold call_of, methods_of, arguments, routePath.
  destruct (decide (Path ctx = "/put"%string)) as [E|H1]; [left; rewrite ?E; by split|right].
  destruct (decide (Path ctx = "/batch"%string)) as [E|H2]; [left; rewrite ?E; by split|right].
  destruct (decide (Path ctx = "/get"%string)) as [E|H3]; [left; rewrite ?E; by split|right].
  destruct (decide (Path ctx = "/delete"%string)) as [E|H4]; [left; rewrite ?E; by split|right].
  destruct (decide (Path ctx = "/metrics"%string)) as [E|H5]; [left; rewrite ?E; by split|by right].
Qed.

Lemma request_step e ctx m s contents rest : server_ok m contents -> reads m s -> request_ok numShards (e, ctx) ->
  clock_fresh m (rotations (e, ctx) ++ rest) ->
  answered e (call_of (checkAuth decrypt ctx m) ctx) m s contents (rotations (e, ctx))
    (handleRequest decrypt error_text numShards e ctx m).
Proof.
  intros Hs Hr (Hbody & Hkey & Hord) Hfresh. unfold handleRequest.
  destruct (checkAuth decrypt ctx m); [|by apply answered_refused].
  assert (forall p, payload_upto (3 * String.length (PostBody ctx)) p -> req_fits (put_req p)) as Hfit.
  { intros p Hp. eapply put_req_fits; [exact Hp|]. unfold slen in Hbody. lia. }
  revert Hord Hfresh. unfold rotations. destruct (routes e ctx m) as [[-> ->]|[[-> ->]|[[-> ->]|[[-> ->]|[[-> ->]|[-> ->]]]]]].
  - unfold HandleSinglePutRequest, isMethodAllowed, with_body. destruct (decide _); [|intros; by apply answered_refused].
    destruct (Unmarshal decode_put (PostBody ctx)) as [item|] eqn:Eu; [|intros; by apply answered_refused].
    intros _ Hfresh. apply answered_put with rest; [done|done| |done].
    apply Unmarshal_strings in Eu as (j & Hj & Hup). by eapply Hfit, decode_put_upto.
  - unfold HandleBatchPutRequest, isMethodAllowed, with_body. destruct (decide _); [|intros; by apply answered_refused].
    destruct (Unmarshal decode_batch (PostBody ctx)) as [items|] eqn:Eu; [|intros; by apply answered_refused].
    intros Hord Hfresh. apply answered_batch with rest; [done|done| |done|done].
    apply Unmarshal_strings in Eu as (j & Hj & Hup).
    apply Forall_fmap. eapply Forall_impl; [by eapply decode_batch_upto|exact Hfit].
  - unfold HandleGetRequest, isMethodAllowed, with_key. destruct (decide (Method ctx ∈ _)); [|intros; by apply answered_refused].
    destruct (decide (QueryKey ctx = _)); intros; [by apply answered_refused|by apply answered_get].
  - unfold HandleDeleteRequest, isMethodAllowed, with_key.
    destruct (decide (Method ctx ∈ _)); [|intros; by apply answered_refused].
    destruct (decide (QueryKey ctx = _)); [intros; by apply answered_refused|].
    intros _ Hfresh. by apply answered_delete with rest.
  - unfold HandleMetricsRequest, isMethodAllowed. destruct (decide _); intros; [|by apply answered_refused].
    eexists. split_and!; [done|by eexists|done..|by apply creates_nothing].
  - intros. by apply answered_refused.
Qed.

Lemma session_steps authorised contents reqs : forall m s, (forall ctx, checkAuth decrypt ctx m = authorised ctx) ->
  server_ok m contents -> reads m s -> Forall (request_ok numShards) reqs -> clock_fresh m (concat (rotations <$> reqs)) ->
  let '(m', outs) := serve_all decrypt error_text numShards reqs m in
  session numShards authorised s reqs outs /\ server_ok m' contents /\
  reads m' (session_end numShards authorised s reqs).
Proof.
  induction reqs as [|[e ctx] reqs IH]; intros m s Hauth Hs Hr Hreqs Hfresh; [done|].
  apply Forall_cons in Hreqs as [Hreq Hreqs]. cbn [serve_all].
  pose proof (request_step e ctx m s contents _ Hs Hr Hreq Hfresh) as (calls & Hout & Ha & Hs1 & Hr1 & Hc1).
  destruct (handleRequest decrypt error_text numShards e ctx m) as [m1 out]. cbn [fst snd] in *.
  pose proof (creates_fresh _ _ _ _ Hfresh Hc1) as Hfresh1. rewrite Hauth in *.
  specialize (IH m1 _ ltac:(intros ctx'; rewrite <- Hauth; apply checkAuth_config, Hc1) Hs1 Hr1 Hreqs Hfresh1).
  destruct (serve_all decrypt error_text numShards reqs m1) as [m' outs]. destruct IH as (IH & Hs' & Hr').
  split_and!; [|done|exact Hr']. split; [by exists calls|exact IH].
Qed.

End Machine.

(** ** Properties *)

Section Properties.
Context `{BloomFilterLaws B}.
Context (decrypt : string -> string -> bool) (error_text : go_error -> string) (numShards : Z).

(** C2. The HTTP interface is a map from keys to entries. Whatever requests a
    consistent server gets one after the other, of any method, path, header and
    body (a body or key long enough to break the log's 32-bit lengths aside, and
    given that no two clock readings name the same log file), each is answered (none panics, none fails with 500) by what the
    specification says for its text and the map: refused with the code for its
    fault, or 201, 200, the metrics, or the key's value; each put, batch and
    delete changes the map as specified, the others do not; and the server stays
    consistent and holds that map. *)
Theorem Http_refines_map (m : machine B) contents s reqs : server_ok m contents -> reads m s ->
  Forall (request_ok numShards) reqs -> clock_fresh m (concat (rotations <$> reqs)) ->
  let authorised ctx := checkAuth decrypt ctx m in
  let '(m', outs) := serve_all decrypt error_text numShards reqs m in
  session numShards authorised s reqs outs /\ server_ok m' contents /\
  reads m' (session_end numShards authorised s reqs).
Proof. intros Hs Hr Hreqs Hfresh authorised. by apply session_steps. Qed.

End Properties.
