(* ===== verification/Engine.v ===== *)
(** The engine as its goroutines run it: batches of the ingestion shards, the
    two halves of a read of an HTTP handler, the two halves of a flush and the
    three phases of a compaction, in any interleaving. The specification is a
    map of last writes with two sets of keys whose reads are unreliable: those a
    compaction hides, and those of which an outdated value got into the cache or
    which a compaction set back. *)
From S2P Require Import Prelude Codec Text Domain Hashing Configuration WriteAheadLog SortedStringTable GoHeap MergeIterators SystemState Ingestion FlushAgent CompactionAgent HttpApi.
From S2P Require MemoryTable LruCache.

Open Scope Z_scope.

(** ** Definitions *)

(** [flushing]: the flush agent has written a table and not committed it yet.
    [compacting]: the compaction agent has taken tables from level 0 (and, in
    the second component, has merged them). [filling]: the entries that readers
    have found and not cached yet. *)
Record engine (B : Type) := mkEngine {
  eng : machine B;
  flushing : option (outcome SSTableMetadata);
  compacting : option (list SSTableMetadata * option (outcome SSTableMetadata));
  filling : list Entry;
}.
Arguments mkEngine {B}.
Arguments eng {B}.
Arguments flushing {B}.
Arguments compacting {B}.
Arguments filling {B}.

(** What a step shows: a batch with the answers sent, a read with its result,
    the value it caches, or a phase of a compaction with the keys it concerns. *)
Inductive event :=
| EvWrite (now : Z) (batch : list IngestReq) (out : sends)
| EvRead (now : Z) (k : string) (r : outcome (option (list ctx_call)))
| EvFill (k : string) (v : bytes)
| EvTau
| EvTake (ks : gset string)
| EvRestore
| EvCommit (shared : gset string).

Section Steps.
Context `{BloomFilter B} `{MemoryTable.MapRange}.
Implicit Types (e : engine B).

(** A clock reading names a new file ([rotation_fresh], [flush_fresh],
    [merge_fresh]): readings in nanoseconds differ, and no other program writes
    to the data directory. *)
Inductive step : engine B -> event -> engine B -> Prop :=
| step_batch e batch now now_rot m out : batch <> [] -> Forall req_fits batch -> rotation_fresh now_rot (eng e) ->
    processBatch batch now now_rot (eng e) = (m, out) ->
    step e (EvWrite now batch out) (mkEngine m (flushing e) (compacting e) (filling e))
| step_fetch e now k m r found : fetch now k (eng e) = (m, r, found) ->
    step e (EvRead now k r) (mkEngine m (flushing e) (compacting e) (option_list found ++ filling e))
| step_fill e l1 x l2 : filling e = l1 ++ x :: l2 ->
    step e (EvFill (Key x) (Value x)) (mkEngine (fill x (eng e)) (flushing e) (compacting e) (l1 ++ l2))
| step_flush_write e t now m written : flushing e = None -> waitForFlush (eng e) = Some t ->
    0 <= now < 2 ^ 63 -> flush_fresh now (eng e) -> table_bytes_fit t ->
    write_flush t now (eng e) = (m, written) ->
    step e EvTau (mkEngine m (Some written) (compacting e) (filling e))
| step_flush_commit e written : flushing e = Some written ->
    step e EvTau (mkEngine (commitFlush written (eng e)) None (compacting e) (filling e))
| step_take e tables m : compacting e = None -> takeLevelZero (eng e) = Some (tables, m) ->
    step e (EvTake (table_keys tables)) (mkEngine m (flushing e) (Some (tables, None)) (filling e))
| step_merge e tables now m merged : compacting e = Some (tables, None) ->
    0 <= now < 2 ^ 63 -> merge_fresh now (eng e) -> merge_bytes_fit tables (eng e) ->
    performMerge tables (DataDirectoryPath (Configuration (bb (eng e)))) now (eng e) = (m, merged) ->
    step e EvTau (mkEngine m (flushing e) (Some (tables, Some merged)) (filling e))
| step_restore e tables : compacting e = Some (tables, Some Err) ->
    step e EvRestore (mkEngine (settleCompaction tables Err (eng e)) (flushing e) None (filling e))
| step_commit e tables meta : compacting e = Some (tables, Some (Ok meta)) ->
    step e (EvCommit (shared_keys tables))
      (mkEngine (settleCompaction tables (Ok meta) (eng e)) (flushing e) None (filling e)).

Inductive steps : engine B -> list event -> engine B -> Prop :=
| steps_refl e : steps e [] e
| steps_cons e ev e1 tr e2 : step e ev e1 -> steps e1 tr e2 -> steps e (ev :: tr) e2.

Lemma steps_app e1 tr1 e2 tr2 e3 : steps e1 tr1 e2 -> steps e2 tr2 e3 -> steps e1 (tr1 ++ tr2) e3.
Proof. induction 1 as [|e ev e1 tr e2 Hs _ IH]; intros H3; [done|]. eapply steps_cons; [exact Hs|by apply IH]. Qed.

End Steps.

(** *** Specification *)

(** [last_write]: the last write of each key. [hidden]: keys of the tables being
    compacted, not written since. [tainted]: keys whose cached value was not the
    last write's when a reader put it there, or that a compaction may have set
    back to an older version; a write heals a key. *)
Record spec := mkSpec {
  last_write : string -> option Entry;
  hidden : gset string;
  tainted : gset string;
}.

(** The value of a live last write. *)
Definition current (o : option Entry) (v : bytes) : Prop :=
  match o with Some en => IsDeleted en = false /\ Value en = v | None => False end.

#[export] Instance current_dec o v : Decision (current o v).
Proof. destruct o; apply _. Defined.

Definition spec_next (s : spec) (ev : event) : spec :=
  match ev with
  | EvWrite now batch _ =>
    let ks := list_to_set (req_Key <$> batch) in
    mkSpec (fun k => match last_entry k (stored now <$> batch) with Some e => Some e | None => last_write s k end)
      (hidden s ∖ ks) (tainted s ∖ ks)
  | EvRead _ _ _ | EvTau => s
  | EvFill k v =>
    if decide (current (last_write s k) v) then s else mkSpec (last_write s) (hidden s) ({[k]} ∪ tainted s)
  | EvTake ks => mkSpec (last_write s) ks (tainted s)
  | EvRestore => mkSpec (last_write s) ∅ (tainted s)
  | EvCommit shared => mkSpec (last_write s) ∅ (tainted s ∪ (shared ∩ hidden s))
  end.

(** The answer a reader is entitled to, [None] being the caller's Not Found. *)
Definition answer (now : Z) (k : string) (o : option Entry) : option (list ctx_call) :=
  match o with Some _ => Some (serve k (visible now o)) | None => None end.

(** A read is the last write's, exactly (a cached value may outlive its
    deadline), unless the key is hidden or tainted; and no read fails. Every
    batch is acknowledged. *)
Definition allowed (s : spec) (ev : event) : Prop :=
  match ev with
  | EvWrite _ batch out => out = notifySuccess batch
  | EvRead now k r =>
    (exists out, r = Ok out) /\
    (k ∉ hidden s ∪ tainted s ->
       r = Ok (answer now k (last_write s k)) \/
       exists en, last_write s k = Some en /\ IsDeleted en = false /\ r = Ok (Some (serve k (Some (Value en)))))
  | _ => True
  end.

Fixpoint spec_runs (s : spec) (tr : list event) : Prop :=
  match tr with
  | [] => True
  | ev :: tr' => allowed s ev /\ spec_runs (spec_next s ev) tr'
  end.

Section Simulation.
Context `{BloomFilterLaws B} `{MemoryTable.MapRange}.
Implicit Types (e : engine B) (s : spec).

Definition taken e : list SSTableMetadata := match compacting e with Some (tables, _) => tables | None => [] end.
Definition merged e : option (outcome SSTableMetadata) :=
  match compacting e with Some (_, r) => r | None => None end.
Definition pend (r : option (outcome SSTableMetadata)) : list SSTableMetadata :=
  match r with Some (Ok meta) => [meta] | _ => [] end.

(** The tables an agent holds, out of the readers' reach. *)
Definition held e : list SSTableMetadata := pend (flushing e) ++ taken e ++ pend (merged e).

(** Every file has one owner. *)
Definition owned e : list string :=
  (path <$> wals (bb (eng e))) ++ (Filename <$> concat (SSTables (bb (eng e)))) ++ (Filename <$> held e).

Definition table_ok e := meta_ok (fs (eng e)) (BloomF (bb (eng e))).

Record engine_ok e contents fes ts ms : Prop := {
  eo_state : state_ok (eng e) contents;
  eo_wal : wal_open (eng e);
  eo_cache : cache_wf (eng e);
  eo_owned : NoDup (owned e);
  eo_flushing : pending_ok (eng e) (flushing e) fes;
  eo_taken : Forall2 (table_ok e) (taken e) ts;
  eo_merged : match merged e with
              | Some (Ok meta) => table_ok e meta ms /\ ms = merge_files (encode_table <$> ts)
              | Some Panic => False
              | _ => True
              end;
}.

(** ** Lemmas *)

Lemma elem_of_held t e : t ∈ held e <-> t ∈ pend (flushing e) \/ t ∈ taken e \/ t ∈ pend (merged e).
Proof. unfold held. by rewrite !elem_of_app. Qed.

Lemma held_ok e contents fes ts ms t : engine_ok e contents fes ts ms -> t ∈ held e ->
  exists es, table_ok e t es.
Proof.
  intros [_ _ _ _ Hf Ht Hm] [Hin|[Hin|Hin]]%elem_of_held.
  - unfold pend in Hin. destruct (flushing e) as [[meta| |]|]; [|by inversion Hin..].
    apply list_elem_of_singleton in Hin as ->. destruct Hf as (? & _ & Hmeta & _). by exists fes.
  - apply list_elem_of_lookup in Hin as [i Hi]. destruct (Forall2_lookup_l _ _ _ _ _ Ht Hi) as (es & _ & ?). by exists es.
  - unfold pend in Hin. destruct (merged e) as [[meta| |]|]; [|by inversion Hin..].
    apply list_elem_of_singleton in Hin as ->. destruct Hm as [? _]. by exists ms.
Qed.

Lemma owned_exist e contents fes ts ms q : engine_ok e contents fes ts ms -> q ∈ owned e ->
  is_Some (files (fs (eng e)) !! q).
Proof.
  intros He [Hq|[Hq|Hq]%elem_of_app]%elem_of_app; pose proof (eo_state _ _ _ _ _ He) as Hok.
  - by apply (wals_exist (eng e) contents).
  - apply list_elem_of_fmap in Hq as (t & -> & Ht). by apply (table_file_exists (eng e) contents).
  - apply list_elem_of_fmap in Hq as (t & -> & Ht). destruct (held_ok _ _ _ _ _ _ He Ht) as (es & (Ho & _) & _).
    unfold os_Open in Ho. case_match; [by eexists|done].
Qed.

Lemma fresh_not_owned e contents fes ts ms p : engine_ok e contents fes ts ms ->
  files (fs (eng e)) !! p = None -> p ∉ owned e.
Proof. intros He Hp Hin. destruct (owned_exist _ _ _ _ _ _ He Hin) as [x Hx]. congruence. Qed.

(** No two owners: what [NoDup (owned e)] gives. *)
Lemma owned_wal_table e w t : NoDup (owned e) -> w ∈ wals (bb (eng e)) ->
  t ∈ concat (SSTables (bb (eng e))) ++ held e -> path w <> Filename t.
Proof.
  intros (_ & Hd & _)%NoDup_app Hw Ht Heq. apply (Hd (path w)); [by apply list_elem_of_fmap_2|].
  rewrite Heq, <- fmap_app. by apply list_elem_of_fmap_2.
Qed.

Lemma owned_table_held e t t' : NoDup (owned e) -> t ∈ concat (SSTables (bb (eng e))) -> t' ∈ held e ->
  Filename t <> Filename t'.
Proof.
  intros (_ & _ & Hn)%NoDup_app Ht Ht' Heq. apply NoDup_app in Hn as (_ & Hd & _).
  apply (Hd (Filename t)); [by apply list_elem_of_fmap_2|]. rewrite Heq. by apply list_elem_of_fmap_2.
Qed.

(** A step of one party on the machine leaves what the others hold. *)
Lemma engine_ok_machine e m' contents contents' fes ts ms : engine_ok e contents fes ts ms ->
  state_ok m' contents' -> wal_open m' -> cache_wf m' ->
  NoDup (owned (mkEngine m' (flushing e) (compacting e) (filling e))) ->
  grows (Filename <$> held e) (eng e) m' ->
  (forall t, waitForFlush (eng e) = Some t -> waitForFlush m' = Some t) ->
  engine_ok (mkEngine m' (flushing e) (compacting e) (filling e)) contents' fes ts ms.
Proof.
  intros [_ _ _ _ Hf Ht Hm] Hok Hw Hc Hn Hg Hwait.
  assert (forall t es, t ∈ held e -> table_ok e t es ->
    table_ok (mkEngine m' (flushing e) (compacting e) (filling e)) t es) as Hkeep.
  { intros t es Hin. apply (grows_meta (Filename <$> held e)); [done|]. by apply list_elem_of_fmap_2. }
  split; [done..| | |].
  - cbn [eng flushing]. destruct (flushing e) as [[meta| |]|] eqn:E; [|done..].
    destruct Hf as (t & Hfirst & Hmeta & Hlast & _). exists t. split_and!; [by apply Hwait| |done|].
    + apply Hkeep; [|done]. apply elem_of_held. left. rewrite E. left.
    + intros (w & Heq & Hin)%list_elem_of_fmap. apply (owned_wal_table _ w meta Hn); [done| |done].
      apply elem_of_app. right. apply elem_of_held. left. cbn [flushing]. rewrite ?E. left.
  - apply (grows_metas (Filename <$> held e) (eng e)); [done| |done].
    intros t Hin. apply list_elem_of_fmap_2. apply elem_of_held. auto.
  - unfold merged in *. cbn [compacting]. destruct (compacting e) as [[tables [[meta| |]|]]|] eqn:E; [|done..].
    destruct Hm as [Hm ->]. split; [|done]. apply Hkeep; [|done]. apply elem_of_held. right. right.
    unfold merged. rewrite E. left.
Qed.

Lemma engine_ok_refill e fl contents fes ts ms : engine_ok e contents fes ts ms ->
  engine_ok (mkEngine (eng e) (flushing e) (compacting e) fl) contents fes ts ms.
Proof. by intros []. Qed.

(** *** The ingestion and reading steps *)

Lemma step_batch_ok e contents fes ts ms batch now now_rot : engine_ok e contents fes ts ms ->
  batch <> [] -> Forall req_fits batch -> rotation_fresh now_rot (eng e) ->
  let '(m', out) := processBatch batch now now_rot (eng e) in
  engine_ok (mkEngine m' (flushing e) (compacting e) (filling e)) contents fes ts ms /\ out = notifySuccess batch /\
  (forall k ts', view_spec k ts' m' contents =
     match last_entry k (stored now <$> batch) with Some en => Some en | None => view_spec k ts' (eng e) contents end) /\
  forall k, cached k m' = if decide (k ∈ req_Key <$> batch) then None else cached k (eng e).
Proof.
  intros He Hne Hfit Hfresh. pose proof He as [Hok Hw Hc Hn _ _ _].
  pose proof (processBatch_mem _ _ batch now now_rot Hok Hw Hne Hfit Hfresh) as Hp.
  destruct (processBatch_cached _ _ batch now now_rot Hok Hw Hc Hne) as [Hc' Hk].
  pose proof (processBatch_wal_open batch now now_rot _ Hw) as Hw'.
  pose proof (processBatch_frame batch now now_rot (eng e)) as [_ Hb Ht Hi Hwals Hfiles Hop].
  destruct (processBatch batch now now_rot (eng e)) as [m' out]. cbn [fst] in *.
  destruct Hp as (Hok' & -> & Hmem). split_and!; [|done| |done].
  2: { intros k ts'. unfold view_spec. rewrite Hmem. by destruct (last_entry k _). }
  set (p := rotated_path _ _) in *.
  assert (p ∉ owned e) as Hpo by (eapply fresh_not_owned; [done|exact Hfresh]).
  apply (engine_ok_machine e m' contents); try done.
  - unfold owned in *. cbn [eng]. rewrite Ht. fold (held e). change (held (mkEngine m' _ _ _)) with (held e).
    destruct Hwals as [->| ->]; [done|]. simpl. by constructor.
  - split; [|done|by rewrite Hb]. intros q Hq. apply Hfiles.
    + intros ->. apply Hpo. unfold owned. rewrite !elem_of_app. auto.
    + intros Hin. unfold owned in Hn. apply NoDup_app in Hn as (_ & Hd & _).
      apply (Hd q Hin). apply elem_of_app. by right.
  - intros t. unfold waitForFlush. destruct Hi as [l ->]. by destruct (ImmutableMem (bb (eng e))).
Qed.

Lemma step_fetch_ok e contents fes ts ms now k fl : engine_ok e contents fes ts ms ->
  let '(m', r, _) := fetch now k (eng e) in
  engine_ok (mkEngine m' (flushing e) (compacting e) fl) contents fes ts ms /\
  (forall k' ts', view_spec k' ts' m' contents = view_spec k' ts' (eng e) contents) /\
  r = Ok (match cached k (eng e) with
          | Some v => Some (serve k (Some v))
          | None => answer now k (view_spec k [] (eng e) contents)
          end) /\
  forall k', cached k' m' = cached k' (eng e).
Proof.
  intros He. pose proof He as [Hok Hw Hc Hn _ _ _].
  pose proof (fetch_spec now k _ _ Hok Hc) as Hs. destruct (fetch now k (eng e)) as [[m' r] found].
  destruct Hs as (o & Ho & -> & (c & g & Hm') & Hc' & Hk').
  rewrite (lookup_entry_view k _ _ Hok) in Ho. injection Ho as <-. split_and!; [|by subst m'|done|done].
  apply (engine_ok_refill (mkEngine m' (flushing e) (compacting e) (filling e))).
  apply (engine_ok_machine e m' contents); subst m'; try done.
Qed.

Lemma step_fill_ok e contents fes ts ms x fl : engine_ok e contents fes ts ms ->
  engine_ok (mkEngine (fill x (eng e)) (flushing e) (compacting e) fl) contents fes ts ms /\
  (forall k' ts', view_spec k' ts' (fill x (eng e)) contents = view_spec k' ts' (eng e) contents).
Proof.
  intros He. pose proof He as [Hok Hw Hc Hn _ _ _]. destruct (fill_spec x _ Hc) as [Hc' _].
  assert (exists c, fill x (eng e) = mkMachine (set_KeyCache c (bb (eng e))) (fs (eng e)) (Global (eng e))) as [c Hm'].
  { unfold fill. destruct (eng e) as [[? ? ? ? ? ? ? [kc|]] f0 g0]; by eexists. }
  set (m' := fill x (eng e)) in *. clearbody m'. split; [|by subst m'].
  apply (engine_ok_refill (mkEngine m' (flushing e) (compacting e) (filling e))).
  apply (engine_ok_machine e m' contents); subst m'; done.
Qed.

(** *** The flush steps *)

Lemma owned_new_file e m' p meta flushing' compacting' : NoDup (owned e) -> p ∉ owned e -> Filename meta = p ->
  wals (bb m') = wals (bb (eng e)) -> SSTables (bb m') = SSTables (bb (eng e)) ->
  held (mkEngine m' flushing' compacting' (filling e)) ≡ₚ meta :: held e ->
  NoDup (owned (mkEngine m' flushing' compacting' (filling e))).
Proof.
  intros Hn Hp Hname Hw Ht Hh. unfold owned in *. cbn [eng] in *. rewrite Hw, Ht, Hh, fmap_cons, Hname.
  rewrite <- !Permutation_middle. by constructor.
Qed.

Lemma grows_new_file own m p data bloom : p ∉ own -> bloom_le (BloomF (bb m)) bloom ->
  grows own m (with_bb (set_BloomF bloom) (with_fs (fs_write p data (fs m)) m)).
Proof. intros Hp Hb. split; [|done|done]. intros q Hq. cbn. rewrite lookup_insert_ne; [done|]. by intros ->. Qed.

Lemma step_flush_write_ok e contents fes ts ms t now : engine_ok e contents fes ts ms ->
  flushing e = None -> waitForFlush (eng e) = Some t ->
  0 <= now < 2 ^ 63 -> flush_fresh now (eng e) -> table_bytes_fit t ->
  let '(m', r) := write_flush t now (eng e) in
  (exists fes', engine_ok (mkEngine m' (Some r) (compacting e) (filling e)) contents fes' ts ms) /\
  (forall k ts', view_spec k ts' m' contents = view_spec k ts' (eng e) contents) /\
  forall k, cached k m' = cached k (eng e).
Proof.
  intros He Hnone Ht Hnow Hfresh Hlen. pose proof He as [Hok Hw Hc Hn _ _ _].
  pose proof (write_flush_spec _ _ t now Hok Ht Hnow Hfresh Hlen) as Hs. cbv zeta in Hs.
  set (p := flush_path _ _) in *.
  assert (p ∉ owned e) as Hp by (eapply fresh_not_owned; [done|exact Hfresh]).
  destruct (write_flush t now (eng e)) as [m' r].
  destruct Hs as [Hok' [(-> & -> & _)|(meta & bloom & -> & _ & Hm' & Hle & Hname & Hpend)]].
  - split_and!; [|done..]. exists fes. destruct He as [? ? ? Hn' _ ? ?]. split; try done.
    unfold owned, held in *. by rewrite Hnone in Hn'.
  - split_and!; [|by subst m'..]. exists (flush_entries t).
    assert (engine_ok (mkEngine m' (flushing e) (compacting e) (filling e)) contents fes ts ms) as He'.
    { apply (engine_ok_machine e m' contents); subst m'; try done. apply grows_new_file; [|done].
      intros Hin. apply Hp. unfold owned. rewrite !elem_of_app. auto. }
    destruct He' as [? ? ? _ _ ? ?]. split; try done.
    eapply owned_new_file; [done|exact Hp|exact Hname|by subst m'..|].
    unfold held. by rewrite Hnone.
Qed.

(** What a commit moves from the flush agent's hands to level 0. *)
Lemma step_flush_commit_ok e contents fes ts ms written : engine_ok e contents fes ts ms ->
  flushing e = Some written ->
  let m' := commitFlush written (eng e) in
  exists contents', engine_ok (mkEngine m' None (compacting e) (filling e)) contents' [] ts ms /\
  (forall k ts', view_spec k ts' m' contents' = view_spec k ts' (eng e) contents) /\
  forall k, cached k m' = cached k (eng e).
Proof.
  intros He Hsome m'. pose proof He as [Hok Hw Hc Hn Hf Ht Hm]. rewrite Hsome in Hf.
  destruct written as [meta| |]; [|exists contents; split_and!; [|done..]; split; try done;
    unfold owned, held in *; by rewrite Hsome in Hn|done].
  assert (NoDup (path <$> wals (bb (eng e)))) as Hnw by (unfold owned in Hn; by apply NoDup_app in Hn as [? _]).
  destruct (commitFlush_ok _ _ meta fes Hok Hnw Hf) as (Hok' & Hv & gone & Hgone & Hfiles).
  destruct (commitFlush_keeps _ _ meta Hok) as (Hcf & Haw & Hb & Hkc & Hss & _ & _ & Hop & _). fold m' in Hok', Hv, Hgone, Hfiles, Hcf, Haw, Hb, Hkc, Hss, Hop.
  exists (add_flushed fes contents). split_and!; [|done|].
  2: { intros k. unfold cached. by rewrite Hkc. }
  assert (grows (Filename <$> held e) (eng e) m') as Hg.
  { split; [|done|by rewrite Hb]. intros q Hq. apply Hfiles. intros Hin. unfold owned in Hn.
    apply NoDup_app in Hn as (_ & Hd & _). apply (Hd q); [|apply elem_of_app; by right].
    rewrite Hgone. apply elem_of_app. by left. }
  split; try done.
  - cbn [eng]. unfold wal_open. by rewrite Hcf, Haw.
  - cbn [eng]. unfold cache_wf. by rewrite Hkc.
  - unfold owned, held, taken, merged in *. cbn [eng flushing compacting] in *. rewrite Hsome in Hn.
    rewrite Hss. rewrite Hgone in Hn. destruct Hok as (_ & _ & _ & _ & _ & Hl & _).
    destruct (SSTables (bb (eng e))) as [|l0 ls]; [simpl in Hl; lia|].
    cbn [alter list_alter concat pend app] in *. rewrite <- !app_assoc in Hn. apply NoDup_app in Hn as (_ & _ & Hn).
    revert Hn. apply NoDup_Permutation_proper. rewrite !fmap_app, !fmap_cons, !fmap_app. solve_Permutation.
  - apply (grows_metas (Filename <$> held e) (eng e)); [done| |done].
    intros t Hin. apply list_elem_of_fmap_2. apply elem_of_held. auto.
  - unfold merged in *. cbn [compacting]. destruct (compacting e) as [[tables [[mt| |]|]]|] eqn:E; [|done..].
    destruct Hm as [Hm ->]. split; [|done]. apply (grows_meta (Filename <$> held e) (eng e)); [done| |done].
    apply list_elem_of_fmap_2. apply elem_of_held. right. right. unfold merged. rewrite E. left.
Qed.

(** *** The compaction steps *)

Lemma step_take_ok e contents fes ts ms tables m' : engine_ok e contents fes ts ms ->
  compacting e = None -> takeLevelZero (eng e) = Some (tables, m') ->
  exists ts' contents', engine_ok (mkEngine m' (flushing e) (Some (tables, None)) (filling e)) contents' fes ts' [] /\
  (forall k, view_spec k ts' m' contents' = view_spec k ts (eng e) contents) /\
  (forall k, k ∉ table_keys tables -> level_spec k ts' = None) /\
  forall k, cached k m' = cached k (eng e).
Proof.
  intros [Hok Hw Hc Hn Hf Ht Hm] Hnone Htake.
  destruct (takeLevelZero_ok _ _ _ _ Hok Htake) as (ts' & rest & levels & -> & Hss & Hm' & Hts' & Hok' & Hv & Hvk).
  unfold taken in Ht. rewrite Hnone in Ht. apply Forall2_nil_inv_l in Ht as ->.
  exists ts', ([] :: rest). split_and!; [|done|done|by subst m'].
  split; try done; try (by subst m').
  unfold owned, held, taken, merged in *. subst m'. cbn [eng flushing compacting pend] in *.
  rewrite Hnone, Hss in Hn. revert Hn. apply NoDup_Permutation_proper. cbn [concat with_bb bb set_SSTables SSTables].
  change (wals (set_SSTables _ _)) with (wals (bb (eng e))). rewrite !app_nil_r, !fmap_app. solve_Permutation.
Qed.

Lemma step_merge_ok e contents fes ts ms tables now : engine_ok e contents fes ts ms ->
  compacting e = Some (tables, None) -> 0 <= now < 2 ^ 63 -> merge_fresh now (eng e) ->
  merge_bytes_fit tables (eng e) ->
  let '(m', r) := performMerge tables (DataDirectoryPath (Configuration (bb (eng e)))) now (eng e) in
  (exists ms', engine_ok (mkEngine m' (flushing e) (Some (tables, Some r)) (filling e)) contents fes ts ms') /\
  (forall k ts', view_spec k ts' m' contents = view_spec k ts' (eng e) contents) /\
  forall k, cached k m' = cached k (eng e).
Proof.
  intros He Hsome Hnow Hfresh Hfit. pose proof He as [Hok Hw Hc Hn _ Ht _].
  unfold taken in Ht. rewrite Hsome in Ht.
  specialize (Hfit _ (createIterators_ok _ _ _ Ht)).
  pose proof (performMerge_spec _ _ tables ts now Hok Ht Hnow Hfresh Hfit) as Hs. cbv zeta in Hs.
  set (p := merged_path _ _) in *.
  assert (p ∉ owned e) as Hp by (eapply fresh_not_owned; [done|exact Hfresh]).
  destruct (performMerge _ _ _ _) as [m' r].
  destruct Hs as [Hok' [(-> & -> & _)|(meta & bloom & -> & _ & Hm' & Hle & Hmeta & Hname)]].
  - split_and!; [|done..]. exists []. destruct He as [? ? ? Hn' ? Ht' _]. unfold taken in Ht'. rewrite Hsome in Ht'.
    split; try done. unfold owned, held, taken, merged in *. cbn [eng flushing compacting] in *. by rewrite Hsome in Hn'.
  - split_and!; [|by subst m'..]. exists (merge_files (encode_table <$> ts)).
    assert (engine_ok (mkEngine m' (flushing e) (compacting e) (filling e)) contents fes ts ms) as He'.
    { apply (engine_ok_machine e m' contents); subst m'; try done. apply grows_new_file; [|done].
      intros Hin. apply Hp. unfold owned. rewrite !elem_of_app. auto. }
    destruct He' as [? ? ? _ ? Ht' _]. unfold taken in Ht'. cbn [compacting] in Ht'. rewrite Hsome in Ht'. split; try done.
    eapply owned_new_file; [done|exact Hp|exact Hname|by subst m'..|].
    unfold held, taken, merged. cbn [flushing compacting pend]. rewrite Hsome. cbn [pend]. solve_Permutation.
Qed.

Lemma compaction_apart e contents fes ts ms tables r : engine_ok e contents fes ts ms ->
  compacting e = Some (tables, r) ->
  (forall w t, w ∈ wals (bb (eng e)) -> t ∈ pend r ++ tables -> path w <> Filename t) /\
  (forall t t', t ∈ tables -> t' ∈ pend r ++ concat (SSTables (bb (eng e))) -> Filename t <> Filename t').
Proof.
  intros [_ _ _ Hn _ _ _] Hsome. split.
  - intros w t Hin Ht. apply (owned_wal_table e); [done..|]. apply elem_of_app. right. apply elem_of_held.
    unfold taken, merged. rewrite Hsome. apply elem_of_app in Ht. tauto.
  - intros t t' Ht [Ht'|Ht']%elem_of_app Heq.
    + unfold owned, held, taken, merged in Hn. rewrite Hsome in Hn. rewrite !fmap_app in Hn.
      apply NoDup_app in Hn as (_ & _ & Hn). apply NoDup_app in Hn as (_ & _ & Hn). apply NoDup_app in Hn as (_ & _ & Hn).
      apply NoDup_app in Hn as (_ & Hd & _). apply (Hd (Filename t)); [by apply list_elem_of_fmap_2|].
      rewrite Heq. by apply list_elem_of_fmap_2.
    + apply (owned_table_held e t' t); [done..| |done]. apply elem_of_held. unfold taken. rewrite Hsome. auto.
Qed.

(** After a compaction the flush agent's table is still there. *)
Lemma settled_ok e m' contents contents' fes ts ms : engine_ok e contents fes ts ms -> state_ok m' contents' ->
  Configuration (bb m') = Configuration (bb (eng e)) -> ActiveWal (bb m') = ActiveWal (bb (eng e)) ->
  KeyCache (bb m') = KeyCache (bb (eng e)) -> wals (bb m') = wals (bb (eng e)) ->
  waitForFlush m' = waitForFlush (eng e) ->
  grows (Filename <$> pend (flushing e)) (eng e) m' ->
  NoDup (owned (mkEngine m' (flushing e) None (filling e))) ->
  engine_ok (mkEngine m' (flushing e) None (filling e)) contents' fes [] [] /\ forall k, cached k m' = cached k (eng e).
Proof.
  intros [Hok Hw Hc Hn Hf Ht Hm] Hok' Hcf Haw Hkc Hwals Hwait Hg Hn'. split.
  2: { intros k. unfold cached. by rewrite Hkc. }
  split; try done; cbn [eng flushing].
  - unfold wal_open. by rewrite Hcf, Haw.
  - unfold cache_wf. by rewrite Hkc.
  - destruct (flushing e) as [[meta| |]|]; [|done..]. destruct Hf as (t & Hfirst & Hmeta & Hlast & Hnin).
    exists t. split_and!; [by rewrite Hwait| |done|by rewrite Hwals].
    apply (grows_meta (Filename <$> pend (Some (Ok meta))) (eng e)); [done| |done]. left.
Qed.

Lemma step_restore_ok e contents fes ts ms tables : engine_ok e contents fes ts ms ->
  compacting e = Some (tables, Some Err) ->
  let m' := settleCompaction tables Err (eng e) in
  exists contents', engine_ok (mkEngine m' (flushing e) None (filling e)) contents' fes [] [] /\
  (forall k, view_spec k [] m' contents' = view_spec k ts (eng e) contents) /\
  forall k, cached k m' = cached k (eng e).
Proof.
  intros He Hsome m'. pose proof He as [Hok _ _ Hn _ Ht _]. unfold taken in Ht. rewrite Hsome in Ht.
  destruct (compaction_apart _ _ _ _ _ _ _ He Hsome) as [Hw _].
  destruct (settle_restore_ok _ _ tables ts Hok Ht Hw) as [Hok' Hv].
  exists (with_taken ts contents).
  destruct (settled_ok e m' contents (with_taken ts contents) fes ts ms He Hok') as [He' Hc']; try done.
  unfold owned, held, taken, merged in *. cbn [eng flushing compacting pend] in *. rewrite Hsome in Hn.
  revert Hn. apply NoDup_Permutation_proper. cbn [pend m' settleCompaction with_bb bb set_SSTables SSTables].
  change (wals (set_SSTables _ _)) with (wals (bb (eng e))).
  destruct Hok as (_ & _ & _ & _ & _ & Hl & _). destruct (SSTables (bb (eng e))) as [|l0 ls]; [simpl in Hl; lia|].
  cbn [alter list_alter concat]. rewrite !app_nil_r, !fmap_app. solve_Permutation.
Qed.

Lemma step_commit_ok e contents fes ts ms tables meta : engine_ok e contents fes ts ms ->
  compacting e = Some (tables, Some (Ok meta)) ->
  let m' := settleCompaction tables (Ok meta) (eng e) in
  exists contents', engine_ok (mkEngine m' (flushing e) None (filling e)) contents' fes [] [] /\
  (forall k, view_spec k [] m' contents' = view_spec k [ms] (eng e) contents) /\
  forall k, cached k m' = cached k (eng e).
Proof.
  intros He Hsome m'. pose proof He as [Hok _ _ Hn _ Ht Hm].
  unfold taken, merged in Ht, Hm. rewrite Hsome in Ht, Hm. destruct Hm as [Hmeta _].
  destruct (compaction_apart _ _ _ _ _ _ _ He Hsome) as [Hw Hd].
  destruct (settle_commit_ok _ _ tables meta ms Hok Hmeta Hw Hd) as [Hok' Hss]. fold m' in Hok', Hss.
  assert (Hsc : m' = with_bb (set_SSTables (SSTables (bb m'))) (with_fs (fs m') (eng e))).
  { done. }
  exists (add_merged_table ms contents).
  assert (2 <= length contents)%nat as Hlen.
  { destruct Hok as (_ & _ & _ & _ & Htab & Hl & _). by rewrite (Forall2_length _ _ _ Htab) in Hl. }
  destruct (settled_ok e m' contents (add_merged_table ms contents) fes ts ms He Hok') as [He' Hc']; try done.
  - split; [|apply fold_Remove_openable|done]. intros q Hq. apply fold_Remove_files.
    intros Hq'. unfold owned, held, taken, merged in Hn. rewrite Hsome in Hn. rewrite !fmap_app in Hn.
    apply NoDup_app in Hn as (_ & _ & Hn). apply NoDup_app in Hn as (_ & _ & Hn).
    apply NoDup_app in Hn as (_ & Hdis & _). apply (Hdis q Hq). apply elem_of_app. by left.
  - unfold owned, held, taken, merged in *. cbn [eng flushing compacting pend] in *. rewrite Hss. rewrite Hsome in Hn.
    change (wals (bb m')) with (wals (bb (eng e))).
    destruct Hok as (_ & _ & _ & _ & _ & Hl & _). destruct (SSTables (bb (eng e))) as [|l0 [|l1 ls]]; [simpl in Hl; lia..|].
    cbn [alter list_alter concat pend] in *. rewrite !fmap_app, !app_nil_r in *. cbn [fmap list_fmap] in *.
    match goal with |- NoDup ?X => enough (NoDup ((Filename <$> tables) ++ X)) as (_ & _ & ?)%NoDup_app; [done|] end.
    revert Hn. apply NoDup_Permutation_proper. solve_Permutation.
  - split_and!; [done| |done]. intros k. by apply add_merged_view.
Qed.

(** *** The simulation *)

(** A key that the taken tables do not have, or that something above them has. *)
Definition unhidden k ts (m : machine B) contents : Prop :=
  level_spec k ts = None \/ forall ts', view_spec k ts' m contents = view_spec k [] m contents.

Record engine_sim e s : Prop := {
  es_ok : exists contents fes ts ms, engine_ok e contents fes ts ms /\
    (forall k, k ∉ tainted s -> view_spec k ts (eng e) contents = last_write s k) /\
    (forall k, k ∉ hidden s -> unhidden k ts (eng e) contents);
  es_cache : forall k v, k ∉ tainted s -> cached k (eng e) = Some v ->
    exists en, last_write s k = Some en /\ IsDeleted en = false /\ Value en = v;
}.

Lemma unhidden_view k ts m contents : unhidden k ts m contents -> view_spec k [] m contents = view_spec k ts m contents.
Proof. intros [Hk|Hk]; [by apply view_spec_level; rewrite Hk|by symmetry; apply Hk]. Qed.

(** A step that changes neither views nor cache is invisible. *)
Lemma engine_sim_tau e e' s contents contents' fes fes' ts ms ms' :
  engine_ok e contents fes ts ms -> engine_ok e' contents' fes' ts ms' ->
  (forall k ts', view_spec k ts' (eng e') contents' = view_spec k ts' (eng e) contents) ->
  (forall k, cached k (eng e') = cached k (eng e)) ->
  (forall k, k ∉ tainted s -> view_spec k ts (eng e) contents = last_write s k) ->
  (forall k, k ∉ hidden s -> unhidden k ts (eng e) contents) ->
  (forall k v, k ∉ tainted s -> cached k (eng e) = Some v ->
    exists en, last_write s k = Some en /\ IsDeleted en = false /\ Value en = v) ->
  engine_sim e' s.
Proof.
  intros _ He' Hv Hc Hl Hh Hca. split.
  - exists contents', fes', ts, ms'. split_and!; [done| |].
    + intros k Hk. by rewrite Hv, Hl.
    + intros k Hk. destruct (Hh k Hk) as [?|Hall]; [by left|right]. intros ts'. by rewrite !Hv.
  - intros k v Hk. rewrite Hc. by apply Hca.
Qed.

Lemma sim_batch e s batch now now_rot : engine_sim e s -> batch <> [] -> Forall req_fits batch ->
  rotation_fresh now_rot (eng e) ->
  let '(m', out) := processBatch batch now now_rot (eng e) in
  allowed s (EvWrite now batch out) /\
  engine_sim (mkEngine m' (flushing e) (compacting e) (filling e)) (spec_next s (EvWrite now batch out)).
Proof.
  intros [(contents & fes & ts & ms & He & Hl & Hh) Hca] Hne Hfit Hfresh.
  pose proof (step_batch_ok _ _ _ _ _ batch now now_rot He Hne Hfit Hfresh) as Hs.
  destruct (processBatch batch now now_rot (eng e)) as [m' out]. destruct Hs as (He' & -> & Hv & Hc).
  split; [done|]. assert (forall (X : gset string) k, k ∉ X ∖ list_to_set (req_Key <$> batch) ->
    k ∉ X \/ is_Some (last_entry k (stored now <$> batch))) as Hset.
  { intros X k Hk. destruct (last_entry k _) eqn:E; [right; by eexists|left]. apply last_entry_batch in E.
    intros HX. apply Hk. apply elem_of_difference. by rewrite elem_of_list_to_set. }
  cbn [spec_next]. split.
  - exists contents, fes, ts, ms. cbn [eng tainted hidden last_write]. split_and!; [done| |].
    + intros k Hk. rewrite Hv. destruct (Hset _ _ Hk) as [Hk'|[x Hx]]; [by rewrite Hl|by rewrite Hx].
    + intros k Hk. destruct (Hset _ _ Hk) as [Hk'|[x Hx]]; [|right; intros ts'; by rewrite !Hv, Hx].
      destruct (Hh k Hk') as [?|Hall]; [by left|right]. intros ts'. by rewrite !Hv, Hall.
  - intros k v Hk. cbn [eng last_write tainted] in *. rewrite Hc. case_decide as Hin; [done|].
    apply last_entry_batch with (now := now) in Hin. rewrite Hin.
    destruct (Hset _ _ Hk) as [Hk'|[x Hx]]; [by apply Hca|congruence].
Qed.

Lemma sim_fetch e s now k fl : engine_sim e s ->
  let '(m', r, _) := fetch now k (eng e) in
  allowed s (EvRead now k r) /\ engine_sim (mkEngine m' (flushing e) (compacting e) fl) s.
Proof.
  intros [(contents & fes & ts & ms & He & Hl & Hh) Hca].
  pose proof (step_fetch_ok _ _ _ _ _ now k fl He) as Hs.
  destruct (fetch now k (eng e)) as [[m' r] found]. destruct Hs as (He' & Hv & -> & Hc). split.
  - split; [by eexists|]. intros [Hkh Hkt]%not_elem_of_union.
    destruct (cached k (eng e)) as [v|] eqn:Ec.
    + right. destruct (Hca k v Hkt Ec) as (en & ? & ? & <-). by exists en.
    + left. rewrite <- Hl by done. by rewrite (unhidden_view k ts _ _ (Hh k Hkh)).
  - by apply (engine_sim_tau e _ s contents contents fes fes ts ms ms).
Qed.

Lemma sim_fill e s x fl : engine_sim e s ->
  engine_sim (mkEngine (fill x (eng e)) (flushing e) (compacting e) fl) (spec_next s (EvFill (Key x) (Value x))).
Proof.
  intros [(contents & fes & ts & ms & He & Hl & Hh) Hca].
  destruct (step_fill_ok _ _ _ _ _ x fl He) as [He' Hv].
  destruct (fill_spec x _ (eo_cache _ _ _ _ _ He)) as [_ Hk].
  set (s' := spec_next s _).
  assert (last_write s' = last_write s /\ hidden s' = hidden s /\ (forall k, k ∉ tainted s' -> k ∉ tainted s) /\
    (Key x ∉ tainted s' -> current (last_write s (Key x)) (Value x))) as (Hl' & Hh' & Ht' & Hcur).
  { subst s'. cbn [spec_next]. case_decide as Hc; [done|]. split_and!; [done..| |]; cbn [tainted].
    - intros k Hkt Hin. apply Hkt. by apply elem_of_union_r.
    - intros Hkt. exfalso. apply Hkt. apply elem_of_union_l. by apply elem_of_singleton. }
  split.
  - exists contents, fes, ts, ms. rewrite Hl', Hh'. split_and!; [done| |]; cbn [eng].
    + intros k Hkt. rewrite Hv. by apply Hl, Ht'.
    + intros k Hkh. destruct (Hh k Hkh) as [?|Hall]; [by left|right]. intros ts'. by rewrite !Hv.
  - intros k v Hkt Hkv. rewrite Hl'. cbn [eng] in Hkv. specialize (Hk k v Hkv). case_decide as Heq.
    + subst k v. specialize (Hcur Hkt). unfold current in Hcur. destruct (last_write s (Key x)) as [en|]; [|done].
      exists en. tauto.
    + apply Hca; [by apply Ht'|done].
Qed.

(** Where the abstract last writes and the readable entries meet again after a
    compaction. *)
Lemma sim_commit e tables meta s : compacting e = Some (tables, Some (Ok meta)) -> engine_sim e s ->
  engine_sim (mkEngine (settleCompaction tables (Ok meta) (eng e)) (flushing e) None (filling e))
    (spec_next s (EvCommit (shared_keys tables))).
Proof.
  intros Hsome [(contents & fes & ts & ms & He & Hl & Hh) Hca].
  destruct (step_commit_ok _ _ _ _ _ tables meta He Hsome) as (contents' & He' & Hv & Hc). split.
  - exists contents', fes, [], []. split_and!; [done| |]; cbn [spec_next tainted hidden last_write eng].
    + intros k [Hkt Hk]%not_elem_of_union. rewrite Hv, <- Hl by done.
      destruct He as [_ _ _ _ _ Ht Hm]. unfold taken, merged in Ht, Hm. rewrite Hsome in Ht, Hm. destruct Hm as [_ ->].
      destruct (decide (k ∈ shared_keys tables)) as [Hsh|Hsh].
      * assert (unhidden k ts (eng e) contents) as Hu.
        { apply Hh. intros Hkh. apply Hk. by apply elem_of_intersection. }
        destruct Hu as [Hno|Hall]; [|by rewrite !Hall].
        apply view_spec_level. rewrite level_spec_one, Hno.
        destruct (metas_sorted _ _ _ _ Ht) as [Hsort Hfit].
        apply (merge_files_last ts k Hsort Hfit). by apply level_spec_None.
      * apply view_spec_level. rewrite level_spec_one. by eapply merge_unshared.
    + intros k _. by left.
  - intros k v [Hkt _]%not_elem_of_union. cbn [eng]. rewrite Hc. by apply Hca.
Qed.

Lemma sim_step e ev e' s : step e ev e' -> engine_sim e s -> allowed s ev /\ engine_sim e' (spec_next s ev).
Proof.
  intros Hstep Hsim. destruct Hstep as [e batch now now_rot m out Hne Hfit Hfresh Eb|e now k m r found Ef|e l1 x l2 Hfl|e t now m r Hnone Ht Hnow Hfresh Hlen Ew|e written Hsome|e tables m Hnone Htake|e tables now m r Hsome Hnow Hfresh Hfit Em|e tables Hsome|e tables meta Hsome].
  - pose proof (sim_batch e s batch now now_rot Hsim Hne Hfit Hfresh) as Hb.
    by rewrite Eb in Hb.
  - pose proof (sim_fetch e s now k (option_list found ++ filling e) Hsim) as Hg. by rewrite Ef in Hg.
  - split; [done|]. by apply sim_fill.
  - split; [done|]. destruct Hsim as [(contents & fes & ts & ms & He & Hl & Hh) Hca].
    pose proof (step_flush_write_ok _ _ _ _ _ t now He Hnone Ht Hnow Hfresh Hlen) as Hs.
    rewrite Ew in Hs. destruct Hs as ([fes' He'] & Hv & Hc).
    by apply (engine_sim_tau e _ s contents contents fes fes' ts ms ms).
  - split; [done|]. destruct Hsim as [(contents & fes & ts & ms & He & Hl & Hh) Hca].
    destruct (step_flush_commit_ok _ _ _ _ _ written He Hsome) as (contents' & He' & Hv & Hc).
    by apply (engine_sim_tau e _ s contents contents' fes [] ts ms ms).
  - split; [done|]. destruct Hsim as [(contents & fes & ts & ms & He & Hl & Hh) Hca].
    destruct (step_take_ok _ _ _ _ _ tables m He Hnone Htake) as (ts' & contents' & He' & Hv & Hno & Hc).
    split.
    + exists contents', fes, ts', []. split_and!; [done| |]; cbn [spec_next tainted hidden last_write eng].
      * intros k Hk. by rewrite Hv, Hl.
      * intros k Hk. left. by apply Hno.
    + intros k v Hk. cbn [eng]. rewrite Hc. by apply Hca.
  - split; [done|]. destruct Hsim as [(contents & fes & ts & ms & He & Hl & Hh) Hca].
    pose proof (step_merge_ok _ _ _ _ _ tables now He Hsome Hnow Hfresh Hfit) as Hs.
    rewrite Em in Hs. destruct Hs as ([ms' He'] & Hv & Hc).
    by apply (engine_sim_tau e _ s contents contents fes fes ts ms ms').
  - split; [done|]. destruct Hsim as [(contents & fes & ts & ms & He & Hl & Hh) Hca].
    destruct (step_restore_ok _ _ _ _ _ tables He Hsome) as (contents' & He' & Hv & Hc). split.
    + exists contents', fes, [], []. split_and!; [done| |]; cbn [spec_next tainted hidden last_write eng].
      * intros k Hk. by rewrite Hv, Hl.
      * intros k _. by left.
    + intros k v Hk. cbn [eng]. rewrite Hc. by apply Hca.
  - split; [done|]. by apply sim_commit.
Qed.

Lemma sim_steps e tr e' s : steps e tr e' -> engine_sim e s ->
  spec_runs s tr /\ engine_sim e' (fold_left spec_next tr s).
Proof.
  intros Hsteps. revert s. induction Hsteps as [e|e ev e1 tr e2 Hstep _ IH]; intros s Hsim; [done|].
  destruct (sim_step _ _ _ _ Hstep Hsim) as [Ha Hsim']. destruct (IH _ Hsim') as [Hr Hsim'']. done.
Qed.

(** A server without work in flight is related to what it holds. *)
Lemma sim_start (m : machine B) contents : server_ok m contents -> NoDup (path <$> wals (bb m)) ->
  NoDup (Filename <$> concat (SSTables (bb m))) ->
  engine_sim (mkEngine m None None [])
    (mkSpec (fun k => first_some [mem_spec k (bb m); disk_spec k contents]) ∅ ∅).
Proof.
  intros (Hok & Hw & Hc) Hnw Hnt. apply cache_ok_iff in Hc as [Hc Hcoh]. split.
  - exists contents, [], [], []. cbn [eng tainted hidden last_write]. split_and!.
    + split; try done. unfold owned, held, taken, merged. cbn [eng flushing compacting pend app fmap list_fmap].
      rewrite app_nil_r. apply NoDup_app. split_and!; [done| |done].
      intros q Hq (t & -> & Ht)%list_elem_of_fmap. apply list_elem_of_fmap in Hq as (w & Heq & Hin).
      destruct Hok as (_ & _ & _ & _ & _ & _ & Hwn & _). by apply (Hwn w t).
    + intros k _. apply view_spec_nil.
    + intros k _. by left.
  - intros k v _ Hk. cbn [eng last_write] in *. destruct (Hcoh k v Hk) as (en & Hen & ? & ?). exists en. split; [|done].
    rewrite (lookup_entry_spec k m contents Hok) in Hen. congruence.
Qed.

(** ** Properties *)

(** C5. Background work is invisible to clients, except for two things it does
    do. From a consistent server with nothing in flight, along every
    interleaving of batches, reads (found and cached at different times),
    flushes (written and committed at different times) and compactions (taken,
    merged and settled at different times): every batch is acknowledged, no read
    fails, and a read answers exactly from the last acknowledged write of its
    key, unless the key is in a table a compaction has taken and not yet settled
    ([hidden]), or an outdated value of it was cached, or two of the tables of a
    compaction shared it ([tainted]), and it was not written since. The end
    state stands for the specification's in the same way. *)
Theorem Engine_refines_spec (m : machine B) contents tr e' : server_ok m contents ->
  NoDup (path <$> wals (bb m)) -> NoDup (Filename <$> concat (SSTables (bb m))) ->
  steps (mkEngine m None None []) tr e' ->
  let s := mkSpec (fun k => first_some [mem_spec k (bb m); disk_spec k contents]) ∅ ∅ in
  spec_runs s tr /\ engine_sim e' (fold_left spec_next tr s).
Proof. intros Hs Hw Ht Hsteps s. apply (sim_steps _ _ _ _ Hsteps). by apply sim_start. Qed.

(** The last write of a key in a trace, [o] being what came before. *)
Definition write_of (k : string) (o : option Entry) (ev : event) : option Entry :=
  match ev with
  | EvWrite now batch _ => match last_entry k (stored now <$> batch) with Some e => Some e | None => o end
  | _ => o
  end.

(** No compaction starts, and no reader of [k] is overtaken by a write of [k]
    before it has filled the cache. *)
Fixpoint undisturbed (k : string) (o : option Entry) (tr : list event) : Prop :=
  match tr with
  | [] => True
  | ev :: tr' =>
    match ev with EvTake _ => False | EvFill k' v => k' = k -> current o v | _ => True end /\
    undisturbed k (write_of k o ev) tr'
  end.

Lemma spec_last_write k tr : forall s,
  last_write (fold_left spec_next tr s) k = fold_left (write_of k) tr (last_write s k).
Proof.
  induction tr as [|ev tr IH]; intros s; [done|]. cbn [fold_left]. rewrite IH. f_equal.
  destruct ev; try done. cbn. by case_decide.
Qed.

Lemma spec_runs_split tr1 : forall s tr2, spec_runs s (tr1 ++ tr2) ->
  spec_runs s tr1 /\ spec_runs (fold_left spec_next tr1 s) tr2.
Proof.
  induction tr1 as [|ev tr1 IH]; intros s tr2; [done|]. simpl. intros [Ha Hr]. by destruct (IH _ _ Hr).
Qed.

Lemma spec_undisturbed k tr : forall s, undisturbed k (last_write s k) tr -> hidden s = ∅ -> k ∉ tainted s ->
  hidden (fold_left spec_next tr s) = ∅ /\ k ∉ tainted (fold_left spec_next tr s).
Proof.
  induction tr as [|ev tr IH]; intros s Ht Hh Hk; [done|]. destruct Ht as [Hev Ht].
  change (write_of k (last_write s k) ev) with (fold_left (write_of k) [ev] (last_write s k)) in Ht.
  rewrite <- spec_last_write in Ht. apply (IH _ Ht); cbn [fold_left].
  - destruct ev; try done; cbn [spec_next]; [|by case_decide].
    cbn [hidden]. rewrite Hh. apply elem_of_equiv_empty_L. by intros x [?%elem_of_empty _]%elem_of_difference.
  - destruct ev as [now batch out|?|k' v| | | |ks]; try done; cbn [spec_next].
    + by intros [? _]%elem_of_difference.
    + case_decide as Hc; [done|]. cbn [tainted]. intros [Heq%elem_of_singleton|?]%elem_of_union; [|done].
      apply Hc. subst k'. by apply Hev.
    + cbn [tainted]. rewrite Hh. by intros [?|[_ ?%elem_of_empty]%elem_of_intersection]%elem_of_union.
Qed.

(** A read of an undisturbed key, by the specification. *)
Lemma undisturbed_answer s tr1 now k r tr2 : spec_runs s (tr1 ++ EvRead now k r :: tr2) ->
  hidden s = ∅ -> k ∉ tainted s -> undisturbed k (last_write s k) tr1 ->
  let o := fold_left (write_of k) tr1 (last_write s k) in
  r = Ok (answer now k o) \/
  exists en, o = Some en /\ IsDeleted en = false /\ ExpiryTimestamp en < now /\ r = Ok (Some (serve k (Some (Value en)))).
Proof.
  intros Hr Hhid Htai Htr o.
  destruct (spec_runs_split _ _ _ Hr) as [_ [[_ Hread] _]].
  destruct (spec_undisturbed k tr1 s Htr Hhid Htai) as [Hh Hta].
  rewrite Hh, union_empty_l_L, spec_last_write in Hread. fold o in Hread.
  destruct (Hread Hta) as [?|(en & Ho & Hd & ->)]; [by left|].
  destruct (visible now o) as [v|] eqn:Ev; rewrite Ho in Ev; unfold visible in Ev; rewrite Hd in Ev.
  - left. rewrite Ho. unfold answer, visible. rewrite Hd. by destruct (_ && _).
  - right. exists en. split_and!; try done.
    destruct ((0 <? ExpiryTimestamp en) && (ExpiryTimestamp en <? now)) eqn:E; [|done]. lia.
Qed.

(** C6. Reads see the last write while tables are flushed. Along every
    interleaving of batches, reads and flushes from a consistent server in which
    no write of the key comes between a reader's finding it and caching it, each
    read of the key answers from the last batch of the trace that has it (and,
    if none has, from what the server held at the start): with its value before
    the deadline, Not Found when it is a tombstone; after the deadline Not
    Found, or still the value when the cache holds it. *)
Theorem Engine_reads_last_write (m : machine B) contents tr1 now k r tr2 e' : server_ok m contents ->
  NoDup (path <$> wals (bb m)) -> NoDup (Filename <$> concat (SSTables (bb m))) ->
  steps (mkEngine m None None []) (tr1 ++ EvRead now k r :: tr2) e' ->
  let o0 := first_some [mem_spec k (bb m); disk_spec k contents] in
  undisturbed k o0 tr1 ->
  let o := fold_left (write_of k) tr1 o0 in
  r = Ok (answer now k o) \/
  exists en, o = Some en /\ IsDeleted en = false /\ ExpiryTimestamp en < now /\ r = Ok (Some (serve k (Some (Value en)))).
Proof.
  intros Hs Hw Ht Hsteps o0 Htr. set (s := mkSpec (fun k => first_some [mem_spec k (bb m); disk_spec k contents]) ∅ ∅).
  destruct (sim_steps _ _ _ s Hsteps) as [Hr _]; [by apply sim_start|].
  exact (undisturbed_answer s tr1 now k r tr2 Hr eq_refl (not_elem_of_empty k) Htr).
Qed.

End Simulation.
