(* ===== verification/Search.v ===== *)
(** A disk search below the level of Engine's reads: it reads the header of a
    level, opens one table after the other, goes to the next level, and in
    between the engine flushes, takes, merges and removes tables. *)
From S2P Require Import Prelude Codec Text Domain Hashing Configuration WriteAheadLog SortedStringTable SystemState Ingestion FlushAgent GoHeap MergeIterators CompactionAgent Python Json HttpApi Engine.
From S2P Require MemoryTable LruCache.

Open Scope Z_scope.

(** ** Definitions *)

(** Where [tryServeFromDisk] is: the tables of the level's header it has still
    to open, newest first. *)
Inductive reader :=
| ReadLevel (level : nat)
| ReadTables (level : nat) (rest : list SSTableMetadata)
| Found (e : Entry)
| Missing
| Panicked.

Section Search.
Context `{BloomFilter B} `{MemoryTable.MapRange}.
Implicit Types (e : engine B) (m : machine B).

(** The outer slice is shared: each level's header is read when the loop gets
    there, without the lock. *)
Definition reader_step (k : string) m (r : reader) : option reader :=
  match r with
  | ReadLevel i =>
    Some match SSTables (bb m) !! i with Some level => ReadTables i (reverse level) | None => Missing end
  | ReadTables i [] => Some (ReadLevel (S i))
  | ReadTables i (meta :: rest) =>
    Some match may_contain (BloomF (bb m)) (FileID meta) k with
         | None => Panicked
         | Some false => ReadTables i rest
         | Some true => match FindInSSTable meta k (fs m) with Some en => Found en | None => ReadTables i rest end
         end
  | _ => None
  end.

(** The reader's steps among the engine's. *)
Inductive search_run (k : string) : engine B -> reader -> engine B -> reader -> Prop :=
| search_done e r : search_run k e r e r
| search_engine e ev e1 r e2 r2 : step e ev e1 -> search_run k e1 r e2 r2 -> search_run k e r e2 r2
| search_reader e r r1 e2 r2 : reader_step k (eng e) r = Some r1 -> search_run k e r1 e2 r2 -> search_run k e r e2 r2.

(** The reader alone, until it ends. *)
Inductive reader_run (k : string) m : reader -> reader -> Prop :=
| reader_done r : reader_step k m r = None -> reader_run k m r r
| reader_more r r1 r2 : reader_step k m r = Some r1 -> reader_run k m r1 r2 -> reader_run k m r r2.

Definition reader_result (o : outcome (option Entry)) : reader :=
  match o with Ok (Some en) => Found en | Ok None => Missing | _ => Panicked end.

(** ** Lemmas *)

(** *** Without interruption the search is [find_levels]. *)

Lemma reader_tables k m i rest r : (find_level k (BloomF (bb m)) (fs m) rest = Ok None -> reader_run k m (ReadLevel (S i)) r) ->
  (forall en, find_level k (BloomF (bb m)) (fs m) rest = Ok (Some en) -> r = Found en) ->
  (find_level k (BloomF (bb m)) (fs m) rest = Panic -> r = Panicked) ->
  reader_run k m (ReadTables i rest) r.
Proof.
  induction rest as [|meta rest IH]; intros Hn Hf Hp; (eapply reader_more; [reflexivity|]).
  { by apply Hn. }
  cbn [find_level] in *. destruct (may_contain _ _ k) as [[]|].
  - destruct (FindInSSTable meta k (fs m)) as [en|]; [|by apply IH]. rewrite (Hf en eq_refl). by apply reader_done.
  - by apply IH.
  - rewrite (Hp eq_refl). by apply reader_done.
Qed.

Lemma find_level_no_error k bloom f l : find_level k bloom f l <> Err.
Proof. induction l as [|meta l IH]; [done|]. cbn. destruct (may_contain bloom _ k) as [[]|]; [|done..]. by case_match. Qed.

Lemma reader_levels k m n : forall i, (length (SSTables (bb m)) = i + n)%nat ->
  reader_run k m (ReadLevel i) (reader_result (find_levels k (BloomF (bb m)) (fs m) (drop i (SSTables (bb m))))).
Proof.
  induction n as [|n IH]; intros i Hn.
  - eapply reader_more; [reflexivity|]. rewrite (lookup_ge_None_2 _ i) by lia. rewrite drop_ge by lia. by apply reader_done.
  - destruct (lookup_lt_is_Some_2 (SSTables (bb m)) i) as [level Hl]; [lia|].
    rewrite (drop_S _ level) by done. cbn [find_levels].
    eapply reader_more; [reflexivity|]. rewrite Hl. apply reader_tables.
    + intros ->. apply IH. lia.
    + by intros en ->.
    + by intros ->.
Qed.

End Search.

(** *** Tables that stay *)

Section Stay.
Context `{BloomFilterLaws B} `{MemoryTable.MapRange}.
Implicit Types (e : engine B).

Definition all_tables e : list SSTableMetadata := concat (SSTables (bb (eng e))) ++ held e.

Lemma owned_tables e : owned e = (path <$> wals (bb (eng e))) ++ (Filename <$> all_tables e).
Proof. unfold owned, all_tables. by rewrite fmap_app. Qed.

Lemma table_owned e t : t ∈ all_tables e -> Filename t ∈ owned e.
Proof. intros Ht. rewrite owned_tables. apply elem_of_app. right. by apply list_elem_of_fmap_2. Qed.

(** A new file is no table's. *)
Lemma new_file_grows e contents fes ts ms p data bloom : engine_ok e contents fes ts ms ->
  files (fs (eng e)) !! p = None -> bloom_le (BloomF (bb (eng e))) bloom ->
  grows (Filename <$> all_tables e) (eng e) (with_bb (set_BloomF bloom) (with_fs (fs_write p data (fs (eng e))) (eng e))).
Proof.
  intros He Hp Hb. apply grows_new_file; [|done]. intros (t & -> & Ht)%list_elem_of_fmap.
  by apply (fresh_not_owned e _ _ _ _ (Filename t) He Hp), table_owned.
Qed.

Lemma grows_same_fs own (m m' : machine B) : fs m' = fs m -> BloomF (bb m') = BloomF (bb m) -> grows own m m'.
Proof. intros Hf Hb. by split; rewrite ?Hf, ?Hb. Qed.

(** What a batch, a read and the agents leave of the tables' files. *)
Lemma batch_grows e contents fes ts ms batch now now_rot : engine_ok e contents fes ts ms -> rotation_fresh now_rot (eng e) ->
  grows (Filename <$> all_tables e) (eng e) (processBatch batch now now_rot (eng e)).1.
Proof.
  intros He Hfresh. destruct (processBatch_frame batch now now_rot (eng e)) as [_ Hb _ _ _ Hfiles Hop].
  split; [|done|by rewrite Hb]. intros q Hq. pose proof (eo_owned _ _ _ _ _ He) as Hn. rewrite owned_tables in Hn.
  apply NoDup_app in Hn as (_ & Hd & _). apply Hfiles; [|intros Hin; by apply (Hd q)].
  intros ->. apply (fresh_not_owned e _ _ _ _ _ He Hfresh). rewrite owned_tables. apply elem_of_app. by right.
Qed.

Lemma commit_flush_grows e contents fes ts ms written : engine_ok e contents fes ts ms -> flushing e = Some written ->
  grows (Filename <$> all_tables e) (eng e) (commitFlush written (eng e)).
Proof.
  intros He Hsome. pose proof He as [Hok _ _ Hn Hf _ _]. rewrite Hsome in Hf.
  destruct written as [meta| |]; [|by apply grows_same_fs..].
  rewrite owned_tables in Hn. apply NoDup_app in Hn as (Hnw & Hd & _).
  destruct (commitFlush_ok _ _ meta fes Hok Hnw Hf) as (_ & _ & gone & Hgone & Hfiles).
  destruct (commitFlush_keeps _ _ meta Hok) as (_ & _ & Hb & _ & _ & _ & _ & Hop & _).
  split; [|done|by rewrite Hb]. intros q Hq. apply Hfiles. intros Hin. apply (Hd q); [|done].
  rewrite Hgone. apply elem_of_app. by left.
Qed.

Lemma commit_compaction_grows e contents fes ts ms tables meta : engine_ok e contents fes ts ms ->
  compacting e = Some (tables, Some (Ok meta)) ->
  grows (Filename <$> meta :: concat (SSTables (bb (eng e)))) (eng e) (settleCompaction tables (Ok meta) (eng e)).
Proof.
  intros He Hsome. destruct (compaction_apart _ _ _ _ _ _ _ He Hsome) as [_ Hd].
  split; [|apply fold_Remove_openable|done]. intros q (t' & -> & Ht')%list_elem_of_fmap. apply fold_Remove_files.
  intros (t & Heq & Ht)%list_elem_of_fmap. by apply (Hd t t').
Qed.

(** A table with the key, where a compaction has it or a reader can find it. *)
Definition live e (k : string) (t : SSTableMetadata) (es : list Entry) : Prop :=
  table_ok e t es /\ k ∈ (Key <$> es) /\ (t ∈ concat (SSTables (bb (eng e))) \/ t ∈ taken e).

(** A table with the key on level 1, which nothing takes away. *)
Definition settled e (k : string) (t : SSTableMetadata) : Prop :=
  exists level es, SSTables (bb (eng e)) !! 1%nat = Some level /\ t ∈ level /\ table_ok e t es /\ k ∈ (Key <$> es).

Definition moves e e' (k : string) : Prop :=
  (forall t es, live e k t es -> live e' k t es \/ exists t', settled e' k t') /\
  (forall t, settled e k t -> settled e' k t).

Lemma settled_concat e k t : settled e k t -> t ∈ concat (SSTables (bb (eng e))).
Proof. intros (level & es & Hl & Ht & _). apply elem_of_concat. exists level. split; [by eapply list_elem_of_lookup_2|done]. Qed.

Lemma live_table e t : t ∈ concat (SSTables (bb (eng e))) \/ t ∈ taken e -> t ∈ all_tables e.
Proof. intros Ht. apply elem_of_app. rewrite elem_of_held. tauto. Qed.

Lemma grows_table own e e' t es : grows own (eng e) (eng e') -> Filename t ∈ own -> table_ok e t es -> table_ok e' t es.
Proof. intros Hg Ht. by apply (grows_meta own). Qed.

(** Every step but the commit of a compaction. *)
Lemma moves_grows e e' k : grows (Filename <$> all_tables e) (eng e) (eng e') ->
  (forall t, t ∈ concat (SSTables (bb (eng e))) \/ t ∈ taken e -> t ∈ concat (SSTables (bb (eng e'))) \/ t ∈ taken e') ->
  SSTables (bb (eng e')) !! 1%nat = SSTables (bb (eng e)) !! 1%nat -> moves e e' k.
Proof.
  intros Hg Hin H1l.
  assert (forall t es, t ∈ concat (SSTables (bb (eng e))) \/ t ∈ taken e -> table_ok e t es -> table_ok e' t es) as Hok.
  { intros t es Ht. eapply grows_table; [exact Hg|]. by apply list_elem_of_fmap_2, live_table. }
  split.
  - intros t es (Ht & Hk & Hwhere). left. split_and!; [by apply Hok|done|by apply Hin].
  - intros t Hs. pose proof (settled_concat _ _ _ Hs) as Hc. destruct Hs as (level & es & Hl & Ht & Hto & Hk).
    exists level, es. rewrite H1l. split_and!; try done. apply Hok; [by left|done].
Qed.

(** Level 0 changed, level 1 did not. *)
Lemma level_zero_only (g : list SSTableMetadata -> list SSTableMetadata) (levels : list (list SSTableMetadata)) :
  alter g 0%nat levels !! 1%nat = levels !! 1%nat.
Proof. by rewrite list_lookup_alter_ne. Qed.

Lemma concat_alter_grow (g : list SSTableMetadata -> list SSTableMetadata) levels i t :
  (forall l, t ∈ l -> t ∈ g l) -> t ∈ concat levels -> t ∈ concat (alter g i levels).
Proof.
  intros Hg. rewrite !elem_of_concat. intros (l & Hl & Ht). apply list_elem_of_lookup in Hl as [j Hj].
  destruct (decide (i = j)) as [->|Hij].
  - exists (g l). split; [|by apply Hg]. apply list_elem_of_lookup. exists j. by rewrite list_lookup_alter_eq, Hj.
  - exists l. split; [|done]. apply list_elem_of_lookup. exists j. by rewrite list_lookup_alter_ne.
Qed.

Lemma moves_take e k tables m contents : state_ok (eng e) contents -> compacting e = None ->
  takeLevelZero (eng e) = Some (tables, m) -> moves e (mkEngine m (flushing e) (Some (tables, None)) (filling e)) k.
Proof.
  intros Hok Hnone Htake. destruct (takeLevelZero_ok _ _ _ _ Hok Htake) as (ts & rest & levels & _ & Hss & -> & _).
  apply moves_grows; [by apply grows_same_fs| |by cbn; rewrite Hss].
  intros t [Ht|Ht]; [|unfold taken in Ht; rewrite Hnone in Ht; by inversion Ht].
  rewrite Hss in Ht. cbn [concat] in Ht. apply elem_of_app in Ht as [Ht|Ht]; [by right|by left].
Qed.

(** The commit: what was taken is in the merged table, on level 1. *)
Lemma moves_commit e k contents fes ts ms tables meta : engine_ok e contents fes ts ms ->
  compacting e = Some (tables, Some (Ok meta)) ->
  moves e (mkEngine (settleCompaction tables (Ok meta) (eng e)) (flushing e) None (filling e)) k.
Proof.
  intros He Hsome. pose proof (commit_compaction_grows _ _ _ _ _ _ _ He Hsome) as Hg.
  pose proof He as [Hok _ _ _ _ Ht Hm]. unfold taken, merged in Ht, Hm. rewrite Hsome in Ht, Hm. destruct Hm as [Hmeta Hms].
  destruct (compaction_apart _ _ _ _ _ _ _ He Hsome) as [Hw Hd].
  destruct (settle_commit_ok _ _ tables meta ms Hok Hmeta Hw Hd) as [_ Hss].
  set (e' := mkEngine _ (flushing e) None (filling e)).
  change (SSTables (bb (eng e')) = alter (fun l => l ++ [meta]) 1%nat (SSTables (bb (eng e)))) in Hss.
  assert (exists l1, SSTables (bb (eng e)) !! 1%nat = Some l1) as [l1 Hl1].
  { apply lookup_lt_is_Some_2. destruct Hok as (_ & _ & _ & _ & _ & Hl & _). lia. }
  assert (SSTables (bb (eng e')) !! 1%nat = Some (l1 ++ [meta])) as Hl1' by (by rewrite Hss, list_lookup_alter_eq, Hl1).
  assert (forall t es, t ∈ meta :: concat (SSTables (bb (eng e))) -> table_ok e t es -> table_ok e' t es) as Hkeep.
  { intros t es Hin. apply (grows_table _ e e' t es Hg). by apply list_elem_of_fmap_2. }
  split.
  - intros t es (Hto & Hk & [Hc|Htk]).
    + left. split_and!; [apply Hkeep; [by right|done]|done|left]. rewrite Hss. apply concat_alter_grow; [|done].
      intros l Hl. apply elem_of_app. by left.
    + right. exists meta, (l1 ++ [meta]), ms. split_and!; [done|apply elem_of_app; right; left|apply Hkeep; [left|done]|].
      unfold taken in Htk. rewrite Hsome in Htk. apply list_elem_of_lookup in Htk as [i Hi].
      destruct (Forall2_lookup_l _ _ _ _ _ Ht Hi) as (es' & Hes' & Hto').
      destruct (metas_sorted _ _ _ _ Ht) as [Hsort Hfit].
      destruct (merge_files_last ts k Hsort Hfit) as (_ & Hnone & _). rewrite <- Hms in Hnone.
      assert (last_entry k es' = last_entry k es) as Heq.
      { by rewrite <- (FindInSSTable_last t es' _ k (proj1 Hto')), <- (FindInSSTable_last t es _ k (proj1 Hto)). }
      destruct (decide (k ∈ (Key <$> ms))) as [|Hno]; [done|exfalso]. apply last_entry_in in Hno.
      apply Hnone with (es := es') in Hno; [|by eapply list_elem_of_lookup_2]. rewrite Heq in Hno.
      by apply last_entry_in in Hno.
  - intros t Hs. pose proof (settled_concat _ _ _ Hs) as Hc. destruct Hs as (level & es & Hl & Htl & Hto & Hk).
    rewrite Hl1 in Hl. injection Hl as <-. exists (l1 ++ [meta]), es.
    split_and!; [done|apply elem_of_app; by left|apply Hkeep; [by right|done]|done].
Qed.

(** The merge writes a new file, or nothing. *)
Lemma moves_merge e k contents fes ts ms tables now m r : engine_ok e contents fes ts ms ->
  compacting e = Some (tables, None) -> 0 <= now < 2 ^ 63 -> merge_fresh now (eng e) -> merge_bytes_fit tables (eng e) ->
  performMerge tables (DataDirectoryPath (Configuration (bb (eng e)))) now (eng e) = (m, r) ->
  moves e (mkEngine m (flushing e) (Some (tables, Some r)) (filling e)) k.
Proof.
  intros He Hsome Hnow Hfresh Hfit Em. pose proof He as [Hok _ _ _ _ Ht _]. unfold taken in Ht. rewrite Hsome in Ht. specialize (Hfit _ (createIterators_ok _ _ _ Ht)).
  pose proof (performMerge_spec _ _ tables ts now Hok Ht Hnow Hfresh Hfit) as Hs. cbv zeta in Hs. rewrite Em in Hs.
  assert (forall m', SSTables (bb m') = SSTables (bb (eng e)) -> grows (Filename <$> all_tables e) (eng e) m' ->
    moves e (mkEngine m' (flushing e) (Some (tables, Some r)) (filling e)) k) as Hgo.
  { intros m' Hss Hg. apply moves_grows; [exact Hg| |cbn; by rewrite Hss].
    intros t. cbn [eng]. rewrite Hss. unfold taken. cbn [compacting]. by rewrite Hsome. }
  destruct Hs as [_ [(_ & -> & _)|(meta & bloom & _ & _ & -> & Hle & _)]].
  + apply Hgo; [done|by apply grows_same_fs].
  + apply Hgo; [done|]. eapply new_file_grows; [exact He|exact Hfresh|done].
Qed.

(** After a failed merge the tables are on level 0 again. *)
Lemma moves_restore e k contents tables : state_ok (eng e) contents -> compacting e = Some (tables, Some Err) ->
  moves e (mkEngine (settleCompaction tables Err (eng e)) (flushing e) None (filling e)) k.
Proof.
  intros Hok Hsome. apply moves_grows; [by apply grows_same_fs| |cbn; by rewrite level_zero_only].
  intros t [Hin|Hin]; left; cbn [eng settleCompaction with_bb bb SSTables set_SSTables].
  + apply concat_alter_grow; [|done]. intros l Hl. apply elem_of_app. by right.
  + unfold taken in Hin. rewrite Hsome in Hin. destruct Hok as (_ & _ & _ & _ & _ & Hl & _).
    destruct (SSTables (bb (eng e))) as [|l0 ls]; [simpl in Hl; lia|]. cbn. rewrite !elem_of_app. by left; left.
Qed.

Lemma step_moves e ev e' k s : step e ev e' -> engine_sim e s -> moves e e' k.
Proof.
  intros Hstep Hsim. pose proof Hsim as [(contents & fes & ts & ms & He & _) _].
  pose proof He as [Hok Hw Hc _ _ Ht _].
  destruct Hstep as [e batch now now_rot m out Hne Hfit Hfresh Eb|e now k' m r found Ef|e l1 x l2 Hfl|e t now m r Hnone Hwait Hnow Hfresh Hlen Ew|e written Hsome|e tables m Hnone Htake|e tables now m r Hsome Hnow Hfresh Hfit Em|e tables Hsome|e tables meta Hsome].
  - pose proof (batch_grows _ _ _ _ _ batch now now_rot He Hfresh) as Hg.
    pose proof (fr_tables _ _ _ (processBatch_frame batch now now_rot (eng e))) as Hss. rewrite Eb in Hg, Hss. cbn [fst] in Hg, Hss.
    by apply moves_grows; [done|intros t; cbn; rewrite Hss|cbn; rewrite Hss].
  - pose proof (fetch_spec now k' _ _ Hok Hc) as Hs. rewrite Ef in Hs. destruct Hs as (_ & _ & _ & (c & g & ->) & _).
    by apply moves_grows; [apply grows_same_fs|..].
  - assert (exists c, fill x (eng e) = mkMachine (set_KeyCache c (bb (eng e))) (fs (eng e)) (Global (eng e))) as [c Hm'].
    { unfold fill. destruct (eng e) as [[? ? ? ? ? ? ? [kc|]] f0 g0]; by eexists. }
    rewrite Hm'. by apply moves_grows; [apply grows_same_fs|..].
  - pose proof (write_flush_spec _ _ t now Hok Hwait Hnow Hfresh Hlen) as Hs. cbv zeta in Hs. rewrite Ew in Hs.
    destruct Hs as [_ [(_ & -> & _)|(meta & bloom & _ & _ & -> & Hle & _)]].
    + by apply moves_grows; [apply grows_same_fs|..].
    + by apply moves_grows; [eapply new_file_grows; [exact He|exact Hfresh|done]|..].
  - pose proof (commit_flush_grows _ _ _ _ _ _ He Hsome) as Hg.
    assert (SSTables (bb (commitFlush written (eng e))) = SSTables (bb (eng e)) \/
      exists meta, SSTables (bb (commitFlush written (eng e))) = alter (fun l => l ++ [meta]) 0%nat (SSTables (bb (eng e)))) as Hss.
    { destruct written as [meta| |]; [right|by left..]. exists meta. apply (commitFlush_keeps _ _ meta Hok). }
    apply moves_grows; [exact Hg| |]; cbn [eng].
    + intros t [Hin|Hin]; [left|by right]. destruct Hss as [->|[meta ->]]; [done|].
      apply concat_alter_grow; [|done]. intros l Hl. apply elem_of_app. by left.
    + destruct Hss as [->|[meta ->]]; [done|]. by rewrite level_zero_only.
  - by eapply moves_take.
  - by eapply moves_merge.
  - by eapply moves_restore.
  - by eapply moves_commit.
Qed.

(** *** The reader's invariant: a table with the key is still ahead of it. *)

Definition ahead e (k : string) (r : reader) : Prop :=
  match r with
  | ReadTables 0 rest =>
    Forall (fun t => 0 <= FileID t) rest /\
    ((exists t es, t ∈ rest /\ live e k t es) \/ exists t, settled e k t)
  | ReadLevel 1 => exists t, settled e k t
  | ReadTables 1 rest => Forall (fun t => 0 <= FileID t) rest /\ exists t, t ∈ rest /\ settled e k t
  | Found en => Key en = k
  | _ => False
  end.

Lemma ahead_step e ev e' k r s : step e ev e' -> engine_sim e s -> ahead e k r -> ahead e' k r.
Proof.
  intros Hstep Hsim Ha. destruct (step_moves e ev e' k s Hstep Hsim) as [Hlive Hset].
  destruct r as [[|[|i]]|[|[|i]] rest|en| |]; try done; cbn [ahead] in *.
  - destruct Ha as [t Ht]. exists t. by apply Hset.
  - destruct Ha as [Hid [(t & es & Hin & Hl)|[t Ht]]]; (split; [done|]); [|right; exists t; by apply Hset].
    destruct (Hlive t es Hl) as [Hl'|Hs]; [left; by exists t, es|by right].
  - destruct Ha as [Hid (t & Hin & Ht)]. split; [done|]. exists t. split; [done|]. by apply Hset.
Qed.

Lemma FindInSSTable_key t k f en : FindInSSTable t k f = Some en -> Key en = k.
Proof.
  unfold FindInSSTable. destruct (Index t !! k); [|done]. destruct (os_Open _ _); [|done].
  by repeat (case_match; subst); intros [= <-].
Qed.

(** Opening one table: the reader ends with its entry, or goes on, past a table
    without the key. *)
Lemma open_table e k i t rest r1 : bloom_opt_ok (BloomF (bb (eng e))) -> 0 <= FileID t ->
  reader_step k (eng e) (ReadTables i (t :: rest)) = Some r1 ->
  (exists en, r1 = Found en /\ Key en = k) \/ (r1 = ReadTables i rest /\ forall es, table_ok e t es -> k ∉ (Key <$> es)).
Proof.
  intros Hb Hid. cbn [reader_step]. destruct (may_contain_total _ (FileID t) k Hb Hid) as (b & -> & Hbk).
  intros Hr. apply (inj Some) in Hr as <-. destruct (FindInSSTable t k (fs (eng e))) as [en|] eqn:Ef.
  - destruct b; [left; exists en; split; [done|by eapply FindInSSTable_key]|right]. split; [done|]. intros es (_ & _ & _ & Hkeys) Hk.
    specialize (Hkeys k Hk). by apply Hbk in Hkeys.
  - right. split; [by destruct b|]. intros es (Htf & _) Hk. rewrite (FindInSSTable_last t es _ k Htf) in Ef.
    by apply last_entry_in in Ef.
Qed.

Lemma settled_no e k t : (forall es, table_ok e t es -> k ∉ (Key <$> es)) -> settled e k t -> False.
Proof. intros Hno (level & es & _ & _ & Hto & Hk). by apply (Hno es). Qed.

Lemma ahead_reader e k r r1 s : engine_sim e s -> reader_step k (eng e) r = Some r1 -> ahead e k r -> ahead e k r1.
Proof.
  intros [(contents & fes & ts & ms & He & _) _] Hstep Ha.
  pose proof (eo_state _ _ _ _ _ He) as (_ & _ & _ & Hb & Htab & _).
  destruct r as [[|[|i]]|[|[|i]] [|t rest]|en| |]; try done; cbn [ahead] in Ha.
  - destruct Ha as [t Ht]. pose proof Ht as (level & es & Hl & Hin & _). cbn [reader_step] in Hstep. rewrite Hl in Hstep.
    apply (inj Some) in Hstep as <-. cbn [ahead]. split; [|exists t; split; [by apply elem_of_reverse|done]].
    apply Forall_forall. intros t' Ht'. rewrite elem_of_reverse in Ht'.
    assert (t' ∈ concat (SSTables (bb (eng e)))) as Hc.
    { apply elem_of_concat. exists level. split; [by eapply list_elem_of_lookup_2|done]. }
    destruct (Forall2_concat_elem _ _ _ _ Htab Hc) as (es' & _ & _ & Hid & _). done.
  - apply (inj Some) in Hstep as <-. destruct Ha as [_ [(t & es & Hin & _)|Hs]]; [by inversion Hin|done].
  - destruct Ha as [Hid Hor]. apply Forall_cons in Hid as [Hidt Hid].
    destruct (open_table _ _ _ _ _ _ Hb Hidt Hstep) as [(en & -> & Hk)|[-> Hno]]; [done|]. cbn [ahead]. split; [done|].
    destruct Hor as [(t' & es & Hin & Hl)|Hs]; [|by right]. apply elem_of_cons in Hin as [->|Hin]; [|left; by exists t', es].
    destruct Hl as (Hto & Hk & _). by destruct (Hno es Hto).
  - destruct Ha as [_ (t & Hin & _)]. by inversion Hin.
  - destruct Ha as [Hid (t' & Hin & Hs)]. apply Forall_cons in Hid as [Hidt Hid].
    destruct (open_table _ _ _ _ _ _ Hb Hidt Hstep) as [(en & -> & Hk)|[-> Hno]]; [done|]. cbn [ahead]. split; [done|].
    apply elem_of_cons in Hin as [->|Hin]; [by apply settled_no in Hs|by exists t'].
Qed.

Lemma ahead_run e k r e' r' : search_run k e r e' r' -> forall s, engine_sim e s -> ahead e k r -> ahead e' k r'.
Proof.
  induction 1 as [e r|e ev e1 r e2 r2 Hstep _ IH|e r r1 e2 r2 Hr _ IH]; intros s Hsim Ha; [done|..].
  - destruct (sim_step _ _ _ _ Hstep Hsim) as [_ Hsim1]. eapply IH; [done|]. by eapply ahead_step.
  - eapply IH; [done|]. by eapply ahead_reader.
Qed.

End Stay.

(** ** Properties *)

Section Properties.
Context `{BloomFilterLaws B} `{MemoryTable.MapRange}.

(** C8. A search does not lose a key to a compaction that runs meanwhile. From
    the moment a reader has the header of level 0, if some table of level 0 or 1
    has the key, then in every interleaving of its reads with batches, flushes
    and the phases of compactions, which take, merge and remove the tables it
    has still to open, it neither ends with nothing nor panics, and the
    entry it ends with is the key's: what is removed has been merged into level 1
    before. *)
Theorem Search_never_misses (m : machine B) contents tr e k level0 t e' r' : server_ok m contents ->
  NoDup (path <$> wals (bb m)) -> NoDup (Filename <$> concat (SSTables (bb m))) ->
  steps (mkEngine m None None []) tr e ->
  SSTables (bb (eng e)) !! 0%nat = Some level0 -> t ∈ concat (take 2 (SSTables (bb (eng e)))) ->
  is_Some (FindInSSTable t k (fs (eng e))) ->
  search_run k e (ReadTables 0 (reverse level0)) e' r' ->
  r' <> Missing /\ r' <> Panicked /\ forall en, r' = Found en -> Key en = k.
Proof.
  intros Hs Hw Ht Hsteps Hl0 Hin Hfound Hrun.
  destruct (sim_steps _ _ _ _ Hsteps (sim_start m contents Hs Hw Ht)) as [_ Hsim].
  enough (ahead e k (ReadTables 0 (reverse level0))) as Ha.
  { pose proof (ahead_run _ _ _ _ _ Hrun _ Hsim Ha) as Ha'. by split_and!; [intros ->..|intros en ->]. }
  destruct Hsim as [(contents' & fes & ts & ms & He & _) _].
  pose proof (eo_state _ _ _ _ _ He) as (_ & _ & _ & _ & Htab & _).
  assert (forall t', t' ∈ concat (SSTables (bb (eng e))) -> exists es, table_ok e t' es) as Hall.
  { intros t' Ht'. by apply (Forall2_concat_elem _ _ _ _ Htab). }
  assert (forall j l, SSTables (bb (eng e)) !! j = Some l -> forall t', t' ∈ l -> t' ∈ concat (SSTables (bb (eng e)))) as Hcon.
  { intros j l Hl t' Ht'. apply elem_of_concat. exists l. split; [by eapply list_elem_of_lookup_2|done]. }
  destruct (SSTables (bb (eng e))) as [|l0 levels] eqn:Ess; [done|]. injection Hl0 as ->.
  assert (t ∈ level0 \/ exists l1, levels !! 0%nat = Some l1 /\ t ∈ l1) as Hwhere.
  { destruct levels as [|l1 levels]; cbn in Hin; rewrite ?app_nil_r in Hin; [by left|].
    apply elem_of_app in Hin as [Hin|Hin]; [by left|right; by exists l1]. }
  assert (t ∈ concat (level0 :: levels)) as Htc.
  { destruct Hwhere as [?|(l1 & Hl1 & ?)]; [by eapply (Hcon 0%nat)|by eapply (Hcon 1%nat)]. }
  destruct (Hall t Htc) as [es Hes].
  assert (k ∈ (Key <$> es)) as Hk.
  { rewrite (FindInSSTable_last t es _ k (proj1 Hes)) in Hfound. destruct Hfound as [en Hen].
    destruct (decide (k ∈ (Key <$> es))) as [|Hno]; [done|]. apply last_entry_in in Hno. congruence. }
  cbn [ahead]. split.
  - apply Forall_forall. intros t' Ht'. rewrite elem_of_reverse in Ht'.
    destruct (Hall t') as (es' & _ & _ & Hid & _); [by eapply (Hcon 0%nat)|done].
  - destruct Hwhere as [Hin0|(l1 & Hl1 & Hin1)].
    + left. exists t, es. split; [by apply elem_of_reverse|]. split_and!; [done|done|left]. by rewrite Ess.
    + right. exists t, l1, es. split_and!; try done. by rewrite Ess.
Qed.

(** A search that nothing interrupts, level by level and table by table, is
    the lookup that the other theorems speak of, errors of the filter included. *)
Theorem Search_is_find_levels (m : machine B) k :
  reader_run k m (ReadLevel 0) (reader_result (find_levels k (BloomF (bb m)) (fs m) (SSTables (bb m)))).
Proof. apply (reader_levels k m (length (SSTables (bb m))) 0). lia. Qed.

End Properties.
