(* ===== verification/Shards.v ===== *)
(** The shards of the ingestion agent with their channels: clients put requests
    into the queues of the shard their key hashes to, the goroutine of each
    shard takes them out in turns, and everything the engine does (reads,
    flushes, compactions) goes on in between. *)
From S2P Require Import Prelude Codec Text Domain Hashing Configuration WriteAheadLog SortedStringTable SystemState Ingestion FlushAgent CompactionAgent HttpApi Engine.
From S2P Require MemoryTable LruCache.

Open Scope Z_scope.

(** ** Definitions *)

(** Where the goroutine of a shard is in [runShard]: at its [select]; with the
    request it received, before draining the queue; with the drained buffer;
    with a batch and the channel that awaits the reply. *)
Inductive phase :=
| Waiting
| Received (itemBuffer : list IngestReq)
| Drained (itemBuffer : list IngestReq)
| ReceivedBatch (items : list IngestReq) (ResponseChannel : nat).

Record shard := mkShard {
  SingleQueue : list IngestReq;
  BatchQueue : list (list IngestReq * nat);
  at_ : phase;
}.

(** The capacities of the channels. A send to a full one waits. *)
Definition single_capacity : Z := 10000.
Definition batch_capacity : Z := 100.

Definition new_shard : shard := mkShard [] [] Waiting.

(** The shards of [InitializeIngestionSubsystem]; the line it logs is queued in
    Server. *)
Definition InitializeIngestionSubsystem (NumCPU : Z) (cfg : SystemConfiguration) : list shard :=
  replicate (Z.to_nat (ingest_shards NumCPU cfg)) new_shard.

(** [None]: the send waits. *)
Definition send_single (req : IngestReq) (sh : shard) : option shard :=
  if zlen (SingleQueue sh) <? single_capacity
  then Some (mkShard (SingleQueue sh ++ [req]) (BatchQueue sh) (at_ sh)) else None.
Definition send_batch (items : list IngestReq) (ch : nat) (sh : shard) : option shard :=
  if zlen (BatchQueue sh) <? batch_capacity
  then Some (mkShard (SingleQueue sh) (BatchQueue sh ++ [(items, ch)]) (at_ sh)) else None.

(** The two receives of the [select]; when both are ready either may happen. *)
Definition receive_single (sh : shard) : option shard :=
  match at_ sh, SingleQueue sh with
  | Waiting, req :: queue => Some (mkShard queue (BatchQueue sh) (Received [req]))
  | _, _ => None
  end.
Definition receive_batch (sh : shard) : option shard :=
  match at_ sh, BatchQueue sh with
  | Waiting, (items, ch) :: queue => Some (mkShard (SingleQueue sh) queue (ReceivedBatch items ch))
  | _, _ => None
  end.

(** [drainSingleQueue], at the moment it reads the length of the queue: only
    this goroutine receives from it. *)
Definition drain (sh : shard) : option shard :=
  match at_ sh with
  | Received itemBuffer =>
    let '(itemBuffer, queue) := drainSingleQueue (SingleQueue sh) itemBuffer in
    Some (mkShard queue (BatchQueue sh) (Drained itemBuffer))
  | _ => None
  end.

(** Back to the [select]. *)
Definition finish (sh : shard) : shard := mkShard (SingleQueue sh) (BatchQueue sh) Waiting.

Record system (B : Type) := mkSys { engine_of : engine B; shards : list shard }.
Arguments mkSys {B}.
Arguments engine_of {B}.
Arguments shards {B}.

(** A single request put into its queue; one shard's part of a batch put into
    its queue; a receive or a drain; a processed buffer; a processed batch with
    the channel that is sent nil; a step of the rest of the engine. *)
Inductive sys_event :=
| Submitted (req : IngestReq)
| Dispatched (items : list IngestReq) (ch : nat)
| Internal
| Processed (now : Z) (batch : list IngestReq) (out : sends)
| ProcessedBatch (now : Z) (items : list IngestReq) (ch : nat) (out : sends)
| EngineEvent (ev : event).

Definition is_write (ev : event) : bool := match ev with EvWrite _ _ _ => true | _ => false end.

Section Steps.
Context `{BloomFilter B} `{MemoryTable.MapRange}.
Implicit Types (s : system B) (sh : shard).

(** Shard [id] goes from [sh] to [sh'], the engine to [e']. *)
Definition move s (id : nat) sh sh' (e' : engine B) : system B -> Prop := fun s' =>
  shards s !! id = Some sh /\ s' = mkSys e' (<[id := sh']> (shards s)).

Inductive sys_step (numShards : Z) : system B -> sys_event -> system B -> Prop :=
| sys_submit s sh sh' req s' : send_single req sh = Some sh' ->
    move s (shard_of numShards (req_Key req)) sh sh' (engine_of s) s' ->
    sys_step numShards s (Submitted req) s'
| sys_dispatch s id sh sh' all items ch s' : groupItemsByShard numShards all !! id = Some items ->
    send_batch items ch sh = Some sh' -> move s id sh sh' (engine_of s) s' ->
    sys_step numShards s (Dispatched items ch) s'
| sys_internal s id sh sh' s' :
    receive_single sh = Some sh' \/ receive_batch sh = Some sh' \/ drain sh = Some sh' ->
    move s id sh sh' (engine_of s) s' ->
    sys_step numShards s Internal s'
| sys_process s id sh batch now out e' s' : at_ sh = Drained batch ->
    step (engine_of s) (EvWrite now batch out) e' -> move s id sh (finish sh) e' s' ->
    sys_step numShards s (Processed now batch out) s'
| sys_process_batch s id sh items ch now out e' s' : at_ sh = ReceivedBatch items ch ->
    step (engine_of s) (EvWrite now items out) e' -> move s id sh (finish sh) e' s' ->
    sys_step numShards s (ProcessedBatch now items ch out) s'
| sys_engine s ev e' : is_write ev = false -> step (engine_of s) ev e' ->
    sys_step numShards s (EngineEvent ev) (mkSys e' (shards s)).

Inductive sys_steps (numShards : Z) : system B -> list sys_event -> system B -> Prop :=
| sys_refl s : sys_steps numShards s [] s
| sys_cons s ev s1 tr s2 : sys_step numShards s ev s1 -> sys_steps numShards s1 tr s2 ->
    sys_steps numShards s (ev :: tr) s2.

(** Nothing in flight, idle shards. *)
Definition start (NumCPU : Z) (m : machine B) : system B :=
  mkSys (mkEngine m None None []) (InitializeIngestionSubsystem NumCPU (Configuration (bb m))).

End Steps.

(** *** Specification: what a trace submits and processes, per key *)

Definition for_key (k : string) (l : list IngestReq) : list IngestReq := filter (fun r => req_Key r = k) l.

Definition submitted_one (k : string) (ev : sys_event) : list IngestReq :=
  match ev with Submitted req => for_key k [req] | _ => [] end.
Definition processed_one (k : string) (ev : sys_event) : list IngestReq :=
  match ev with Processed _ batch _ => for_key k batch | _ => [] end.
Definition dispatched_one (k : string) (ev : sys_event) : list IngestReq :=
  match ev with Dispatched items _ => for_key k items | _ => [] end.
Definition processed_batch_one (k : string) (ev : sys_event) : list IngestReq :=
  match ev with ProcessedBatch _ items _ _ => for_key k items | _ => [] end.

(** The single requests of a key, and the batch items, in the order of the
    sends and in the order in which they were applied. *)
Definition submitted k (tr : list sys_event) : list IngestReq := tr ≫= submitted_one k.
Definition processed k (tr : list sys_event) : list IngestReq := tr ≫= processed_one k.
Definition dispatched k (tr : list sys_event) : list IngestReq := tr ≫= dispatched_one k.
Definition processed_batches k (tr : list sys_event) : list IngestReq := tr ≫= processed_batch_one k.

(** What waits in a shard: in the goroutine's hands, then in the queue. *)
Definition pending (sh : shard) : list IngestReq :=
  match at_ sh with Received b | Drained b => b | _ => [] end ++ SingleQueue sh.
Definition pending_batches (sh : shard) : list IngestReq :=
  match at_ sh with ReceivedBatch items _ => items | _ => [] end ++ (BatchQueue sh ≫= fst).

Definition waiting {B} (n : Z) (s : system B) (k : string) : list IngestReq :=
  match shards s !! shard_of n k with Some sh => for_key k (pending sh) | None => [] end.
Definition waiting_batches {B} (n : Z) (s : system B) (k : string) : list IngestReq :=
  match shards s !! shard_of n k with Some sh => for_key k (pending_batches sh) | None => [] end.

(** The engine's part of a trace: every processed buffer and batch is a write. *)
Definition engine_event (ev : sys_event) : list event :=
  match ev with
  | Processed now batch out => [EvWrite now batch out]
  | ProcessedBatch now items _ out => [EvWrite now items out]
  | EngineEvent ev => [ev]
  | _ => []
  end.
Definition engine_trace (tr : list sys_event) : list event := tr ≫= engine_event.

(** ** Lemmas *)

Lemma for_key_app k l1 l2 : for_key k (l1 ++ l2) = for_key k l1 ++ for_key k l2.
Proof. apply filter_app. Qed.

Lemma for_key_none k l : Forall (fun r => req_Key r <> k) l -> for_key k l = [].
Proof. unfold for_key. induction 1 as [|r l Hr _ IH]; [done|]. by rewrite filter_cons_False. Qed.


(** A group of a batch has the keys of its shard. *)
Lemma group_home n all id items : groupItemsByShard n all !! id = Some items ->
  Forall (fun r => shard_of n (req_Key r) = id) items.
Proof.
  intros Hg. pose proof (groupItemsByShard_spec n all id) as Hs. rewrite Hg in Hs. cbn in Hs. subst items.
  unfold shard_items. apply Forall_forall. intros r Hr. by apply list_elem_of_filter in Hr as [? _].
Qed.

(** *** What the moves of a shard do to what waits in it *)

Lemma send_single_pending req sh sh' : send_single req sh = Some sh' ->
  pending sh' = pending sh ++ [req] /\ pending_batches sh' = pending_batches sh.
Proof.
  unfold send_single. case_match; [|done]. intros [= <-]. unfold pending, pending_batches. cbn. by rewrite app_assoc.
Qed.

Lemma send_batch_pending items ch sh sh' : send_batch items ch sh = Some sh' ->
  pending sh' = pending sh /\ pending_batches sh' = pending_batches sh ++ items.
Proof.
  unfold send_batch. case_match; [|done]. intros [= <-]. unfold pending, pending_batches. cbn.
  rewrite bind_app. cbn. by rewrite app_nil_r, app_assoc.
Qed.

Lemma internal_pending sh sh' :
  receive_single sh = Some sh' \/ receive_batch sh = Some sh' \/ drain sh = Some sh' ->
  pending sh' = pending sh /\ pending_batches sh' = pending_batches sh.
Proof.
  destruct sh as [q bq [|b|b|items ch]]; unfold receive_single, receive_batch, drain, pending, pending_batches; cbn;
    intros [Hr|[Hr|Hr]]; try done.
  - destruct q as [|r q]; [done|]. by injection Hr as <-.
  - destruct bq as [|[items ch] bq]; [done|]. by injection Hr as <-.
  - injection Hr as <-. cbn. split; [|done]. by rewrite <- app_assoc, take_drop.
Qed.

Section System.
Context `{BloomFilter B} `{MemoryTable.MapRange}.
Implicit Types (s : system B) (sh : shard).

(** Every waiting request is in the shard of its key. *)
Definition at_home (n : Z) s : Prop := forall id sh, shards s !! id = Some sh ->
  Forall (fun r => shard_of n (req_Key r) = id) (pending sh ++ pending_batches sh).

(** The engine's view of a system's run. *)
Lemma sys_step_engine n s ev s' : sys_step n s ev s' ->
  steps (engine_of s) (engine_event ev) (engine_of s').
Proof.
  destruct 1 as [s sh sh' req s' _ [_ ->]|s id sh sh' all items ch s' _ _ [_ ->]|s id sh sh' s' _ [_ ->]
    |s id sh batch now out e' s' _ Hs [_ ->]|s id sh items ch now out e' s' _ Hs [_ ->]|s ev e' _ Hs];
    cbn [engine_event engine_of]; try constructor; by (eapply steps_cons; [exact Hs|constructor]).
Qed.

Lemma sys_steps_engine n s tr s' : sys_steps n s tr s' -> steps (engine_of s) (engine_trace tr) (engine_of s').
Proof.
  induction 1 as [s|s ev s1 tr s2 Hs _ IH]; [constructor|].
  unfold engine_trace in *. cbn [mbind list_bind]. eapply steps_app; [by eapply sys_step_engine|done].
Qed.

(** A move that adds [new] singles and [newb] batch items at the end, after
    taking [old] and [oldb] from the front, keeps requests at home and shows
    at each key what it does. *)
Lemma move_waiting n s id sh sh' (e' : engine B) s' old new oldb newb : at_home n s -> move s id sh sh' e' s' ->
  old ++ pending sh' = pending sh ++ new -> oldb ++ pending_batches sh' = pending_batches sh ++ newb ->
  Forall (fun r => shard_of n (req_Key r) = id) (new ++ newb) ->
  at_home n s' /\ forall k,
    for_key k old ++ waiting n s' k = waiting n s k ++ for_key k new /\
    for_key k oldb ++ waiting_batches n s' k = waiting_batches n s k ++ for_key k newb.
Proof.
  intros Hh [Hsh ->] Hp Hb Hnew. pose proof (Hh id sh Hsh) as Hsh_home.
  apply Forall_app in Hsh_home as [H1 H2]. apply Forall_app in Hnew as [H3 H4].
  assert (Forall (fun r => shard_of n (req_Key r) = id) (old ++ pending sh')) as Ho by (rewrite Hp; by apply Forall_app).
  assert (Forall (fun r => shard_of n (req_Key r) = id) (oldb ++ pending_batches sh')) as Hob by (rewrite Hb; by apply Forall_app).
  apply Forall_app in Ho as [Ho1 Ho2]. apply Forall_app in Hob as [Hob1 Hob2].
  pose proof (lookup_lt_Some _ _ _ Hsh) as Hlt. split.
  - intros id' sh''. cbn [shards]. destruct (decide (id' = id)) as [->|Hne].
    + rewrite list_lookup_insert_eq by done. intros [= <-]. by apply Forall_app.
    + rewrite list_lookup_insert_ne by done. apply Hh.
  - intros k. unfold waiting, waiting_batches. cbn [shards]. destruct (decide (shard_of n k = id)) as [He|Hne].
    + rewrite He, list_lookup_insert_eq, Hsh by done. by rewrite <- !for_key_app, Hp, Hb.
    + rewrite list_lookup_insert_ne by done.
      assert (forall l, Forall (fun r => shard_of n (req_Key r) = id) l -> for_key k l = []) as Hno.
      { intros l Hl. apply for_key_none. eapply Forall_impl; [exact Hl|]. intros r Hr Hk. apply Hne. by rewrite <- Hk. }
      by rewrite !Hno, !app_nil_r by done.
Qed.

Lemma sys_step_waiting n s ev s' : at_home n s -> sys_step n s ev s' -> at_home n s' /\ forall k,
  processed_one k ev ++ waiting n s' k = waiting n s k ++ submitted_one k ev /\
  processed_batch_one k ev ++ waiting_batches n s' k = waiting_batches n s k ++ dispatched_one k ev.
Proof.
  intros Hh. destruct 1 as [s sh sh' req s' Hs Hm|s id sh sh' all items ch s' Hg Hs Hm|s id sh sh' s' Hs Hm
    |s id sh batch now out e' s' Ha _ Hm|s id sh items ch now out e' s' Ha _ Hm|s ev e' _ _].
  - apply send_single_pending in Hs as [Hp Hb].
    apply (move_waiting n s _ sh sh' _ s' [] [req] [] [] Hh Hm); [done|by rewrite app_nil_r|by repeat constructor].
  - apply send_batch_pending in Hs as [Hp Hb].
    apply (move_waiting n s id sh sh' _ s' [] [] [] items Hh Hm); [by rewrite app_nil_r|done|by eapply group_home].
  - apply internal_pending in Hs as [Hp Hb].
    apply (move_waiting n s id sh sh' _ s' [] [] [] [] Hh Hm); [by rewrite app_nil_r..|constructor].
  - apply (move_waiting n s id sh (finish sh) e' s' batch [] [] [] Hh Hm); [| |constructor];
      unfold pending, pending_batches; rewrite Ha; by rewrite app_nil_r.
  - apply (move_waiting n s id sh (finish sh) e' s' [] [] items [] Hh Hm); [| |constructor];
      unfold pending, pending_batches; rewrite Ha; by rewrite app_nil_r.
  - split; [exact Hh|]. intros k. cbn. by rewrite !app_nil_r.
Qed.

Lemma sys_steps_waiting n s tr s' : sys_steps n s tr s' -> at_home n s -> forall k,
  processed k tr ++ waiting n s' k = waiting n s k ++ submitted k tr /\
  processed_batches k tr ++ waiting_batches n s' k = waiting_batches n s k ++ dispatched k tr.
Proof.
  induction 1 as [s|s ev s1 tr s2 Hs _ IH]; intros Hh k; [cbn; by rewrite !app_nil_r|].
  destruct (sys_step_waiting n s ev s1 Hh Hs) as [Hh1 Hk]. destruct (Hk k) as [Hk1 Hk2]. destruct (IH Hh1 k) as [I1 I2].
  unfold processed, submitted, processed_batches, dispatched in *. cbn [mbind list_bind].
  by rewrite <- !app_assoc, I1, I2, !app_assoc, Hk1, Hk2.
Qed.


(** Idle shards hold nothing. *)
Lemma start_idle n NumCPU m : at_home n (start NumCPU m) /\ forall k,
  waiting n (start NumCPU m) k = [] /\ waiting_batches n (start NumCPU m) k = [].
Proof.
  assert (forall id sh, shards (start NumCPU m) !! id = Some sh -> sh = new_shard) as Hr.
  { intros id sh Hsh. cbn in Hsh. unfold InitializeIngestionSubsystem in Hsh. by apply lookup_replicate in Hsh as [-> _]. }
  split.
  - intros id sh Hsh. apply Hr in Hsh as ->. constructor.
  - intros k. unfold waiting, waiting_batches.
    destruct (shards (start NumCPU m) !! shard_of n k) as [sh|] eqn:E; [by rewrite (Hr _ _ E)|done].
Qed.


End System.


(** ** Properties *)

Section Properties.
Context `{BloomFilterLaws B} `{MemoryTable.MapRange}.

(** C3. The queues lose and repeat nothing, and keep the order of either kind of
    request. From a consistent server with idle shards, along every interleaving
    of clients sending requests, shards receiving, draining and processing them,
    and everything else the engine does: the single writes of a key are processed
    in the order they were sent in, and what is not processed yet waits in that
    order in the key's shard; so are the items of batches among themselves (a
    batch may overtake single writes, the shard's [select] takes either); and
    what the engine does
    with them is what the last-write specification allows, every processed
    request being acknowledged. *)
Theorem Shards_keep_order NumCPU (m : machine B) contents tr s' : server_ok m contents ->
  NoDup (path <$> wals (bb m)) -> NoDup (Filename <$> concat (SSTables (bb m))) ->
  let n := ingest_shards NumCPU (Configuration (bb m)) in
  sys_steps n (start NumCPU m) tr s' ->
  (forall k, processed k tr ++ waiting n s' k = submitted k tr /\
             processed_batches k tr ++ waiting_batches n s' k = dispatched k tr) /\
  spec_runs (mkSpec (fun k => first_some [mem_spec k (bb m); disk_spec k contents]) ∅ ∅) (engine_trace tr).
Proof.
  intros Hs Hw Ht n Hsteps. split.
  - intros k. destruct (start_idle n NumCPU m) as [Hh Hi]. destruct (Hi k) as [Hi1 Hi2].
    pose proof (sys_steps_waiting n _ tr s' Hsteps Hh k) as Hk. by rewrite Hi1, Hi2 in Hk.
  - apply (sim_steps _ _ _ _ (sys_steps_engine _ _ _ _ Hsteps)). by apply sim_start.
Qed.


End Properties.
