(* ===== verification/Interleaving.v ===== *)
(** The ingestion shards below the level of batches: a shard loads the pointer
    to the active table, puts one entry, drops one key from the cache, looks at
    the size, and another shard or the flush agent may run in between. A put
    into a table the flush agent has already written is lost; no other one is. A
    reader here is a lookup of the engine: memory tables, then files, below the
    key cache (what the cache may answer instead is in Engine and HttpApi). *)
From S2P Require Import Prelude Codec Text Domain Hashing Configuration WriteAheadLog SortedStringTable SystemState Ingestion FlushAgent.
From S2P Require MemoryTable LruCache.

Open Scope Z_scope.

(** ** Definitions *)

(** Where the goroutine of a shard is in [processBatch]. A pointer to a memory
    table is its generation: the number of rotations before it was made. *)
Inductive phase :=
| Waiting
| Applying (batch : list IngestReq) (rest : list (IngestReq * Entry))
| Loaded (batch : list IngestReq) (req : IngestReq) (e : Entry) (rest : list (IngestReq * Entry)) (table : nat)
| Removing (batch : list IngestReq) (key : string) (rest : list (IngestReq * Entry))
| Rotating (batch : list IngestReq)
| Applied (batch : list IngestReq)
| Counting (batch : list IngestReq) (writeOps : Z).

Record fine (B : Type) := mkFine {
  store : machine B;
  generation : nat;
  phases : gmap nat phase;
  dumped : option (outcome SSTableMetadata);
}.
Arguments mkFine {B}.
Arguments store {B}.
Arguments generation {B}.
Arguments phases {B}.
Arguments dumped {B}.

(** What runs next: the part of a shard, the two halves of a flush, a reader
    ([ARead] is [lookup_entry], without the key cache). *)
Inductive action :=
| ABegin (i : nat) (batch : list IngestReq) (now : Z)
| ALoad (i : nat)
| APut (i : nat)
| ARemove (i : nat)
| ASize (i : nat)
| ARotate (i : nat) (now_rot : Z)
| ALoadCount (i : nat)
| AAnswer (i : nat)
| AFlushWrite (now : Z)
| AFlushCommit
| ARead (k : string).

(** What can be seen: an entry put ([late]: into a table that is on disk
    already), answers, what a reader finds. *)
Inductive fine_event :=
| FPut (e : Entry) (late : bool)
| FAnswer (out : sends)
| FRead (k : string) (r : outcome (option Entry))
| FTau.

Section Fine.
Context `{BloomFilter B} `{MemoryTable.MapRange}.
Implicit Types (f : fine B) (m : machine B).

Definition phase_of f (i : nat) : phase := default Waiting (phases f !! i).
Definition set_phase (i : nat) (ph : phase) f : fine B :=
  mkFine (store f) (generation f) (<[i := ph]> (phases f)) (dumped f).
Definition set_store m f : fine B := mkFine m (generation f) (phases f) (dumped f).

(** The generation of the oldest table in memory. *)
Definition oldest f : nat := (generation f - length (ImmutableMem (bb (store f))))%nat.

(** The table behind a pointer: the active one, a frozen one, or one that only
    the pointer still refers to. *)
Definition put_table (table : nat) (change : memtable -> memtable) f : machine B :=
  with_bb (fun s =>
    if decide (table = generation f) then set_MemTable (change (MemTable s)) s
    else if decide (oldest f <= table)%nat then
      set_ImmutableMem (alter change (table - oldest f)%nat (ImmutableMem s)) s
    else s) (store f).

(** The table's entries are on disk, or will be with the next commit. *)
Definition is_late (table : nat) f : bool :=
  bool_decide (table < oldest f)%nat ||
  bool_decide (table = oldest f /\ (table < generation f)%nat) &&
  match dumped f with Some (Ok _) => true | _ => false end.

Definition remove_cached (key : string) m : machine B :=
  with_bb (fun s => match KeyCache s with
                    | None => s
                    | Some c => set_KeyCache (Some (LruCache.RemoveFromCache key c)) s
                    end) m.

Definition too_large m : bool :=
  MaximumMemtableSizeInBytes (Configuration (bb m)) <=? MemoryTable.Size (MemTable (bb m)).

(** [None]: the action is not the next one of its goroutine. *)
Definition fine_step (a : action) f : option (fine B * fine_event) :=
  match a with
  | ABegin i batch now =>
    match phase_of f i with
    | Waiting =>
      let entries := prepareEntries batch [] now in
      match writeWalIfEnabled entries (store f) with
      | None => Some (f, FAnswer (notifyErrors batch WalWriteError))
      | Some m => Some (set_phase i (Applying batch (zip batch entries)) (set_store m f), FTau)
      end
    | _ => None
    end
  | ALoad i =>
    match phase_of f i with
    | Applying batch ((req, e) :: rest) => Some (set_phase i (Loaded batch req e rest (generation f)) f, FTau)
    | _ => None
    end
  | APut i =>
    match phase_of f i with
    | Loaded batch req e rest table =>
      let put := MemoryTable.Put (req_Key req) (req_Val req) (ExpiryTimestamp e) (req_IsDeleted req) in
      Some (set_phase i (Removing batch (req_Key req) rest) (set_store (put_table table put f) f),
            FPut (mkEntry (req_Key req) (req_Val req) (ExpiryTimestamp e) (req_IsDeleted req)) (is_late table f))
    | _ => None
    end
  | ARemove i =>
    match phase_of f i with
    | Removing batch key rest => Some (set_phase i (Applying batch rest) (set_store (remove_cached key (store f)) f), FTau)
    | _ => None
    end
  | ASize i =>
    match phase_of f i with
    | Applying batch [] => Some (set_phase i (if too_large (store f) then Rotating batch else Applied batch) f, FTau)
    | _ => None
    end
  | ARotate i now_rot =>
    match phase_of f i with
    | Rotating batch =>
      let f := if too_large (store f)
               then mkFine (rotateMemTable now_rot (store f)) (S (generation f)) (phases f) (dumped f) else f in
      Some (set_phase i (Applied batch) f, FTau)
    | _ => None
    end
  | ALoadCount i =>
    match phase_of f i with
    | Applied batch => Some (set_phase i (Counting batch (WriteOps (Global (store f)))) f, FTau)
    | _ => None
    end
  | AAnswer i =>
    match phase_of f i with
    | Counting batch writeOps =>
      let g := Global (store f) in
      let g := mkMetrics (WriteOperationsCount g) (ReadOperationsCount g) (CacheHitCount g) (CacheMissCount g)
                 (i64 (writeOps + zlen batch)) in
      Some (set_phase i Waiting (set_store (mkMachine (bb (store f)) (fs (store f)) g) f), FAnswer (notifySuccess batch))
    | _ => None
    end
  | AFlushWrite now =>
    match dumped f, waitForFlush (store f) with
    | None, Some table =>
      let '(m, written) := write_flush table now (store f) in
      Some (mkFine m (generation f) (phases f) (Some written), FTau)
    | _, _ => None
    end
  | AFlushCommit =>
    match dumped f with
    | Some written => Some (mkFine (commitFlush written (store f)) (generation f) (phases f) None, FTau)
    | None => None
    end
  | ARead k => Some (f, FRead k (lookup_entry k (store f)))
  end.

(** A shard gets the requests of its own keys; clock readings name new files. *)
Definition admissible (n : Z) (a : action) f : Prop :=
  match a with
  | ABegin i batch _ => batch <> [] /\ Forall req_fits batch /\ Forall (fun req => shard_of n (req_Key req) = i) batch
  | ARotate _ now_rot => rotation_fresh now_rot (store f)
  | AFlushWrite now => 0 <= now < 2 ^ 63 /\ flush_fresh now (store f) /\ Forall table_bytes_fit (ImmutableMem (bb (store f)))
  | _ => True
  end.

(** The actions one after the other, if each is possible. *)
Fixpoint fine_acts (acts : list action) f : option (fine B * list fine_event) :=
  match acts with
  | [] => Some (f, [])
  | a :: acts' => '(f, ev) ← fine_step a f; '(f, tr) ← fine_acts acts' f; Some (f, ev :: tr)
  end.

(** A batch of [count] items that no other goroutine interrupts. *)
Definition item_actions (i : nat) (count : nat) : list action := concat (replicate count [ALoad i; APut i; ARemove i]).

(** The goroutine of shard [i] takes the action. *)
Definition own_action (i : nat) (a : action) : Prop :=
  match a with
  | ABegin j _ _ | ALoad j | APut j | ARemove j | ASize j | ARotate j _ | ALoadCount j | AAnswer j => j = i
  | _ => False
  end.

(** A server whose shards wait for requests. *)
Definition fine_start m : fine B := mkFine m (length (ImmutableMem (bb m))) ∅ None.

Inductive fine_run (n : Z) : fine B -> list fine_event -> fine B -> Prop :=
| fine_done f : fine_run n f [] f
| fine_more f a f1 ev tr f2 :
    admissible n a f -> fine_step a f = Some (f1, ev) -> fine_run n f1 tr f2 -> fine_run n f (ev :: tr) f2.

(** A schedule, checked. *)
Definition admissible_b (n : Z) (a : action) f : bool :=
  match a with
  | ABegin i batch _ =>
    negb (match batch with [] => true | _ => false end) &&
    forallb (fun req => bool_decide (slen (req_Key req) < 2 ^ 32 /\ zlen (req_Val req) < 2 ^ 32) &&
                        bool_decide (shard_of n (req_Key req) = i)) batch
  | ARotate _ now_rot => bool_decide (files (fs (store f)) !! rotated_path (Configuration (bb (store f))) now_rot = None)
  | AFlushWrite now =>
    bool_decide (0 <= now < 2 ^ 63) && bool_decide (files (fs (store f)) !! flush_path (Configuration (bb (store f))) now = None)
    && forallb (fun t => zlen (encode_table (flush_entries t)) <? 2 ^ 63) (ImmutableMem (bb (store f)))
  | _ => true
  end.

Fixpoint fine_check (n : Z) (acts : list action) f : option (fine B * list fine_event) :=
  match acts with
  | [] => Some (f, [])
  | a :: acts' =>
    if admissible_b n a f then '(f, ev) ← fine_step a f; '(f, tr) ← fine_check n acts' f; Some (f, ev :: tr) else None
  end.

End Fine.

(** *** Specification: the last put of each key, and the keys whose last put
    came too late *)

Record puts_spec := mkPuts { last_put : string -> option Entry; lost : gset string }.

Definition puts_next (s : puts_spec) (ev : fine_event) : puts_spec :=
  match ev with
  | FPut e late =>
    mkPuts (fun k => if decide (Key e = k) then Some e else last_put s k)
      (if late : bool then {[Key e]} ∪ lost s else lost s ∖ {[Key e]})
  | _ => s
  end.

Fixpoint puts_allow (s : puts_spec) (tr : list fine_event) : Prop :=
  match tr with
  | [] => True
  | ev :: tr' =>
    match ev with FRead k r => k ∉ lost s -> r = Ok (last_put s k) | _ => True end /\ puts_allow (puts_next s ev) tr'
  end.

(** ** Lemmas *)

Lemma fine_check_run `{BloomFilter B} `{MemoryTable.MapRange} n acts : forall (f f' : fine B) tr,
  fine_check n acts f = Some (f', tr) -> fine_run n f tr f'.
Proof.
  induction acts as [|a acts IH]; intros f f' tr; cbn; [intros [= <- <-]; constructor|].
  destruct (admissible_b n a f) eqn:Ha; [|done].
  destruct (fine_step a f) as [[f1 ev]|] eqn:Hstep; [|done]. cbn.
  destruct (fine_check n acts f1) as [[f2 tr2]|] eqn:Hc; [|done]. cbn. intros [= <- <-].
  apply (fine_more n f a f1 ev tr2 f2); [|done|by apply IH]. destruct a; try done; cbn in Ha |- *.
  - apply andb_true_iff in Ha as [Hne Hall]. rewrite forallb_forall in Hall. split; [by intros ->|].
    rewrite !Forall_forall. split; intros req Hin; apply list_elem_of_In, Hall, andb_true_iff in Hin as [Hf Hs];
      [by apply bool_decide_eq_true in Hf|by apply bool_decide_eq_true in Hs].
  - by apply bool_decide_eq_true in Ha.
  - apply andb_true_iff in Ha as [[Hn Hf]%andb_true_iff Hall]. apply bool_decide_eq_true in Hn, Hf.
    split_and!; [lia..|done|]. rewrite Forall_forall. intros t Hin. rewrite forallb_forall in Hall.
    apply list_elem_of_In, Hall, Z.ltb_lt in Hin. exact Hin.
Qed.

(** *** Lookups in memory *)

(** The newest entry in an active table and frozen ones, oldest first. *)
Definition mem_view (k : string) (active : memtable) (frozen : list memtable) : option Entry :=
  first_some (MemoryTable.Get k <$> (active :: reverse frozen)).

Lemma mem_view_spec {B} k (s : SystemState B) : mem_spec k s = mem_view k (MemTable s) (ImmutableMem s).
Proof. done. Qed.

Lemma alter_middle {A} (g : A -> A) (l1 : list A) t l2 : alter g (length l1) (l1 ++ t :: l2) = l1 ++ g t :: l2.
Proof. induction l1 as [|x l1 IH]; [done|]. cbn. by f_equal. Qed.

Lemma alter_outside {A} (g : A -> A) (l : list A) i : l !! i = None -> alter g i l = l.
Proof. revert i; induction l as [|x l IH]; intros [|i] Hi; [done..|]. cbn in *. f_equal. by apply IH. Qed.

Lemma mem_view_app k active l1 t l2 : mem_view k active (l1 ++ t :: l2)
  = match mem_view k active l2 with
    | Some e => Some e
    | None => match MemoryTable.Get k t with Some e => Some e | None => first_some (MemoryTable.Get k <$> reverse l1) end
    end.
Proof.
  unfold mem_view. rewrite reverse_app, reverse_cons, <- app_assoc.
  change (active :: reverse l2 ++ [t] ++ reverse l1) with ((active :: reverse l2) ++ t :: reverse l1).
  by rewrite fmap_app, first_some_app.
Qed.

Lemma mem_view_none k active frozen : MemoryTable.Get k active = None ->
  Forall (fun t => MemoryTable.Get k t = None) frozen -> mem_view k active frozen = None.
Proof.
  intros Ha Hf. unfold mem_view. cbn. rewrite Ha. induction frozen as [|t frozen IH] using rev_ind; [done|].
  apply Forall_app in Hf as [Hf [Ht _]%Forall_cons]. rewrite reverse_snoc. cbn. rewrite Ht. by apply IH.
Qed.

Section Put.
Variables (key : string) (v : bytes) (x : Z) (d : bool).
Abbreviation put := (MemoryTable.Put key v x d).

(** A put is seen at once, if no newer table has the key. *)
Lemma mem_view_put_active active frozen : MemoryTable.table_ok active ->
  mem_view key (put active) frozen = Some (mkEntry key v x d).
Proof. intros Hok. unfold mem_view. cbn. by rewrite MemoryTable.Get_Put_eq. Qed.

Lemma mem_view_put_frozen active frozen j t : frozen !! j = Some t -> MemoryTable.table_ok t ->
  MemoryTable.Get key active = None ->
  (forall j' t', (j < j')%nat -> frozen !! j' = Some t' -> MemoryTable.Get key t' = None) ->
  mem_view key active (alter put j frozen) = Some (mkEntry key v x d).
Proof.
  intros Hj Hok Ha Hnew. destruct (list_elem_of_split_length frozen j t Hj) as (l1 & l2 & -> & ->).
  rewrite alter_middle. rewrite mem_view_app, MemoryTable.Get_Put_eq by done. rewrite mem_view_none; [done|done|]. 
  apply Forall_lookup_2. intros i t' Hi. apply (Hnew (S (length l1 + i))); [lia|].
  rewrite lookup_app_r by lia. by replace (S (length l1 + i) - length l1)%nat with (S i) by lia.
Qed.

(** Other keys read as before. *)
Lemma mem_view_put_other k active frozen j : k <> key ->
  mem_view k (put active) frozen = mem_view k active frozen /\
  mem_view k active (alter put j frozen) = mem_view k active frozen.
Proof.
  intros Hk. unfold mem_view. cbn. rewrite MemoryTable.Get_Put_ne by done. split; [done|].
  destruct (frozen !! j) as [t|] eqn:Hj.
  - destruct (list_elem_of_split_length frozen j t Hj) as (l1 & l2 & -> & ->).
    rewrite alter_middle.
    rewrite !reverse_app, !reverse_cons, !fmap_app. cbn. by rewrite MemoryTable.Get_Put_ne.
  - by rewrite alter_outside.
Qed.
End Put.

Section Invariant.
Context `{BloomFilterLaws B} `{MemoryTable.MapRange}.
Context (n : Z).
Implicit Types (f : fine B) (m : machine B) (s : puts_spec).

(** No table newer than [table] has the key. *)
Definition no_newer f (table : nat) (k : string) : Prop :=
  ((table < generation f)%nat -> MemoryTable.Get k (MemTable (bb (store f))) = None) /\
  forall j t, ImmutableMem (bb (store f)) !! j = Some t -> (table < oldest f + j)%nat -> MemoryTable.Get k t = None.

Definition item_ok (i : nat) (item : IngestReq * Entry) : Prop :=
  req_fits item.1 /\ shard_of n (req_Key item.1) = i /\ is_i64 (ExpiryTimestamp item.2).

(** A shard that holds a pointer is the only one that puts its keys: none of
    them is in a newer table. *)
Definition phase_ok f (i : nat) (ph : phase) : Prop :=
  match ph with
  | Applying _ rest | Removing _ _ rest => Forall (item_ok i) rest
  | Loaded _ req e rest table =>
    item_ok i (req, e) /\ Forall (item_ok i) rest /\ (table <= generation f)%nat /\
    forall k, shard_of n k = i -> no_newer f table k
  | _ => True
  end.

(** The table that is being flushed, as its file holds it. *)
Definition dump_ok f (es : list Entry) : Prop :=
  match dumped f with
  | Some (Ok meta) => ImmutableMem (bb (store f)) <> [] /\
      meta_ok (fs (store f)) (BloomF (bb (store f))) meta es /\ Filename meta ∉ path <$> wals (bb (store f))
  | Some Panic => False
  | _ => True
  end.

Definition is_dumped f : bool := match dumped f with Some (Ok _) => true | _ => false end.

(** What a key reads as now, and what it will read as after the commit. *)
Definition now_view (k : string) f (contents : list (list (list Entry))) : option Entry :=
  first_some [mem_view k (MemTable (bb (store f))) (ImmutableMem (bb (store f))); disk_spec k contents].
Definition next_view (k : string) f (es : list Entry) (contents : list (list (list Entry))) : option Entry :=
  first_some [mem_view k (MemTable (bb (store f))) (tail (ImmutableMem (bb (store f)))); last_entry k es;
    disk_spec k contents].

Record fine_ok f s contents es : Prop := {
  fo_state : state_ok (store f) contents;
  fo_wal : wal_open (store f);
  fo_wals : NoDup (path <$> wals (bb (store f)));
  fo_generation : (length (ImmutableMem (bb (store f))) <= generation f)%nat;
  fo_phases : forall i, phase_ok f i (phase_of f i);
  fo_dump : dump_ok f es;
  fo_views : forall k, k ∉ lost s -> now_view k f contents = last_put s k /\
    (is_dumped f = true -> next_view k f es contents = last_put s k);
}.

Lemma phase_of_set i ph f j : phase_of (set_phase i ph f) j = if decide (i = j) then ph else phase_of f j.
Proof.
  unfold phase_of, set_phase. cbn. case_decide as Hij; [subst; by rewrite lookup_insert_eq|by rewrite lookup_insert_ne].
Qed.

(** *** Steps that leave the tables alone *)

(** Same tables in memory and on disk, same logs; files may change but for the
    tables'. *)
Record quiet m m' : Prop := {
  q_active : MemTable (bb m') = MemTable (bb m);
  q_frozen : ImmutableMem (bb m') = ImmutableMem (bb m);
  q_tables : SSTables (bb m') = SSTables (bb m);
  q_wals : wals (bb m') = wals (bb m);
  q_bloom : BloomF (bb m') = BloomF (bb m);
  q_files : forall q, q ∉ path <$> wals (bb m) -> files (fs m') !! q = files (fs m) !! q;
  q_openable : openable (fs m') = openable (fs m);
}.

Lemma no_newer_same f f' table k : generation f' = generation f ->
  MemTable (bb (store f')) = MemTable (bb (store f)) -> ImmutableMem (bb (store f')) = ImmutableMem (bb (store f)) ->
  no_newer f table k -> no_newer f' table k.
Proof. intros Hg Hm Hi. unfold no_newer, oldest. by rewrite Hg, Hm, Hi. Qed.

Lemma phase_ok_same f f' i ph : generation f' = generation f ->
  MemTable (bb (store f')) = MemTable (bb (store f)) -> ImmutableMem (bb (store f')) = ImmutableMem (bb (store f)) ->
  phase_ok f i ph -> phase_ok f' i ph.
Proof.
  intros Hg Hm Hi. destruct ph; try done. cbn. rewrite Hg. intros (? & ? & ? & ?). split_and!; [done..|].
  intros k Hk. by apply (no_newer_same f); auto.
Qed.

Lemma dump_ok_quiet f f' es : quiet (store f) (store f') -> dumped f' = dumped f -> dump_ok f es -> dump_ok f' es.
Proof.
  intros [Ha Hi Ht Hw Hb Hf Ho] Hd. unfold dump_ok. rewrite Hd, Hi, Hw, Hb.
  destruct (dumped f) as [[meta| |]|]; try done. intros (Hne & Hm & Hfn). split_and!; [done| |done].
  eapply meta_ok_other_file; [|exact Ho|exact Hm]. by apply Hf.
Qed.

(** A shard goes on to a phase of its own, nothing is put. *)
Lemma quiet_ok f f' s contents es i ph : fine_ok f s contents es ->
  quiet (store f) (store f') -> generation f' = generation f -> dumped f' = dumped f ->
  phases f' = <[i := ph]> (phases f) -> phase_ok f' i ph ->
  state_ok (store f') contents -> wal_open (store f') -> fine_ok f' s contents es.
Proof.
  intros [Hs Hw Hn Hg Hp Hd Hv] Hq Hg' Hd' Hp' Hph Hs' Hw'. pose proof Hq as [Ha Hi Ht Hwl Hb Hf Ho].
  split; try done.
  - by rewrite Hwl.
  - by rewrite Hi, Hg'.
  - intros j. unfold phase_of. rewrite Hp'. destruct (decide (i = j)) as [->|Hij].
    + by rewrite lookup_insert_eq.
    + rewrite lookup_insert_ne by done. apply (phase_ok_same f); [done..|]. apply Hp.
  - by apply (dump_ok_quiet f).
  - unfold now_view, next_view, is_dumped. rewrite Ha, Hi, Hd'. exact Hv.
Qed.

Lemma quiet_refl m : quiet m m.
Proof. by split. Qed.

Lemma quiet_write m m' entries : writeWalIfEnabled entries m = Some m' -> quiet m m'.
Proof.
  intros Hw. destruct (writeWalIfEnabled_frame "" m m' entries Hw) as [Hb _]. split; try by rewrite Hb.
  - intros q Hq. destruct (writeWalIfEnabled_frame (String "x" q) m m' entries Hw) as [_ Hf].
    apply (fr_files _ _ _ Hf); [|done]. clear. induction q as [|c q IH]; [done|]. intros [= -> Hx]. by apply IH.
  - destruct (writeWalIfEnabled_frame "" m m' entries Hw) as [_ Hf]. apply (fr_openable _ _ _ Hf).
Qed.

Lemma remove_cached_shape key m : exists c, remove_cached key m = with_bb (set_KeyCache c) m.
Proof.
  unfold remove_cached, with_bb. destruct (KeyCache (bb m)) eqn:E; [by eexists|]. exists None.
  destruct m as [[] ? ?]. cbn in E. by subst.
Qed.

(** Every entry of the batch goes with its request. *)
Lemma zip_items i batch now : Forall req_fits batch -> Forall (fun req => shard_of n (req_Key req) = i) batch ->
  Forall (item_ok i) (zip batch (prepareEntries batch [] now)).
Proof.
  rewrite prepareEntries_map. cbn [app]. induction 1 as [|req batch Hr Hb IH]; [constructor|].
  intros [Hi Hs]%Forall_cons. cbn [fmap list_fmap zip]. constructor; [|by apply IH].
  split_and!; [done..|apply createEntry_expiry].
Qed.

Definition silent (ev : fine_event) : Prop := match ev with FPut _ _ | FRead _ _ => False | _ => True end.

Lemma silent_next s ev : silent ev -> puts_next s ev = s.
Proof. by destruct ev. Qed.

(** The steps of a shard but the put and the rotation. *)
Lemma shard_quiet_step f s contents es a f' ev : fine_ok f s contents es -> admissible n a f ->
  match a with ABegin _ _ _ | ALoad _ | ARemove _ | ASize _ | ALoadCount _ | AAnswer _ => True | _ => False end ->
  fine_step a f = Some (f', ev) -> fine_ok f' s contents es /\ silent ev.
Proof.
  intros Hf Ha Hkind Hstep. pose proof Hf as [Hs Hw Hn Hg Hp Hd Hv].
  destruct a as [i batch now|i|i|i|i|i r|i|i|now| |k]; try done; cbn [fine_step] in Hstep;
    specialize (Hp i); destruct (phase_of f i) as [|b rest|b req e rest t|b key rest|b|b|b c] eqn:Ep; try done.
  - destruct Ha as (Hne & Hfit & Hsh).
    destruct (writeWalIfEnabled _ (store f)) as [m'|] eqn:Ew; injection Hstep as <- <-; [|done]. split; [|done].
    pose proof (writeWalIfEnabled_ok (store f) contents (prepareEntries batch [] now) Hs Hw) as (fs' & Ew' & Hs' & _).
    rewrite Ew in Ew'. apply (inj Some) in Ew'.
    eapply (quiet_ok f); try done; cbn; [by eapply quiet_write|by apply zip_items|by subst|by subst].
  - destruct rest as [|[req e] rest]; [done|]. injection Hstep as <- <-. split; [|done]. cbn in Hp.
    apply Forall_cons in Hp as [Hi Hr].
    eapply (quiet_ok f); try done. cbn. split_and!; try done.
    intros k Hk. split; cbn; [lia|]. intros j t Hj Hlt. unfold oldest in Hlt. cbn in Hlt.
    apply lookup_lt_Some in Hj. lia.
  - injection Hstep as <- <-. split; [|done]. destruct (remove_cached_shape key (store f)) as [c Hc].
    cbn in Hp. eapply (quiet_ok f); try done; cbn; rewrite Hc; [by split| |].
    + pose proof Hs as (? & ? & ? & _). by eapply state_ok_memory.
    + exact Hw.
  - destruct rest as [|it rest]; [|done]. injection Hstep as <- <-. split; [|done].
    eapply (quiet_ok f); try done; by destruct (too_large (store f)).
  - injection Hstep as <- <-. split; [|done]. by eapply (quiet_ok f).
  - injection Hstep as <- <-. split; [|done]. by eapply (quiet_ok f).
Qed.

(** *** The put *)

Section PutStep.
Variables (key : string) (v : bytes) (x : Z) (d : bool).
Abbreviation put := (MemoryTable.Put key v x d).
Hypothesis (Hk : slen key < 2 ^ 32) (Hv : zlen v < 2 ^ 32) (Hx : is_i64 x).

Lemma put_fits t : MemoryTable.table_ok t /\ entries_fit t -> MemoryTable.table_ok (put t) /\ entries_fit (put t).
Proof.
  intros [Hok Hfit]. split; [by apply MemoryTable.Put_ok|].
  apply (entries_fit_puts [mkEntry key v x d] t Hok Hfit). apply Forall_singleton. by split_and!.
Qed.

(** The three cases of a pointer. *)
Lemma put_table_cases table f : (length (ImmutableMem (bb (store f))) <= generation f)%nat -> (table <= generation f)%nat ->
  (table = generation f /\ put_table table put f = with_bb (fun st => set_MemTable (put (MemTable st)) st) (store f)) \/
  (exists j t, table = (oldest f + j)%nat /\ (table < generation f)%nat /\ ImmutableMem (bb (store f)) !! j = Some t /\
     put_table table put f = with_bb (fun st => set_ImmutableMem (alter put j (ImmutableMem st)) st) (store f)) \/
  ((table < oldest f)%nat /\ put_table table put f = store f).
Proof.
  intros Hg Ht. unfold put_table. case_decide as H1'; [by left|right]. unfold oldest in *. case_decide as H2'; [left|right].
  - destruct (lookup_lt_is_Some_2 (ImmutableMem (bb (store f))) (table - (generation f - length (ImmutableMem (bb (store f))))))
      as [t Hj]; [lia|].
    eexists _, t. split_and!; [|lia|exact Hj|done]. lia.
  - split; [lia|]. by destruct f as [[] ? ? ?].
Qed.

Lemma put_table_state table f contents : state_ok (store f) contents -> state_ok (put_table table put f) contents.
Proof.
  intros Hs. pose proof Hs as (Hm & Hf & Hi & _). unfold put_table.
  case_decide; [|case_decide].
  - destruct (put_fits (MemTable (bb (store f)))) as [? ?]; [done|]. by eapply state_ok_memory.
  - eapply state_ok_memory; try done. cbn. apply Forall_alter; [done|]. intros t _. apply put_fits.
  - by destruct f as [[] ? ? ?].
Qed.

(** Nothing but memory changes. *)
Lemma put_table_rest table f : let m := put_table table put f in
  Configuration (bb m) = Configuration (bb (store f)) /\ ActiveWal (bb m) = ActiveWal (bb (store f)) /\
  wals (bb m) = wals (bb (store f)) /\ BloomF (bb m) = BloomF (bb (store f)) /\ fs m = fs (store f) /\
  length (ImmutableMem (bb m)) = length (ImmutableMem (bb (store f))).
Proof. unfold put_table. repeat case_decide; cbn; rewrite ?length_alter; done. Qed.

(** Another key is where it was. *)
Lemma put_table_other k table f : k <> key -> let m := put_table table put f in
  MemoryTable.Get k (MemTable (bb m)) = MemoryTable.Get k (MemTable (bb (store f))) /\
  forall j, MemoryTable.Get k <$> (ImmutableMem (bb m) !! j) = MemoryTable.Get k <$> (ImmutableMem (bb (store f)) !! j).
Proof.
  intros Hne. unfold put_table. repeat case_decide; cbn; try done; split; try done.
  - by rewrite MemoryTable.Get_Put_ne.
  - intros j. destruct (decide ((table - oldest f)%nat = j)) as [<-|]; [|by rewrite list_lookup_alter_ne].
    rewrite list_lookup_alter_eq. destruct (ImmutableMem (bb (store f)) !! _); [|done]. cbn.
    by rewrite MemoryTable.Get_Put_ne.
Qed.

Lemma no_newer_put f i ph table table' k : k <> key -> no_newer f table' k ->
  no_newer (set_phase i ph (set_store (put_table table put f) f)) table' k.
Proof.
  intros Hne [Ha Hi]. destruct (put_table_other k table f Hne) as [Hm Hj].
  destruct (put_table_rest table f) as (_ & _ & _ & _ & _ & Hl). unfold no_newer, oldest in *.
  cbn [store set_phase set_store generation]. rewrite Hm, Hl.
  split; [done|]. intros j t Ht. specialize (Hj j). rewrite Ht in Hj. cbn in Hj.
  destruct (ImmutableMem (bb (store f)) !! j) as [t0|] eqn:E; [|done]. injection Hj as ->. by apply Hi.
Qed.

End PutStep.

Lemma first_some_cons {A} (o : option A) l : first_some (o :: l) = match o with Some a => Some a | None => first_some l end.
Proof. done. Qed.

Lemma tail_alter {A} (g : A -> A) j (l : list A) :
  tail (alter g j l) = match j with O => tail l | S j' => alter g j' (tail l) end.
Proof. by destruct l, j. Qed.

(** Unless it is late, a put decides what its key reads as, now and after the
    commit; other keys read as before. *)
Lemma put_table_views key v x d table f contents es : let put := MemoryTable.Put key v x d in
  MemoryTable.table_ok (MemTable (bb (store f))) ->
  Forall (fun t => MemoryTable.table_ok t /\ entries_fit t) (ImmutableMem (bb (store f))) ->
  (length (ImmutableMem (bb (store f))) <= generation f)%nat -> (table <= generation f)%nat -> no_newer f table key ->
  forall i ph, let f' := set_phase i ph (set_store (put_table table put f) f) in
  (forall k, k <> key -> now_view k f' contents = now_view k f contents /\ next_view k f' es contents = next_view k f es contents) /\
  (is_late table f = false -> now_view key f' contents = Some (mkEntry key v x d) /\
     (is_dumped f = true -> next_view key f' es contents = Some (mkEntry key v x d))).
Proof.
  intros put Hok Hall Hg Ht [Hna Hni] i ph f'. subst put. unfold now_view, next_view.
  cbn [f' store set_phase set_store]. set (st := bb (store f)) in *.
  destruct (put_table_cases key v x d table f Hg Ht) as [[-> ->]|[(j & t & -> & Hlt & Hj & ->)|[Hlt ->]]];
    cbn [bb with_bb MemTable ImmutableMem set_MemTable set_ImmutableMem]; fold st in Hna, Hni |- *.
  - split.
    + intros k Hne. by rewrite !(proj1 (mem_view_put_other key v x d k _ _ 0 Hne)).
    + intros _. by rewrite !first_some_cons, !mem_view_put_active by done.
  - fold st in Hj. rewrite tail_alter. split.
    + intros k Hne. rewrite (proj2 (mem_view_put_other key v x d k (MemTable st) (ImmutableMem st) j Hne)).
      split; [done|]. destruct j as [|j]; [done|].
      by rewrite (proj2 (mem_view_put_other key v x d k (MemTable st) (tail (ImmutableMem st)) j Hne)).
    + intros Hlate. specialize (Hna Hlt).
      assert (forall l i0 t0, l !! i0 = Some t0 -> MemoryTable.table_ok t0 ->
        (forall j' t', (i0 < j')%nat -> l !! j' = Some t' -> MemoryTable.Get key t' = None) ->
        forall r, first_some (mem_view key (MemTable st) (alter (MemoryTable.Put key v x d) i0 l) :: r) = Some (mkEntry key v x d)) as Hput.
      { intros l i0 t0 Hi0 Ht0 Hnew r. rewrite first_some_cons. by erewrite mem_view_put_frozen. }
      rewrite Forall_lookup in Hall. destruct (Hall _ _ Hj) as [Htok _]. split.
      * apply (Hput _ _ t); [done|done|]. intros j' t' Hj' Ht'. apply (Hni j' t' Ht'). lia.
      * intros Hfl. destruct j as [|j].
        { exfalso. unfold is_late, is_dumped in *. rewrite Hfl in Hlate.
          rewrite (bool_decide_true (_ /\ _)) in Hlate by (split; [lia|done]). by rewrite orb_true_r in Hlate. }
        destruct (ImmutableMem st) as [|t0 l] eqn:El; [done|]. cbn [tail].
        apply (Hput _ _ t); [done|done|]. intros j' t' Hj' Ht'. apply (Hni (S j') t'); [done|lia].
  - split; [done|]. intros Hlate. unfold is_late in Hlate. by rewrite bool_decide_true in Hlate.
Qed.

Lemma put_step f s contents es i f' ev : fine_ok f s contents es -> fine_step (APut i) f = Some (f', ev) ->
  fine_ok f' (puts_next s ev) contents es.
Proof.
  intros [Hs Hw Hn Hg Hp Hd Hv] Hstep. cbn [fine_step] in Hstep. pose proof (Hp i) as Hpi.
  destruct (phase_of f i) as [| |b req e rest table| | | |] eqn:Ep; try done. injection Hstep as <- <-.
  destruct Hpi as (([Hkf Hvf] & Hsh & Hx) & Hrest & Ht & Hno). cbn [fst snd] in *.
  set (key := req_Key req) in *. set (v := req_Val req) in *. set (x := ExpiryTimestamp e) in *. set (d := req_IsDeleted req) in *.
  pose proof (put_table_rest key v x d table f) as (Hc & Haw & Hwl & Hb & Hfs & Hlen).
  set (ph := Removing b key rest). pose proof Hs as (Hm & _ & Hi & _).
  destruct (put_table_views key v x d table f contents es Hm Hi Hg Ht (Hno key Hsh) i ph) as [Hother Hkey].
  split; try (cbn [store set_phase set_store generation]).
  - by apply put_table_state.
  - unfold wal_open in *. by rewrite Hc, Haw.
  - by rewrite Hwl.
  - by rewrite Hlen.
  - intros j. rewrite phase_of_set. case_decide as Hij; [subst j; exact Hrest|].
    specialize (Hp j). change (phase_of (set_store _ f) j) with (phase_of f j).
    destruct (phase_of f j) as [| |b' req' e' rest' table'| | | |]; try done.
    destruct Hp as (H1' & H2' & H3' & H4'). split_and!; [done..|]. intros k Hsk.
    apply (no_newer_put key v x d); [|by apply H4'].
    intros Heq. apply Hij. by rewrite <- Hsk, Heq.
  - unfold dump_ok in *. cbn [dumped store set_phase set_store]. rewrite Hwl, Hb, Hfs.
    destruct (dumped f) as [[meta| |]|]; try done. destruct Hd as (Hne & ? & ?). split_and!; [|done..].
    intros Hnil. rewrite Hnil in Hlen. by destruct (ImmutableMem (bb (store f))).
  - change (is_dumped (set_phase _ _ _)) with (is_dumped f). intros k Hk. cbn [puts_next lost last_put Key] in *.
    destruct (decide (key = k)) as [<-|Hne].
    + destruct (is_late table f); [exfalso; clear -Hk; set_solver|]. by apply Hkey.
    + destruct (Hother k) as [-> ->]; [done|]. apply Hv. clear -Hk Hne. destruct (is_late table f); set_solver.
Qed.

(** *** The rotation *)

Lemma rotateMemTable_wal_open now m : wal_open m -> wal_open (rotateMemTable now m).
Proof.
  unfold wal_open. intros Hopen. unfold rotateMemTable.
  destruct (EnableDiskDurability (Configuration (bb m))) eqn:Ed.
  - destruct (ActiveWal (bb m)) as [w|] eqn:Ew.
    + unfold rotateWal, NewDiskWAL. destruct (os_OpenAppend _ _); cbn; intros _ w' Hw'; [by simplify_eq|].
      apply Hopen; [done|congruence].
    + cbn. rewrite Ew. done.
  - cbn. rewrite Ed. done.
Qed.

Lemma rotateMemTable_wals now m contents : state_ok m contents -> rotation_fresh now m ->
  NoDup (path <$> wals (bb m)) -> NoDup (path <$> wals (bb (rotateMemTable now m))).
Proof.
  intros Hok Hfresh Hn. destruct (fr_wals _ _ _ (rotateMemTable_frame now m)) as [->| ->]; [done|].
  constructor; [|done]. intros Hin. destruct (wals_exist m contents _ Hok Hin) as [c Hc].
  unfold rotation_fresh in Hfresh. congruence.
Qed.

(** A file that exists is neither of those a rotation may touch. *)
Lemma rotate_dump now f contents es g : state_ok (store f) contents -> rotation_fresh now (store f) -> dump_ok f es ->
  dump_ok (mkFine (rotateMemTable now (store f)) g (phases f) (dumped f)) es.
Proof.
  intros Hok Hfresh. unfold dump_ok. cbn [dumped store]. destruct (dumped f) as [[meta| |]|]; try done.
  intros (Hne & Hm & Hfn). destruct (rotateMemTable_frame now (store f)) as [_ Hb _ _ Hw Hf Ho].
  destruct (rotateMemTable_tables (store f) now) as [_ ->].
  assert (Filename meta <> rotated_path (Configuration (bb (store f))) now) as Hp.
  { intros Heq. destruct Hm as [[Hopen _] _]. unfold os_Open in Hopen. rewrite Heq in Hopen.
    unfold rotation_fresh in Hfresh. rewrite Hfresh in Hopen. by destruct (openable _ _). }
  split_and!.
  - by destruct (ImmutableMem (bb (store f))).
  - rewrite Hb. eapply meta_ok_other_file; [|exact Ho|exact Hm]. by apply Hf.
  - destruct Hw as [-> | ->]; [done|]. by intros [?|?]%elem_of_cons.
Qed.

Lemma rotate_step f s contents es i now f' ev : fine_ok f s contents es -> admissible n (ARotate i now) f ->
  fine_step (ARotate i now) f = Some (f', ev) -> fine_ok f' s contents es /\ silent ev.
Proof.
  intros Hf Hfresh Hstep. pose proof Hf as [Hs Hw Hn Hg Hp Hd Hv]. cbn [fine_step] in Hstep.
  destruct (phase_of f i) as [| | | |b| |] eqn:Ep; try done. injection Hstep as <- <-. split; [|done].
  destruct (too_large (store f)); [|by eapply (quiet_ok f)].
  destruct (rotateMemTable_ok (store f) contents now Hs Hfresh) as [Hs' Hmem].
  destruct (rotateMemTable_tables (store f) now) as [Hmt Him].
  split; cbn [store set_phase generation dumped].
  - done.
  - by apply rotateMemTable_wal_open.
  - by eapply rotateMemTable_wals.
  - rewrite Him, length_app. simpl. lia.
  - intros j. rewrite phase_of_set. case_decide as Hij; [done|]. specialize (Hp j).
    change (phase_of (mkFine _ _ (phases f) _) j) with (phase_of f j).
    destruct (phase_of f j) as [| |b' req' e' rest' table| | | |]; try done.
    destruct Hp as (? & ? & Ht & Hno). split_and!; [done..|cbn; lia|]. intros k Hk. destruct (Hno k Hk) as [Ha Hi].
    unfold no_newer, oldest in *. cbn [store generation set_phase]. rewrite Hmt, Him, length_app. cbn [length].
    split; [intros _; apply Get_new_empty|]. intros j' t Hj' Hlt.
    apply lookup_app_Some in Hj' as [Hj'|[Hge Hj']]; [apply (Hi j' t Hj'); lia|].
    apply list_lookup_singleton_Some in Hj' as [Hz <-]. apply Ha. lia.
  - by eapply rotate_dump.
  - intros k Hk. destruct (Hv k Hk) as [Hnow Hnext]. unfold now_view, next_view, is_dumped in *.
    cbn [store set_phase dumped]. rewrite <- Hnow. split; [by rewrite <- !mem_view_spec, Hmem|].
    intros Hfl. rewrite Hnow, <- (Hnext Hfl). rewrite Hmt, Him.
    unfold dump_ok in Hd. destruct (dumped f) as [[meta| |]|]; try done. destruct Hd as [Hne _].
    destruct (ImmutableMem (bb (store f))) as [|t0 l]; [done|]. cbn [tail app].
    unfold mem_view. rewrite reverse_snoc, !fmap_cons. cbn [first_some foldr]. by rewrite Get_new_empty.
Qed.

(** *** The flush agent *)

Lemma flush_write_step f s contents es now f' ev : fine_ok f s contents es -> admissible n (AFlushWrite now) f ->
  fine_step (AFlushWrite now) f = Some (f', ev) -> exists es', fine_ok f' s contents es' /\ silent ev.
Proof.
  intros Hf (Hnow & Hfresh & Hfit) Hstep. pose proof Hf as [Hs Hw Hn Hg Hp Hd Hv]. cbn [fine_step] in Hstep.
  destruct (dumped f) eqn:Ed; [done|]. destruct (waitForFlush (store f)) as [t|] eqn:Ewait; [|done].
  assert (exists rest, ImmutableMem (bb (store f)) = t :: rest) as [rest Ei].
  { unfold waitForFlush in Ewait. destruct (ImmutableMem (bb (store f))); [done|]. injection Ewait as ->. by eexists. }
  rewrite Ei in Hfit. apply Forall_cons in Hfit as [Hfit _].
  pose proof (write_flush_spec (store f) contents t now Hs Ewait Hnow Hfresh Hfit) as Hwr. cbv zeta in Hwr.
  destruct (write_flush t now (store f)) as [m r]. injection Hstep as <- <-.
  destruct Hwr as [Hs' [(-> & -> & _)|(meta & bloom & -> & _ & Hm & _ & _ & (t' & _ & Hmeta & Hlast & Hfn))]].
  - exists es. split; [|done]. split; try done. intros k Hk. by destruct (Hv k Hk).
  - exists (flush_entries t). split; [|done].
    assert (bb m = set_BloomF bloom (bb (store f))) as Hbb by (by subst m).
    split; cbn [store generation].
    + done.
    + unfold wal_open. rewrite Hbb. exact Hw.
    + rewrite Hbb. exact Hn.
    + rewrite Hbb. exact Hg.
    + intros i. apply (phase_ok_same f); [done|by cbn; rewrite Hbb..|]. apply Hp.
    + unfold dump_ok. cbn [dumped store]. split_and!; [|done|done]. rewrite Hbb. cbn. by rewrite Ei.
    + intros k Hk. destruct (Hv k Hk) as [Hnv _]. unfold now_view, next_view in *. cbn [store]. rewrite Hbb.
      cbn [MemTable ImmutableMem set_BloomF]. split; [done|]. intros _. rewrite <- Hnv, Ei. cbn [tail].
      rewrite (mem_view_app k _ [] t rest), !first_some_cons.
      destruct (frozen_ok _ _ _ Hs Ewait) as [Htok Htfit]. destruct (flush_entries_spec t Htok Htfit) as (_ & _ & ->).
      destruct (mem_view k _ rest); [done|]. cbn. by destruct (MemoryTable.Get k t).
Qed.

Lemma disk_spec_flushed k es level levels :
  disk_spec k (add_flushed es (level :: levels)) = first_some [last_entry k es; disk_spec k (level :: levels)].
Proof.
  unfold disk_spec, add_flushed. cbn [alter list_alter]. rewrite !fmap_cons, !first_some_cons.
  unfold level_spec at 1. rewrite reverse_snoc, fmap_cons, first_some_cons. destruct (last_entry k es); [done|].
  change (first_some (last_entry k <$> reverse level)) with (level_spec k level). cbn [first_some foldr].
  by destruct (level_spec k level), (first_some (level_spec k <$> levels)).
Qed.

Lemma flush_commit_step f s contents es f' ev : fine_ok f s contents es ->
  fine_step AFlushCommit f = Some (f', ev) -> exists contents', fine_ok f' s contents' es /\ silent ev.
Proof.
  intros Hf Hstep. pose proof Hf as [Hs Hw Hn Hg Hp Hd Hv]. cbn [fine_step] in Hstep.
  unfold dump_ok, is_dumped in Hd, Hv. destruct (dumped f) as [[meta| |]|] eqn:Ed; try done;
    apply (inj Some), pair_eq in Hstep as [<- <-].
  2: { exists contents. by split. }
  destruct Hd as (Hne & Hmeta & Hfn).
  pose proof (replace_table_state (store f) contents meta es Hs Hne Hmeta Hfn) as Hs1.
  destruct (rotateFrozenWal_ok _ _ Hs1 Hn) as (Hs2 & gone & Hgone & _).
  destruct (commitFlush_keeps (store f) contents meta Hs) as (Hc & Haw & _ & _ & _ & Hi & Hmt & _).
  rewrite <- (commitFlush_eq _ contents) in Hs2, Hgone by done.
  exists (add_flushed es contents). split; [|done].
  destruct (ImmutableMem (bb (store f))) as [|t0 rest] eqn:Ei; [done|]. cbn [tail] in Hi.
  rewrite wals_replace in Hgone. set (m' := commitFlush (Ok meta) (store f)) in *. clearbody m'.
  split; cbn [store generation].
  - exact Hs2.
  - unfold wal_open. rewrite Hc, Haw. exact Hw.
  - rewrite Hgone in Hn. by apply NoDup_app in Hn as (_ & _ & Hn).
  - rewrite Hi. cbn [length] in Hg. lia.
  - intros i. specialize (Hp i). change (phase_of (mkFine _ _ (phases f) _) i) with (phase_of f i).
    destruct (phase_of f i) as [| |b req e rest' table| | | |]; try done. destruct Hp as (? & ? & ? & Hno).
    split_and!; [done..|]. intros k Hk. destruct (Hno k Hk) as [Ha Hj]. unfold no_newer, oldest in *.
    cbn [store generation]. rewrite Hmt, Hi. split; [done|]. intros j t Ht Hlt. apply (Hj (S j) t); rewrite Ei; [done|].
    cbn [length] in *. lia.
  - done.
  - intros k Hk. destruct (Hv k Hk) as [_ Hnext]. specialize (Hnext eq_refl). split; [|done].
    rewrite <- Hnext. unfold now_view, next_view. cbn [store]. rewrite Hmt, Hi, Ei. cbn [tail].
    pose proof Hs as (_ & _ & _ & _ & Htab & Hl & _).
    destruct contents as [|level levels]; [apply Forall2_nil_inv_r in Htab; rewrite Htab in Hl; simpl in Hl; lia|].
    rewrite disk_spec_flushed, !first_some_cons. destruct (mem_view k _ rest); [done|].
    destruct (last_entry k es); [done|]. by destruct (disk_spec k (level :: levels)).
Qed.

(** One step, of whatever goroutine. *)
Lemma fine_step_ok f s contents es a f' ev : fine_ok f s contents es -> admissible n a f -> fine_step a f = Some (f', ev) ->
  (exists contents' es', fine_ok f' (puts_next s ev) contents' es') /\
  match ev with FRead k r => k ∉ lost s -> r = Ok (last_put s k) | _ => True end.
Proof.
  intros Hf Ha Hstep.
  assert (silent ev -> forall contents' es', fine_ok f' s contents' es' ->
    (exists contents' es', fine_ok f' (puts_next s ev) contents' es') /\
    match ev with FRead k r => k ∉ lost s -> r = Ok (last_put s k) | _ => True end) as Hsil.
  { intros Hev contents' es' Hf'. rewrite silent_next by done. split; [by eexists _, _|by destruct ev]. }
  destruct a as [i batch now|i|i|i|i|i r|i|i|now| |k].
  1,2,4,5,7,8: destruct (shard_quiet_step _ _ _ _ _ _ _ Hf Ha I Hstep) as [Hf' Hev]; by eapply Hsil.
  - pose proof (put_step _ _ _ _ _ _ _ Hf Hstep) as Hf'. split; [by eexists _, _|].
    cbn [fine_step] in Hstep. by destruct (phase_of f i); simplify_eq.
  - destruct (rotate_step _ _ _ _ _ _ _ _ Hf Ha Hstep) as [Hf' Hev]. by eapply Hsil.
  - destruct (flush_write_step _ _ _ _ _ _ _ Hf Ha Hstep) as (es' & Hf' & Hev). by eapply Hsil.
  - destruct (flush_commit_step _ _ _ _ _ _ Hf Hstep) as (contents' & Hf' & Hev). by eapply Hsil.
  - injection Hstep as <- <-. cbn [puts_next]. split; [by eexists _, _|]. intros Hk.
    pose proof Hf as [Hs _ _ _ _ _ Hv]. destruct (Hv k Hk) as [<- _]. by rewrite (lookup_entry_spec k _ _ Hs).
Qed.

Lemma fine_run_ok f s contents es tr f' : fine_run n f tr f' -> fine_ok f s contents es ->
  puts_allow s tr /\ exists contents' es', fine_ok f' (foldl puts_next s tr) contents' es'.
Proof.
  intros Hrun. revert s contents es. induction Hrun as [f|f a f1 ev tr f2 Ha Hstep Hrun IH]; intros s contents es Hf.
  { split; [done|by eexists _, _]. }
  destruct (fine_step_ok _ _ _ _ _ _ _ Hf Ha Hstep) as [(contents' & es' & Hf') Hev].
  destruct (IH _ _ _ Hf') as [Hallow Hend]. by split.
Qed.

End Invariant.

(** *** A batch without interruption *)

Section Uninterrupted.
Context `{BloomFilter B} `{MemoryTable.MapRange}.
Implicit Types (f : fine B) (m : machine B).

Lemma fine_acts_app acts1 acts2 f : fine_acts (acts1 ++ acts2) f =
  '(f, tr1) ← fine_acts acts1 f; '(f, tr2) ← fine_acts acts2 f; Some (f, tr1 ++ tr2).
Proof.
  revert f; induction acts1 as [|a acts1 IH]; intros f; cbn.
  - by destruct (fine_acts acts2 f) as [[? ?]|].
  - destruct (fine_step a f) as [[f1 ev]|]; [|done]. cbn. rewrite IH.
    destruct (fine_acts acts1 f1) as [[f2 tr1]|]; [|done]. cbn. by destruct (fine_acts acts2 f2) as [[? ?]|].
Qed.

(** The body of the loop of [applyToMemTable]. *)
Lemma item_acts f i batch req e rest : phase_of f i = Applying batch ((req, e) :: rest) ->
  exists f' tr, fine_acts [ALoad i; APut i; ARemove i] f = Some (f', tr) /\
    phase_of f' i = Applying batch rest /\ generation f' = generation f /\ dumped f' = dumped f /\
    store f' = with_bb (apply_loop [req] [e]) (store f).
Proof.
  intros Hp. cbn [fine_acts fine_step]. rewrite Hp. cbn [mbind option_bind].
  rewrite phase_of_set, decide_True by done. cbn [mbind option_bind].
  rewrite phase_of_set, decide_True by done. cbn [mbind option_bind].
  eexists _, _. split; [reflexivity|]. rewrite phase_of_set, decide_True by done. split_and!; try done.
  unfold put_table. cbn [store set_phase set_store generation].
  by destruct (decide (generation f = generation f)).
Qed.

Lemma loop_acts i batch rest : forall f, phase_of f i = Applying batch rest ->
  exists f' tr, fine_acts (item_actions i (length rest)) f = Some (f', tr) /\
    phase_of f' i = Applying batch [] /\ generation f' = generation f /\ dumped f' = dumped f /\
    store f' = with_bb (apply_loop (fst <$> rest) (snd <$> rest)) (store f).
Proof.
  induction rest as [|[req e] rest IH]; intros f Hp.
  { exists f, []. split; [done|]. split_and!; try done. by destruct f as [[] ? ? ?]. }
  destruct (item_acts f i batch req e rest Hp) as (f1 & tr1 & H1' & Hp1 & Hg1 & Hd1 & Hs1).
  destruct (IH f1 Hp1) as (f2 & tr2 & H2' & Hp2 & Hg2 & Hd2 & Hs2).
  exists f2, (tr1 ++ tr2). split_and!; [|done|congruence|congruence|].
  - change (item_actions i (length ((req, e) :: rest)))
      with ([ALoad i; APut i; ARemove i] ++ item_actions i (length rest)). by rewrite fine_acts_app, H1'; cbn; rewrite H2'.
  - by rewrite Hs2, Hs1.
Qed.

(** The look at the size, and the rotation it may lead to. *)
Lemma size_acts f i batch now_rot : phase_of f i = Applying batch [] ->
  exists acts f' tr, fine_acts acts f = Some (f', tr) /\ Forall (own_action i) acts /\
    phase_of f' i = Applied batch /\ dumped f' = dumped f /\
    store f' = if too_large (store f) then rotateMemTable now_rot (store f) else store f.
Proof.
  intros Hp.
  assert (fine_step (ASize i) f = Some (set_phase i (if too_large (store f) then Rotating batch else Applied batch) f, FTau))
    as Hsize by (cbn [fine_step]; by rewrite Hp).
  destruct (too_large (store f)) eqn:El.
  - exists [ASize i; ARotate i now_rot]. eexists _, _. cbn [fine_acts]. rewrite Hsize. cbn [mbind option_bind fine_step].
    rewrite phase_of_set, decide_True by done. cbn [store set_phase]. rewrite El.
    split; [reflexivity|]. rewrite phase_of_set, decide_True by done. split; [by repeat constructor|done].
  - exists [ASize i]. eexists _, _. cbn [fine_acts]. rewrite Hsize. split; [reflexivity|].
    rewrite phase_of_set, decide_True by done. split; [by repeat constructor|done].
Qed.

Lemma answer_acts f i batch : phase_of f i = Applied batch ->
  exists f', fine_acts [ALoadCount i; AAnswer i] f = Some (f', [FTau; FAnswer (notifySuccess batch)]) /\
    phase_of f' i = Waiting /\ dumped f' = dumped f /\
    store f' = mkMachine (bb (store f)) (fs (store f)) (add_WriteOps (zlen batch) (Global (store f))).
Proof.
  intros Hp. cbn [fine_acts fine_step]. rewrite Hp. cbn [mbind option_bind].
  rewrite phase_of_set, decide_True by done. cbn [mbind option_bind].
  eexists. split; [reflexivity|]. by rewrite phase_of_set, decide_True.
Qed.

Lemma item_actions_own i count : Forall (own_action i) (item_actions i count).
Proof. unfold item_actions. apply Forall_concat, Forall_replicate. by repeat constructor. Qed.

End Uninterrupted.

(** *** One shard *)

Section OneShard.
Context `{BloomFilter B} `{MemoryTable.MapRange}.
Implicit Types (f : fine B).

(** Only the one shard works, and what it points to is the active table. *)
Definition one_shard f : Prop :=
  (forall i, i <> 0%nat -> phase_of f i = Waiting) /\
  forall batch req e rest table, phase_of f 0 = Loaded batch req e rest table -> table = generation f.

Lemma shard_of_one k : shard_of 1 k = 0%nat.
Proof. unfold shard_of. by rewrite Z.rem_1_r. Qed.

Definition not_late (ev : fine_event) : Prop := match ev with FPut _ late => late = false | _ => True end.

Lemma one_shard_step f a f' ev : one_shard f -> admissible 1 a f -> fine_step a f = Some (f', ev) ->
  one_shard f' /\ not_late ev.
Proof.
  intros [Hw Hl] Ha Hstep.
  assert (forall i ph g m, i = 0%nat -> (forall b r e rest t, ph = Loaded b r e rest t -> t = g) ->
    one_shard (set_phase i ph (mkFine m g (phases f) (dumped f)))) as Hset.
  { intros i ph g m -> Hph. split.
    - intros j Hj. rewrite phase_of_set. rewrite decide_False by done. by apply Hw.
    - intros b r e rest t. rewrite phase_of_set, decide_True by done. cbn. apply Hph. }
  assert (forall i, phase_of f i <> Waiting -> i = 0%nat) as H0'.
  { intros i Hi. destruct (decide (i = 0%nat)); [done|]. by destruct Hi; apply Hw. }
  assert (forall m g d, one_shard (mkFine m g (phases f) d) <-> one_shard (mkFine m g (phases f) (dumped f))) as Hd by done.
  destruct a as [i batch now|i|i|i|i|i r|i|i|now| |k]; cbn [fine_step] in Hstep.
  1-8: destruct (phase_of f i) as [|b rest|b req e rest t|b key rest|b|b|b c] eqn:Ep; try done.
  - destruct Ha as (Hne & _ & Hsh).
    destruct (writeWalIfEnabled _ _); injection Hstep as <- <-; (split; [|done]); [|done].
    apply (Hset i _ _ _); [|done]. destruct batch as [|req batch]; [done|]. apply Forall_cons in Hsh as [<- _]. apply shard_of_one.
  - destruct rest as [|[req e] rest]; [done|]. injection Hstep as <- <-. split; [|done].
    apply (Hset i _ _ (store f)); [apply H0'; congruence|by intros ? ? ? ? ? [= _ _ _ _ <-]].
  - injection Hstep as <- <-. assert (i = 0%nat) as -> by (apply H0'; congruence). rewrite (Hl _ _ _ _ _ Ep).
    split; [by apply (Hset 0%nat)|]. cbn. unfold is_late, oldest. rewrite !bool_decide_false by lia. done.
  - injection Hstep as <- <-. split; [|done]. apply (Hset i); [apply H0'; congruence|done].
  - destruct rest; [|done]. injection Hstep as <- <-. split; [|done].
    apply (Hset i _ _ (store f)); [apply H0'; congruence|]. by destruct (too_large (store f)).
  - injection Hstep as <- <-. split; [|done]. destruct (too_large (store f)); (apply Hset; [apply H0'; congruence|done]).
  - injection Hstep as <- <-. split; [|done]. apply (Hset i _ _ (store f)); [apply H0'; congruence|done].
  - injection Hstep as <- <-. split; [|done]. apply (Hset i); [apply H0'; congruence|done].
  - destruct (dumped f), (waitForFlush (store f)) as [t|]; try done.
    destruct (write_flush t now (store f)) as [m r]. injection Hstep as <- <-. by split.
  - destruct (dumped f); [|done]. apply (inj Some), pair_eq in Hstep as [<- <-]. by split.
  - by injection Hstep as <- <-.
Qed.

Lemma one_shard_run f tr f' : fine_run 1 f tr f' -> one_shard f -> Forall not_late tr.
Proof.
  induction 1 as [f|f a f1 ev tr f2 Ha Hstep Hrun IH]; intros Hf; [constructor|].
  destruct (one_shard_step _ _ _ _ Hf Ha Hstep) as [Hf1 Hev]. constructor; [done|]. by apply IH.
Qed.

Lemma not_late_lost tr : forall s, Forall not_late tr -> lost s = ∅ -> lost (foldl puts_next s tr) = ∅.
Proof.
  induction tr as [|ev tr IH]; intros s; [done|]. intros [Hev Htr]%Forall_cons Hs. cbn [foldl]. apply IH; [done|].
  destruct ev as [e late| | |]; try done. cbn in Hev |- *. rewrite Hev, Hs. set_solver.
Qed.

End OneShard.

(** ** Properties *)

Section Properties.
Context `{BloomFilterLaws B} `{MemoryTable.MapRange}.

Lemma fine_start_ok n (m : machine B) contents : state_ok m contents -> wal_open m -> NoDup (path <$> wals (bb m)) ->
  fine_ok n (fine_start m) (mkPuts (fun k => view_spec k [] m contents) ∅) contents [].
Proof.
  intros Hs Hw Hn. split; try done. intros k _. split; [|done]. unfold now_view. cbn [last_put].
  by rewrite view_spec_nil.
Qed.

(** C7. Below the level of batches. Whatever number of shards put their entries
    one by one, in any interleaving with each other, with rotations, with the
    two halves of flushes and with readers, each reader finds the last put of
    the key, and so does the final state, unless that put was late: into a table
    whose contents the flush agent had already written. A reader is a lookup of
    the engine (memory tables, then files), below the key cache. *)
Theorem Fine_reads_last_put n (m : machine B) contents tr f :
  state_ok m contents -> wal_open m -> NoDup (path <$> wals (bb m)) -> fine_run n (fine_start m) tr f ->
  let s := mkPuts (fun k => view_spec k [] m contents) ∅ in
  puts_allow s tr /\
  forall k, k ∉ lost (foldl puts_next s tr) -> lookup_entry k (store f) = Ok (last_put (foldl puts_next s tr) k).
Proof.
  intros Hs Hw Hn Hrun s. destruct (fine_run_ok n _ s contents [] tr f Hrun) as [Hallow (c & es & Hf)].
  { by apply fine_start_ok. }
  split; [done|]. intros k Hk. pose proof Hf as [Hs' _ _ _ _ _ Hv]. destruct (Hv k Hk) as [<- _].
  by rewrite (lookup_entry_spec k _ _ Hs').
Qed.

(** C9. One shard cannot lose a put: with a single ingestion shard no put is
    ever late, in any interleaving with the flush agent and readers, so a lookup
    of the engine, below the key cache, finds the last put of every key. *)
Theorem One_shard_never_late (m : machine B) contents tr f :
  state_ok m contents -> wal_open m -> NoDup (path <$> wals (bb m)) -> fine_run 1 (fine_start m) tr f ->
  Forall not_late tr /\
  forall k, lookup_entry k (store f)
    = Ok (last_put (foldl puts_next (mkPuts (fun k => view_spec k [] m contents) ∅) tr) k).
Proof.
  intros Hs Hw Hn Hrun. set (s := mkPuts _ _).
  assert (Forall not_late tr) as Hl by (by eapply one_shard_run).
  destruct (fine_run_ok 1 _ s contents [] tr f Hrun) as [_ (c & es & Hf)]; [by apply fine_start_ok|].
  split; [done|]. intros k. pose proof Hf as [Hs' _ _ _ _ _ Hv].
  destruct (Hv k) as [<- _]; [rewrite (not_late_lost tr s) by done; apply not_elem_of_empty|].
  by rewrite (lookup_entry_spec k _ _ Hs').
Qed.

(** A batch as one step is one of the interleavings: a waiting shard that
    gets a batch has a schedule of its own actions alone that ends in the
    machine of [processBatch], answers what it answers (the error of the log
    included), and leaves the shard waiting. *)
Theorem Batch_is_a_schedule (f : fine B) i batch now now_rot : phase_of f i = Waiting -> batch <> [] ->
  exists acts f' tr, fine_acts acts f = Some (f', tr) /\ Forall (own_action i) acts /\
    phase_of f' i = Waiting /\ dumped f' = dumped f /\
    store f' = (processBatch batch now now_rot (store f)).1 /\
    last tr = Some (FAnswer (processBatch batch now now_rot (store f)).2).
Proof.
  intros Hp Hne. unfold processBatch. destruct batch as [|r0 l0] eqn:Eb; [done|]. rewrite <- Eb. clear Hne Eb r0 l0.
  set (entries := prepareEntries batch [] now).
  assert (fine_step (ABegin i batch now) f = match writeWalIfEnabled entries (store f) with
    | None => Some (f, FAnswer (notifyErrors batch WalWriteError))
    | Some m => Some (set_phase i (Applying batch (zip batch entries)) (set_store m f), FTau)
    end) as Hbegin by (cbn [fine_step]; by rewrite Hp).
  destruct (writeWalIfEnabled entries (store f)) as [m|].
  2: { exists [ABegin i batch now], f, [FAnswer (notifyErrors batch WalWriteError)]. cbn [fine_acts]. rewrite Hbegin.
       split_and!; [done|by repeat constructor|done..]. }
  set (f1 := set_phase i (Applying batch (zip batch entries)) (set_store m f)) in *.
  destruct (loop_acts i batch (zip batch entries) f1) as (f2 & tr2 & Hloop & Hp2 & _ & Hd2 & Hs2).
  { unfold f1. by rewrite phase_of_set, decide_True. }
  assert (length entries = length batch) as Hlen
    by (unfold entries; rewrite prepareEntries_map; cbn [app]; by rewrite length_fmap).
  rewrite fst_zip, snd_zip in Hs2 by lia.
  destruct (size_acts f2 i batch now_rot Hp2) as (acts3 & f3 & tr3 & Ha3 & Ho3 & Hp3 & Hd3 & Hs3).
  destruct (answer_acts f3 i batch Hp3) as (f4 & Ha4 & Hp4 & Hd4 & Hs4).
  exists (ABegin i batch now :: item_actions i (length (zip batch entries)) ++ acts3 ++ [ALoadCount i; AAnswer i]), f4,
    (FTau :: tr2 ++ tr3 ++ [FTau; FAnswer (notifySuccess batch)]). split_and!; [| |done| | |].
  - cbn [fine_acts]. rewrite Hbegin. cbn [mbind option_bind]. rewrite fine_acts_app, Hloop. cbn [mbind option_bind].
    rewrite fine_acts_app, Ha3. cbn [mbind option_bind]. by rewrite Ha4.
  - constructor; [done|]. apply Forall_app. split; [apply item_actions_own|]. apply Forall_app. by split; [|repeat constructor].
  - by rewrite Hd4, Hd3, Hd2.
  - by rewrite Hs4, Hs3, Hs2.
  - rewrite (app_assoc tr2 tr3), app_comm_cons, last_app. done.
Qed.

(** The counter of write operations loses a count when two shards add to it at
    the same time: of the two additions only the later one is there. *)
Theorem WriteOps_loses_counts (f : fine B) i j b1 b2 : i <> j -> phase_of f i = Applied b1 -> phase_of f j = Applied b2 ->
  exists f' tr, fine_acts [ALoadCount i; ALoadCount j; AAnswer i; AAnswer j] f = Some (f', tr) /\
    WriteOps (Global (store f')) = i64 (WriteOps (Global (store f)) + zlen b2).
Proof.
  intros Hij Hi Hj. cbn [fine_acts fine_step]. rewrite Hi. cbn [mbind option_bind].
  rewrite phase_of_set, decide_False, Hj by done. cbn [mbind option_bind].
  rewrite phase_of_set, decide_False by done. rewrite phase_of_set, decide_True by done. cbn [mbind option_bind].
  change (phase_of (set_phase i Waiting (set_store ?m0 ?f0)) j) with (phase_of (set_phase i Waiting f0) j).
  rewrite phase_of_set, decide_False by done. rewrite phase_of_set, decide_True by done. cbn [mbind option_bind].
  by eexists _, _.
Qed.

End Properties.
