(* ===== verification/Server.v ===== *)
(** Starting the server, cmd/server/main.go: configuration, logger, a fresh
    blackboard, the replay of the log, and what the listener is given. *)
From S2P Require Import Prelude Codec Text Domain Hashing Configuration WriteAheadLog SortedStringTable SystemState Ingestion PyFloat GoJson ConfigFile HttpApi.
From S2P Require MemoryTable LruCache Bloom Logger Shards.

Open Scope Z_scope.
#[local] Existing Instance Bloom.Bloom_BloomFilter.
#[local] Existing Instance Bloom.Bloom_laws.

(** ** Definitions *)

Section Server.
Context `{BloomFilter B}.
Implicit Types (m : machine B).

Definition set_ActiveWal (w : DiskWAL) (s : SystemState B) : SystemState B :=
  set_wals (Some w) (FrozenWALs s) s.

(** The callback puts each replayed entry into the memory table. *)
Definition recover_entry (s : SystemState B) (e : Entry) : SystemState B :=
  set_MemTable (MemoryTable.Put (Key e) (Value e) (ExpiryTimestamp e) (IsDeleted e) (MemTable s)) s.

(** [recoverWal]; [false] is an error, which makes [Run] return. *)
Definition recoverWal m : machine B * bool :=
  if EnableDiskDurability (Configuration (bb m)) then
    match NewDiskWAL (WriteAheadLogFilePath (Configuration (bb m))) true (fs m) with
    | None => (m, false)
    | Some (wal, f) =>
      let m := with_bb (set_ActiveWal wal) (with_fs f m) in
      let '(s, stop) := Replay wal recover_entry (bb m) (fs m) in
      (with_bb (fun _ => s) m, bool_decide (stop = ReplayDone))
    end
  else (m, true).

Definition reset_metrics m : machine B := mkMachine (bb m) (fs m) zero_metrics.

(** [startAgents]: fresh metrics, the shards of the ingestion agent (Shards) and
    the line that is logged for them. The other two agents start without a call
    of the logger or a change of the state (FlushAgent, CompactionAgent). *)
Definition startAgents (NumCPU : Z) (timestamp : string) m (l : Logger.logger)
    : machine B * list Shards.shard * Logger.logger :=
  let cfg := Configuration (bb m) in
  (reset_metrics m, Shards.InitializeIngestionSubsystem NumCPU cfg,
   Logger.LogInfoEvent timestamp ("Ingest initialized with " ++ print_int (ingest_shards NumCPU cfg) ++ " shards") l).

(** The engine for a loaded configuration, as the log leaves it: [None] when
    [Run] returns an error instead of serving. [bloom] is the filter
    [NewSystemState] makes. *)
Definition recovered_engine (cfg : SystemConfiguration) (bloom : B) (f : FileSystem) : option (machine B) :=
  let '(m, ok) := recoverWal (mkMachine (NewSystemState cfg bloom) f zero_metrics) in
  if ok : bool then Some m else None.

(** The engine that [Run] serves. *)
Definition Run (cfg : SystemConfiguration) (bloom : B) (f : FileSystem) : option (machine B) :=
  m ← recovered_engine cfg bloom f; Some (reset_metrics m).

End Server.

(** *** The whole of [Run] *)

Section Start.
(** paseto's [V2.Encrypt] of a token with this subject and expiration. *)
Variable Encrypt : string -> string -> Z -> string.

Definition printAdminToken (now : Z) (cfg : SystemConfiguration) : list string :=
  if decide (AuthenticationToken cfg = ""%string) then
    ["ADMIN TOKEN: " ++ Encrypt (pad 32 (AuthenticationSecret cfg)) "admin" (now + 24 * 3600 * 1000000000)]%string
  else [].

(** [runtime.GOMAXPROCS] is called with this number, if at all. *)
Definition configureRuntime (cfg : SystemConfiguration) : option Z :=
  if 0 <? MaximumCpuCount cfg then Some (MaximumCpuCount cfg) else None.

Definition listen_address (port : Z) : string := ":" ++ print_int port.

(** [startHttpServer] up to [fasthttp.ListenAndServe]. *)
Definition startHttpServer (timestamp : string) (port : Z) (l : Logger.logger) : Logger.logger * string :=
  let addr := listen_address port in
  (Logger.LogInfoEvent timestamp ("Listening on " ++ addr ++ " (fasthttp)") l, addr).

(** The process that [fasthttp.ListenAndServe] is called in. *)
Record started := mkStarted {
  start_engine : machine Bloom.SharedBloomFilter;
  start_shards : list Shards.shard;
  start_logger : Logger.logger;
  start_printed : list string;
  start_address : string;
  start_pprof : bool;
  start_procs : option Z;
}.

(** [Run]; [l] is the logger's package state, the two time stamps are those of
    the two lines that are logged. The files are those of the process: the logger
    and the engine write to the same disk, on which the directories that
    [MkdirAll] makes exist ([made] is its result for the log directory; for the
    data directory the code ignores it). *)
Definition RunFromFile (Log : float -> float) (wild : float -> Z) (NumCPU : Z) (made : bool) (now : Z)
    (timestamp timestamp' : string) (configPath : string) (l : Logger.logger) (f : FileSystem) : option started :=
  cfg ← LoadConfigurationFromFile f configPath;
  let '(s, ok) := Logger.InitializeLogger made (LogDirectoryPath cfg) (LogSeverityLevel cfg) (Logger.mkLog l f []) in
  if ok : bool then
    m ← recovered_engine cfg (Bloom.NewSharedBloomFilter Log wild 10000000 (BloomFilterFalsePositiveRate cfg))
          (Logger.lfs s);
    let '(m, shards, l) := startAgents NumCPU timestamp m (Logger.lg s) in
    let '(l, addr) := startHttpServer timestamp' (ServerPort cfg) l in
    Some (mkStarted m shards l (Logger.console s ++ printAdminToken now cfg) addr (EnablePprofProfiling cfg)
            (configureRuntime cfg))
  else None.

End Start.

(** ** Lemmas *)

Section ServerLemmas.
Context `{BloomFilterLaws B}.
Implicit Types (m : machine B).

Lemma replayed_log es : Forall entry_fits es -> replayed (encode_log es) = (es, ReplayDone).
Proof.
  intros Hes. pose proof (replayed_app es [] Hes) as Hr. by rewrite app_nil_r, replayed_nil, app_nil_r in Hr.
Qed.

Lemma fold_recover es : forall s, fold_left (recover_entry (B := B)) es s
  = set_MemTable (fold_left MemoryTable.put_entry es (MemTable s)) s.
Proof.
  induction es as [|e es IH]; intros s; [by destruct s|]. cbn [fold_left]. rewrite IH. by destruct s.
Qed.

(** The table a start builds from a complete log. *)
Definition recovered (cfg : SystemConfiguration) (es : list Entry) : memtable :=
  fold_left MemoryTable.put_entry es
    (MemoryTable.NewMemoryTable (Z.quot (MaximumMemtableSizeInBytes cfg) 100)).

(** With an openable log that holds complete records, [Run] serves, and the
    state is a fresh one with those entries in memory. *)
Lemma Run_replays cfg (bloom : B) f es : EnableDiskDurability cfg = true ->
  openable f (WriteAheadLogFilePath cfg) = true -> Forall entry_fits es ->
  default [] (files f !! WriteAheadLogFilePath cfg) = encode_log es ->
  exists f', Run cfg bloom f = Some (mkMachine
    (set_MemTable (recovered cfg es) (set_ActiveWal (mkDiskWAL (WriteAheadLogFilePath cfg) true false)
      (NewSystemState cfg bloom))) f' zero_metrics) /\
    openable f' = openable f /\ files f' !! WriteAheadLogFilePath cfg = Some (encode_log es) /\
    forall p, p <> WriteAheadLogFilePath cfg -> files f' !! p = files f !! p.
Proof.
  intros Hd Ho Hfit Hlog. unfold Run, recovered_engine, recoverWal. cbn [bb Configuration NewSystemState]. rewrite Hd.
  unfold NewDiskWAL, os_OpenAppend. cbn [fs]. rewrite Ho, Hlog.
  set (p := WriteAheadLogFilePath cfg). set (f' := mkFS _ _).
  unfold Replay. cbn [closed path with_fs with_bb fs bb]. subst f'. cbn [files].
  rewrite lookup_insert_eq. simpl default.
  pose proof (replay_loop_fold (recover_entry (B := B)) (S (length (encode_log es)))
    (set_ActiveWal (mkDiskWAL p true false) (NewSystemState cfg bloom)) (encode_log es) []) as Hr.
  cbn [fold_left] in Hr. fold (replayed (encode_log es)) in Hr.
  rewrite replayed_log in Hr by done. rewrite Hr, fold_recover.
  rewrite bool_decide_true by done. eexists. split; [reflexivity|]. split; [done|].
  cbn. split; [by rewrite lookup_insert_eq|]. intros p' Hp'. by rewrite lookup_insert_ne.
Qed.
Lemma recovered_ok cfg es : Forall entry_fits es ->
  MemoryTable.table_ok (recovered cfg es) /\ entries_fit (recovered cfg es) /\
  forall k, MemoryTable.Get k (recovered cfg es) = last_entry k es.
Proof.
  intros Hes. unfold recovered. split_and!.
  - apply MemoryTable.fold_put_ok, MemoryTable.NewMemoryTable_ok.
  - apply entries_fit_puts; [apply MemoryTable.NewMemoryTable_ok| |done].
    intros k e. by rewrite Get_new_empty.
  - intros k. rewrite fold_put_last by apply MemoryTable.NewMemoryTable_ok. rewrite Get_new_empty.
    by destruct (last_entry k es).
Qed.

Lemma disk_spec_empty k : disk_spec k (replicate 4 []) = None.
Proof. done. Qed.

(** A freshly started server is consistent and reads as its log. *)
Lemma started_ok cfg (bloom : B) es f : Forall entry_fits es -> bloom_ok bloom ->
  is_Some (files f !! WriteAheadLogFilePath cfg) ->
  let m := mkMachine (set_MemTable (recovered cfg es)
    (set_ActiveWal (mkDiskWAL (WriteAheadLogFilePath cfg) true false) (NewSystemState cfg bloom))) f zero_metrics in
  server_ok m (replicate 4 []) /\ forall k, lookup_entry k m = Ok (last_entry k es).
Proof.
  intros Hes Hb Hf m. destruct (recovered_ok cfg es Hes) as (Hok & Hfit & Hget).
  assert (state_ok m (replicate 4 [])) as Hst.
  { split_and!; simpl; try done; try lia.
    - repeat constructor.
    - intros w meta _ Hx. by inversion Hx.
    - intros w Hw. apply list_elem_of_singleton in Hw as ->. done. }
  split.
  - split_and!; [done| |].
    + intros _ w [= <-]. done.
    + split; [apply LruCache.NewLruCache_ok|]. intros k v Hk. by inversion Hk.
  - intros k. rewrite (lookup_entry_spec k m _ Hst), disk_spec_empty. unfold mem_spec. cbn. rewrite Hget.
    by destruct (last_entry k es).
Qed.

(** What the log of a batch holds: its entries with zero bytes for values. *)
Definition zeroed (e : Entry) : Entry :=
  mkEntry (Key e) (replicate (length (Value e)) Byte.x00) (ExpiryTimestamp e) (IsDeleted e).

Lemma last_entry_zeroed k es : last_entry k (zeroed <$> es) = zeroed <$> last_entry k es.
Proof.
  unfold last_entry. assert (forall o, fold_left (fun o e => if decide (Key e = k) then Some e else o)
    (zeroed <$> es) (zeroed <$> o) = zeroed <$> fold_left (fun o e => if decide (Key e = k) then Some e else o) es o) as H1.
  { induction es as [|e es IH]; intros o; [done|]. cbn [fmap list_fmap fold_left].
    change (Key (zeroed e)) with (Key e). case_decide; [apply (IH (Some e))|apply IH]. }
  apply (H1 None).
Qed.

Lemma createEntry_zeroed now (batch : list IngestReq) :
  (fun req => createEntry req now) <$> batch = zeroed <$> (stored now <$> batch).
Proof. rewrite <- list_fmap_compose. apply list_fmap_ext. intros i [] _. done. Qed.

Lemma rotated_path_ne cfg now : rotated_path cfg now <> WriteAheadLogFilePath cfg.
Proof.
  unfold rotated_path. intros Heq. apply (f_equal String.length) in Heq.
  rewrite length_string_app in Heq. simpl in Heq. lia.
Qed.

(** The log file after the batch: one record per request. *)
Lemma processBatch_log cfg batch now now_rot m w old : batch <> [] ->
  Configuration (bb m) = cfg -> EnableDiskDurability cfg = true ->
  ActiveWal (bb m) = Some w -> closed w = false -> path w = WriteAheadLogFilePath cfg ->
  files (fs m) !! path w = Some old ->
  files (fs (fst (processBatch batch now now_rot m))) !! path w
    = Some (old ++ encode_log ((fun req => createEntry req now) <$> batch)).
Proof.
  intros Hne Hc Hd Hw Hcl Hp Hold. unfold processBatch. destruct batch as [|r batch]; [done|].
  set (b := r :: batch) in *. clearbody b. rewrite prepareEntries_map. cbn [app].
  unfold writeWalIfEnabled. rewrite Hc, Hd, Hw. unfold WriteBatch. rewrite Hcl. cbn [fst fs].
  set (m1 := with_fs _ m).
  assert (files (fs m1) !! path w = Some (old ++ encode_log ((fun req => createEntry req now) <$> b))) as H1.
  { unfold m1. cbn. rewrite lookup_insert_eq, Hold, batch_buffer_encode_log. done. }
  unfold applyToMemTable. destruct (apply_loop_spec now b (bb m1)) as (c & Hloop & _).
  destruct (_ <=? _); [|done]. unfold rotateMemTable, rotateWal, NewDiskWAL, os_OpenAppend.
  cbn [with_bb bb fs]. rewrite Hloop. cbn.
  assert (rotated_path (Configuration (bb m)) now_rot <> path w) as Hrp
    by (rewrite Hp, Hc; apply rotated_path_ne).
  repeat case_match; simplify_eq; cbn; try done; by rewrite lookup_insert_ne.
Qed.

Lemma processBatch_openable batch now now_rot m :
  openable (fs (fst (processBatch batch now now_rot m))) = openable (fs m).
Proof.
  unfold processBatch. destruct batch as [|r batch]; [done|]. set (b := r :: batch) in *. clearbody b.
  assert (forall m1, writeWalIfEnabled (prepareEntries b [] now) m = Some m1 ->
    openable (fs m1) = openable (fs m)) as Hw.
  { unfold writeWalIfEnabled, WriteBatch. intros m1 Hm. repeat case_match; simplify_eq; done. }
  destruct (writeWalIfEnabled _ m) as [m1|]; [|done]. rewrite <- (Hw m1 eq_refl). clear Hw.
  cbn [fst fs]. unfold applyToMemTable, rotateMemTable, rotateWal, NewDiskWAL, os_OpenAppend. cbn [with_bb fs bb].
  repeat case_match; try done; by simplify_eq.
Qed.

End ServerLemmas.

(** Opening the log of the logger changes the content of no file. *)
Lemma InitializeLogger_files dir level l f con :
  openable f (Logger.log_path dir) = true ->
  exists s, Logger.InitializeLogger true dir level (Logger.mkLog l f con) = (s, true) /\
    Logger.console s = con /\ openable (Logger.lfs s) = openable f /\
    Logger.isLoggerInitialized (Logger.lg s) = true /\ Logger.globalLogMessageQueue (Logger.lg s) = [] /\
    Logger.minimumSeverityLevel (Logger.lg s) = Logger.severity_of level /\
    forall p, default [] (files (Logger.lfs s) !! p) = default [] (files f !! p).
Proof.
  intros Ho. unfold Logger.InitializeLogger, Logger.openLogFileInternal, os_OpenAppend. cbn [negb Logger.lfs].
  rewrite Ho. eexists. split; [done|]. split_and!; try done. intros p. cbn [Logger.lfs files].
  destruct (decide (p = Logger.log_path dir)) as [->|]; [by rewrite lookup_insert_eq|by rewrite lookup_insert_ne].
Qed.

(** Two lines on the empty queue of a logger that runs. *)
Lemma two_lines_queued l level t1 text1 t2 text2 : Logger.isLoggerInitialized l = true ->
  Logger.globalLogMessageQueue l = [] -> Logger.minimumSeverityLevel l = level ->
  Logger.globalLogMessageQueue (Logger.LogInfoEvent t2 text2 (Logger.LogInfoEvent t1 text1 l))
  = if level <=? Logger.SeverityInfo
    then [Logger.message_line t1 "[INF]" text1; Logger.message_line t2 "[INF]" text2] else [].
Proof.
  intros Hi Hq <-. unfold Logger.LogInfoEvent, Logger.tryQueueLogMessage. rewrite Hi, Hq. cbn [negb].
  change (zlen [] <? Logger.queue_capacity) with true. cbv iota.
  destruct (Logger.minimumSeverityLevel l <=? Logger.SeverityInfo) eqn:E; [|by rewrite E].
  cbn [Logger.set_queue Logger.minimumSeverityLevel Logger.isLoggerInitialized Logger.globalLogMessageQueue].
  by rewrite E, Hi.
Qed.

(** ** Properties *)

Section Properties.
Context `{BloomFilterLaws B}.

(** C19. Restart after a crash. On a fresh disk the server starts; a batch it
    acknowledges reads back as written; but after a crash and a restart every
    key of the batch reads as zero bytes of the right length, with the right
    deadline: the log was given the unfilled copies of the values. *)
Theorem Recovery_zeroes_values cfg (bloom bloom' : B) f batch now now_rot :
  EnableDiskDurability cfg = true -> openable f (WriteAheadLogFilePath cfg) = true ->
  files f !! WriteAheadLogFilePath cfg = None -> files f !! rotated_path cfg now_rot = None ->
  bloom_ok bloom -> bloom_ok bloom' -> batch <> [] -> Forall req_fits batch ->
  exists m0, Run cfg bloom f = Some m0 /\
  let '(m1, out) := processBatch batch now now_rot m0 in
  out = notifySuccess batch /\
  (forall k, lookup_entry k m1 = Ok (last_entry k (stored now <$> batch))) /\
  exists m2, Run cfg bloom' (fs m1) = Some m2 /\
    forall k, lookup_entry k m2 = Ok (zeroed <$> last_entry k (stored now <$> batch)).
Proof.
  intros Hd Ho Hf Hrot Hb Hb' Hne Hfit.
  destruct (Run_replays cfg bloom f [] Hd Ho) as (f0 & -> & Ho0 & Hlog0 & Hoth); [constructor|by rewrite Hf|].
  eexists. split; [done|]. set (m0 := mkMachine _ f0 _).
  destruct (started_ok cfg bloom [] f0 ltac:(constructor) Hb) as [(Hok & Hopen & _) Hv0]; [by eexists|].
  fold m0 in Hok, Hopen, Hv0.
  assert (rotation_fresh now_rot m0) as Hfresh.
  { unfold rotation_fresh. cbn. rewrite Hoth; [done|apply rotated_path_ne]. }
  pose proof (processBatch_ok m0 _ batch now now_rot Hok Hopen Hne Hfit Hfresh) as Hp.
  pose proof (processBatch_log cfg batch now now_rot m0 (mkDiskWAL (WriteAheadLogFilePath cfg) true false)
    [] Hne eq_refl Hd eq_refl eq_refl eq_refl Hlog0) as Hlog1.
  pose proof (processBatch_openable batch now now_rot m0) as Ho1.
  destruct (processBatch batch now now_rot m0) as [m1 out]. cbn [fst] in *. destruct Hp as (Hok1 & -> & Hv1).
  split; [done|]. split.
  { intros k. rewrite Hv1, Hv0. by destruct (last_entry k _). }
  rewrite createEntry_zeroed in Hlog1. cbn [path app] in Hlog1.
  assert (Forall entry_fits (zeroed <$> (stored now <$> batch))) as Hzf.
  { rewrite <- createEntry_zeroed. apply Forall_fmap. eapply Forall_impl; [exact Hfit|].
    intros req Hr. by apply createEntry_fits. }
  destruct (Run_replays cfg bloom' (fs m1) (zeroed <$> (stored now <$> batch)) Hd) as (f2 & -> & _ & Hlog2 & _).
  { rewrite Ho1. cbn. by rewrite Ho0. } { exact Hzf. } { by rewrite Hlog1. }
  eexists. split; [done|]. intros k. rewrite <- last_entry_zeroed.
  by apply started_ok; [| |eexists].
Qed.

(** C37. A restart depends on nothing on the disk but the one file the log is
    configured to be: whatever tables and rotated logs two disks hold, if that
    file is the same then both starts fail or both serve the same contents.
    What a flush or a rotation moved elsewhere is not read again. *)
Theorem Restart_reads_one_file cfg (bloom : B) f g :
  openable f (WriteAheadLogFilePath cfg) = openable g (WriteAheadLogFilePath cfg) ->
  files f !! WriteAheadLogFilePath cfg = files g !! WriteAheadLogFilePath cfg ->
  match Run cfg bloom f, Run cfg bloom g with
  | Some m, Some m' => SSTables (bb m) = replicate 4 [] /\ forall k, lookup_entry k m = lookup_entry k m'
  | None, None => True
  | _, _ => False
  end.
Proof.
  intros Ho Hf. unfold Run, recovered_engine, recoverWal. cbn [bb Configuration NewSystemState fs].
  destruct (EnableDiskDurability cfg); [|by split].
  unfold NewDiskWAL, os_OpenAppend. rewrite Ho. destruct (openable g _); [|done].
  unfold Replay. cbn [closed path with_fs with_bb fs bb]. cbn [files]. rewrite !lookup_insert_eq, Hf.
  match goal with |- context [replay_loop ?n ?cb ?a ?r] => 
    pose proof (replay_loop_fold cb n a r []) as Hr end.
  cbn [fold_left] in Hr. rewrite Hr. clear Hr. destruct (replay_loop _ _ _ _) as [es stop].
  rewrite fold_recover. case_bool_decide; [|done]. split; [done|]. intros k. unfold lookup_entry. cbn. done.
Qed.

(** C38. A log torn by a crash stops the server from starting: if what is left
    of the log ends inside a record, [Run] returns an error instead of serving
    the complete records. *)
Theorem Torn_log_prevents_start cfg (bloom : B) f es survived :
  EnableDiskDurability cfg = true -> openable f (WriteAheadLogFilePath cfg) = true ->
  Forall entry_fits es -> files f !! WriteAheadLogFilePath cfg = Some survived ->
  prefix survived (encode_log es) -> (forall done, prefix done es -> survived <> encode_log done) ->
  Run cfg bloom f = None.
Proof.
  intros Hd Ho Hes Hf Hp Hno. unfold Run, recovered_engine, recoverWal. cbn [bb Configuration NewSystemState fs].
  rewrite Hd. unfold NewDiskWAL, os_OpenAppend. rewrite Ho, Hf. set (m := with_bb _ _).
  set (w := mkDiskWAL _ _ _).
  destruct (Replay_prefix recover_entry (bb m) w (fs m) es survived) as (d & stop & -> & Hd' & Hstop & _); try done.
  { cbn. by rewrite lookup_insert_eq. }
  case_bool_decide as Hs; [|done]. apply Hstop in Hs. by destruct (Hno d Hd').
Qed.

End Properties.

(** C27. From a configuration that loads, directories that can be made and a log
    that is complete, the server starts: consistent, reading as its log,
    listening on the configured port, with a shard for each processor (or as many
    as configured); its two lines, of the shards and of the address, are in the
    logger's queue if the severity allows it (where the logger's goroutine takes
    them from); and with no configured token the one it prints opens every route,
    at any later time and whatever has happened to the store: its expiry is not
    looked at. *)
Theorem Start_serves Encrypt decrypt Log wild NumCPU now timestamp timestamp' configPath l f cfg es :
  (forall key subject expiration, decrypt (Encrypt key subject expiration) key = true) ->
  LoadConfigurationFromFile f configPath = Some cfg -> openable f (Logger.log_path (LogDirectoryPath cfg)) = true ->
  EnableDiskDurability cfg = true -> openable f (WriteAheadLogFilePath cfg) = true -> Forall entry_fits es ->
  default [] (files f !! WriteAheadLogFilePath cfg) = encode_log es ->
  exists r, RunFromFile Encrypt Log wild NumCPU true now timestamp timestamp' configPath l f = Some r /\
    server_ok (start_engine r) (replicate 4 []) /\ (forall k, lookup_entry k (start_engine r) = Ok (last_entry k es)) /\
    start_address r = (":" ++ print_int (ServerPort cfg))%string /\
    start_shards r = replicate (Z.to_nat (ingest_shards NumCPU cfg)) Shards.new_shard /\
    Logger.globalLogMessageQueue (start_logger r) =
      (if Logger.severity_of (LogSeverityLevel cfg) <=? Logger.SeverityInfo
       then [Logger.message_line timestamp "[INF]"
               ("Ingest initialized with " ++ print_int (ingest_shards NumCPU cfg) ++ " shards");
             Logger.message_line timestamp' "[INF]" ("Listening on " ++ start_address r ++ " (fasthttp)")] else []) /\
    (AuthenticationToken cfg = ""%string -> exists token, start_printed r = ["ADMIN TOKEN: " ++ token]%string /\
       forall error_text numShards e ctx m, Configuration (bb m) = cfg -> Authorization ctx = token ->
         handleRequest decrypt error_text numShards e ctx m = routePath error_text numShards e ctx m).
Proof.
  intros Hp Hl Hlog Hd Ho Hes Hwal. unfold RunFromFile. rewrite Hl. cbn [mbind option_bind].
  destruct (InitializeLogger_files (LogDirectoryPath cfg) (LogSeverityLevel cfg) l f [] Hlog)
    as (s & -> & Hcon & Hop & Hi & Hq & Hsev & Hfiles).
  set (bloom := Bloom.NewSharedBloomFilter _ _ _ _).
  destruct (Run_replays cfg bloom (Logger.lfs s) es Hd) as (f' & Hr & _ & Hf' & _); [by rewrite Hop|done|by rewrite Hfiles|].
  unfold Run in Hr. destruct (recovered_engine cfg bloom (Logger.lfs s)) as [m0|]; [|done].
  cbn [mbind option_bind] in Hr |- *. apply (inj Some) in Hr.
  assert (Configuration (bb m0) = cfg) as Hcfg by (by apply (f_equal (fun m => Configuration (bb m))) in Hr).
  unfold startAgents, startHttpServer. rewrite Hr, Hcfg.
  eexists. split; [done|]. cbn [start_engine start_logger start_printed start_address start_shards]. rewrite Hcon.
  destruct (started_ok cfg bloom es f' Hes) as [Hok Hlook]; [apply Bloom.NewSharedBloomFilter_ok|by eexists|].
  split; [exact Hok|]. split; [exact Hlook|]. split; [done|]. split; [done|]. split.
  - by apply two_lines_queued.
  - intros Ht. unfold printAdminToken. rewrite decide_True by done. eexists. split; [done|].
    intros error_text numShards e ctx m Hm Ha. unfold handleRequest, checkAuth. rewrite Hm, Ha, Hp. by destruct (_ && _).
Qed.
