(* ===== verification/GoScenario.v ===== *)
(** A concrete server, and the theorems about the server at concrete inputs:
    their hypotheses hold there. *)
From S2P Require Import Prelude Codec Text Domain Hashing Configuration Bloom WriteAheadLog SortedStringTable SystemState Ingestion Python Json HttpApi HttpSpec Server.
From S2P Require MemoryTable LruCache Logger.

Open Scope Z_scope.

(** ** Definitions *)

(** A small filter, an empty disk every path of which can be opened, a token
    check that accepts nothing, error texts, two shards. *)
Definition demo_bloom : SharedBloomFilter := new_sized 640 3.
Definition demo_disk : FileSystem := mkFS ∅ (fun _ => true).
Definition demo_decrypt (token secret : string) : bool := false.
Definition demo_text (e : go_error) : string := "error"%string.

(** The server after a start on a disk whose log holds [es]. *)
Definition demo_fs (es : list Entry) : FileSystem :=
  mkFS {[ WriteAheadLogFilePath default_config := encode_log es ]} (fun _ => true).
Definition demo_wal (is_closed : bool) : DiskWAL := mkDiskWAL (WriteAheadLogFilePath default_config) true is_closed.
Definition demo (es : list Entry) : machine SharedBloomFilter :=
  mkMachine (set_MemTable (recovered default_config es)
    (set_ActiveWal (demo_wal false) (NewSystemState default_config demo_bloom))) (demo_fs es) zero_metrics.

Definition demo_env (now : Z) : env := mkEnv now 7 [0%nat; 1%nat] (fun _ => now) (fun id => 100 + Z.of_nat id).
Definition demo_get (k : string) : ctx_request := mkCtx "GET" "/get" "" "" k.
Definition demo_delete (k : string) : ctx_request := mkCtx "DELETE" "/delete" "" "" k.
Definition demo_put (k v : string) (ttl : Z) : ctx_request := mkCtx "POST" "/put" "" (dumps (put_payload k v ttl)) "".

Definition demo_entry : Entry := mkEntry "a" [Byte.x31] 1000 false.

(** A session: writes, reads, and a request with each of the faults. The
    [i]-th environment has clock readings of its own for log files. *)
Definition session_env (i : Z) (order : list nat) : env :=
  mkEnv (5 + i) (10 * i) order (fun _ => 5 + i) (fun id => 10 * i + Z.of_nat id).
Definition session_batch : string := dumps (batch_payload [("b", "2", 0); ("a", "3", 0)]%string).
Definition session_order : list nat :=
  elements (dom (groupItemsByShard 2 [("b", [Byte.x32], 0); ("a", [Byte.x33], 0)]%string)).
Definition session_reqs : list (env * ctx_request) :=
  [(session_env 1 [], demo_put "a" "1" 0);
   (session_env 2 session_order, mkCtx "POST" "/batch" "" session_batch "");
   (session_env 3 [], demo_get "a");
   (session_env 4 [], demo_delete "a");
   (session_env 5 [], demo_get "a");
   (session_env 6 [], demo_get "b");
   (session_env 7 [], demo_get "");
   (session_env 8 [], mkCtx "POST" "/put" "" "{" "");
   (session_env 9 [], mkCtx "GET" "/put" "" "" "");
   (session_env 10 [], mkCtx "GET" "/health" "" "" "");
   (session_env 11 [], mkCtx "GET" "/get" "v2.local" "" "b")]%string.

(** ** Lemmas *)

Lemma demo_ok es : Forall entry_fits es -> server_ok (demo es) (replicate 4 []).
Proof.
  intros Hes. apply (started_ok default_config demo_bloom es (demo_fs es)); [done|apply new_sized_ok|].
  exists (encode_log es). apply lookup_singleton_eq.
Qed.

Lemma demo_state_ok : state_ok (demo []) (replicate 4 []).
Proof. by apply demo_ok. Qed.

Lemma demo_wal_open : wal_open (demo []).
Proof. by apply demo_ok. Qed.

Lemma demo_entry_fits : Forall entry_fits [demo_entry].
Proof. repeat constructor; vm_compute; done. Qed.

Lemma demo_lookup k : lookup_entry k (demo [demo_entry]) = Ok (last_entry k [demo_entry]).
Proof.
  apply (started_ok default_config demo_bloom [demo_entry] (demo_fs [demo_entry]) demo_entry_fits).
  - apply new_sized_ok.
  - eexists. apply lookup_singleton_eq.
Qed.

(** ** Properties at concrete inputs *)

Lemma Submit_read_your_write_witness :
  let '(m', err) := SubmitIngestionRequest "k" [Byte.x41] 3 false 5 7 (demo []) in
  err = None /\ state_ok m' (replicate 4 []) /\
  lookup_entry "k" m' = Ok (Some (mkEntry "k" [Byte.x41] 3000000005 false)) /\
  forall k, k <> "k"%string -> lookup_entry k m' = lookup_entry k (demo []).
Proof.
  apply (Submit_read_your_write (demo []) (replicate 4 []) "k" [Byte.x41] 3 false 5 7).
  - apply demo_state_ok.
  - apply demo_wal_open.
  - split; vm_compute; done.
  - vm_compute. done.
Defined.

Definition demo_items : list (string * bytes * Z) :=
  [("a", [Byte.x31], 0); ("b", [Byte.x32], 0); ("a", [Byte.x33], 0)]%string.

Lemma SubmitBatch_any_order_witness :
  let '(m', err) := SubmitBatchIngestion 2 demo_items (elements (dom (groupItemsByShard 2 demo_items)))
    (fun _ => 5) (fun id => 100 + Z.of_nat id) (demo []) in
  err = None /\ state_ok m' (replicate 4 []) /\
  forall k, lookup_entry k m' =
    match last_entry k (stored 5 <$> (item_req <$> demo_items)) with
    | Some e => Ok (Some e)
    | None => lookup_entry k (demo [])
    end.
Proof.
  apply (SubmitBatch_any_order (demo []) (replicate 4 []) 2 demo_items).
  - apply demo_state_ok.
  - apply demo_wal_open.
  - repeat constructor; vm_compute; done.
  - done.
  - vm_compute. repeat constructor.
  - compute_done.
Defined.

Definition broken : machine SharedBloomFilter :=
  with_bb (set_ActiveWal (demo_wal true)) (demo []).

Lemma Submit_wal_failure_witness :
  SubmitIngestionRequest "k" [Byte.x41] 3 false 5 7 broken = (broken, Some WalWriteError) /\
  SubmitBatchIngestion 2 demo_items [0%nat; 1%nat] (fun _ => 5) (fun _ => 7) broken = (broken, None).
Proof. apply (Submit_wal_failure broken (demo_wal true)); reflexivity. Defined.

Lemma Get_serves_newest_witness :
  let '(m', out) := handleRequest demo_decrypt demo_text 2 (demo_env 5) (demo_get "a") (demo [demo_entry]) in
  exists o, lookup_entry "a" (demo [demo_entry]) = Ok o /\
    (cached "a" (demo [demo_entry]) = None -> out = Ok (serve "a" (visible 5 o))) /\
    (forall v, cached "a" (demo [demo_entry]) = Some v -> out = Ok (serve "a" (Some v)) /\
       exists en, o = Some en /\ IsDeleted en = false /\ Value en = v) /\
    server_ok m' (replicate 4 []) /\ forall k', lookup_entry k' m' = lookup_entry k' (demo [demo_entry]).
Proof.
  apply (Get_serves_newest demo_decrypt demo_text 2 (demo_env 5) (demo_get "a")); [|done..].
  apply demo_ok, demo_entry_fits.
Defined.

Lemma Put_then_Get_witness :
  let '(m1, out1) := handleRequest demo_decrypt demo_text 2 (demo_env 5) (demo_put "k" "value" 3) (demo []) in
  let '(m2, out2) := handleRequest demo_decrypt demo_text 2 (demo_env 9) (demo_get "k") m1 in
  let deadline := if 0 <? 3 then i64 (e_now (demo_env 5) + i64 (3 * 1000000000)) else 0 in
  out1 = Ok [SetStatusCode 201] /\
  out2 = Ok (serve "k" (if (0 <? deadline) && (deadline <? e_now (demo_env 9)) then None
                        else Some (to_bytes "value"))).
Proof.
  apply (Put_then_Get demo_decrypt demo_text 2 (demo_env 5) (demo_env 9) (demo_put "k" "value" 3) (demo_get "k")
    (demo []) (replicate 4 [])); try done.
  - by apply demo_ok.
  - apply ascii_check_ok. done.
  - apply ascii_check_ok. done.
Defined.

Lemma Delete_then_Get_witness :
  let '(m1, out1) := handleRequest demo_decrypt demo_text 2 (demo_env 5) (demo_delete "a") (demo [demo_entry]) in
  let '(_, out2) := handleRequest demo_decrypt demo_text 2 (demo_env 9) (demo_get "a") m1 in
  out1 = Ok [SetStatusCode 200] /\ out2 = Ok [CtxError "Not Found" 404].
Proof.
  apply (Delete_then_Get demo_decrypt demo_text 2 (demo_env 5) (demo_env 9) (demo_delete "a") (demo_get "a")
    (demo [demo_entry]) (replicate 4 [])); try done.
  apply demo_ok, demo_entry_fits.
Defined.

Lemma Cache_outlives_deadline_witness :
  let '(m1, out1) := handleRequest demo_decrypt demo_text 2 (demo_env 5) (demo_get "a") (demo [demo_entry]) in
  let '(_, out2) := handleRequest demo_decrypt demo_text 2 (demo_env 2000) (demo_get "a") m1 in
  let '(_, out3) := handleRequest demo_decrypt demo_text 2 (demo_env 2000) (demo_get "a") (demo [demo_entry]) in
  out1 = Ok (serve "a" (Some [Byte.x31])) /\ out2 = Ok (serve "a" (Some [Byte.x31])) /\ out3 = Ok (serve "a" None).
Proof.
  apply (Cache_outlives_deadline demo_decrypt demo_text 2 (demo_env 5) (demo_env 2000) (demo_get "a")
    (demo [demo_entry]) (replicate 4 []) (LruCache.NewLruCache 40000) demo_entry); try done.
  apply demo_ok, demo_entry_fits.
Defined.

Definition demo_batch : list IngestReq := [mkReq "k" [Byte.x41; Byte.x42] 0 false (Some 0%nat)].

Lemma Recovery_zeroes_values_witness :
  exists m0, Run default_config demo_bloom demo_disk = Some m0 /\
  let '(m1, out) := processBatch demo_batch 5 7 m0 in
  out = notifySuccess demo_batch /\
  (forall k, lookup_entry k m1 = Ok (last_entry k (stored 5 <$> demo_batch))) /\
  exists m2, Run default_config demo_bloom (fs m1) = Some m2 /\
    forall k, lookup_entry k m2 = Ok (zeroed <$> last_entry k (stored 5 <$> demo_batch)).
Proof.
  apply (Recovery_zeroes_values default_config demo_bloom demo_bloom demo_disk demo_batch 5 7); try done.
  - apply new_sized_ok.
  - apply new_sized_ok.
  - repeat constructor; vm_compute; done.
Defined.

Lemma Restart_reads_one_file_witness :
  match Run default_config demo_bloom demo_disk,
        Run default_config demo_bloom (mkFS {[ "./data/0.sst"%string := [Byte.x00] ]} (fun _ => true)) with
  | Some m, Some m' => SSTables (bb m) = replicate 4 [] /\ forall k, lookup_entry k m = lookup_entry k m'
  | None, None => True
  | _, _ => False
  end.
Proof. apply Restart_reads_one_file; reflexivity. Defined.

(** A log that a crash cut to its first three bytes. *)
Lemma Torn_log_prevents_start_witness :
  Run default_config demo_bloom
    (mkFS {[ WriteAheadLogFilePath default_config := take 3 (encode_log [demo_entry]) ]} (fun _ => true)) = None.
Proof.
  apply (Torn_log_prevents_start default_config demo_bloom _ [demo_entry] (take 3 (encode_log [demo_entry]))); try done.
  - apply demo_entry_fits.
  - by exists (drop 3 (encode_log [demo_entry])).
  - intros [|e l] Hp; [done|]. destruct Hp as [r [= <- Hr]]. destruct l; [done|done].
Defined.

(** Started with the defaults on a disk with a log of one record; the cipher
    is the key itself. *)
Lemma Start_serves_witness :
  let Encrypt := fun (key subject : string) (expiration : Z) => key in
  let decrypt := fun token key => bool_decide (token = key) in
  exists r, RunFromFile Encrypt (fun x => x) (fun _ => 0) 8 true 5 "t" "u" "" Logger.fresh_logger (demo_fs [demo_entry]) = Some r
    /\ lookup_entry "a" (start_engine r) = Ok (Some demo_entry)
    /\ start_address r = ":8080"%string
    /\ Logger.globalLogMessageQueue (start_logger r) =
         ["t [INF] Ingest initialized with 8 shards"; "u [INF] Listening on :8080 (fasthttp)"]%string
    /\ exists token, forall e ctx m, Configuration (bb m) = default_config -> Authorization ctx = token ->
         handleRequest decrypt demo_text 2 e ctx m = routePath demo_text 2 e ctx m.
Proof.
  intros Encrypt decrypt.
  destruct (Start_serves Encrypt decrypt (fun x => x) (fun _ => 0) 8 5 "t" "u" "" Logger.fresh_logger
    (demo_fs [demo_entry]) default_config [demo_entry]) as (r & Hr & _ & Hl & Ha & _ & Hq & Ht); try done.
  - intros. by apply bool_decide_eq_true.
  - apply demo_entry_fits.
  - exists r. split; [exact Hr|]. rewrite Hl, Hq, Ha. split; [reflexivity|]. split; [reflexivity|].
    split; [reflexivity|]. destruct (Ht eq_refl) as (token & _ & Hk). exists token. intros. by apply Hk.
Defined.

Definition demo_store (k : string) : option Entry := first_some [mem_spec k (bb (demo [])); disk_spec k (replicate 4 [])].

Lemma session_reqs_ok : Forall (request_ok 2) session_reqs.
Proof.
  repeat (apply Forall_cons_2; [split; [vm_compute; reflexivity|split; [vm_compute; reflexivity|]]; vm_compute; reflexivity|]).
  apply Forall_nil_2.
Qed.

Lemma session_fresh : clock_fresh (demo []) (concat (rotations <$> session_reqs)).
Proof.
  split.
  - eapply bool_decide_eq_true_1. vm_compute. reflexivity.
  - repeat (apply Forall_cons_2; [vm_compute; reflexivity|]). apply Forall_nil_2.
Qed.

Lemma Http_refines_map_witness :
  (serve_all demo_decrypt demo_text 2 session_reqs (demo [])).2 = Ok <$>
    [[SetStatusCode 201]; [SetStatusCode 201]; serve "a" (Some [Byte.x33]); [SetStatusCode 200];
     [CtxError "Not Found" 404]; serve "b" (Some [Byte.x32]); [CtxError "Missing key" 400];
     [CtxError "Bad Request" 400]; [CtxError "Method Not Allowed" 405]; [CtxError "Not Found" 404];
     [CtxError "Unauthorized" 401]]%string /\
  let authorised ctx := checkAuth demo_decrypt ctx (demo []) in
  let '(m', outs) := serve_all demo_decrypt demo_text 2 session_reqs (demo []) in
  session 2 authorised demo_store session_reqs outs /\ server_ok m' (replicate 4 []) /\
  reads m' (session_end 2 authorised demo_store session_reqs).
Proof.
  split; [vm_compute; reflexivity|].
  exact (Http_refines_map demo_decrypt demo_text 2 (demo []) (replicate 4 []) demo_store session_reqs
    (demo_ok [] (Forall_nil_2 _)) (fun k => lookup_entry_spec k (demo []) _ demo_state_ok) session_reqs_ok session_fresh).
Defined.

(** A time to live of 584 years, in seconds, wraps to 0.3 seconds. *)
Lemma Long_ttl_expires_soon now key val : 0 <= now < 2 ^ 62 ->
  ExpiryTimestamp (createEntry (mkReq key val 18446744074 false None) now) = now + 290448384.
Proof.
  intros Hn. cbn [ExpiryTimestamp createEntry req_TTL]. change (0 <? 18446744074) with true. cbv iota.
  assert (i64 (18446744074 * 1000000000) = 290448384) as -> by (vm_compute; reflexivity). apply i64_small. unfold is_i64. lia.
Qed.
