(* ===== verification/EngineScenario.v ===== *)
(** A small server whose every batch fills a table, and the theorems about the
    background agents at concrete inputs. *)
From S2P Require Import Prelude Codec Text Domain Hashing Configuration Bloom WriteAheadLog SortedStringTable GoHeap MergeIterators SystemState Ingestion FlushAgent CompactionAgent Python Json HttpApi Engine Shards Server.
From S2P Require MemoryTable LruCache.

Open Scope Z_scope.
#[local] Existing Instance MemoryTable.default_MapRange.

(** ** Definitions *)

Definition tiny_config : SystemConfiguration := {|
  DataDirectoryPath := "d";
  WriteAheadLogFilePath := "w";
  LogDirectoryPath := "l";
  ServerPort := 8080;
  MaximumMemtableSizeInBytes := 1;
  LevelZeroCompactionTriggerCount := 1;
  SSTableBlockSizeInBytes := 4096;
  BloomFilterFalsePositiveRate := DefaultBloomFilterFalsePositiveRate;
  CompactionIntervalInSeconds := 5;
  AuthenticationToken := "";
  AuthenticationSecret := "";
  EnableDiskDurability := true;
  MaximumCpuCount := 1;
  MaximumSystemMemoryInBytes := 0;
  EnablePprofProfiling := false;
  LogSeverityLevel := "INFO";
  KeyCacheCapacityCount := 10;
|}.

Definition tiny_bloom : SharedBloomFilter := new_sized 128 1.

(** The server after a start on an empty disk. *)
Definition tiny : machine SharedBloomFilter :=
  mkMachine (set_MemTable (recovered tiny_config [])
    (set_ActiveWal (mkDiskWAL "w" true false) (NewSystemState tiny_config tiny_bloom)))
    (mkFS {[ "w"%string := [] ]} (fun _ => true)) zero_metrics.

Definition put_batch (v : byte) : list IngestReq := [mkReq "k" [v] 0 false (Some 0%nat)].

Definition idle (m : machine SharedBloomFilter) : engine SharedBloomFilter := mkEngine m None None [].

(** One write, which freezes its table, and the two halves of its flush. *)
Definition writing : machine SharedBloomFilter * sends := processBatch (put_batch Byte.x41) 5 7 tiny.
Definition written : machine SharedBloomFilter := fst writing.
Definition frozen : memtable := default (MemTable (bb tiny)) (waitForFlush written).
Definition flushed_file : machine SharedBloomFilter * outcome SSTableMetadata := write_flush frozen 9 written.
Definition flushed : machine SharedBloomFilter := commitFlush (snd flushed_file) (fst flushed_file).

(** The compaction of its one table. *)
Definition taking : list SSTableMetadata * machine SharedBloomFilter := default ([], flushed) (takeLevelZero flushed).
Definition merging : machine SharedBloomFilter * outcome SSTableMetadata :=
  performMerge (fst taking) "d" 11 (snd taking).

(** ** Lemmas *)

Lemma tiny_ok : server_ok tiny (replicate 4 []).
Proof.
  apply (started_ok tiny_config tiny_bloom []); [done|apply new_sized_ok|]. exists []. apply lookup_singleton_eq.
Qed.

Lemma tiny_wals : NoDup (path <$> wals (bb tiny)).
Proof. apply NoDup_singleton. Qed.

Lemma put_batch_fits v : Forall req_fits (put_batch v).
Proof. repeat constructor. Qed.

Lemma written_frozen : waitForFlush written = Some frozen.
Proof. vm_compute. reflexivity. Qed.

Lemma frozen_fits : table_bytes_fit frozen.
Proof. vm_compute. reflexivity. Qed.

Lemma written_fresh : flush_fresh 9 written.
Proof. vm_compute. reflexivity. Qed.

Lemma flushed_taken : takeLevelZero flushed = Some taking.
Proof. vm_compute. reflexivity. Qed.

Lemma flush_ok : exists meta, snd flushed_file = Ok meta.
Proof. vm_compute. eexists. reflexivity. Qed.

Lemma taking_merge_fresh : merge_fresh 11 (snd taking).
Proof. vm_compute. reflexivity. Qed.

Definition taking_iters : list bytes := default [] (createIterators (fst taking) (snd taking)).

Lemma taking_iters_eq : createIterators (fst taking) (snd taking) = Some taking_iters.
Proof. vm_compute. reflexivity. Qed.

Lemma taking_fits : merge_bytes_fit (fst taking) (snd taking).
Proof. intros iters. rewrite taking_iters_eq. intros <-%(inj Some). vm_compute. reflexivity. Qed.

Definition merged_table : SSTableMetadata := match snd merging with Ok meta => meta | _ => mkMeta 0 "" 0 ∅ "" "" end.

Lemma merging_ok : snd merging = Ok merged_table.
Proof. vm_compute. reflexivity. Qed.

Definition compacted : machine SharedBloomFilter := settleCompaction (fst taking) (Ok merged_table) (fst merging).

Definition reading : machine SharedBloomFilter * outcome (option (list ctx_call)) * option Entry := fetch 13 "k" compacted.

(** A write, its flush, its compaction, a read. *)
Definition busy_trace : list event :=
  [EvWrite 5 (put_batch Byte.x41) (snd writing);
   EvTau; EvTau; EvTake (table_keys (fst taking)); EvTau; EvCommit (shared_keys (fst taking));
   EvRead 13 "k" reading.1.2].

Definition after_busy : engine SharedBloomFilter :=
  mkEngine reading.1.1 None None (option_list reading.2 ++ []).

(** A write and its flush, a compaction, a read, whatever the machines. *)
Lemma flush_steps (m0 m1 m2 m3 : machine SharedBloomFilter) batch out t meta :
  batch <> [] -> Forall req_fits batch -> rotation_fresh 7 m0 -> processBatch batch 5 7 m0 = (m1, out) ->
  waitForFlush m1 = Some t -> flush_fresh 9 m1 -> table_bytes_fit t -> write_flush t 9 m1 = (m2, meta) ->
  commitFlush meta m2 = m3 ->
  steps (idle m0) [EvWrite 5 batch out; EvTau; EvTau] (idle m3).
Proof.
  intros Hne Hfit Hf1 Hb Ht Hf2 Htf Hw <-.
  eapply steps_cons; [exact (step_batch (idle m0) batch 5 7 m1 out Hne Hfit Hf1 Hb)|].
  eapply steps_cons; [exact (step_flush_write (idle m1) t 9 m2 meta eq_refl Ht ltac:(lia) Hf2 Htf Hw)|].
  eapply steps_cons; [exact (step_flush_commit (mkEngine m2 (Some meta) None []) meta eq_refl)|]. apply steps_refl.
Qed.

Lemma compaction_steps (m3 m4 m5 m6 : machine SharedBloomFilter) tables merged :
  takeLevelZero m3 = Some (tables, m4) -> merge_fresh 11 m4 -> merge_bytes_fit tables m4 ->
  performMerge tables (DataDirectoryPath (Configuration (bb m4))) 11 m4 = (m5, Ok merged) ->
  settleCompaction tables (Ok merged) m5 = m6 ->
  steps (idle m3) [EvTake (table_keys tables); EvTau; EvCommit (shared_keys tables)] (idle m6).
Proof.
  intros Htake Hf3 Hmf Hm <-.
  eapply steps_cons; [exact (step_take (idle m3) tables m4 eq_refl Htake)|].
  eapply steps_cons; [exact (step_merge (mkEngine m4 None (Some (tables, None)) []) tables 11 m5 (Ok merged) eq_refl ltac:(lia) Hf3 Hmf Hm)|].
  eapply steps_cons; [exact (step_commit (mkEngine m5 None (Some (tables, Some (Ok merged))) []) tables merged eq_refl)|].
  apply steps_refl.
Qed.

Lemma read_steps (m m' : machine SharedBloomFilter) r found : fetch 13 "k" m = (m', r, found) ->
  steps (idle m) [EvRead 13 "k" r] (mkEngine m' None None (option_list found ++ [])).
Proof. intros Hr. eapply steps_cons; [exact (step_fetch (idle m) 13 "k" m' r found Hr)|]. apply steps_refl. Qed.

Lemma writing_eq : processBatch (put_batch Byte.x41) 5 7 tiny = (written, snd writing).
Proof. unfold written, writing. apply surjective_pairing. Qed.

Lemma flushed_file_eq : write_flush frozen 9 written = (fst flushed_file, snd flushed_file).
Proof. unfold flushed_file. apply surjective_pairing. Qed.

Lemma flushed_taken_eq : takeLevelZero flushed = Some (fst taking, snd taking).
Proof. rewrite <- surjective_pairing. apply flushed_taken. Qed.

Lemma taking_dir : DataDirectoryPath (Configuration (bb (snd taking))) = "d"%string.
Proof. vm_compute. reflexivity. Qed.

Lemma merging_eq : performMerge (fst taking) (DataDirectoryPath (Configuration (bb (snd taking)))) 11 (snd taking)
  = (fst merging, Ok merged_table).
Proof. rewrite <- merging_ok, taking_dir. unfold merging. apply surjective_pairing. Qed.

Lemma reading_eq : fetch 13 "k" compacted = (reading.1.1, reading.1.2, reading.2).
Proof. unfold reading. by destruct (fetch 13 "k" compacted) as [[m r] found]. Qed.

Lemma tiny_fresh : rotation_fresh 7 tiny.
Proof. vm_compute. reflexivity. Qed.

Lemma flushed_eq : commitFlush (snd flushed_file) (fst flushed_file) = flushed.
Proof. unfold flushed. reflexivity. Qed.

Lemma compacted_eq : settleCompaction (fst taking) (Ok merged_table) (fst merging) = compacted.
Proof. unfold compacted. reflexivity. Qed.

Lemma written_steps : steps (idle tiny) [EvWrite 5 (put_batch Byte.x41) (snd writing); EvTau; EvTau] (idle flushed).
Proof.
  refine (flush_steps _ _ _ _ _ _ _ _ _ (put_batch_fits _) tiny_fresh writing_eq written_frozen
    written_fresh frozen_fits flushed_file_eq flushed_eq). discriminate.
Qed.

Lemma busy_steps : steps (idle tiny) busy_trace after_busy.
Proof.
  exact (steps_app _ _ _ _ _ written_steps (steps_app _ _ _ _ _
    (compaction_steps _ _ _ _ _ _ flushed_taken_eq taking_merge_fresh taking_fits merging_eq compacted_eq)
    (read_steps _ _ _ _ reading_eq))).
Qed.

Definition flushed_read : machine SharedBloomFilter * outcome (option (list ctx_call)) * option Entry := fetch 13 "k" flushed.

Lemma flushed_read_eq : fetch 13 "k" flushed = (flushed_read.1.1, flushed_read.1.2, flushed_read.2).
Proof. unfold flushed_read. by destruct (fetch 13 "k" flushed) as [[m r] found]. Qed.

Lemma flushed_read_steps :
  steps (idle tiny) ([EvWrite 5 (put_batch Byte.x41) (snd writing); EvTau; EvTau] ++ EvRead 13 "k" flushed_read.1.2 :: [])
    (mkEngine flushed_read.1.1 None None (option_list flushed_read.2 ++ [])).
Proof. exact (steps_app _ _ _ _ _ written_steps (read_steps _ _ _ _ flushed_read_eq)). Qed.

Lemma written_ok : state_ok written (replicate 4 []).
Proof.
  destruct tiny_ok as (Hok & Hw & _).
  pose proof (processBatch_ok tiny _ (put_batch Byte.x41) 5 7 Hok Hw ltac:(discriminate) (put_batch_fits _) tiny_fresh) as Hp.
  rewrite writing_eq in Hp. by destruct Hp as [? _].
Qed.

Lemma written_wals : NoDup (path <$> wals (bb written)).
Proof. compute_done. Qed.

Lemma written_can_flush : can_flush written 9.
Proof. split; [lia|]. split; [apply written_fresh|]. vm_compute. reflexivity. Qed.

Lemma written_frozen_all : ImmutableMem (bb written) = [frozen].
Proof. vm_compute. reflexivity. Qed.

Lemma processFlush_done (m m1 m2 : machine SharedBloomFilter) t meta contents :
  state_ok m contents -> NoDup (path <$> wals (bb m)) -> waitForFlush m = Some t -> can_flush m 9 -> table_bytes_fit t ->
  write_flush t 9 m = (m1, meta) -> (exists x, meta = Ok x) -> commitFlush meta m1 = m2 -> exists contents', state_ok m2 contents'.
Proof.
  intros Hok Hw Ht Hc Hf Hr [x ->] <-. destruct (processFlush_ok m contents t 9 Hok Hw Ht Hc Hf) as (m' & Hp & Hok' & _).
  unfold processFlush in Hp. rewrite Hr in Hp. injection Hp as <-. by eexists.
Qed.

Lemma flushed_ok : exists contents, state_ok flushed contents.
Proof.
  exact (processFlush_done _ _ _ _ _ _ written_ok written_wals written_frozen written_can_flush frozen_fits
    flushed_file_eq flush_ok flushed_eq).
Qed.

Lemma flushed_apart : files_apart flushed.
Proof. unfold files_apart. compute_done. Qed.

(** ** Properties at concrete inputs *)

Lemma Engine_refines_spec_witness :
  let s := mkSpec (fun k => first_some [mem_spec k (bb tiny); disk_spec k (replicate 4 [])]) ∅ ∅ in
  spec_runs s busy_trace /\ engine_sim after_busy (fold_left spec_next busy_trace s).
Proof. apply (Engine_refines_spec tiny (replicate 4 []) busy_trace after_busy tiny_ok tiny_wals NoDup_nil_2 busy_steps). Defined.

Lemma Engine_reads_last_write_witness :
  let o := Some (mkEntry "k" [Byte.x41] 0 false) in
  flushed_read.1.2 = Ok (answer 13 "k" o) \/
  exists en, o = Some en /\ IsDeleted en = false /\ ExpiryTimestamp en < 13 /\
    flushed_read.1.2 = Ok (Some (serve "k" (Some (Value en)))).
Proof.
  exact (Engine_reads_last_write tiny (replicate 4 []) [EvWrite 5 (put_batch Byte.x41) (snd writing); EvTau; EvTau]
    13 "k" flushed_read.1.2 [] _ tiny_ok tiny_wals NoDup_nil_2 flushed_read_steps (conj I (conj I (conj I I)))).
Defined.

Lemma Flush_drains_witness :
  (exists w, FrozenWALs (bb written) = [w] /\ is_Some (files (fs written) !! path w)) /\
  exists m' contents', flush_turns [9] written = Ok m' /\ ImmutableMem (bb m') = [] /\ state_ok m' contents' /\
    (EnableDiskDurability (Configuration (bb written)) = true ->
       FrozenWALs (bb m') = drop (length (ImmutableMem (bb written))) (FrozenWALs (bb written)) /\
       Forall (fun w => files (fs m') !! path w = None)
         (take (length (ImmutableMem (bb written))) (FrozenWALs (bb written)))) /\
    forall k, lookup_entry k m' = lookup_entry k written.
Proof.
  split; [eexists; split; [vm_compute; reflexivity|vm_compute; by eexists]|].
  apply (Flush_drains written (replicate 4 []) [9] written_ok written_wals).
  - rewrite written_frozen_all. simpl. lia.
  - apply NoDup_singleton.
  - constructor; [apply written_can_flush|constructor].
  - rewrite written_frozen_all. constructor; [apply frozen_fits|constructor].
Defined.

Lemma flushed_tables : head (SSTables (bb flushed)) = Some (fst taking).
Proof. vm_compute. reflexivity. Qed.

Lemma flushed_merge_fresh : merge_fresh 11 flushed.
Proof. vm_compute. reflexivity. Qed.

Lemma flushed_fits : merge_bytes_fit (default [] (head (SSTables (bb flushed)))) flushed.
Proof.
  rewrite flushed_tables. assert (createIterators (fst taking) flushed = Some taking_iters) as He by (vm_compute; reflexivity).
  intros iters. change (default [] (Some ?x)) with x. rewrite He. intros <-%(inj Some). vm_compute. reflexivity.
Qed.

Lemma Compaction_keeps_unshared_witness :
  exists m' contents', checkAndRunCompaction 11 flushed = Ok m' /\ state_ok m' contents' /\
    forall k, k ∉ shared_keys (default [] (head (SSTables (bb flushed)))) -> lookup_entry k m' = lookup_entry k flushed.
Proof.
  destruct flushed_ok as [contents Hok].
  apply (Compaction_keeps_unshared flushed contents 11 Hok flushed_apart); [lia|apply flushed_merge_fresh|apply flushed_fits].
Defined.

Lemma taken_key : "k"%string ∈ table_keys (fst taking).
Proof. compute_done. Qed.

Lemma flushed_memory : mem_spec "k" (bb flushed) = None.
Proof. vm_compute. reflexivity. Qed.

(** Below level 0 there are no tables yet. *)
Lemma lower_empty (m : machine SharedBloomFilter) contents k : state_ok m contents ->
  tail (SSTables (bb m)) = replicate 3 [] -> disk_spec k (tail contents) = None.
Proof.
  intros (_ & _ & _ & _ & Ht & Hl & _) Hs. destruct (SSTables (bb m)) as [|l ls]; [simpl in Hl; lia|].
  cbn [tail] in Hs. subst ls. apply Forall2_cons_inv_l in Ht as (c & cs & _ & Hcs & ->). cbn [tail]. simpl in Hcs.
  repeat match goal with H : Forall2 _ (_ :: _) _ |- _ => apply Forall2_cons_inv_l in H as (? & ? & ?%Forall2_nil_inv_l & ? & ->); subst end.
  by match goal with H : Forall2 _ [] _ |- _ => apply Forall2_nil_inv_l in H as -> end.
Qed.

Lemma flushed_lower : tail (SSTables (bb flushed)) = replicate 3 [].
Proof. vm_compute. reflexivity. Qed.

Lemma Compaction_hides_level_zero_witness :
  lookup_entry "k" (snd taking) = Ok None /\ exists e, lookup_entry "k" flushed = Ok (Some e).
Proof.
  destruct flushed_ok as [contents Hok].
  apply (Compaction_hides_level_zero flushed contents (fst taking) (snd taking) "k" Hok flushed_taken_eq taken_key
    flushed_memory (lower_empty _ _ _ Hok flushed_lower)).
Defined.

(** A server that holds an entry, and a reader of it. *)
Definition holding_entry : Entry := mkEntry "k" [Byte.x31] 0 false.
Definition holding : machine SharedBloomFilter :=
  mkMachine (set_MemTable (recovered tiny_config [holding_entry])
    (set_ActiveWal (mkDiskWAL "w" true false) (NewSystemState tiny_config tiny_bloom)))
    (mkFS {[ "w"%string := encode_log [holding_entry] ]} (fun _ => true)) zero_metrics.
Definition fetching : machine SharedBloomFilter * outcome (option (list ctx_call)) * option Entry := fetch 3 "k" holding.

Lemma fetching_eq : fetch 3 "k" holding = (fetching.1.1, fetching.1.2, Some holding_entry).
Proof.
  assert (fetching.2 = Some holding_entry) as <- by (vm_compute; reflexivity).
  unfold fetching. by destruct (fetch 3 "k" holding) as [[m r] found].
Qed.

Lemma holding_ok : server_ok holding (replicate 4 []).
Proof.
  apply (started_ok tiny_config tiny_bloom [holding_entry]).
  - repeat constructor; vm_compute; done.
  - apply new_sized_ok.
  - eexists. apply lookup_singleton_eq.
Qed.

Lemma holding_takes : cache_takes holding.
Proof.
  exists (LruCache.NewLruCache 10). split; [done|]. split; [|vm_compute; done].
  split; [apply LruCache.NewLruCache_ok|vm_compute; done].
Qed.

Lemma Overtaken_read_poisons_cache_witness :
  let '(m2, out) := processBatch (put_batch Byte.x41) 5 7 fetching.1.1 in
  let m3 := fill holding_entry m2 in
  out = notifySuccess (put_batch Byte.x41) /\
  lookup_entry "k" m3 = Ok (last_entry "k" (stored 5 <$> put_batch Byte.x41)) /\
  snd (findAndServe 100 "k" m3) = Ok (Some (serve "k" (Some [Byte.x31]))).
Proof.
  apply (Overtaken_read_poisons_cache holding (replicate 4 []) 3 "k" fetching.1.1 fetching.1.2 holding_entry
    (put_batch Byte.x41) 5 7 100 (proj1 holding_ok) (proj1 (proj2 holding_ok)) holding_takes fetching_eq eq_refl);
    [discriminate|apply put_batch_fits|vm_compute; reflexivity|left].
Defined.

(** *** One write through a shard, then a read *)

Definition shard_req : IngestReq := mkReq "k" [Byte.x41] 0 false (Some 0%nat).
Definition shard_read : machine SharedBloomFilter * outcome (option (list ctx_call)) * option Entry := fetch 13 "k" written.

Definition shard_trace : list sys_event := [Submitted shard_req; Internal; Internal; Processed 5 [shard_req] (snd writing)].

Lemma shard_read_eq : fetch 13 "k" written = (shard_read.1.1, shard_read.1.2, shard_read.2).
Proof. unfold shard_read. by destruct (fetch 13 "k" written) as [[m r] found]. Qed.

Lemma start_tiny : start 1 tiny = mkSys (idle tiny) [new_shard].
Proof. reflexivity. Qed.

Lemma shard_steps (m0 m1 m2 : machine SharedBloomFilter) req out r found :
  shard_of 1 (req_Key req) = 0%nat -> req_fits req -> rotation_fresh 7 m0 ->
  processBatch [req] 5 7 m0 = (m1, out) -> fetch 13 "k" m1 = (m2, r, found) ->
  sys_steps 1 (mkSys (idle m0) [new_shard])
    ([Submitted req; Internal; Internal; Processed 5 [req] out] ++ EngineEvent (EvRead 13 "k" r) :: [])
    (mkSys (mkEngine m2 None None (option_list found ++ [])) [new_shard]).
Proof.
  intros Hid Hfit Hfresh Hb Hr. cbn [app].
  eapply sys_cons. { eapply (sys_submit _ _ new_shard); [reflexivity|]. rewrite Hid. split; reflexivity. }
  eapply sys_cons. { apply (sys_internal _ _ 0 (mkShard [req] [] Waiting) (mkShard [] [] (Received [req]))); [by left|split; reflexivity]. }
  eapply sys_cons. { apply (sys_internal _ _ 0 (mkShard [] [] (Received [req])) (mkShard [] [] (Drained [req])));
    [by right; right|split; reflexivity]. }
  eapply sys_cons. { eapply (sys_process _ _ 0 (mkShard [] [] (Drained [req]))); [reflexivity| |split; reflexivity].
    exact (step_batch (idle m0) [req] 5 7 m1 out ltac:(discriminate) (Forall_cons_2 _ _ _ Hfit (Forall_nil_2 _)) Hfresh Hb). }
  eapply sys_cons; [|apply sys_refl].
  exact (sys_engine 1 (mkSys (idle m1) [new_shard]) (EvRead 13 "k" r) _ eq_refl (step_fetch (idle m1) 13 "k" m2 r found Hr)).
Qed.

Lemma shard_run : sys_steps (ingest_shards 1 (Configuration (bb tiny))) (start 1 tiny)
  (shard_trace ++ EngineEvent (EvRead 13 "k" shard_read.1.2) :: [])
  (mkSys (mkEngine shard_read.1.1 None None (option_list shard_read.2 ++ [])) [new_shard]).
Proof.
  rewrite start_tiny. change (ingest_shards 1 (Configuration (bb tiny))) with 1.
  refine (shard_steps _ _ _ shard_req _ _ _ _ _ tiny_fresh writing_eq shard_read_eq); [vm_compute; reflexivity|by repeat constructor].
Qed.

Lemma Shards_keep_order_witness :
  processed "k" (shard_trace ++ EngineEvent (EvRead 13 "k" shard_read.1.2) :: []) = [shard_req] /\
  forall k, processed k (shard_trace ++ EngineEvent (EvRead 13 "k" shard_read.1.2) :: []) ++
    waiting 1 (mkSys (mkEngine shard_read.1.1 None None (option_list shard_read.2 ++ [])) [new_shard]) k
    = submitted k (shard_trace ++ EngineEvent (EvRead 13 "k" shard_read.1.2) :: []).
Proof.
  split; [reflexivity|]. intros k.
  exact (proj1 (proj1 (Shards_keep_order 1 tiny (replicate 4 []) _ _ tiny_ok tiny_wals NoDup_nil_2 shard_run) k)).
Defined.


(** *** A put that comes after a rotation *)

Definition rotated : machine SharedBloomFilter := rotateMemTable 7 holding.
Definition late_flush : machine SharedBloomFilter * outcome SSTableMetadata := write_flush (MemTable (bb holding)) 9 rotated.
Definition late_table : SSTableMetadata := match snd late_flush with Ok meta => meta | _ => mkMeta 0 "" 0 ∅ "" "" end.

Lemma late_table_ok : snd late_flush = Ok late_table.
Proof. vm_compute. reflexivity. Qed.

Lemma late_flush_eq : write_flush (MemTable (bb holding)) 9 rotated = (fst late_flush, Ok late_table).
Proof. rewrite <- late_table_ok. unfold late_flush. apply surjective_pairing. Qed.

Lemma rotated_can_flush : can_flush rotated 9.
Proof. split; [lia|]. split; vm_compute; reflexivity. Qed.

Lemma rotated_fits : table_bytes_fit (MemTable (bb holding)).
Proof. vm_compute. reflexivity. Qed.

Lemma rotated_wals : NoDup (path <$> wals (bb rotated)).
Proof. compute_done. Qed.

Lemma holding_fresh : rotation_fresh 7 holding.
Proof. vm_compute. reflexivity. Qed.

Lemma Late_put_is_lost_witness :
  let m2 := late_put shard_req 0 (fst late_flush) in
  lookup_entry "k" m2 = Ok (Some (mkEntry "k" [Byte.x41] 0 false)) /\
  lookup_entry "k" (commitFlush (Ok late_table) m2) = lookup_entry "k" holding.
Proof.
  destruct (Late_put_is_lost holding (replicate 4 []) 7 9 shard_req 0 (fst late_flush) late_table
    (proj1 holding_ok) holding_fresh eq_refl rotated_wals rotated_can_flush rotated_fits late_flush_eq) as [Hput Hlost].
  split; [exact Hput|]. apply Hlost.
Defined.
