(* ===== verification/InterleavingScenario.v ===== *)
(** Two shards, a rotation and a flush, with a put that comes late, and a search
    that a compaction overtakes, at concrete inputs. *)
From S2P Require Import Prelude Codec Text Domain Hashing Configuration Bloom WriteAheadLog SortedStringTable GoHeap MergeIterators SystemState Ingestion FlushAgent CompactionAgent HttpApi Engine Search Interleaving EngineScenario.
From S2P Require MemoryTable LruCache.

Open Scope Z_scope.
#[local] Existing Instance MemoryTable.default_MapRange.

(** ** Definitions *)

Definition one_put (k : string) : list IngestReq := [mkReq k [Byte.x41] 0 false (Some 0%nat)].

(** A whole batch of one put, which fills its table. *)
Definition whole_batch (i : nat) (k : string) (now : Z) : list action :=
  [ABegin i (one_put k) now; ALoad i; APut i; ARemove i; ASize i; ARotate i now; ALoadCount i; AAnswer i].

(** Shard 1 loads the table, shard 0 rotates it away, the agent writes it; then
    shard 1 puts. *)
Definition late_schedule : list action :=
  [ABegin 1 (one_put "b") 5; ALoad 1] ++ whole_batch 0 "a" 7 ++
  [AFlushWrite 9; APut 1; ARead "b"; AFlushCommit; ARead "a"; ARead "b"].

Definition late_result := fine_check 2 late_schedule (fine_start tiny).
Definition late_end : fine SharedBloomFilter := fst (default (fine_start tiny, []) late_result).
Definition late_trace : list fine_event := snd (default (fine_start tiny, []) late_result).

(** One shard, a flush, a second write of the key. *)
Definition lone_schedule : list action :=
  whole_batch 0 "a" 5 ++ [AFlushWrite 7] ++ whole_batch 0 "a" 9 ++ [ARead "a"; AFlushCommit; ARead "a"].
Definition lone_result := fine_check 1 lone_schedule (fine_start tiny).
Definition lone_end : fine SharedBloomFilter := fst (default (fine_start tiny, []) lone_result).
Definition lone_trace : list fine_event := snd (default (fine_start tiny, []) lone_result).

(** What the readers of a trace found. *)
Definition found (tr : list fine_event) : list (outcome (option string)) :=
  omap (fun ev => match ev with
                  | FRead _ (Ok o) => Some (Ok ((fun e => of_bytes (Value e)) <$> o))
                  | FRead _ Err => Some Err
                  | FRead _ Panic => Some Panic
                  | _ => None
                  end) tr.

(** The reader for a number of steps, with nothing else running. *)
Fixpoint read_on (n : nat) (k : string) (m : machine SharedBloomFilter) (r : reader) : reader :=
  match n with
  | O => r
  | S n => match reader_step k m r with Some r1 => read_on n k m r1 | None => r end
  end.

(** A search that has the header of level 0 when a compaction takes its table,
    merges it and removes the file. *)
Definition overtaken : reader := ReadTables 0 (reverse (fst taking)).
Definition overtaken_end : reader := read_on 5 "k" compacted overtaken.

(** ** Lemmas *)


Lemma checked_run n acts f : match fine_check n acts f with Some _ => true | None => false end = true ->
  fine_run n f (snd (default (f, []) (fine_check n acts f))) (fst (default (f, []) (fine_check n acts f))).
Proof.
  destruct (fine_check n acts f) as [[f' tr]|] eqn:Hc; [|done]. intros _. by apply (fine_check_run n acts).
Qed.

Lemma late_run : fine_run 2 (fine_start tiny) late_trace late_end.
Proof. apply checked_run. vm_compute. reflexivity. Qed.

Lemma lone_run : fine_run 1 (fine_start tiny) lone_trace lone_end.
Proof. apply checked_run. vm_compute. reflexivity. Qed.

Lemma read_on_run n k (m : machine SharedBloomFilter) r : search_run k (idle m) r (idle m) (read_on n k m r).
Proof.
  revert r. induction n as [|n IH]; intros r; [apply search_done|]. cbn [read_on].
  destruct (reader_step k m r) as [r1|] eqn:Hr; [|apply search_done]. by eapply search_reader.
Qed.

Lemma steps_search k e tr e1 r e2 r2 : steps e tr e1 -> search_run k e1 r e2 r2 -> search_run k e r e2 (r2 : reader).
Proof. induction 1 as [|e ev e1 tr e3 Hs _ IH]; intros Hr; [done|]. eapply search_engine; [exact Hs|by apply IH]. Qed.

Lemma overtaken_run : search_run "k" (idle flushed) overtaken (idle compacted) overtaken_end.
Proof.
  exact (steps_search _ _ _ _ _ _ _ (compaction_steps _ _ _ _ _ _ flushed_taken_eq taking_merge_fresh taking_fits
    merging_eq compacted_eq) (read_on_run 5 "k" compacted overtaken)).
Qed.

Lemma flushed_header : SSTables (bb flushed) !! 0%nat = Some (fst taking).
Proof. vm_compute. reflexivity. Qed.

Lemma flushed_has_k : exists t, t ∈ concat (take 2 (SSTables (bb flushed))) /\ is_Some (FindInSSTable t "k" (fs flushed)).
Proof.
  exists (default (mkMeta 0 "" 0 ∅ "" "") (head (fst taking))). split.
  - apply list_elem_of_lookup. exists 0%nat. vm_compute. reflexivity.
  - destruct (FindInSSTable _ "k" (fs flushed)) eqn:E; [by eexists|]. exfalso. revert E. vm_compute. discriminate.
Qed.

(** ** Properties at concrete inputs *)

(** The table it was to open is gone; it finds the key on level 1. *)
Lemma Search_never_misses_witness :
  files (fs compacted) !! default ""%string (Filename <$> head (fst taking)) = None /\
  overtaken_end = Found (mkEntry "k" [Byte.x41] 0 false) /\ overtaken_end <> Missing /\ overtaken_end <> Panicked /\
  forall en, overtaken_end = Found en -> Key en = "k"%string.
Proof.
  split; [vm_compute; reflexivity|]. split; [vm_compute; reflexivity|]. destruct flushed_has_k as (t & Ht & Hf).
  exact (Search_never_misses tiny (replicate 4 []) _ (idle flushed) "k" (fst taking) t (idle compacted) overtaken_end
    tiny_ok tiny_wals NoDup_nil_2 written_steps flushed_header Ht Hf overtaken_run).
Defined.


(** The late put is seen, then gone; the other key stays. *)
Lemma Fine_reads_last_put_witness :
  found late_trace = [Ok (Some "A"%string); Ok (Some "A"%string); Ok None] /\
  lookup_entry "a" (store late_end) = Ok (Some (mkEntry "a" [Byte.x41] 0 false)) /\
  puts_allow (mkPuts (fun k => view_spec k [] tiny (replicate 4 [])) ∅) late_trace.
Proof.
  split; [vm_compute; reflexivity|].
  destruct (Fine_reads_last_put 2 tiny (replicate 4 []) late_trace late_end (proj1 tiny_ok) (proj1 (proj2 tiny_ok))
    tiny_wals late_run) as [Hallow Hend].
  split; [|exact Hallow]. rewrite (Hend "a"); [vm_compute; reflexivity|]. vm_compute. by intros ?.
Defined.

Lemma One_shard_never_late_witness :
  found lone_trace = [Ok (Some "A"%string); Ok (Some "A"%string)] /\ Forall not_late lone_trace.
Proof.
  split; [vm_compute; reflexivity|].
  exact (proj1 (One_shard_never_late tiny (replicate 4 []) lone_trace lone_end (proj1 tiny_ok)
    (proj1 (proj2 tiny_ok)) tiny_wals lone_run)).
Defined.

Lemma Batch_is_a_schedule_witness : exists acts f' tr,
  fine_acts acts (fine_start tiny) = Some (f', tr) /\ last tr = Some (FAnswer [(0%nat, None)]).
Proof.
  destruct (Batch_is_a_schedule (fine_start tiny) 0 (one_put "a") 5 7 eq_refl ltac:(discriminate))
    as (acts & f' & tr & Ha & _ & _ & _ & _ & Hl).
  exists acts, f', tr. split; [exact Ha|]. rewrite Hl. vm_compute. reflexivity.
Defined.
