(* ===== verification/SndvClient.v ===== *)
(** The Python client, clients/python/sndv.py. *)
From S2P Require Import Prelude PyFloat Python Json.

Open Scope Z_scope.

(** ** Definitions *)

(** [s.rstrip(c)]. *)
Fixpoint rstrip (c : ascii) (s : string) : string :=
  match s with
  | EmptyString => ""%string
  | String x s' =>
    let r := rstrip c s' in
    if decide (r = ""%string /\ x = c) then ""%string else String x r
  end.

Record SndvClient := mkClient {
  base_url : string;
  token : string;
  headers : list (string * string);
}.

Definition new_client (url tok : string) : SndvClient :=
  mkClient (rstrip "/" url) tok [("Content-Type", "application/json"); ("Authorization", tok)]%string.

Section Client.
Context `{PyWorld W}.
Local Open Scope py_scope.

(** The [except] clauses of [_request]: an HTTPError is a URLError too, and is
    caught first; anything else propagates. *)
Definition translate {A} (m : M W A) : M W A := fun w =>
  match m w with
  | (w, inl (HTTPError code why)) => (w, inl (SndvError code why))
  | (w, inl (URLError why)) => (w, inl (SndvError 0 ("Connection Failed: " ++ why)))
  | r => r
  end.

Definition _request (c : SndvClient) (meth endpoint : string) (pl : option payload) : M W pyval :=
  let url := (base_url c ++ endpoint)%string in
  let data := dumps <$> pl in
  let req := mkHttp meth url (headers c) data None in
  translate (
    response <- urlopen req ;;
    if status_code response =? 204 then ret VNone
    else
      let body := r_body response in
      if bool_decide (body = ""%string) then ret VNone
      else lift_exn (loads body)).

Definition put (c : SndvClient) (key value : string) (ttl : Z) : M W unit :=
  let payload := PDict [("key", PStr key); ("value", PStr value); ("ttl", PNum ttl)]%string in
  _request c "POST" "/put" (Some payload) ;;; ret tt.

(** [resp.get("val") if resp else None]. *)
Definition get_val (resp : pyval) : exn + pyval :=
  if truthy resp then
    match resp with
    | VDict d => inr (default VNone (dict_get "val" d))
    | _ => inl AttributeError
    end
  else inr VNone.

Definition get (c : SndvClient) (key : string) : M W pyval := fun w =>
  match (resp <- _request c "GET" ("/get?key=" ++ key) None ;; lift_exn (get_val resp)) w with
  | (w, inl (SndvError code msg)) => if code =? 404 then (w, inr VNone) else (w, inl (SndvError code msg))
  | r => r
  end.

Definition delete (c : SndvClient) (key : string) : M W unit :=
  _request c "POST" ("/delete?key=" ++ key) None ;;; ret tt.

Definition metrics (c : SndvClient) : M W pyval := _request c "GET" "/metrics" None.

(** [f"{v}"]: a string as it is, anything else by its repr. *)
Definition str_of (v : pyval) : piece := match v with VStr s => Txt s | _ => Rpr v end.

(** The example at the end of the file, for a value of [TOKEN]; as committed it
    is the placeholder, and nothing is sent. *)
Definition TOKEN : string := "PASTE_YOUR_TOKEN_HERE".
Definition example (TOKEN : string) : M W unit :=
  if bool_decide (TOKEN = "PASTE_YOUR_TOKEN_HERE"%string) then
    say [Txt "Please edit the file and set TOKEN to run the example."]
  else
    let client := new_client "http://localhost:8080" TOKEN in
    say [Txt "Writing..."] ;;;
    put client "demo_key" "Hello World" 60 ;;;
    say [Txt "Reading..."] ;;;
    val <- get client "demo_key" ;;
    say [Txt "Got: "; str_of val] ;;;
    m <- metrics client ;;
    say [Txt "Metrics: "; str_of m].

End Client.

(** ** Lemmas *)

Section ClientLemmas.
Context `{PyWorld W}.

(** [_request] by the outcome of the exchange. *)
Lemma request_spec c meth endpoint pl w :
  _request c meth endpoint pl w =
  let '(w', r) := transport (mkHttp meth (base_url c ++ endpoint) (headers c) (dumps <$> pl) None) w in
  (w', match r with
       | inl (NotSent why) => inl (SndvError 0 ("Connection Failed: " ++ why))
       | inl (Dropped why) => inl (OSError why)
       | inr resp =>
         if (200 <=? status_code resp) && (status_code resp <? 300) then
           if bool_decide (status_code resp = 204 \/ r_body resp = ""%string) then inr VNone
           else loads (r_body resp)
         else inl (SndvError (status_code resp) (reason resp))
       end).
Proof.
  unfold _request, translate, bind, urlopen. destruct (transport _ w) as [w' [[why|why]|resp]]; [done..|].
  destruct ((200 <=? status_code resp) && (status_code resp <? 300)); [|done].
  destruct (Z.eqb_spec (status_code resp) 204) as [He|Hne].
  - by rewrite bool_decide_true by (by left).
  - destruct (decide (r_body resp = ""%string)) as [Hb|Hb].
    + rewrite bool_decide_true by done. by rewrite bool_decide_true by (by right).
    + rewrite bool_decide_false by done. rewrite bool_decide_false by (by intros [?|?]).
      unfold lift_exn. unfold loads. by destruct (parse _).
Qed.

End ClientLemmas.

(** ** Properties *)

Section Properties.
Context `{PyWorld W}.

(** What [get] does on every outcome of the exchange: a request that could
    not be sent and every status outside 2xx but 404 raise [SndvError] (401, an
    invalid token, included, where the docstring promises None); 404, an empty
    body and 204 give None; a body that is not JSON raises out of the client's
    own error type; a connection lost while waiting for the response
    raises the system's error; otherwise the result is the member [val]. *)
Theorem get_outcomes c key w :
  let '(w1, r) := transport (mkHttp "GET" (base_url c ++ "/get?key=" ++ key) (headers c) None None) w in
  get c key w = (w1,
    match r with
    | inl (NotSent why) => inl (SndvError 0 ("Connection Failed: " ++ why))
    | inl (Dropped why) => inl (OSError why)
    | inr resp =>
      if (200 <=? status_code resp) && (status_code resp <? 300) then
        if bool_decide (status_code resp = 204 \/ r_body resp = ""%string) then inr VNone
        else match loads (r_body resp) with inl e => inl e | inr v => get_val v end
      else if status_code resp =? 404 then inr VNone
      else inl (SndvError (status_code resp) (reason resp))
    end).
Proof.
  unfold get. pose proof (request_spec c "GET" ("/get?key=" ++ key) None w) as Hr. cbn [fmap option_fmap option_map] in Hr.
  unfold bind. rewrite Hr. clear Hr.
  destruct (transport _ w) as [w1 [[why|why]|resp]]; [done..|].
  destruct ((200 <=? status_code resp) && (status_code resp <? 300)); [|by destruct (status_code resp =? 404)].
  case_bool_decide; [done|]. unfold lift_exn, loads, get_val.
  destruct (parse (r_body resp)) as [j|]; [|done]. destruct (truthy _); [|done]. by destruct (json_py j).
Qed.

(** What [put] does on every outcome of the exchange: nothing for an empty
    2xx reply, which is what the server sends; [SndvError] for a request that
    could not be sent or a status outside 2xx; the system's error for a
    connection lost afterwards; at worst a JSON error for a non-empty reply. *)
Theorem put_outcomes c key value ttl w :
  let '(w1, r) := transport (mkHttp "POST" (base_url c ++ "/put") (headers c)
      (Some (dumps (PDict [("key", PStr key); ("value", PStr value); ("ttl", PNum ttl)]%string))) None) w in
  exists out, put c key value ttl w = (w1, out) /\
    match r with
    | inl (NotSent why) => out = inl (SndvError 0 ("Connection Failed: " ++ why))
    | inl (Dropped why) => out = inl (OSError why)
    | inr resp =>
      if (200 <=? status_code resp) && (status_code resp <? 300)
      then (r_body resp = ""%string -> out = inr tt) /\ (out = inr tt \/ out = inl JSONDecodeError)
      else out = inl (SndvError (status_code resp) (reason resp))
    end.
Proof.
  unfold put, bind. rewrite request_spec. cbn [fmap option_fmap option_map].
  destruct (transport _ w) as [w1 [[why|why]|resp]]; [by eexists..|].
  destruct ((200 <=? status_code resp) && (status_code resp <? 300)); [|by eexists].
  case_bool_decide as Hb; [by eexists; split; [|split; [|left]]|].
  unfold loads. destruct (parse (r_body resp)) as [j|]; eexists; (split; [done|]); split.
  - done.
  - by left.
  - intros He. destruct Hb. by right.
  - by right.
Qed.

End Properties.
