(* ===== verification/EndToEnd.v ===== *)
(** The Python client and the server together. What lies between them (urllib,
    the network, fasthttp) is an interface, [HttpLink], whose laws say what the
    two rely on. Against it, a session of the client behaves as a map of
    strings, as long as the values need no escaping; a value with quotes can
    change what the client reads. *)
From S2P Require Import Prelude Codec Text Domain Hashing Configuration WriteAheadLog SortedStringTable SystemState Ingestion PyFloat Python Json GoJson HttpApi SndvClient.
From S2P Require MemoryTable LruCache.

Open Scope Z_scope.

(** ** Definitions *)

(** The first header of a name. *)
Definition header (name : string) (hs : list (string * string)) : string :=
  default ""%string (snd <$> List.find (fun h => bool_decide (h.1 = name)) hs).

(** A path as the client writes it. *)
Definition path_char (c : ascii) : bool := plain_char c || bool_decide (c = "/"%char).
Definition is_path (s : string) : Prop := Forall (fun c => path_char c = true) (list_ascii_of_string s).

(** [server w] is the server's state, [environment w] the clocks and the
    scheduler its next request meets, [context] the request fasthttp hands to
    the handler for what urllib sends, [respond] the response it sends for the
    handler's calls, [address] the URL the server listens at, [running w] that
    it does and its clock has not been set back to a time it already used. *)
Class HttpLink (W B : Type) `{PyWorld W} `{BloomFilter B}
    (decrypt : string -> string -> bool) (error_text : go_error -> string) (numShards : Z) := {
  server : W -> machine B;
  environment : W -> env;
  context : http_request -> ctx_request;
  respond : list ctx_call -> http_response;
  address : string;
  running : W -> Prop;
  link_fresh : forall w, running w -> rotation_fresh (e_now_rot (environment w)) (server w);
  link_transport : forall req w m out, running w ->
    handleRequest decrypt error_text numShards (environment w) (context req) (server w) = (m, Ok out) ->
    exists w', transport req w = (w', inr (respond out)) /\ server w' = m /\ running w';
  link_request : forall meth url hs body t,
    let ctx := context (mkHttp meth url hs body t) in
    Method ctx = meth /\ PostBody ctx = default ""%string body /\ Authorization ctx = header "Authorization" hs;
  link_path : forall meth path hs body t, is_path path ->
    Path (context (mkHttp meth (address ++ path) hs body t)) = path;
  link_query : forall meth path key hs body t, is_path path -> plain key ->
    let ctx := context (mkHttp meth (address ++ path ++ "?key=" ++ key) hs body t) in
    Path ctx = path /\ QueryKey ctx = key;
  link_status : forall code, status_code (respond [SetStatusCode code]) = code /\
    r_body (respond [SetStatusCode code]) = ""%string;
  link_error : forall msg code, status_code (respond [CtxError msg code]) = code;
  link_write : forall ty s, status_code (respond [SetContentType ty; CtxWrite s]) = 200 /\
    r_body (respond [SetContentType ty; CtxWrite s]) = s;
}.

(** A session of the client: writes that never expire, reads and deletes. *)
Inductive client_op :=
| OpPut (key value : string)
| OpGet (key : string)
| OpDelete (key : string).

Section Session.
Context `{PyWorld W}.
Local Open Scope py_scope.

Definition run_op (c : SndvClient) (op : client_op) : M W pyval :=
  match op with
  | OpPut key value => put c key value 0 ;;; ret VNone
  | OpGet key => get c key
  | OpDelete key => delete c key ;;; ret VNone
  end.

Definition run_ops (c : SndvClient) (ops : list client_op) : M W (list pyval) := comprehension ops (run_op c).

End Session.

(** *** Specification: a map *)

Definition map_op (op : client_op) (kv : gmap string string) : gmap string string * pyval :=
  match op with
  | OpPut key value => (<[key := value]> kv, VNone)
  | OpGet key => (kv, match kv !! key with Some v => VStr v | None => VNone end)
  | OpDelete key => (base.delete key kv, VNone)
  end.

Fixpoint map_ops (ops : list client_op) (kv : gmap string string) : gmap string string * list pyval :=
  match ops with
  | [] => (kv, [])
  | op :: ops' => let '(kv, r) := map_op op kv in let '(kv, rs) := map_ops ops' kv in (kv, r :: rs)
  end.

(** Characters a JSON string holds as they are. *)
Definition verbatim_char (c : ascii) : bool :=
  let n := N_of_ascii c in ((32 <=? n) && (n <? 127) && negb (n =? 34) && negb (n =? 92))%N.
Definition verbatim (s : string) : Prop := Forall (fun c => verbatim_char c = true) (list_ascii_of_string s).

Definition key_ok (key : string) : Prop := plain key /\ key <> ""%string /\ slen key < 2 ^ 32.
Definition value_ok (value : string) : Prop := verbatim value /\ slen value < 2 ^ 32.
Definition op_ok (op : client_op) : Prop :=
  match op with
  | OpPut key value => key_ok key /\ value_ok value
  | OpGet key | OpDelete key => key_ok key
  end.

(** The newest entry of a key the map has is its value, for ever; of one it has
    not, there is none or a tombstone. *)
Definition holds (o : option Entry) (v : option string) : Prop :=
  match o with
  | Some e => if IsDeleted e then v = None else ExpiryTimestamp e = 0 /\ v = Some (of_bytes (Value e))
  | None => v = None
  end.

(** ** Lemmas *)

Lemma verbatim_ascii s : verbatim s -> ascii_string s.
Proof.
  intros Hs. eapply Forall_impl; [exact Hs|]. intros c. unfold verbatim_char, ascii_char.
  rewrite !andb_true_iff, N.ltb_lt. lia.
Qed.

Lemma escape_verbatim s : verbatim s -> escape s = s.
Proof.
  induction s as [|c s IH]; [done|]. intros [Hc Hs]%Forall_cons. cbn [escape]. rewrite IH by done.
  destruct c as [[] [] [] [] [] [] [] []]; first [discriminate Hc|reflexivity].
Qed.

Lemma verbatim_parse s t : verbatim s -> parse_chars (s ++ String quote t) = Some (s, t).
Proof. intros Hs. pose proof (escape_parse s t (verbatim_ascii s Hs)) as He. by rewrite escape_verbatim in He. Qed.

Lemma plain_verbatim s : plain s -> verbatim s.
Proof.
  intros Hs. eapply Forall_impl; [exact Hs|]. intros c Hc.
  destruct c as [[] [] [] [] [] [] [] []]; first [discriminate Hc|reflexivity].
Qed.

(** *** JSON objects of raw strings, as [writeJSON] prints them *)

Definition raw_string (s t : string) : string := String quote (s ++ String quote t).

Fixpoint raw_members (d : list (string * string)) : string :=
  match d with
  | [] => "}"%string
  | (k, v) :: d' =>
    raw_string k (String ":" (raw_string v match d' with [] => "}"%string | _ => String "," (raw_members d') end))
  end.

Definition raw_json (d : list (string * string)) : json := JObj ((fun '(k, v) => (k, JStr v)) <$> d).

Lemma parse_value_quote fuel u : parse_value (S fuel) (String quote u) = ('(r, t) ← parse_chars u; Some (JStr r, t)).
Proof. reflexivity. Qed.

Lemma parse_members_quote fuel u : parse_members (S fuel) (String quote u) =
  ('(k, t) ← parse_chars u;
   match skip_ws t with
   | String ":" t' =>
     '(v, t'') ← parse_value fuel t';
     match skip_ws t'' with
     | String "," t3 => '(l, t4) ← parse_members fuel t3; Some ((k, v) :: l, t4)
     | String "}" t3 => Some ([(k, v)], t3)
     | _ => None
     end
   | _ => None
   end).
Proof. reflexivity. Qed.

Lemma parse_raw_string fuel s t : verbatim s -> parse_value (S fuel) (raw_string s t) = Some (JStr s, t).
Proof. intros Hs. unfold raw_string. by rewrite parse_value_quote, verbatim_parse. Qed.

Lemma parse_raw_members d : Forall (fun kv => verbatim kv.1 /\ verbatim kv.2) d -> d <> [] ->
  forall fuel, (length d < fuel)%nat ->
  parse_members fuel (raw_members d) = Some ((fun '(k, v) => (k, JStr v)) <$> d, ""%string).
Proof.
  induction 1 as [|[k v] d [Hk Hv] Hd IH]; intros Hne fuel Hf; [done|]. cbn [fst snd] in Hk, Hv. cbn [length] in Hf.
  destruct fuel as [|[|fuel]]; [lia..|]. cbn [raw_members]. unfold raw_string at 1.
  rewrite parse_members_quote, verbatim_parse by done. cbn [mbind option_bind].
  rewrite (skip_ws_nonspace ":") by done. rewrite parse_raw_string by done. cbn [mbind option_bind].
  destruct d as [|kv d]; [done|]. rewrite (skip_ws_nonspace ",") by done. by rewrite IH by (done || lia).
Qed.

Lemma length_raw_members d : (length d <= String.length (raw_members d))%nat.
Proof.
  induction d as [|[k v] d IH]; [simpl; lia|]. cbn [raw_members length]. unfold raw_string.
  cbn [String.length]. rewrite length_string_app. cbn [String.length]. rewrite length_string_app. cbn [String.length].
  destruct d; [simpl; lia|]. cbn [String.length]. lia.
Qed.

Lemma parse_raw_object d : Forall (fun kv => verbatim kv.1 /\ verbatim kv.2) d -> d <> [] ->
  parse (String "{" (raw_members d)) = Some (raw_json d).
Proof.
  intros Hd Hne. unfold parse. pose proof (length_raw_members d) as Hlen.
  set (n := (2 * _ + 2)%nat). assert (exists f, n = S f /\ (length d < f)%nat) as (f & -> & Hf).
  { exists (n - 1)%nat. unfold n. cbn [String.length]. lia. }
  assert (forall u, parse_value (S f) (String "{" (String quote u))
    = ('(l, t) ← parse_members f (String quote u); Some (JObj l, t))) as He by reflexivity.
  assert (exists u, raw_members d = String quote u) as [u Hu] by (destruct d as [|[k v] d]; [done|by eexists]).
  rewrite Hu, He, <- Hu, parse_raw_members by done. reflexivity.
Qed.

Definition reply (key value : string) : string := String "{" (raw_members [("key", key); ("val", value)]%string).

Lemma writeJSON_reply key val :
  writeJSON key val = [SetContentType "application/json"; CtxWrite (reply key (of_bytes val))].
Proof. reflexivity. Qed.

Lemma get_reply key value : verbatim key -> verbatim value -> 
  loads (reply key value) = inr (VDict [("key", VStr key); ("val", VStr value)]%string).
Proof.
  intros Hk Hv. unfold loads, reply. rewrite parse_raw_object; [reflexivity| |done].
  by repeat constructor.
Qed.

(** What a value with quotes has to look like to add a member to the reply. *)
Definition inject : string :=
  String quote (String "," (String quote ("val" ++ String quote (String ":" (String quote ""))))).

Lemma reply_inject key a b :
  reply key (a ++ inject ++ b) = String "{" (raw_members [("key", key); ("val", a); ("val", b)]%string).
Proof. unfold reply. cbn [raw_members]. unfold raw_string. by rewrite !string_app_assoc. Qed.

Lemma get_reply_inject key a b : verbatim key -> verbatim a -> verbatim b ->
  loads (reply key (a ++ inject ++ b)) = inr (VDict [("key", VStr key); ("val", VStr b)]%string).
Proof.
  intros Hk Ha Hb. unfold loads. rewrite reply_inject, parse_raw_object; [reflexivity| |done].
  by repeat constructor.
Qed.

Section Link.
Context `{HttpLink W B decrypt error_text numShards} `{!BloomFilterLaws B}.
Context (url tok : string) (Hurl : rstrip "/" url = address).
Implicit Types (w : W).

Abbreviation client := (new_client url tok).

(** The token opens the server. *)
Definition authorised w : Prop :=
  forall ctx, Authorization ctx = tok -> checkAuth decrypt ctx (server w) = true.

(** The server is up, consistent, and holds the map [kv]. *)
Definition represents w (kv : gmap string string) : Prop :=
  running w /\ authorised w /\ exists contents, server_ok (server w) contents /\
  forall k, exists o, lookup_entry k (server w) = Ok o /\ holds o (kv !! k).

(** *** Exchanges, whoever the client is *)

(** The token goes with the request. *)
Definition bears (hs : list (string * string)) : Prop := header "Authorization" hs = tok.

Lemma exchange w req contents m out :
  running w -> authorised w -> server_ok (server w) contents ->
  handleRequest decrypt error_text numShards (environment w) (context req) (server w) = (m, Ok out) ->
  Configuration (bb m) = Configuration (bb (server w)) ->
  exists w', transport req w = (w', inr (respond out)) /\ server w' = m /\ running w' /\ authorised w'.
Proof.
  intros Hrun Hauth Hs Hh Hcfg. destruct (link_transport _ _ _ _ Hrun Hh) as (w' & Ht & Hw & Hrun').
  exists w'. split_and!; try done.
  intros ctx Hc. rewrite Hw, (checkAuth_config decrypt ctx _ _ Hcfg). by apply Hauth.
Qed.

Lemma put_path : is_path "/put". Proof. by repeat constructor. Qed.
Lemma get_path : is_path "/get". Proof. by repeat constructor. Qed.
Lemma delete_path : is_path "/delete". Proof. by repeat constructor. Qed.

(** A PUT of a text that decodes, with a value of any characters. *)
Lemma http_put w kv hs body t key value : represents w kv -> bears hs ->
  Unmarshal decode_put body = Some (mkPut key value 0) -> slen key < 2 ^ 32 -> slen value < 2 ^ 32 ->
  exists w', transport (mkHttp "POST" (address ++ "/put") hs (Some body) t) w = (w', inr (respond [SetStatusCode 201]))
    /\ represents w' (<[key := value]> kv).
Proof.
  intros (Hrun & Hauth & contents & Hs & Hkv) Hb Hbody Hlk Hlv.
  set (req := mkHttp "POST" (address ++ "/put") hs (Some body) t). set (ctx := context req).
  destruct (link_request "POST" (address ++ "/put") hs (Some body) t) as (Hm & Hpb & Ha). fold req ctx in Hm, Hpb, Ha.
  cbn in Hpb. rewrite Hb in Ha.
  pose proof (handlePut_decoded decrypt error_text numShards (environment w) ctx (server w) contents key value 0 Hs
    (link_fresh w Hrun) (Hauth ctx Ha) Hm (link_path _ _ _ _ _ put_path) ltac:(by rewrite Hpb) Hlk Hlv) as Hput.
  destruct (handleRequest _ _ _ _ ctx _) as [m out] eqn:Hh. destruct Hput as (-> & Hs' & Hcfg & _ & He & Hl).
  destruct (exchange w req contents m _ Hrun Hauth Hs Hh Hcfg) as (w' & Ht & Hw & Hrun' & Hauth').
  exists w'. split; [done|]. split_and!; [done|done|]. exists contents. rewrite Hw. split; [done|]. intros k.
  destruct (decide (k = key)) as [->|Hkk].
  - eexists. split; [exact He|]. rewrite lookup_insert_eq. split; [done|]. cbn [Value]. by rewrite of_to_bytes.
  - rewrite Hl by done. rewrite lookup_insert_ne by done. apply Hkv.
Qed.

Lemma http_delete w kv hs t key : represents w kv -> bears hs -> key_ok key ->
  exists w', transport (mkHttp "POST" (address ++ "/delete" ++ "?key=" ++ key) hs None t) w
      = (w', inr (respond [SetStatusCode 200]))
    /\ represents w' (base.delete key kv).
Proof.
  intros (Hrun & Hauth & contents & Hs & Hkv) Hb (Hk & Hne & Hlk).
  set (req := mkHttp "POST" _ hs None t). set (ctx := context req).
  destruct (link_request "POST" (address ++ "/delete" ++ "?key=" ++ key) hs None t) as (Hm & _ & Ha).
  fold req ctx in Hm, Ha. rewrite Hb in Ha.
  destruct (link_query "POST" "/delete" key hs None t delete_path Hk) as [Hp Hq]. fold req ctx in Hp, Hq.
  pose proof (handleDelete_spec decrypt error_text numShards (environment w) ctx (server w) contents Hs
    (link_fresh w Hrun) (Hauth ctx Ha) ltac:(rewrite Hm; right; left) Hp) as Hdel.
  rewrite Hq in Hdel. specialize (Hdel Hne Hlk).
  destruct (handleRequest _ _ _ _ ctx _) as [m out] eqn:Hh. destruct Hdel as (-> & Hs' & Hcfg & _ & He & Hl).
  destruct (exchange w req contents m _ Hrun Hauth Hs Hh Hcfg) as (w' & Ht & Hw & Hrun' & Hauth').
  exists w'. split; [done|]. split_and!; [done|done|]. exists contents. rewrite Hw. split; [done|]. intros k.
  destruct (decide (k = key)) as [->|Hkk].
  - eexists. split; [exact He|]. by rewrite lookup_delete_eq.
  - rewrite Hl by done. rewrite lookup_delete_ne by done. apply Hkv.
Qed.

Lemma http_get w kv hs t key : represents w kv -> bears hs -> key_ok key ->
  exists w', transport (mkHttp "GET" (address ++ "/get" ++ "?key=" ++ key) hs None t) w
      = (w', inr (respond match kv !! key with
                          | Some v => [SetContentType "application/json"; CtxWrite (reply key v)]
                          | None => [CtxError "Not Found" 404]
                          end))
    /\ represents w' kv.
Proof.
  intros (Hrun & Hauth & contents & Hs & Hkv) Hb (Hk & Hne & Hlk).
  set (req := mkHttp "GET" _ hs None t). set (ctx := context req).
  destruct (link_request "GET" (address ++ "/get" ++ "?key=" ++ key) hs None t) as (Hm & _ & Ha).
  fold req ctx in Hm, Ha. rewrite Hb in Ha.
  destruct (link_query "GET" "/get" key hs None t get_path Hk) as [Hp Hq]. fold req ctx in Hp, Hq.
  pose proof (handleGet_spec decrypt error_text numShards (environment w) ctx (server w) contents Hs Hm Hp) as Hget.
  rewrite Hq in Hget. specialize (Hget Hne (Hauth ctx Ha)).
  destruct (handleRequest _ _ _ _ ctx _) as [m out] eqn:Hh. destruct Hget as (Hs' & Hl & Hcfg & o & Ho & ->).
  destruct (exchange w req contents m _ Hrun Hauth Hs Hh Hcfg) as (w' & Ht & Hw & Hrun' & Hauth').
  exists w'. split.
  2: { split_and!; [done|done|]. exists contents. rewrite Hw. split; [done|]. intros k. rewrite Hl. apply Hkv. }
  rewrite Ht. do 4 f_equal.
  destruct (Hkv key) as (o' & Ho' & Hh'). rewrite Ho in Ho'. apply (inj Ok) in Ho' as <-.
  destruct (cached key (server w)) as [v|] eqn:Hc.
  - destruct Hs as (_ & _ & Hco). unfold cached, cache_ok in *. destruct (KeyCache (bb (server w))) as [c|]; [|done].
    destruct Hco as [_ Hco]. cbn in Hc. destruct (Hco key v Hc) as (en & Hen & Hd & <-).
    rewrite Ho in Hen. apply (inj Ok) in Hen as ->. cbn in Hh'. rewrite Hd in Hh'. destruct Hh' as [_ ->]. apply writeJSON_reply.
  - destruct o as [en|]; cbn in Hh' |- *; [|by rewrite Hh']. destruct (IsDeleted en); [by rewrite Hh'|].
    destruct Hh' as [-> ->]. apply writeJSON_reply.
Qed.

(** *** The Python client *)

Lemma client_bears : bears (headers client). Proof. done. Qed.

(** [put] with any ASCII value. *)
Lemma client_put w kv key value : represents w kv -> key_ok key -> ascii_string value -> slen value < 2 ^ 32 ->
  exists w', put client key value 0 w = (w', inr tt) /\ represents w' (<[key := value]> kv).
Proof.
  intros Hrep (Hk & Hne & Hlk) Hv Hlv.
  destruct (http_put w kv (headers client) (dumps (put_payload key value 0)) None key value Hrep client_bears)
    as (w' & Ht & Hrep'); [|done..|].
  { apply Unmarshal_put; [by apply plain_ascii|done|unfold is_i64; lia]. }
  exists w'. split; [|done].
  assert (put client key value 0 w = bind (_request client "POST" "/put" (Some (put_payload key value 0))) (fun _ => ret tt) w)
    as -> by reflexivity.
  unfold bind. rewrite request_spec. assert (base_url client = address) as -> by done. cbn [fmap option_fmap option_map].
  rewrite Ht. destruct (link_status 201) as [-> ->]. done.
Qed.

Lemma client_delete w kv key : represents w kv -> key_ok key ->
  exists w', SndvClient.delete client key w = (w', inr tt) /\ represents w' (base.delete key kv).
Proof.
  intros Hrep Hk. destruct (http_delete w kv (headers client) None key Hrep client_bears Hk) as (w' & Ht & Hrep').
  exists w'. split; [|done]. unfold SndvClient.delete, bind. rewrite request_spec.
  change ("/delete?key=" ++ key)%string with ("/delete" ++ "?key=" ++ key)%string.
  assert (base_url client = address) as -> by done. cbn [fmap option_fmap option_map]. rewrite Ht.
  destruct (link_status 200) as [-> ->]. done.
Qed.

(** [get]: the client decodes the reply for the key's value, or gets 404. *)
Lemma client_get w kv key : represents w kv -> key_ok key ->
  exists w', represents w' kv /\
    get client key w = (w', match kv !! key with
                            | Some v => match loads (reply key v) with inl e => inl e | inr x => get_val x end
                            | None => inr VNone
                            end).
Proof.
  intros Hrep Hk. destruct (http_get w kv (headers client) None key Hrep client_bears Hk) as (w' & Ht & Hrep').
  exists w'. split; [done|]. unfold get, bind. rewrite request_spec.
  change ("/get?key=" ++ key)%string with ("/get" ++ "?key=" ++ key)%string.
  assert (base_url client = address) as -> by done. cbn [fmap option_fmap option_map]. rewrite Ht.
  destruct (kv !! key) as [v|]; cbn zeta.
  - destruct (link_write "application/json" (reply key v)) as [-> ->]. cbn.
    rewrite bool_decide_false by (by intros [?|?]). unfold lift_exn. unfold loads. destruct (parse _) as [j|]; [|done].
    unfold get_val. destruct (truthy _); [|done]. by destruct (json_py j).
  - by rewrite link_error.
Qed.

End Link.

(** The values of a session's map stay free of what JSON escapes. *)
Lemma map_op_verbatim op kv : op_ok op -> map_Forall (fun _ v => verbatim v) kv ->
  map_Forall (fun _ v => verbatim v) (map_op op kv).1.
Proof.
  intros Hop Hkv. destruct op as [key value|key|key]; cbn [map_op fst]; [|done|by apply map_Forall_delete].
  apply map_Forall_insert_2; [by apply Hop|done].
Qed.

(** ** Properties *)

Section Properties.
Context `{HttpLink W B decrypt error_text numShards} `{!BloomFilterLaws B}.

(** C1. The Python client and the server together are a map of strings, for
    plain keys and values. From a running, consistent server that holds a map and
    whose doors the client's token opens, and on which nothing else runs while
    the session lasts ([HttpLink]: an exchange is the handler's run), every
    session of puts that never expire, gets and deletes, of keys that need no
    quoting in a URL and values that need none in JSON ([op_ok]), succeeds,
    returns what the same operations on the map return (None for a key
    that is absent or deleted), and leaves a server that holds the resulting
    map. *)
Theorem Client_is_a_map (url tok : string) (w : W) kv ops : rstrip "/" url = address ->
  represents tok w kv -> map_Forall (fun _ v => verbatim v) kv -> Forall op_ok ops ->
  exists w', run_ops (new_client url tok) ops w = (w', inr (map_ops ops kv).2) /\
    represents tok w' (map_ops ops kv).1.
Proof.
  intros Hurl Hrep Hkv Hops. revert w kv Hrep Hkv.
  induction Hops as [|op ops Hop Hops IH]; intros w kv Hrep Hkv; [by exists w|].
  assert (exists w1, run_op (new_client url tok) op w = (w1, inr (map_op op kv).2) /\ represents tok w1 (map_op op kv).1)
    as (w1 & Hrun & Hrep1).
  { destruct op as [key value|key|key]; cbn [map_op run_op fst snd].
    - destruct Hop as [Hk [Hv Hl]].
      destruct (client_put url tok Hurl w kv key value Hrep Hk (verbatim_ascii _ Hv) Hl) as (w1 & Hp & Hr).
      exists w1. split; [|done]. unfold bind. by rewrite Hp.
    - destruct (client_get url tok Hurl w kv key Hrep Hop) as (w1 & Hr & Hg). exists w1. split; [|done].
      rewrite Hg. destruct (kv !! key) as [v|] eqn:E; [|done].
      by rewrite get_reply by (apply plain_verbatim, Hop || by eapply Hkv).
    - destruct (client_delete url tok Hurl w kv key Hrep Hop) as (w1 & Hd & Hr).
      exists w1. split; [|done]. unfold bind. by rewrite Hd. }
  destruct (IH w1 _ Hrep1 (map_op_verbatim op kv Hop Hkv)) as (w' & Hrun' & Hrep'). exists w'.
  unfold run_ops in *. cbn [comprehension map_ops]. unfold bind at 1. rewrite Hrun. unfold bind at 1. rewrite Hrun'.
  destruct (map_op op kv) as [kv1 r]. cbn [fst snd] in *. by destruct (map_ops ops kv1).
Qed.

(** C17. A stored value can forge the reply. The server prints values between
    quotes as they are: of a value that has [","val":"] in it, stored with a put
    that succeeds, the client reads back only what follows, as if it had been
    the value. *)
Theorem Value_forges_reply (url tok : string) (w : W) kv key a b : rstrip "/" url = address ->
  represents tok w kv -> key_ok key -> verbatim a -> verbatim b -> slen (a ++ inject ++ b) < 2 ^ 32 ->
  exists w1 w2, put (new_client url tok) key (a ++ inject ++ b) 0 w = (w1, inr tt) /\
    lookup_entry key (server w1) = Ok (Some (mkEntry key (to_bytes (a ++ inject ++ b)) 0 false)) /\
    get (new_client url tok) key w1 = (w2, inr (VStr b)).
Proof.
  intros Hurl Hrep Hk Ha Hb Hl.
  assert (ascii_string (a ++ inject ++ b)) as Hascii.
  { apply ascii_app; [by apply verbatim_ascii|]. apply ascii_app; [|by apply verbatim_ascii]. by apply ascii_check_ok. }
  destruct (client_put url tok Hurl w kv key _ Hrep Hk Hascii Hl) as (w1 & Hp & Hr).
  destruct (client_get url tok Hurl w1 _ key Hr Hk) as (w2 & _ & Hg). exists w1, w2. split_and!; [done| |].
  - destruct Hr as (_ & _ & contents & Hs & Hkv). destruct (Hkv key) as (o & Ho & Hh). rewrite lookup_insert_eq in Hh.
    destruct o as [en|]; [|done]. cbn in Hh. destruct (IsDeleted en) eqn:Ed; [done|]. destruct Hh as [Hx Hv].
    apply (inj Some) in Hv. rewrite Ho. do 2 f_equal. destruct Hs as [Hst _].
    pose proof (lookup_entry_key _ _ _ _ Hst Ho) as Hkey. destruct en as [k' v x d].
    cbn [Key Value ExpiryTimestamp IsDeleted] in *. subst. by rewrite Hv, to_of_bytes.
  - rewrite Hg, lookup_insert_eq, get_reply_inject by (done || by apply plain_verbatim, Hk). done.
Qed.

End Properties.
