(* ===== verification/TsClient.v ===== *)
(** The TypeScript client, clients/typescript/sndv.ts, and its sessions with the
    server: it reads what the server holds, and rejects every write the server
    acknowledged, because it parses the empty body of the answer as JSON. *)
From S2P Require Import Prelude Codec Text Domain Hashing Configuration WriteAheadLog SortedStringTable SystemState Ingestion PyFloat Python Json GoJson HttpApi SndvClient EndToEnd.
From S2P Require MemoryTable LruCache.

Open Scope Z_scope.

(** ** Definitions *)

(** What a promise is rejected with: an [Error] of the client with its message,
    or one the engine throws (whose messages are not the client's). *)
Inductive js_error :=
| JsError (message : string)
| JsSyntaxError
| JsTypeError.

(** A value of JSON, or [undefined]. *)
Definition js_value : Type := option json.

(** [JSON.stringify]: no spaces; escapes only what it has to. *)
Definition js_escape_char (c : ascii) : string :=
  let n := N_of_ascii c in
  if (n =? 34)%N then String backslash (String quote "")
  else if (n =? 92)%N then String backslash (String backslash "")
  else if (n =? 10)%N then String backslash "n"
  else if (n =? 13)%N then String backslash "r"
  else if (n =? 9)%N then String backslash "t"
  else if (n =? 12)%N then String backslash "f"
  else if (n =? 8)%N then String backslash "b"
  else if (n <? 32)%N then
    String backslash (String "u" (String "0" (String "0"
      (String (hex_char (n / 16)) (String (hex_char (n mod 16)) "")))))
  else String c "".

Fixpoint js_escape (s : string) : string :=
  match s with EmptyString => ""%string | String c s' => (js_escape_char c ++ js_escape s')%string end.

Definition js_quote (s : string) : string := String quote (js_escape s ++ String quote "").

Fixpoint JSON_stringify (p : payload) : string :=
  match p with
  | PStr s => js_quote s
  | PNum z => print_int z
  | PList l => (String "[" (concat_sep "," (map JSON_stringify l)) ++ "]")%string
  | PDict d =>
    (String "{" (concat_sep "," (map (fun '(k, v) => js_quote k ++ ":" ++ JSON_stringify v) d)) ++ "}")%string
  end.

(** [res.val]: of several members of that name, the last; nothing but an object
    has one, and null has no members at all. *)
Definition val_of (res : json) : js_error + js_value :=
  match res with
  | JNull => inl JsTypeError
  | JObj d => inr (snd <$> last (filter (fun kv => kv.1 = "val"%string) d))
  | _ => inr None
  end.

(** [s.replace(/\/$/, "")]. *)
Definition strip_slash (s : string) : string := TrimSuffix s "/".

Record TsClient := mkTs { baseUrl : string; ts_headers : list (string * string) }.

Definition new_ts_client (url token : string) : TsClient :=
  mkTs (strip_slash url) [("Content-Type", "application/json"); ("Authorization", token)]%string.

Section TsClient.
Context `{PyWorld W}.

(** A [fetch] that gets no answer, or loses it, rejects with a TypeError. *)
Definition request (c : TsClient) (meth endpoint : string) (body : option payload) (w : W)
    : W * (js_error + json) :=
  let url := (baseUrl c ++ endpoint)%string in
  match transport (mkHttp meth url (ts_headers c) (JSON_stringify <$> body) None) w with
  | (w, inl _) => (w, inl JsTypeError)
  | (w, inr res) =>
    (w, if negb ((200 <=? status_code res) && (status_code res <=? 299)) then
          if status_code res =? 404 then inl (JsError "Key not found")
          else inl (JsError ("SNDV Error [" ++ print_int (status_code res) ++ "]: " ++ reason res))
        else match parse (r_body res) with Some j => inr j | None => inl JsSyntaxError end)
  end.

(** [ttl] is an integer here; it is 0 where the caller leaves it out. *)
Definition ts_put (c : TsClient) (key value : string) (ttl : Z) (w : W) : W * (js_error + js_value) :=
  match request c "POST" "/put" (Some (PDict [("key", PStr key); ("value", PStr value); ("ttl", PNum ttl)]%string)) w with
  | (w, inl e) => (w, inl e)
  | (w, inr _) => (w, inr None)
  end.

Definition ts_get (c : TsClient) (key : string) (w : W) : W * (js_error + js_value) :=
  let '(w, r) := request c "GET" ("/get?key=" ++ key) None w in
  (w, match (match r with inl e => inl e | inr res => val_of res end) with
      | inl (JsError message) => if decide (message = "Key not found"%string) then inr (Some JNull) else inl (JsError message)
      | r => r
      end).

Definition ts_delete (c : TsClient) (key : string) (w : W) : W * (js_error + js_value) :=
  match request c "POST" ("/delete?key=" ++ key) None w with
  | (w, inl e) => (w, inl e)
  | (w, inr _) => (w, inr None)
  end.

Definition ts_metrics (c : TsClient) (w : W) : W * (js_error + json) := request c "GET" "/metrics" None w.

(** A session that goes on after a rejection. *)
Definition ts_op (c : TsClient) (op : client_op) : W -> W * (js_error + js_value) :=
  match op with
  | OpPut key value => ts_put c key value 0
  | OpGet key => ts_get c key
  | OpDelete key => ts_delete c key
  end.

Fixpoint ts_ops (c : TsClient) (ops : list client_op) (w : W) : W * list (js_error + js_value) :=
  match ops with
  | [] => (w, [])
  | op :: ops' => let '(w, r) := ts_op c op w in let '(w, rs) := ts_ops c ops' w in (w, r :: rs)
  end.

End TsClient.

(** *** Specification: what the client says about an operation on a map *)

Definition ts_result (op : client_op) (kv : gmap string string) : js_error + js_value :=
  match op with
  | OpGet key => inr (Some match kv !! key with Some v => JStr v | None => JNull end)
  | _ => inl JsSyntaxError
  end.

Fixpoint ts_results (ops : list client_op) (kv : gmap string string) : list (js_error + js_value) :=
  match ops with [] => [] | op :: ops' => ts_result op kv :: ts_results ops' (map_op op kv).1 end.

(** ** Lemmas *)

Lemma js_escape_char_parse c r :
  parse_chars (js_escape_char c ++ r) = ('(x, t) ← parse_chars r; Some (String c x, t)).
Proof. destruct c as [[] [] [] [] [] [] [] []]; reflexivity. Qed.

Lemma js_escape_parse s t : parse_chars (js_escape s ++ String quote t) = Some (s, t).
Proof.
  induction s as [|c s IH]; [reflexivity|]. cbn [js_escape].
  by rewrite string_app_assoc, js_escape_char_parse, IH.
Qed.

Lemma js_quote_app s t : (js_quote s ++ t)%string = String quote (js_escape s ++ String quote t).
Proof.
  unfold js_quote. change ((String quote ?x ++ t)%string) with (String quote (x ++ t)).
  by rewrite string_app_assoc.
Qed.

Lemma parse_js_quote fuel s t : parse_value (S fuel) (js_quote s ++ t) = Some (JStr s, t).
Proof. rewrite js_quote_app, parse_value_quote. by rewrite js_escape_parse. Qed.

(** A string member, another one after it. *)
Lemma parse_js_member fuel k s t :
  parse_members (S (S fuel)) (js_quote k ++ ":" ++ js_quote s ++ String "," t)
  = ('(l, t') ← parse_members (S fuel) t; Some ((k, JStr s) :: l, t')).
Proof.
  rewrite js_quote_app, parse_members_quote, js_escape_parse. cbn [mbind option_bind].
  change ((":" ++ ?x)%string) with (String ":" x). rewrite (skip_ws_nonspace ":") by done.
  rewrite parse_js_quote. cbn [mbind option_bind]. by rewrite (skip_ws_nonspace ",") by done.
Qed.

Lemma parse_value_print_int fuel z t : is_i64 z -> num_end t ->
  parse_value (S fuel) (print_int z ++ t) = Some (JNum (PInt z), t).
Proof.
  intros Hz Ht. pose proof (parse_print_int z t Hz Ht) as Hp.
  destruct (print_int_head z) as (c & s & Hs & Hc). destruct (digit_value_facts c Hc) as (Hsp & _ & Hm).
  rewrite Hs in *. change ((String c s ++ t)%string) with (String c (s ++ t)) in *.
  cbn [parse_value]. rewrite skip_ws_nonspace by done. rewrite Hm, Hp. done.
Qed.

Lemma parse_js_last_int fuel k z : is_i64 z ->
  parse_members (S (S fuel)) (js_quote k ++ ":" ++ print_int z ++ "}") = Some ([(k, JNum (PInt z))], ""%string).
Proof.
  intros Hz. rewrite js_quote_app, parse_members_quote, js_escape_parse. cbn [mbind option_bind].
  change ((":" ++ ?x)%string) with (String ":" x). rewrite (skip_ws_nonspace ":") by done.
  rewrite parse_value_print_int by (done || by right; right). reflexivity.
Qed.

(** What the server reads of the text the client sends. *)
Lemma js_escape_ascii s : ascii_string s -> ascii_string (js_escape s).
Proof.
  unfold ascii_string at 1. induction s as [|c s IH]; [by constructor|]. intros [Hc Hs]%Forall_cons. cbn [js_escape].
  apply ascii_app; [|by apply IH]. destruct c as [b0 b1 b2 b3 b4 b5 b6 b7].
  destruct b7; [destruct b0, b1, b2, b3, b4, b5, b6; done|].
  apply ascii_check_ok. destruct b0, b1, b2, b3, b4, b5, b6; reflexivity.
Qed.

Lemma js_quote_ascii s : ascii_string s -> ascii_string (js_quote s).
Proof. intros Hs. constructor; [done|]. apply ascii_app; [by apply js_escape_ascii|by apply ascii_check_ok]. Qed.

Lemma stringify_put_ascii key value ttl : ascii_string key -> ascii_string value ->
  ascii_string (JSON_stringify (put_payload key value ttl)).
Proof.
  intros Hk Hv. cbn -[js_quote print_int]. constructor; [done|].
  repeat first [apply ascii_app | apply js_quote_ascii | by apply ascii_check_ok | apply plain_ascii, print_int_plain | done].
Qed.

Lemma Unmarshal_stringify key value ttl : ascii_string key -> ascii_string value -> is_i64 ttl ->
  Unmarshal decode_put (JSON_stringify (put_payload key value ttl)) = Some (mkPut key value ttl).
Proof.
  intros Hk Hv Ht. unfold Unmarshal. rewrite to_valid_ascii by (by apply stringify_put_ascii).
  assert (parse (JSON_stringify (put_payload key value ttl)) = Some (payload_json (put_payload key value ttl))) as ->;
    [|cbn [mbind option_bind]; rewrite scanned_put; cbn [mbind option_bind]; by rewrite decode_put_payload, !join_surrogates_ascii].
  assert (JSON_stringify (put_payload key value ttl) =
    String "{" (js_quote "key" ++ ":" ++ js_quote key ++ String ","
      (js_quote "value" ++ ":" ++ js_quote value ++ String "," (js_quote "ttl" ++ ":" ++ print_int ttl ++ "}")))) as Htext.
  { cbn -[js_quote print_int]. rewrite !string_app_assoc.
    change ((String "{" ?x ++ ?y)%string) with (String "{" (x ++ y)). by rewrite !string_app_assoc. }
  unfold parse. set (n := (2 * _ + 2)%nat).
  assert (exists f, n = S (S (S (S (S f))))) as [f ->].
  { exists (n - 5)%nat. unfold n. rewrite Htext. cbn [String.length]. rewrite length_string_app.
    change (String.length (js_quote "key")) with 5%nat. lia. }
  rewrite Htext.
  assert (forall u, parse_value (S (S (S (S (S f))))) (String "{" (String quote u))
    = ('(l, t) ← parse_members (S (S (S (S f)))) (String quote u); Some (JObj l, t))) as He by reflexivity.
  rewrite (js_quote_app "key"), He, <- js_quote_app, !parse_js_member, parse_js_last_int by done. reflexivity.
Qed.

Lemma parse_reply key value : verbatim key -> verbatim value ->
  parse (reply key value) = Some (raw_json [("key", key); ("val", value)]%string).
Proof. intros Hk Hv. unfold reply. apply parse_raw_object; [by repeat constructor|done]. Qed.

Section Link.
Context `{HttpLink W B decrypt error_text numShards} `{!BloomFilterLaws B}.
Context (url tok : string) (Hurl : strip_slash url = address).
Implicit Types (w : W).

Abbreviation client := (new_ts_client url tok).

(** One operation: the server does it, the client says [ts_result]. *)
Lemma ts_op_result w kv op : represents tok w kv -> map_Forall (fun _ v => verbatim v) kv -> op_ok op ->
  exists w', ts_op client op w = (w', ts_result op kv) /\ represents tok w' (map_op op kv).1.
Proof.
  intros Hrep Hkv Hop.
  assert (baseUrl client = address) as Hb by done.
  assert (bears tok (ts_headers client)) as Hbears by done.
  destruct op as [key value|key|key]; cbn [ts_op ts_result map_op fst].
  - destruct Hop as [[Hk [Hne Hlk]] [Hv Hlv]].
    destruct (http_put tok w kv (ts_headers client) (JSON_stringify (put_payload key value 0)) None key value Hrep Hbears)
      as (w' & Ht & Hrep'); [apply Unmarshal_stringify; [by apply plain_ascii|by apply verbatim_ascii|done]|done..|].
    exists w'. split; [|done]. unfold ts_put, request. cbn [fmap option_fmap option_map]. rewrite Hb.
    fold (put_payload key value 0). rewrite Ht. destruct (link_status 201) as [-> ->]. reflexivity.
  - destruct (http_get tok w kv (ts_headers client) None key Hrep Hbears Hop) as (w' & Ht & Hrep').
    exists w'. split; [|done]. unfold ts_get, request. cbn [fmap option_fmap option_map]. rewrite Hb.
    change ("/get?key=" ++ key)%string with ("/get" ++ "?key=" ++ key)%string. rewrite Ht.
    destruct (kv !! key) as [v|] eqn:Ekv.
    + destruct (link_write "application/json" (reply key v)) as [-> ->]. cbn [Z.leb andb negb].
      rewrite parse_reply; [reflexivity|by apply plain_verbatim, Hop|by eapply Hkv].
    + rewrite link_error. reflexivity.
  - destruct (http_delete tok w kv (ts_headers client) None key Hrep Hbears Hop) as (w' & Ht & Hrep').
    exists w'. split; [|done]. unfold ts_delete, request. cbn [fmap option_fmap option_map]. rewrite Hb.
    change ("/delete?key=" ++ key)%string with ("/delete" ++ "?key=" ++ key)%string. rewrite Ht.
    destruct (link_status 200) as [-> ->]. reflexivity.
Qed.

End Link.

(** ** Properties *)

Section Properties.
Context `{HttpLink W B decrypt error_text numShards} `{!BloomFilterLaws B}.

(** C18. The TypeScript client rejects the writes it makes. Against a running,
    consistent server that holds a map and on which nothing else runs while the
    session lasts, every session of puts, gets and deletes of keys that need no
    quoting in a URL and values that need none in JSON ([op_ok]) does on the
    server what the operations do on the map; every get answers
    with the map's value or null, but every put and every delete is rejected
    with a SyntaxError although the server has done it: its answer has no body,
    and the client parses the body as JSON. *)
Theorem Ts_client_rejects_writes (url tok : string) (w : W) kv ops : strip_slash url = address ->
  represents tok w kv -> map_Forall (fun _ v => verbatim v) kv -> Forall op_ok ops ->
  exists w', ts_ops (new_ts_client url tok) ops w = (w', ts_results ops kv) /\
    represents tok w' (map_ops ops kv).1.
Proof.
  intros Hurl Hrep Hkv Hops. revert w kv Hrep Hkv.
  induction Hops as [|op ops Hop Hops IH]; intros w kv Hrep Hkv; [by exists w|].
  destruct (ts_op_result url tok Hurl w kv op Hrep Hkv Hop) as (w1 & Hrun & Hrep1).
  destruct (IH w1 _ Hrep1 (map_op_verbatim op kv Hop Hkv)) as (w' & Hrun' & Hrep').
  exists w'. cbn [ts_ops ts_results map_ops]. rewrite Hrun, Hrun'. split; [done|].
  destruct (map_op op kv) as [kv1 r]. cbn [fst] in *. by destruct (map_ops ops kv1).
Qed.

End Properties.
