(* ===== verification/ClientScenario.v ===== *)
(** A concrete link of the Python client to the server, without durability, and
    the theorems about the two together at concrete inputs. *)
From S2P Require Import Prelude Codec Text Domain Hashing Configuration Bloom WriteAheadLog SortedStringTable SystemState Ingestion PyFloat Python Json GoJson HttpApi Server SndvClient EndToEnd TsClient.
From S2P Require MemoryTable LruCache.

Open Scope Z_scope.
Local Open Scope string_scope.

(** ** Definitions *)

(** The defaults with durability off, one of the orchestrator's modes. *)
Definition fast_config : SystemConfiguration := {|
  DataDirectoryPath := "./data";
  WriteAheadLogFilePath := "./data/wal.log";
  LogDirectoryPath := "./logs";
  ServerPort := 8080;
  MaximumMemtableSizeInBytes := DefaultMaximumMemtableSizeInBytes;
  LevelZeroCompactionTriggerCount := 4;
  SSTableBlockSizeInBytes := 4096;
  BloomFilterFalsePositiveRate := DefaultBloomFilterFalsePositiveRate;
  CompactionIntervalInSeconds := 5;
  AuthenticationToken := "";
  AuthenticationSecret := "BENCHMARK_SECRET";
  EnableDiskDurability := false;
  MaximumCpuCount := 2;
  MaximumSystemMemoryInBytes := 0;
  EnablePprofProfiling := false;
  LogSeverityLevel := "INFO";
  KeyCacheCapacityCount := 40000;
|}.

Record joint := mkJoint { joint_server : machine SharedBloomFilter }.

Definition joint_env : env := mkEnv 5 7 [0%nat; 1%nat] (fun _ => 5) (fun _ => 7).
Definition joint_decrypt (token secret : string) : bool := false.
Definition joint_text (e : go_error) : string := "error".
Definition joint_address : string := "http://localhost:8080".

(** A URL below the address, up to its question mark and after it. *)
Fixpoint before_query (s : string) : string :=
  match s with
  | "" => ""
  | String c s' => if decide (c = "?"%char) then "" else String c (before_query s')
  end.
Fixpoint key_of_query (s : string) : string :=
  match s with
  | "" => ""
  | String c s' => if decide (c = "?"%char) then default "" (strip_prefix "key=" s') else key_of_query s'
  end.

Definition joint_context (req : http_request) : ctx_request :=
  let target := default "" (strip_prefix joint_address (h_url req)) in
  mkCtx (h_method req) (before_query target) (header "Authorization" (h_headers req))
    (default "" (h_body req)) (key_of_query target).

(** The calls fill a response that starts as 200 with no body. *)
Definition joint_call (r : http_response) (call : ctx_call) : http_response :=
  match call with
  | CtxError msg code => mkResponse code msg msg
  | SetStatusCode code => mkResponse code (reason r) (r_body r)
  | SetContentType _ => r
  | CtxWrite s => mkResponse (status_code r) (reason r) (r_body r ++ s)
  | CtxEncode _ => mkResponse (status_code r) (reason r) (r_body r ++ "{}")
  end.
Definition joint_respond (out : list ctx_call) : http_response := fold_left joint_call out (mkResponse 200 "OK" "").

(** A handler that panics or fails takes the connection with it. *)
Definition joint_transport (req : http_request) (w : joint) : joint * (failure + http_response) :=
  let '(m, out) := handleRequest joint_decrypt joint_text 2 joint_env (joint_context req) (joint_server w) in
  (mkJoint m, match out with Ok calls => inr (joint_respond calls) | _ => inl (Dropped "EOF") end).

#[export] Instance joint_world : PyWorld joint := {
  time_time w := (w, f_of_Z 0);
  perf_counter w := (w, f_of_Z 0);
  time_sleep _ w := w;
  isoformat w := (w, "2025-01-01T00:00:00");
  strftime _ w := (w, "20250101_000000");
  cwd _ := "/work";
  transport := joint_transport;
  exec _ _ w := (w, None);
  Popen _ w := (w, None);
  p_kill _ w := w;
  p_terminate _ w := w;
  p_wait _ _ w := (w, true);
  mkdir_exist_ok _ w := (w, true);
  write_file _ _ w := (w, true);
  read_text _ _ := None;
  rglob _ _ := [];
  getenv _ _ := None;
  print _ w := w;
  str_exn _ _ := "error";
}.

(** No durability, no files: nothing a rotation could collide with. *)
Definition volatile (m : machine SharedBloomFilter) : Prop :=
  EnableDiskDurability (Configuration (bb m)) = false /\ files (fs m) = ∅.

(** The server after a start. *)
Definition joint_start : joint :=
  mkJoint (mkMachine (NewSystemState fast_config (new_sized 640 3)) (mkFS ∅ (fun _ => true)) zero_metrics).

(** ** Lemmas *)

(** *** Without durability the files stay as they are *)

Section Volatile.
Context `{BloomFilter B}.
Implicit Types (m : machine B).

(** Two states of one configuration, without durability, over one disk. *)
Definition same_disk m m' : Prop :=
  EnableDiskDurability (Configuration (bb m)) = false ->
  EnableDiskDurability (Configuration (bb m')) = false /\ fs m' = fs m.

Lemma same_disk_refl m : same_disk m m. Proof. done. Qed.
Lemma same_disk_trans m1 m2 m3 : same_disk m1 m2 -> same_disk m2 m3 -> same_disk m1 m3.
Proof. intros H12 H23 Hd. destruct (H12 Hd) as [Hd2 <-]. by destruct (H23 Hd2) as [? <-]. Qed.

Lemma processBatch_same batch now now_rot m : same_disk m (processBatch batch now now_rot m).1.
Proof.
  intros Hd. split; [by rewrite processBatch_config|]. unfold processBatch. destruct batch as [|r batch]; [done|].
  set (b := r :: batch). clearbody b. unfold writeWalIfEnabled. rewrite Hd. cbn [fst fs]. unfold applyToMemTable.
  rewrite prepareEntries_map. destruct (apply_loop_spec now b (bb m)) as (c & Hloop & _). cbn [app].
  unfold rotateMemTable. cbn [with_bb bb]. rewrite Hloop. cbn [bb Configuration set_KeyCache set_MemTable]. rewrite Hd.
  by case_match.
Qed.

Lemma Submit_same key val ttl deleted now now_rot m :
  same_disk m (SubmitIngestionRequest key val ttl deleted now now_rot m).1.
Proof.
  unfold SubmitIngestionRequest, run_single. destruct (drainSingleQueue _ _) as [b q].
  pose proof (processBatch_same b now now_rot m) as Hb. by destruct (processBatch b now now_rot m).
Qed.

Lemma dispatch_same batches order now now_rot : forall m,
  same_disk m (dispatchAndAwaitBatches batches order now now_rot m).1.
Proof.
  induction order as [|id order IH]; intros m; [apply same_disk_refl|]. cbn [dispatchAndAwaitBatches].
  unfold run_batch. pose proof (processBatch_same (default [] (batches !! id)) (now id) (now_rot id) m) as Hb.
  destruct (processBatch _ _ _ m) as [m1 out]. specialize (IH m1).
  destruct (dispatchAndAwaitBatches batches order now now_rot m1) as [m2 err]. by eapply same_disk_trans.
Qed.

Lemma findAndServe_same now k m : same_disk m (findAndServe now k m).1.
Proof.
  unfold findAndServe, tryServeFromCache, tryServeFromMemory, tryServeFromDisk, processEntry.
  repeat case_match; simplify_eq/=; done.
Qed.

Lemma handleRequest_same decrypt error_text n e ctx m : same_disk m (handleRequest decrypt error_text n e ctx m).1.
Proof.
  unfold handleRequest, routePath, HandleSinglePutRequest, HandleGetRequest, HandleBatchPutRequest,
    HandleDeleteRequest, HandleMetricsRequest, SubmitBatchIngestion.
  repeat case_match; simplify_eq/=; try apply same_disk_refl;
    repeat match goal with E : _ m = (?m1, _) |- _ => apply (f_equal fst) in E; cbn in E; subst m1 end.
  all: first [apply Submit_same | apply findAndServe_same | apply dispatch_same | idtac].
Qed.

End Volatile.

(** *** URLs *)

Lemma before_query_path path s : is_path path -> before_query (path ++ s) = path ++ before_query s.
Proof.
  induction path as [|c path IH]; [done|]. intros [Hc Hp]%Forall_cons. change (String c path ++ s) with (String c (path ++ s)). cbn [before_query].
  rewrite decide_False by (by intros ->). rewrite IH by done. reflexivity.
Qed.

Lemma key_of_query_path path s : is_path path -> key_of_query (path ++ s) = key_of_query s.
Proof.
  induction path as [|c path IH]; [done|]. intros [Hc Hp]%Forall_cons. change (String c path ++ s) with (String c (path ++ s)). cbn [key_of_query].
  rewrite decide_False by (by intros ->). by apply IH.
Qed.

#[refine, export] Instance joint_link : HttpLink joint SharedBloomFilter joint_decrypt joint_text 2 := {
  server := joint_server;
  environment _ := joint_env;
  context := joint_context;
  respond := joint_respond;
  address := joint_address;
  running w := volatile (joint_server w);
}.
Proof.
  - intros w [_ Hf]. unfold rotation_fresh. by rewrite Hf.
  - intros req w m out [Hd Hf] Hh. exists (mkJoint m). split.
    + unfold transport. cbn [joint_world]. unfold joint_transport. by rewrite Hh.
    + split; [done|]. pose proof (handleRequest_same joint_decrypt joint_text 2 joint_env (joint_context req) (joint_server w)) as Hs.
      rewrite Hh in Hs. destruct (Hs Hd) as [Hd' Hf']. cbn [fst] in Hd', Hf'. split; [done|].
      cbn [joint_server]. by rewrite Hf'.
  - done.
  - intros meth path hs body t Hp.
    change (before_query (default "" (strip_prefix joint_address (joint_address ++ path))) = path).
    rewrite strip_prefix_app. cbn [default from_option id]. pose proof (before_query_path path "" Hp) as Hb.
    cbn [before_query] in Hb. by rewrite !string_app_nil_r in Hb.
  - intros meth path key hs body t Hp Hk.
    change (before_query (default "" (strip_prefix joint_address (joint_address ++ path ++ "?key=" ++ key))) = path /\
      key_of_query (default "" (strip_prefix joint_address (joint_address ++ path ++ "?key=" ++ key))) = key).
    rewrite strip_prefix_app. cbn [default from_option id]. rewrite before_query_path, key_of_query_path by done.
    split; [apply string_app_nil_r|done].
  - done.
  - done.
  - done.
Defined.

Lemma joint_start_represents : represents "" joint_start ∅.
Proof.
  split_and!; [done| |].
  - intros ctx Ha. unfold checkAuth. by rewrite Ha.
  - set (m := server joint_start). exists (replicate 4 []).
    assert (state_ok m (replicate 4 [])) as Hst.
    { split_and!; try done; try (cbn; lia).
      - apply MemoryTable.NewMemoryTable_ok.
      - intros k e. cbn. by rewrite Get_new_empty.
      - apply new_sized_ok.
      - repeat constructor.
      - intros w meta Hw. by inversion Hw.
      - intros w Hw. by inversion Hw. }
    split.
    + split_and!; [done|done|]. split; [apply LruCache.NewLruCache_ok|]. intros k v Hk. by inversion Hk.
    + intros k. exists None. split; [|done]. rewrite (lookup_entry_spec k m _ Hst), disk_spec_empty. unfold mem_spec. cbn.
      by rewrite Get_new_empty.
Qed.

(** ** Properties at concrete inputs *)

Definition session : list client_op :=
  [OpPut "k" "one"; OpGet "k"; OpPut "k" "two"; OpGet "k"; OpDelete "k"; OpGet "k"; OpGet "other"].

Lemma session_ok : Forall op_ok session.
Proof. repeat constructor; try done; unfold slen; simpl; lia. Qed.

Lemma Client_is_a_map_witness :
  exists w', run_ops (new_client "http://localhost:8080/" "") session joint_start
    = (w', inr [VNone; VStr "one"; VNone; VStr "two"; VNone; VNone; VNone]).
Proof.
  assert (rstrip "/" "http://localhost:8080/" = address (W := joint)) as Hurl by reflexivity.
  destruct (Client_is_a_map "http://localhost:8080/" "" joint_start ∅ session Hurl joint_start_represents
    (map_Forall_empty _) session_ok) as (w' & Hw & _).
  exists w'. exact Hw.
Defined.

Lemma Value_forges_reply_witness : exists w1 w2,
  put (new_client "http://localhost:8080" "") "k" ("safe" ++ inject ++ "forged") 0 joint_start = (w1, inr tt) /\
  get (new_client "http://localhost:8080" "") "k" w1 = (w2, inr (VStr "forged")).
Proof.
  assert (rstrip "/" "http://localhost:8080" = address (W := joint)) as Hurl by reflexivity.
  destruct (Value_forges_reply "http://localhost:8080" "" joint_start ∅ "k" "safe" "forged" Hurl
    joint_start_represents) as (w1 & w2 & Hp & _ & Hg).
  - split_and!; [by repeat constructor|done|done].
  - by repeat constructor.
  - by repeat constructor.
  - done.
  - by exists w1, w2.
Defined.

Lemma Ts_client_rejects_writes_witness :
  exists w', ts_ops (new_ts_client "http://localhost:8080/" "") session joint_start
    = (w', [inl JsSyntaxError; inr (Some (JStr "one")); inl JsSyntaxError; inr (Some (JStr "two"));
            inl JsSyntaxError; inr (Some JNull); inr (Some JNull)]).
Proof.
  assert (strip_slash "http://localhost:8080/" = address (W := joint)) as Hurl by reflexivity.
  destruct (Ts_client_rejects_writes "http://localhost:8080/" "" joint_start ∅ session Hurl joint_start_represents
    (map_Forall_empty _) session_ok) as (w' & Hw & _).
  exists w'. exact Hw.
Defined.
