(* ===== verification/ThreadPool.v ===== *)
(** [ThreadPoolExecutor(max_workers=n)] as the benchmarks use it: tasks
    submitted in order, at most [n] running, their atomic actions interleaved
    in any way, their results collected with [as_completed] in any order. *)
From S2P Require Import Prelude.
From stdpp Require Import relations.
Set Warnings "-register-all".

(** ** Definitions *)

Section Pool.
Context {W R : Type}.

(** A task between two atomic actions. *)
Inductive task := Done (r : R) | Step (f : W -> W * task).

Record pool := mkPool {
  queue : list (nat * task);
  running : list (nat * task);
  finished : list (nat * R);
  world : W;
}.

Definition submit (tasks : list task) (w : W) : pool :=
  mkPool (imap (fun i t => (i, t)) tasks) [] [] w.

Inductive pool_step (workers : nat) : pool -> pool -> Prop :=
| step_start i t q r f w : (length r < workers)%nat ->
    pool_step workers (mkPool ((i, t) :: q) r f w) (mkPool q (r ++ [(i, t)]) f w)
| step_act i g w w' t q r1 r2 f : g w = (w', t) ->
    pool_step workers (mkPool q (r1 ++ (i, Step g) :: r2) f w) (mkPool q (r1 ++ (i, t) :: r2) f w')
| step_finish i x q r1 r2 f w :
    pool_step workers (mkPool q (r1 ++ (i, Done x) :: r2) f w) (mkPool q (r1 ++ r2) (f ++ [(i, x)]) w).

Definition complete (p : pool) : Prop := queue p = [] /\ running p = [].

(** The same, executed: [k] picks one of the enabled actions. *)
Definition advance (j : nat) (p : pool) : option pool :=
  match running p !! j with
  | None => None
  | Some (i, Done x) =>
    Some (mkPool (queue p) (take j (running p) ++ drop (S j) (running p)) (finished p ++ [(i, x)]) (world p))
  | Some (i, Step g) =>
    let '(w, t) := g (world p) in
    Some (mkPool (queue p) (take j (running p) ++ (i, t) :: drop (S j) (running p)) (finished p) w)
  end.

Definition step_at (workers k : nat) (p : pool) : option pool :=
  let n := length (running p) in
  match queue p with
  | (i, t) :: q =>
    if decide (n < workers)%nat then
      if decide (k mod S n = n)%nat then Some (mkPool q (running p ++ [(i, t)]) (finished p) (world p))
      else advance (k mod S n)%nat p
    else advance (k mod n)%nat p
  | [] => advance (k mod n)%nat p
  end.

(** [pick] is the scheduler: its [t]-th choice. *)
Fixpoint run_pool (workers : nat) (pick : nat -> nat) (fuel t : nat) (p : pool) : pool :=
  match fuel with
  | O => p
  | S fuel =>
    match step_at workers (pick t) p with
    | None => p
    | Some p' => run_pool workers pick fuel (S t) p'
    end
  end.

(** A task of at most [n] actions. *)
Fixpoint bounded (n : nat) (t : task) : Prop :=
  match t with
  | Done _ => True
  | Step g => match n with O => False | S n => forall w, bounded n (snd (g w)) end
  end.

(** What every result of a task satisfies, whatever the world does. *)
Fixpoint yields (Q : R -> Prop) (t : task) : Prop :=
  match t with Done x => Q x | Step g => forall w, yields Q (snd (g w)) end.

End Pool.
Arguments task : clear implicits.
Arguments pool : clear implicits.

(** The choices of the scheduler and of [as_completed]. *)
Class Scheduler := {
  pick : nat -> nat;
  as_completed : forall {R}, list R -> list R;
  as_completed_perm : forall {R} (l : list R), as_completed l ≡ₚ l;
}.

(** ** Lemmas *)

Section PoolLemmas.
Context {W R : Type}.
Implicit Types (p : pool W R) (t : task W R).

Definition ids p : list nat := (queue p).*1 ++ (running p).*1 ++ (finished p).*1.

Definition pool_inv (workers : nat) (Q : nat -> R -> Prop) (all : list nat) p : Prop :=
  ids p ≡ₚ all /\ (length (running p) <= workers)%nat /\
  Forall (fun '(i, t) => yields (Q i) t) (queue p ++ running p) /\
  Forall (fun '(i, x) => Q i x) (finished p).

Lemma pool_step_inv workers Q all p p' : pool_step workers p p' ->
  pool_inv workers Q all p -> pool_inv workers Q all p'.
Proof.
  intros Hs (Hids & Hlen & Hy & Hf). unfold pool_inv, ids in *. destruct Hs; cbn in *.
  - split_and!; [| |  |done].
    + rewrite <- Hids, fmap_app, <- !app_assoc. cbn. by rewrite <- !Permutation_middle.
    + rewrite length_app. simpl. lia.
    + rewrite Forall_cons, !Forall_app in *. rewrite Forall_singleton. tauto.
  - split_and!; [| | |done].
    + rewrite <- Hids, !fmap_app. done.
    + rewrite !length_app in *. done.
    + rewrite !Forall_app, !Forall_cons in *. destruct Hy as (? & ? & Hy & ?). split_and!; try done.
      cbn in Hy. specialize (Hy w). by rewrite H in Hy.
  - split_and!.
    + rewrite <- Hids, !fmap_app. cbn. solve_Permutation.
    + rewrite !length_app in *. simpl in *. lia.
    + rewrite !Forall_app, !Forall_cons in *. tauto.
    + rewrite !Forall_app, !Forall_cons in *. cbn in Hy. rewrite Forall_nil. tauto.
Qed.

Lemma pool_reachable_inv workers Q all p p' : rtc (pool_step workers) p p' ->
  pool_inv workers Q all p -> pool_inv workers Q all p'.
Proof. induction 1; [done|]. intros Hp. apply IHrtc. by eapply pool_step_inv. Qed.

(** *** The executed pool: every choice is a step, and the fuel is enough *)

Lemma take_drop_lookup {A} (l : list A) j x : l !! j = Some x -> l = take j l ++ x :: drop (S j) l.
Proof. intros H. symmetry. by apply take_drop_middle. Qed.

Lemma advance_step workers j p p' : advance j p = Some p' -> pool_step workers p p'.
Proof.
  unfold advance. destruct p as [q r f w]. cbn [running queue finished world].
  destruct (r !! j) as [[i [x|g]]|] eqn:E; [| |done].
  - intros [= <-]. rewrite (take_drop_lookup r j _ E) at 1. constructor.
  - destruct (g w) as [w' t] eqn:Eg. intros [= <-]. rewrite (take_drop_lookup r j _ E) at 1. by constructor.
Qed.

Lemma step_at_step workers k p p' : step_at workers k p = Some p' -> pool_step workers p p'.
Proof.
  unfold step_at. destruct p as [q r f w]. cbn [running queue finished world].
  destruct q as [|[i t] q]; [apply advance_step|].
  case_decide; [|apply advance_step]. case_decide; [|apply advance_step].
  intros [= <-]. by constructor.
Qed.

Lemma step_at_progress workers k p : (0 < workers)%nat -> step_at workers k p = None -> complete p.
Proof.
  intros Hw. unfold step_at, complete. destruct p as [q r f w]. cbn [running queue finished world].
  assert (forall j q', (j < length r)%nat -> advance j (mkPool q' r f w) <> None) as Hadv.
  { intros j q' Hj. unfold advance. cbn. destruct (lookup_lt_is_Some_2 r j Hj) as [[i [x|g]] ->]; [done|].
    by destruct (g w). }
  destruct q as [|[i t] q].
  - destruct r as [|y r]; [done|]. intros Ha. exfalso. revert Ha. apply Hadv. apply Nat.mod_upper_bound. done.
  - case_decide as Hlt.
    + case_decide as Hk; [done|]. intros Ha. exfalso. revert Ha. apply Hadv.
      pose proof (Nat.mod_upper_bound k (S (length r)) ltac:(done)). lia.
    + intros Ha. exfalso. revert Ha. apply Hadv. apply Nat.mod_upper_bound. lia.
Qed.

(** Work left: a task of at most [n] actions costs a start, its actions and a
    finish. *)
Definition within (n : nat) p : Prop :=
  exists qs rs, Forall2 (fun b it => bounded b it.2) qs (queue p) /\
    Forall2 (fun b it => bounded b it.2) rs (running p) /\
    (foldr (fun b k => b + 2 + k) 0 qs + foldr (fun b k => b + 1 + k) 0 rs <= n)%nat.

Lemma foldr_work_app c (l k : list nat) :
  (foldr (fun b k => b + c + k) 0 (l ++ k) = foldr (fun b k => b + c + k) 0 l + foldr (fun b k => b + c + k) 0 k)%nat.
Proof. induction l as [|x l IH]; simpl; lia. Qed.

Lemma within_step workers n p p' : pool_step workers p p' -> within n p ->
  exists n', (n = S n')%nat /\ within n' p'.
Proof.
  intros Hs (qs & rs & Hq & Hr & Hn). destruct Hs as [i t q r f w Hlt|i g w w' t q r1 r2 f Hg|i x q r1 r2 f w]; cbn in *.
  - inversion Hq as [|b ? qs' ? Hb Hqs]; subst. cbn in Hn.
    exists (pred n). split; [lia|]. exists qs', (rs ++ [b]). split_and!; [done|by apply Forall2_app; [|constructor]|].
    rewrite foldr_work_app. cbn. lia.
  - apply Forall2_app_inv_r in Hr as (r1' & r2' & H1 & H2 & ->).
    inversion H2 as [|b ? rs2 ? Hb Hrs2]; subst. rewrite foldr_work_app in Hn. cbn in Hn, Hb.
    destruct b as [|b]; [done|]. specialize (Hb w). rewrite Hg in Hb. cbn in Hb.
    exists (pred n). split; [lia|]. exists qs, (r1' ++ b :: rs2).
    split_and!; [done|by apply Forall2_app; [|constructor]|]. rewrite foldr_work_app. cbn. lia.
  - apply Forall2_app_inv_r in Hr as (r1' & r2' & H1 & H2 & ->).
    inversion H2 as [|b ? rs2 ? Hb Hrs2]; subst. rewrite foldr_work_app in Hn. cbn in Hn.
    exists (pred n). split; [lia|]. exists qs, (r1' ++ rs2).
    split_and!; [done|by apply Forall2_app|]. rewrite foldr_work_app. lia.
Qed.

Lemma run_pool_complete workers (pick : nat -> nat) fuel : (0 < workers)%nat -> forall (c : nat) p,
  within fuel p -> rtc (pool_step workers) p (run_pool workers pick fuel c p) /\
                   complete (run_pool workers pick fuel c p).
Proof.
  intros Hw. induction fuel as [|fuel IH]; intros c p Hp.
  - split; [constructor|]. destruct Hp as (qs & rs & Hq & Hr & Hn). unfold complete, run_pool.
    inversion Hq as [Hq'|]; subst; cbn in Hn; [|lia]. inversion Hr; subst; cbn in Hn; [done|lia].
  - cbn [run_pool]. destruct (step_at workers (pick c) p) as [p'|] eqn:E.
    + apply step_at_step in E as Hs. destruct (within_step _ _ _ _ Hs Hp) as (n' & [= ->] & Hp').
      destruct (IH (S c) p' Hp'). split; [by econstructor|done].
    + split; [constructor|]. by eapply step_at_progress.
Qed.

Lemma submit_within n tasks (w : W) : Forall (bounded n) tasks ->
  within (length tasks * (n + 2)) (submit (R := R) tasks w).
Proof.
  intros Hb. exists (replicate (length tasks) n), []. cbn. split_and!; [|constructor|].
  - assert (forall (g : nat -> nat), Forall2 (fun b (it : nat * task W R) => bounded b it.2)
      (replicate (length tasks) n) (imap (fun i t => (g i, t)) tasks)) as H1; [|apply (H1 id)].
    induction Hb as [|t tasks Ht Hb IH]; intros g; [constructor|]. cbn [imap length replicate].
    constructor; [done|]. apply (IH (g ∘ S)).
  - induction (length tasks); simpl; lia.
Qed.

Lemma submit_inv workers Q tasks (w : W) : Forall (yields (R := R) (fun x => Q x)) tasks ->
  pool_inv workers (fun _ => Q) (seq 0 (length tasks)) (submit tasks w).
Proof.
  intros Hy. split_and!; [| | |constructor]; cbn; [|lia|].
  - rewrite app_nil_r. assert (forall k, (imap (fun i t => (k + i, t)%nat) tasks).*1 = seq k (length tasks)) as H1.
    { clear. induction tasks as [|t tasks IH]; intros k; [done|]. rewrite imap_cons. cbn. f_equal; [lia|].
      rewrite <- (IH (S k)). f_equal. apply imap_ext. intros. simpl. f_equal. lia. }
    by rewrite <- (H1 0%nat).
  - rewrite app_nil_r. rewrite Forall_forall. intros [i t] Hin. apply elem_of_lookup_imap in Hin as (j & t' & [= -> ->] & Hl).
    rewrite Forall_forall in Hy. apply Hy. by eapply list_elem_of_lookup_2.
Qed.

(** What a whole run delivers: one result per task, each satisfying what its
    task yields, never more than [workers] at a time on the way. *)
Lemma run_pool_results workers (pick : nat -> nat) n Q tasks (w : W) : (0 < workers)%nat ->
  Forall (bounded n) tasks -> Forall (yields (R := R) Q) tasks ->
  let p := run_pool workers pick (length tasks * (n + 2)) 0 (submit tasks w) in
  rtc (pool_step workers) (submit tasks w) p /\ complete p /\
  (finished p).*1 ≡ₚ seq 0 (length tasks) /\ Forall Q (finished p).*2.
Proof.
  intros Hw Hb Hy p. destruct (run_pool_complete workers pick _ Hw 0 _ (submit_within n tasks w Hb)) as [Hr Hc].
  fold p in Hr, Hc. pose proof (pool_reachable_inv _ _ _ _ _ Hr (submit_inv workers Q tasks w Hy)) as (Hids & _ & _ & Hf).
  split_and!; [done|done| |].
  - destruct Hc as [Hq Hrun]. unfold ids in Hids. by rewrite Hq, Hrun in Hids.
  - rewrite Forall_fmap. eapply Forall_impl; [exact Hf|]. by intros [i x].
Qed.

End PoolLemmas.
