(* ===== verification/QuickBench.v ===== *)
(** The parallel benchmark client, quick_bench.py. *)
From S2P Require Import Prelude Text PyFloat Python Json Requests ThreadPool.

Open Scope Z_scope.

(** ** Definitions *)

(** *** Class BenchmarkMetrics *)

Record BenchmarkMetrics := mkMetrics { latencies : list pynum; errors : Z; success : Z }.

Definition new_metrics : BenchmarkMetrics := mkMetrics [] 0 0.

Definition add_success (latency_ms : pynum) (m : BenchmarkMetrics) : BenchmarkMetrics :=
  mkMetrics (latencies m ++ [latency_ms]) (errors m) (success m + 1).

Definition add_error (m : BenchmarkMetrics) : BenchmarkMetrics :=
  mkMetrics (latencies m) (errors m + 1) (success m).

(** The dict of [get_stats], in the order of its keys. *)
Record Stats := mkStats {
  s_min : pynum; s_max : pynum; s_avg : pynum; s_p50 : pynum; s_p95 : pynum; s_p99 : pynum;
}.

Local Open Scope py_scope.

(** [None] is Python's None; a left value an exception. *)
Definition get_stats (m : BenchmarkMetrics) : exn + option Stats :=
  match latencies m with
  | [] => inr None
  | _ =>
    let sorted_lat := py_sort (latencies m) in
    mn <-! py_min sorted_lat ;;
    mx <-! py_max sorted_lat ;;
    avg <-! mean sorted_lat ;;
    p50 <-! median sorted_lat ;;
    p95 <-! (if 20 <? zlen sorted_lat then percentile sorted_lat f_0_95 else index sorted_lat (-1)) ;;
    p99 <-! (if 100 <? zlen sorted_lat then percentile sorted_lat f_0_99 else index sorted_lat (-1)) ;;
    inr (Some (mkStats mn mx avg p50 p95 p99))
  end.

Section QuickBench.
Context `{PyWorld W} `{Scheduler}.

Definition build_server : M W bool :=
  say [Txt "Building server..."] ;;;
  r <- run_process ["go"; "build"; "-o"; "sndv-kv.exe"; "cmd/server/main.go"]%string None ;;
  if negb (returncode r =? 0) then say [Txt "❌ Build failed"] ;;; ret false
  else say [Txt "✅ Build successful"] ;;; ret true.

(** The polling loop of [start_server]; a bare [except] around each turn. *)
Fixpoint poll_metrics (turns : nat) : M W bool :=
  match turns with
  | O => ret false
  | S turns' =>
    up <- try_bare
      (resp <- send (mkHttp "GET" "http://localhost:8080/metrics" [] None (Some 1)) ;;
       if status_code resp =? 200 then say [Txt "✅ Server started"; nl] ;;; ret true else ret false)
      (fun _ => sleep f_0_5 ;;; ret false) ;;
    if up then ret true else poll_metrics turns'
  end.

Definition start_server : M W (option nat) :=
  say [Txt "Starting server..."] ;;;
  try_except
    (proc <- popen ["./sndv-kv.exe"; "-config"; "config_fast.json"]%string ;;
     sleep (f_of_Z 2) ;;;
     up <- poll_metrics 5 ;;
     if up then ret (Some proc)
     else say [Txt "❌ Server failed to start"] ;;; act (p_kill proc) ;;; ret None)
    (fun e => say [Txt "❌ Error starting server: "; Exc e] ;;; ret None).

(** One request of a worker thread, cut at its calls: a clock reading, the
    exchange, a clock reading. Without a session ([init_session] not called)
    the call raises and is caught like a failed exchange. *)
Definition timed_post {R} (SESSION : bool) (req : http_request) (result : bool -> pynum -> R) : task W R :=
  Step (fun w => let '(w, start) := perf_counter w in
    (w, Step (fun w =>
      let '(w, ok) := if SESSION then
                        let '(w, r) := transport req w in
                        (w, match r with inr resp => status_code resp =? 201 | inl _ => false end)
                      else (w, false) in
      (w, Step (fun w => let '(w, now) := perf_counter w in
        (w, Done (result ok (ms_since start now)))))))).

Definition single_put_request (SESSION : bool) (i : Z) : task W (bool * pynum) :=
  timed_post SESSION (json_post "http://localhost:8080/put" (item ("key" ++ print_int i) (x_times 64)) 2)
    (fun ok latency_ms => (ok, latency_ms)).

Definition batch_items (batch_id batch_size : Z) : payload :=
  PDict [("items"%string, PList ((fun i =>
    item ("batch_" ++ print_int batch_id ++ "_" ++ print_int i) (x_times 64)) <$> range batch_size))].

Definition batch_put_request (SESSION : bool) (batch_id batch_size : Z) : task W (Z * pynum) :=
  timed_post SESSION (json_post "http://localhost:8080/batch" (batch_items batch_id batch_size) 3)
    (fun ok latency_ms => (if ok then batch_size else 0, latency_ms)).

(** [with ThreadPoolExecutor(max_workers=workers)]: the results in the order
    [as_completed] gives them. *)
Definition execute {R} (workers : Z) (tasks : list (task W R)) : M W (list R) := fun w =>
  if workers <=? 0 then (w, inl ValueError)
  else let p := run_pool (Z.to_nat workers) pick (length tasks * 5) 0 (submit tasks w) in
       (world p, inr (as_completed (finished p).*2)).

Definition progress_line (every completed total : Z) (tail : string) : M W unit :=
  if completed mod every =? 0
  then say [Txt "  Progress: "; Fmt "" (PInt completed); Txt "/"; Fmt "" (PInt total); Txt tail]
  else ret tt.

Definition report (tps : pynum) (stats : option Stats) (latency_label error_label : string) (m : BenchmarkMetrics)
    : M W unit :=
  say [Txt "  → "; Fmt ".0f" tps; Txt " TPS"] ;;;
  match stats with
  | Some s => say [Txt latency_label; Fmt ".1f" (s_min s); Txt "ms, avg="; Fmt ".1f" (s_avg s);
                   Txt "ms, p95="; Fmt ".1f" (s_p95 s); Txt "ms, max="; Fmt ".1f" (s_max s); Txt "ms"]
  | None => ret tt
  end ;;;
  if 0 <? errors m then say [Txt error_label; Fmt "" (PInt (errors m))] else ret tt.

(** The loop over the futures; [total_success] and [completed] ride along. *)
Definition tally_single (total : Z) (results : list (bool * pynum)) : M W (BenchmarkMetrics * Z) :=
  for_each results (new_metrics, 0) (fun '(metrics, completed) '(ok, latency) =>
    let metrics := if ok : bool then add_success latency metrics else add_error metrics in
    progress_line 500 (completed + 1) total "" ;;; ret (metrics, completed + 1)).

(** The two benchmarks return their [tps]; the metrics they computed it from are
    returned next to it for the theorems. *)
Definition benchmark_single_parallel (SESSION : bool) (count workers : Z) : M W (pynum * BenchmarkMetrics) :=
  say [Txt "Running Single PUT Benchmark ("; Fmt "," (PInt count); Txt " items, "; Fmt "" (PInt workers);
       Txt " workers)..."] ;;;
  start_time <- perf ;;
  results <- execute workers (single_put_request SESSION <$> range count) ;;
  tallied <- tally_single count results ;;
  now <- perf ;;
  let duration := f_sub now start_time in
  let metrics := fst tallied in
  stats <- lift_exn (get_stats metrics) ;;
  tps <- lift_exn (rate (success metrics) duration) ;;
  report tps stats "     Latency: min=" "     Errors: " metrics ;;;
  ret (tps, metrics).

Definition tally_batch (num_batches : Z) (results : list (Z * pynum)) : M W (BenchmarkMetrics * Z * Z) :=
  for_each results (new_metrics, 0, 0) (fun '(metrics, total_success, completed) '(success_count, latency) =>
    let '(metrics, total_success) :=
      if 0 <? success_count then (add_success latency metrics, total_success + success_count)
      else (add_error metrics, total_success) in
    progress_line 50 (completed + 1) num_batches " batches" ;;; ret (metrics, total_success, completed + 1)).

Definition benchmark_batch_parallel (SESSION : bool) (total_items batch_size workers : Z)
    : M W (pynum * BenchmarkMetrics * Z) :=
  num_batches <- lift_exn (floordiv total_items batch_size) ;;
  say [nl; Txt "Running Batch PUT Benchmark ("; Fmt "," (PInt total_items); Txt " items, batches of ";
       Fmt "" (PInt batch_size); Txt ", "; Fmt "" (PInt workers); Txt " workers)..."] ;;;
  start_time <- perf ;;
  results <- execute workers ((fun i => batch_put_request SESSION i batch_size) <$> range num_batches) ;;
  tallied <- tally_batch num_batches results ;;
  now <- perf ;;
  let duration := f_sub now start_time in
  let '(metrics, total_success, _) := tallied in
  stats <- lift_exn (get_stats metrics) ;;
  tps <- lift_exn (rate total_success duration) ;;
  report tps stats "     Batch latency: min=" "     Failed batches: " metrics ;;;
  ret (tps, metrics, total_success).

Definition save_results (single_tps batch_tps : pynum) : M W unit :=
  save "results.json" (CJson (VDict [("single", VNum single_tps); ("batch", VNum batch_tps)]%string)) ;;;
  say [nl; Txt "✅ Saved results.json"].

(** [main]; [sys.exit(1)] is the exception it raises. *)
Definition main : M W unit :=
  say [ruler "=" 70; nl; Txt "SNDV-KV PERFORMANCE BENCHMARK"; nl; ruler "=" 70] ;;;
  built <- build_server ;;
  if negb built then raise (SystemExit 1)
  else
    server <- start_server ;;
    match server with
    | None => raise (SystemExit 1)
    | Some server_proc =>
      let SESSION := true in
      try_finally
        (single <- benchmark_single_parallel SESSION 2000 20 ;;
         batch <- benchmark_batch_parallel SESSION 20000 100 10 ;;
         say [nl; ruler "=" 70; nl; Txt "Single:        "; Fmt ",.0f" (fst single); Txt " TPS"] ;;;
         say [Txt "Batch:      "; Fmt ",.0f" (fst (fst batch)); Txt " TPS"; nl; ruler "=" 70] ;;;
         save_results (fst single) (fst (fst batch)))
        (say [nl; Txt "Stopping server..."] ;;;
         act (p_terminate server_proc) ;;;
         try_bare (wait_process server_proc 5) (fun _ => act (p_kill server_proc)))
    end.

(** The script's entry. [print_exc] writes the traceback to the error stream. *)
Definition script : M W unit := fun w =>
  match main w with
  | (w, inl KeyboardInterrupt) => (say [nl; nl; Txt "❌ Interrupted"] ;;; raise (SystemExit 1)) w
  | (w, inl e) =>
    if is_Exception e then (say [nl; Txt "❌ Error: "; Exc e] ;;; raise (SystemExit 1)) w
    else (w, inl e)
  | r => r
  end.

End QuickBench.

(** ** Lemmas *)

Lemma fold_tally_single results : forall m,
  let m' := fold_left (fun m '(ok, latency) => if ok : bool then add_success latency m else add_error m) results m in
  success m' = success m + zlen (filter (fun r => r.1 = true) results) /\
  errors m' = errors m + zlen (filter (fun r => r.1 = false) results) /\
  latencies m' = latencies m ++ (filter (fun r => r.1 = true) results).*2.
Proof.
  induction results as [|[ok l] results IH]; intros m; cbn [fold_left].
  { rewrite !filter_nil. cbn. rewrite app_nil_r. unfold zlen. cbn. split_and!; [lia|lia|done]. }
  destruct (IH (if ok then add_success l m else add_error m)) as (Hs & He & Hl). cbn zeta in *.
  rewrite Hs, He, Hl, !filter_cons. destruct ok; cbn [fst].
  - rewrite decide_True, decide_False by done. cbn. unfold zlen. cbn. rewrite <- app_assoc. split_and!; [lia|lia|done].
  - rewrite decide_False, decide_True by done. cbn. unfold zlen. cbn. split_and!; [lia|lia|done].
Qed.

Lemma filter_split {A} (f : A -> bool) l :
  zlen (filter (fun r => f r = true) l) + zlen (filter (fun r => f r = false) l) = zlen l.
Proof.
  induction l as [|x l IH]; [done|]. rewrite !filter_cons. unfold zlen in *.
  destruct (f x) eqn:E; repeat (rewrite decide_True by done || rewrite decide_False by done); simpl; lia.
Qed.

Lemma filter_none {A} (f : A -> bool) b l : (forall x, x ∈ l -> f x <> b) -> filter (fun x => f x = b) l = [].
Proof.
  intros Hno. destruct (filter _ l) as [|x k] eqn:E; [done|].
  assert (x ∈ filter (fun x => f x = b) l) as [Hx Hin]%list_elem_of_filter by (rewrite E; left).
  by destruct (Hno x Hin).
Qed.

Definition is_float (n : pynum) : Prop := match n with PFloat _ => True | PInt _ => False end.

Lemma median_total l : Forall is_float l -> 0 < zlen l -> exists p, median l = inr p.
Proof.
  intros Hf Hpos. unfold median. rewrite zlen_py_sort. rewrite (proj2 (Z.eqb_neq _ _)) by lia.
  assert (Forall is_float (py_sort l)) as Hfs by (by rewrite py_sort_perm).
  destruct (Z.eqb_spec (zlen l mod 2) 1).
  - destruct (index_in (py_sort l) (zlen l / 2)) as (y & -> & _); [rewrite zlen_py_sort; zlia|by eexists].
  - destruct (index_in (py_sort l) (zlen l / 2 - 1)) as (a & -> & Ha); [rewrite zlen_py_sort; zlia|].
    destruct (index_in (py_sort l) (zlen l / 2)) as (b & -> & Hb); [rewrite zlen_py_sort; zlia|].
    rewrite Forall_lookup in Hfs. apply Hfs in Ha. destruct a as [a|a]; [done|].
    by destruct b; eexists.
Qed.

(** An index of the sorted latencies, as [p95] and [p99] take it. *)
Definition upper (l : list pynum) (bound : Z) (c : float) : exn + pynum :=
  if bound <? zlen l then percentile l c else index l (-1).

Lemma upper_index l bound c : 0 < zlen l < 2 ^ 53 -> c = f_0_95 \/ c = f_0_99 ->
  exists i x, upper l bound c = inr x /\ l !! Z.to_nat i = Some x /\ 0 <= i < zlen l /\
    if bound <? zlen l then int_of_float (f_mul (f_of_Z (zlen l)) c) = Some i else i = zlen l - 1.
Proof.
  intros Hl Hc. unfold upper. destruct (bound <? zlen l).
  - destruct (percentile_index l c Hl Hc) as (i & x & ? & ? & ? & ?). by exists i, x.
  - destruct l as [|y l' _] using rev_ind; [unfold zlen in Hl; simpl in Hl; lia|].
    rewrite index_last. rewrite zlen_app in *. change (zlen [y]) with 1 in *.
    exists (zlen l'), y. split_and!; [done| |lia|lia|lia].
    unfold zlen. by rewrite Nat2Z.id, lookup_app_r, Nat.sub_diag by lia.
Qed.

(** The statistics exist for any measured latencies. *)
Lemma get_stats_total m : Forall is_float (latencies m) -> zlen (latencies m) < 2 ^ 53 ->
  latencies m <> [] -> let l := py_sort (latencies m) in
  exists s, get_stats m = inr (Some s) /\ py_min l = inr (s_min s) /\ py_max l = inr (s_max s) /\
    upper l 20 f_0_95 = inr (s_p95 s) /\ upper l 100 f_0_99 = inr (s_p99 s).
Proof.
  intros Hf Hlen Hne l. unfold get_stats.
  assert (0 < zlen l < 2 ^ 53) as Hpos.
  { unfold l. rewrite zlen_py_sort. destruct (latencies m); [done|]. unfold zlen in *. simpl in *. lia. }
  assert (Forall is_float l) as Hfl by (unfold l; by rewrite py_sort_perm).
  assert (exists x l', l = x :: l') as (x & l' & El).
  { destruct l; [unfold zlen in Hpos; simpl in Hpos; lia|by eexists _, _]. }
  assert (exists mn, py_min l = inr mn) as [mn Hmn] by (rewrite El; by eexists).
  assert (exists mx, py_max l = inr mx) as [mx Hmx] by (rewrite El; by eexists).
  assert (exists avg, mean l = inr avg) as [avg Havg].
  { rewrite El. unfold mean. destruct (mapM Q_of_num (x :: l')); by eexists. }
  destruct (median_total l Hfl) as [p50 H50]; [lia|].
  destruct (upper_index l 20 f_0_95 Hpos) as (_ & p95 & H95 & _); [by left|].
  destruct (upper_index l 100 f_0_99 Hpos) as (_ & p99 & H99 & _); [by right|].
  exists (mkStats mn mx avg p50 p95 p99). split_and!; try done.
  destruct (latencies m) as [|y0 l0] eqn:E0; [done|]. fold l. unfold upper in H95, H99.
  by rewrite Hmn, Hmx, Havg, H50, H95, H99.
Qed.

(** *** The tasks *)

Section Tasks.
Context `{PyWorld W}.

Lemma timed_post_bounded {R} SESSION req (result : bool -> pynum -> R) :
  bounded 3 (timed_post (W := W) SESSION req result).
Proof.
  cbn. intros w. destruct (perf_counter w) as [w1 t]. cbn. intros w2.
  destruct SESSION; [destruct (transport req w2)|]; cbn; intros w4; destruct (perf_counter w4); done.
Qed.

Lemma timed_post_yields {R} SESSION req (result : bool -> pynum -> R) (Q : R -> Prop) :
  (forall ok t t', (ok = true -> SESSION = true /\ exists w, exists resp,
      (transport req w).2 = inr resp /\ status_code resp = 201) ->
    (SESSION = true -> (forall w, exists resp, (transport req w).2 = inr resp /\ status_code resp = 201) -> ok = true) ->
    Q (result ok (PFloat (f_mul (f_sub t' t) (f_of_Z 1000))))) ->
  yields (W := W) Q (timed_post SESSION req result).
Proof.
  intros HQ. cbn. intros w. destruct (perf_counter w) as [w1 t]. cbn. intros w2.
  destruct SESSION.
  - destruct (transport req w2) as [w3 r] eqn:E. cbn. intros w4. destruct (perf_counter w4) as [w5 t'].
    cbn. apply HQ.
    + intros Hok. split; [done|]. exists w2. destruct r as [|resp]; [done|]. exists resp. rewrite E.
      split; [done|]. by apply Z.eqb_eq.
    + intros _ Hall. destruct (Hall w2) as (resp & Hr & Hs). rewrite E in Hr. cbn in Hr. subst r. by apply Z.eqb_eq.
  - cbn. intros w4. destruct (perf_counter w4) as [w5 t']. cbn. by apply HQ.
Qed.

(** Tallying prints and counts; it never raises. *)
Lemma tally_single_run total results (w : W) : exists w',
  tally_single total results w = (w', inr (fold_left (fun m '(ok, latency) =>
    if ok : bool then add_success latency m else add_error m) results new_metrics, zlen results)).
Proof.
  unfold tally_single. change (zlen results) with (0 + zlen results). generalize 0 as c. generalize new_metrics as m. revert w.
  induction results as [|[ok l] results IH]; intros w m c.
  { exists w. cbn. unfold ret. do 3 f_equal. unfold zlen. simpl. lia. }
  cbn [for_each]. unfold bind at 1. unfold bind at 1.
  assert (exists w1, progress_line 500 (c + 1) total "" w = (w1, inr tt)) as [w1 ->].
  { unfold progress_line. case_match; by eexists. }
  unfold ret at 1. destruct (IH w1 (if ok then add_success l m else add_error m) (c + 1)) as [w' ->].
  exists w'. cbn [fold_left]. do 3 f_equal. unfold zlen. cbn [length]. lia.
Qed.

End Tasks.

Section Runs.
Context `{PyWorld W} `{Scheduler}.

(** A run of the executor: one result per task, under any schedule. *)
Lemma execute_spec {R} workers (tasks : list (task W R)) Q w : 0 < workers ->
  Forall (bounded 3) tasks -> Forall (yields Q) tasks ->
  exists w' results, execute workers tasks w = (w', inr results) /\
    zlen results = zlen tasks /\ Forall Q results.
Proof.
  intros Hw Hb Hy. unfold execute. rewrite (proj2 (Z.leb_gt _ _)) by lia.
  destruct (run_pool_results (Z.to_nat workers) pick 3 Q tasks w ltac:(lia) Hb Hy) as (_ & _ & Hids & HQ).
  eexists _, _. split; [reflexivity|]. split.
  - unfold zlen. rewrite as_completed_perm, length_fmap. f_equal.
    apply Permutation_length in Hids. by rewrite length_fmap, length_seq in Hids.
  - by rewrite as_completed_perm.
Qed.

Lemma report_run tps stats l1 l2 m (w : W) : exists w', report tps stats l1 l2 m w = (w', inr tt).
Proof. unfold report, bind, say, act, ret. destruct stats; case_match; by eexists. Qed.

(** The benchmark after its requests: everything is counted, nothing raises. *)
Lemma single_parallel_spec SESSION count workers w (Q : bool -> Prop) :
  0 < workers -> 0 <= count < 2 ^ 53 ->
  Forall (yields (fun r => Q r.1 /\ is_float r.2)) (single_put_request (W := W) SESSION <$> range count) ->
  exists w' tps m, benchmark_single_parallel SESSION count workers w = (w', inr (tps, m)) /\
    success m + errors m = count /\ zlen (latencies m) = success m /\
    Forall is_float (latencies m) /\
    ((Q false -> False) -> success m = count) /\ ((Q true -> False) -> success m = 0).
Proof.
  intros Hw Hc Hy. unfold benchmark_single_parallel. unfold bind at 1, say at 1, act at 1. unfold bind at 1, perf at 1, call at 1.
  destruct (perf_counter _) as [w1 t0]. unfold bind at 1.
  destruct (execute_spec workers (single_put_request SESSION <$> range count)
    (fun r => Q r.1 /\ is_float r.2) w1 Hw) as (w2 & results & -> & Hlen & HQ); [|exact Hy|].
  { apply Forall_fmap, Forall_forall. intros i _. apply timed_post_bounded. }
  unfold bind at 1. destruct (tally_single_run count results w2) as [w3 ->].
  unfold bind at 1, perf, call. destruct (perf_counter w3) as [w4 t1]. cbn [fst].
  set (m := fold_left _ results new_metrics).
  destruct (fold_tally_single results new_metrics) as (Hs & He & Hl). fold m in Hs, He, Hl. cbn in Hs, He, Hl.
  assert (zlen results = count) as Hrc by (rewrite Hlen; unfold zlen; rewrite length_fmap, length_range; lia).
  pose proof (filter_split fst results) as Hsplit.
  assert (Forall is_float (latencies m)) as Hfl.
  { rewrite Hl. apply Forall_fmap, Forall_forall. rewrite Forall_forall in HQ.
    intros r [_ Hr]%list_elem_of_filter. by apply HQ. }
  assert (zlen (latencies m) = success m) as Hls.
  { rewrite Hl, Hs. unfold zlen. by rewrite length_fmap. }
  pose proof (zlen_nonneg (filter (fun r : bool * pynum => r.1 = true) results)).
  pose proof (zlen_nonneg (filter (fun r : bool * pynum => r.1 = false) results)).
  assert (exists stats, get_stats m = inr stats) as [stats Hst].
  { destruct (decide (latencies m = [])) as [E|E]; [unfold get_stats; rewrite E; by eexists|].
    destruct (get_stats_total m Hfl ltac:(lia) E) as (s & -> & _). by eexists. }
  destruct (rate_total (success m) (f_sub t1 t0) ltac:(lia)) as [tps Htps].
  unfold bind at 1, lift_exn at 1. rewrite Hst. unfold bind at 1, lift_exn. rewrite Htps.
  unfold bind. destruct (report_run tps stats "     Latency: min=" "     Errors: " m w4) as [w5 ->].
  exists w5, tps, m. split_and!; [done|lia|done|done| |].
  - intros Hno. rewrite (filter_none fst false) in Hsplit; [unfold zlen in *; simpl in *; lia|].
    intros [[|] l] Hin; [done|]. rewrite Forall_forall in HQ. by apply HQ in Hin as [? _].
  - intros Hno. rewrite Hs, (filter_none fst true); [done|].
    intros [[|] l] Hin; [|done]. rewrite Forall_forall in HQ. by apply HQ in Hin as [? _].
Qed.

End Runs.

(** *** Extremal elements *)

Lemma py_min_spec l mn : Forall lat_ok l -> py_min l = inr mn -> mn ∈ l /\ Forall (num_le mn) l.
Proof.
  destruct l as [|x l]; [done|]. intros [Hx Hl]%Forall_cons [= <-]. revert x Hx.
  induction Hl as [|y l Hy Hl IH]; intros x Hx; cbn [fold_left].
  - split; [left|]. constructor; [apply num_le_refl|constructor].
  - destruct (num_lt y x) eqn:E.
    + destruct (IH y Hy) as [Hin Hle]. split; [by right|]. apply Forall_cons in Hle as [Hmy Hle].
      constructor; [|by constructor].
      apply num_le_trans with y; [|done|done|done|by apply num_lt_le].
      apply elem_of_cons in Hin as [->|Hin]; [done|]. rewrite Forall_forall in Hl. by apply Hl.
    + destruct (IH x Hx) as [Hin Hle]. apply Forall_cons in Hle as [Hmx Hle].
      assert (lat_ok (fold_left (fun b y => if num_lt y b then y else b) l x)) as Hmok.
      { apply elem_of_cons in Hin as [->|Hin]; [done|]. rewrite Forall_forall in Hl. by apply Hl. }
      split; [apply elem_of_cons in Hin as [Hin|Hin]; [rewrite Hin; left|by right; right]|].
      constructor; [done|]. constructor; [|done]. by apply num_le_trans with x.
Qed.

Lemma py_max_spec l mx : Forall lat_ok l -> py_max l = inr mx -> mx ∈ l /\ Forall (fun x => num_le x mx) l.
Proof.
  destruct l as [|x l]; [done|]. unfold py_max, py_max_by, id. intros [Hx Hl]%Forall_cons [= <-]. revert x Hx.
  induction Hl as [|y l Hy Hl IH]; intros x Hx; cbn [fold_left].
  - split; [left|]. constructor; [apply num_le_refl|constructor].
  - destruct (num_lt x y) eqn:E.
    + destruct (IH y Hy) as [Hin Hle]. split; [by right|]. apply Forall_cons in Hle as [Hmy Hle].
      constructor; [|by constructor].
      apply num_le_trans with y; [done|done| |by apply num_lt_le|done].
      apply elem_of_cons in Hin as [->|Hin]; [done|]. rewrite Forall_forall in Hl. by apply Hl.
    + destruct (IH x Hx) as [Hin Hle]. apply Forall_cons in Hle as [Hmx Hle].
      assert (lat_ok (fold_left (fun b y => if num_lt b y then y else b) l x)) as Hmok.
      { apply elem_of_cons in Hin as [->|Hin]; [done|]. rewrite Forall_forall in Hl. by apply Hl. }
      split; [apply elem_of_cons in Hin as [Hin|Hin]; [rewrite Hin; left|by right; right]|].
      constructor; [done|]. constructor; [|done]. by apply num_le_trans with x.
Qed.

(** *** Batches *)

Lemma fold_tally_batch size results : 0 < size -> Forall (fun r => r.1 = size \/ r.1 = 0) results ->
  forall m t, let '(m', t') := fold_left (fun '(m, t) '(n, latency) =>
      if 0 <? n then (add_success latency m, t + n) else (add_error m, t)) results (m, t) in
    success m' + errors m' = success m + errors m + zlen results /\
    t' - t = size * (success m' - success m) /\
    (Forall is_float results.*2 -> Forall is_float (latencies m) -> Forall is_float (latencies m')) /\
    zlen (latencies m') - zlen (latencies m) = success m' - success m /\
    success m <= success m' /\ errors m <= errors m' /\
    (Forall (fun r => r.1 = size) results -> errors m' = errors m).
Proof.
  intros Hs. induction 1 as [|[n l] results Hn Hr IH]; intros m t; cbn [fold_left].
  { unfold zlen. cbn. split_and!; try lia; done. }
  assert ((if 0 <? n then (add_success l m, t + n) else (add_error m, t)) =
    if decide (n = size) then (add_success l m, t + size) else (add_error m, t)) as ->.
  { cbn in Hn. destruct Hn as [-> | ->]; [rewrite decide_True by done; by rewrite (proj2 (Z.ltb_lt _ _))|].
    by rewrite decide_False by lia. }
  destruct (decide (n = size)) as [->|Hne].
  - specialize (IH (add_success l m) (t + size)). destruct (fold_left _ results _) as [m' t'].
    cbn in IH. destruct IH as (H1 & H2 & H3 & H4 & H5 & H6 & H7). unfold zlen in *. rewrite length_app in H4. cbn in *.
    split_and!; try lia.
    + intros [Hl Hls]%Forall_cons Hm. apply H3; [done|]. apply Forall_app. split; [done|by repeat constructor].
    + intros [_ Hall]%Forall_cons. by apply H7.
  - specialize (IH (add_error m) t). destruct (fold_left _ results _) as [m' t'].
    cbn in IH. destruct IH as (H1 & H2 & H3 & H4 & H5 & H6 & H7). unfold zlen in *. cbn in *.
    split_and!; try lia.
    + intros [Hl Hls]%Forall_cons Hm. by apply H3.
    + intros [? Hall]%Forall_cons. done.
Qed.

Section BatchRuns.
Context `{PyWorld W} `{Scheduler}.

Lemma tally_batch_run total results (w : W) : exists w' k,
  tally_batch total results w = (w', inr (fold_left (fun '(m, t) '(n, latency) =>
      if 0 <? n then (add_success latency m, t + n) else (add_error m, t)) results (new_metrics, 0), k)).
Proof.
  unfold tally_batch. assert (forall m t c (w : W), exists w' k,
    for_each results (m, t, c) (fun '(metrics, total_success, completed) '(success_count, latency) =>
      let '(metrics, total_success) :=
        if 0 <? success_count then (add_success latency metrics, total_success + success_count)
        else (add_error metrics, total_success) in
      (progress_line 50 (completed + 1) total " batches" ;;; ret (metrics, total_success, completed + 1))%py) w
    = (w', inr (fold_left (fun '(m, t) '(n, latency) =>
      if 0 <? n then (add_success latency m, t + n) else (add_error m, t)) results (m, t), k))) as Hgen; [|apply Hgen].
  clear w. induction results as [|[n l] results IH]; intros m t c w; [by exists w, c|].
  cbn [for_each]. unfold bind at 1. cbn [fold_left].
  destruct (if 0 <? n then (add_success l m, t + n) else (add_error m, t)) as [m1 t1].
  unfold bind at 1.
  assert (exists w1, progress_line 50 (c + 1) total " batches" w = (w1, inr tt)) as [w1 ->].
  { unfold progress_line. case_match; by eexists. }
  unfold ret at 1. apply IH.
Qed.

Lemma batch_parallel_spec SESSION total size workers w (Q : Z -> Prop) :
  0 < workers -> 0 < size -> 0 <= total < 2 ^ 53 ->
  Forall (yields (fun r => (r.1 = size \/ r.1 = 0 /\ Q 0) /\ is_float r.2))
    ((fun i => batch_put_request (W := W) SESSION i size) <$> range (total / size)) ->
  exists w' tps m t, benchmark_batch_parallel SESSION total size workers w = (w', inr (tps, m, t)) /\
    success m + errors m = total / size /\ t = size * success m /\ 0 <= t <= total /\
    ((Q 0 -> False) -> t = total - total mod size).
Proof.
  intros Hw Hs Hc Hy. unfold benchmark_batch_parallel. unfold bind at 1, lift_exn at 1, floordiv.
  rewrite (proj2 (Z.eqb_neq _ _)) by lia. set (n := total / size) in *.
  assert (0 <= n /\ size * n + total mod size = total /\ 0 <= total mod size) as (Hn & Hdiv & Hmod).
  { unfold n. pose proof (Z.div_mod total size ltac:(lia)). pose proof (Z.mod_pos_bound total size Hs).
    split; [apply Z.div_pos; lia|]. lia. }
  unfold bind at 1, say at 1, act at 1. unfold bind at 1, perf at 1, call at 1.
  destruct (perf_counter _) as [w1 t0]. unfold bind at 1.
  destruct (execute_spec workers ((fun i => batch_put_request SESSION i size) <$> range n)
    (fun r => (r.1 = size \/ r.1 = 0 /\ Q 0) /\ is_float r.2) w1 Hw) as (w2 & results & -> & Hlen & HQ); [|exact Hy|].
  { apply Forall_fmap, Forall_forall. intros i _. apply timed_post_bounded. }
  unfold bind at 1. destruct (tally_batch_run n results w2) as (w3 & k & ->).
  unfold bind at 1, perf, call. destruct (perf_counter w3) as [w4 t1].
  pose proof (fold_tally_batch size results Hs) as Hfold.
  specialize (Hfold ltac:(eapply Forall_impl; [exact HQ|]; intros r [[?|[? _]] _]; tauto) new_metrics 0).
  destruct (fold_left _ results _) as [m t]. cbn in Hfold.
  destruct Hfold as (H1 & H2 & H3 & H4 & H5 & H6 & H7).
  assert (zlen results = n) as Hrc by (rewrite Hlen; unfold zlen; rewrite length_fmap, length_range; lia).
  assert (Forall is_float (latencies m)) as Hfl.
  { apply H3; [|constructor]. apply Forall_fmap. eapply Forall_impl; [exact HQ|]. by intros r [_ ?]. }
  assert (0 <= t <= total) as Htb by nia.
  assert (n <= total) as Hnt by nia.
  assert (exists stats, get_stats m = inr stats) as [stats Hst].
  { destruct (decide (latencies m = [])) as [E|E]; [unfold get_stats; rewrite E; by eexists|].
    change (zlen []) with 0 in H4. destruct (get_stats_total m Hfl ltac:(lia) E) as (s & -> & _). by eexists. }
  destruct (rate_total t (f_sub t1 t0) ltac:(lia)) as [tps Htps].
  unfold bind at 1, lift_exn at 1. rewrite Hst. unfold bind at 1, lift_exn. rewrite Htps.
  unfold bind. destruct (report_run tps stats "     Batch latency: min=" "     Failed batches: " m w4) as [w5 ->].
  exists w5, tps, m, t. split_and!; [done|lia|lia|lia|lia|].
  intros Hno. specialize (H7 ltac:(eapply Forall_impl; [exact HQ|]; intros r [[?|[_ ?]] _]; tauto)). nia.
Qed.

End BatchRuns.

(** ** Properties *)

(** The statistics of a benchmark are consistent: for any non-empty set
    of measured latencies they exist, the quantiles are measured values, and
    min <= p95 <= p99 <= max, min and max bounding every latency. *)
Theorem get_stats_ordered m : Forall lat_ok (latencies m) -> Forall is_float (latencies m) ->
  latencies m <> [] -> zlen (latencies m) < 2 ^ 53 ->
  exists s, get_stats m = inr (Some s) /\
    num_le (s_min s) (s_p95 s) /\ num_le (s_p95 s) (s_p99 s) /\ num_le (s_p99 s) (s_max s) /\
    s_p95 s ∈ latencies m /\ s_p99 s ∈ latencies m /\
    Forall (fun x => num_le (s_min s) x /\ num_le x (s_max s)) (latencies m).
Proof.
  intros Hok Hf Hne Hlen. set (l := py_sort (latencies m)).
  assert (l ≡ₚ latencies m) as Hperm by apply py_sort_perm.
  assert (Forall lat_ok l) as Hlok by (by rewrite Hperm).
  assert (0 < zlen l < 2 ^ 53) as Hpos.
  { unfold l. rewrite zlen_py_sort. destruct (latencies m); [done|]. unfold zlen in *. simpl in *. lia. }
  destruct (get_stats_total m Hf Hlen Hne) as (s & -> & Hmn & Hmx & H95 & H99). fold l in Hmn, Hmx, H95, H99.
  destruct (py_min_spec l _ Hlok Hmn) as [_ Hmin]. destruct (py_max_spec l _ Hlok Hmx) as [_ Hmax].
  destruct (upper_index l 20 f_0_95 Hpos) as (i & x & Hx & Li & Bi & Ii); [by left|].
  destruct (upper_index l 100 f_0_99 Hpos) as (j & y & Hy & Lj & Bj & Ij); [by right|].
  rewrite H95 in Hx. rewrite H99 in Hy. injection Hx as <-. injection Hy as <-.
  assert (i <= j) as Hij.
  { destruct (Z.ltb_spec 100 (zlen l)) as [H100|H100]; [|lia].
    destruct (Z.ltb_spec 20 (zlen l)); [|lia]. by apply (percentile_index_order (zlen l)). }
  exists s. rewrite Forall_forall in Hmin, Hmax.
  apply list_elem_of_lookup_2 in Li as Hi. apply list_elem_of_lookup_2 in Lj as Hj.
  split_and!; [done|by apply Hmin| |by apply Hmax|by rewrite <- Hperm|by rewrite <- Hperm|].
  - apply (sorted_lookup l (Z.to_nat i) (Z.to_nat j)); [by apply py_sort_sorted|lia|done|done].
  - rewrite <- Hperm, Forall_forall. intros z Hz. split; [by apply Hmin|by apply Hmax].
Qed.

Section Properties.
Context `{PyWorld W} `{Scheduler}.

(** C24. The parallel single-PUT benchmark accounts for every request, under
    every interleaving of the workers and every order of completion: it returns
    a result, successes and errors add up to [count], every success has its
    latency; when every exchange is answered 201 all succeed, and when none
    ever is, none does. *)
Theorem single_parallel_accounts count workers w : 0 < workers -> 0 <= count < 2 ^ 53 ->
  exists w' tps m, benchmark_single_parallel true count workers w = (w', inr (tps, m)) /\
    success m + errors m = count /\ zlen (latencies m) = success m /\
    ((forall req w, exists resp, (transport req w).2 = inr resp /\ status_code resp = 201) -> success m = count) /\
    ((forall req w resp, (transport req w).2 = inr resp -> status_code resp <> 201) -> success m = 0).
Proof.
  intros Hw Hc.
  destruct (single_parallel_spec true count workers w (fun ok =>
    (ok = true -> exists req w resp, (transport (W := W) req w).2 = inr resp /\ status_code resp = 201) /\
    ((forall req w, exists resp, (transport (W := W) req w).2 = inr resp /\ status_code resp = 201) -> ok = true))
    Hw Hc) as (w' & tps & m & Hrun & Hsum & Hlat & _ & Hall & Hnone).
  { apply Forall_fmap, Forall_forall. intros i _. apply timed_post_yields. intros ok t t' H1 H2. cbn.
    split; [|done]. split.
    - intros Hok. destruct (H1 Hok) as (_ & w0 & resp & ?). by eexists _, w0, resp.
    - intros Hr. apply H2; [done|]. intros w0. apply Hr. }
  exists w', tps, m. split_and!; try done.
  - intros Hr. apply Hall. intros [_ Hf]. by specialize (Hf Hr).
  - intros Hr. apply Hnone. intros [Hf _]. destruct (Hf eq_refl) as (req & w0 & resp & Hresp & Hst). by apply (Hr req w0 resp).
Qed.

(** The parallel batch benchmark sends whole batches only: it counts a
    multiple of the batch size, at most [total_items], and when every exchange
    is answered 201 exactly [total_items - total_items mod batch_size], the
    remainder being never sent. *)
Theorem batch_parallel_accounts total size workers w :
  0 < workers -> 0 < size -> 0 <= total < 2 ^ 53 ->
  exists w' tps m t, benchmark_batch_parallel true total size workers w = (w', inr (tps, m, t)) /\
    success m + errors m = total / size /\ t = size * success m /\ 0 <= t <= total /\
    ((forall req w, exists resp, (transport req w).2 = inr resp /\ status_code resp = 201) ->
      t = total - total mod size).
Proof.
  intros Hw Hs Hc.
  destruct (batch_parallel_spec true total size workers w (fun _ =>
    ~ (forall req w, exists resp, (transport (W := W) req w).2 = inr resp /\ status_code resp = 201))
    Hw Hs Hc) as (w' & tps & m & t & Hrun & Hsum & Ht & Hb & Hall).
  { apply Forall_fmap, Forall_forall. intros i _. apply timed_post_yields. intros [|] t t' H1 H2; cbn.
    - split; [by left|done].
    - split; [|done]. right. split; [done|]. intros Hr. by specialize (H2 eq_refl (fun w0 => Hr _ w0)). }
  exists w', tps, m, t. split_and!; try done; try lia. intros Hr. apply Hall. by intros Hn.
Qed.

End Properties.
