(* ===== verification/Orchestrator.v ===== *)
(** The benchmark orchestrator, bench_orchestrator.py. The object is a record;
    a result dict is shared between [run_test_case], [all_results] and
    [run_all], so it lives in a heap and is passed by reference. *)
From S2P Require Import Prelude Text PyFloat Python Json Requests.

Open Scope Z_scope.

(** ** Definitions *)

Local Open Scope py_scope.

(** *** Strings *)

Definition path_join (a b : string) : string := (a ++ "/" ++ b)%string.

Fixpoint starts_with (p s : string) : bool :=
  match p, s with
  | EmptyString, _ => true
  | String a p', String b s' => if decide (a = b) then starts_with p' s' else false
  | _, EmptyString => false
  end.

Definition ends_with (p s : string) : bool :=
  bool_decide (TrimSuffix s p <> s) || bool_decide (p = ""%string).

(** [p in s]. *)
Fixpoint contains (p s : string) : bool :=
  starts_with p s || match s with EmptyString => false | String _ s' => contains p s' end.

Fixpoint drop_string (n : nat) (s : string) : string :=
  match n, s with S n, String _ s' => drop_string n s' | _, _ => s end.

(** [s.replace(p, "")] for a non-empty [p]. *)
Fixpoint erase (fuel : nat) (p s : string) : string :=
  match fuel, s with
  | S fuel, String c s' =>
    if starts_with p s then erase fuel p (drop_string (String.length p) s) else String c (erase fuel p s')
  | _, _ => s
  end.
Definition replace_with_nothing (p s : string) : string := erase (String.length s) p s.

(** [float(s)] of a decimal literal; the words "inf" and "nan" and digit
    separators are not modelled. *)
Definition py_float (s : string) : exn + pynum :=
  let s := strip s in
  let '(sgn, s1) := match s with
                    | String "-" s1 => (-1, s1) | String "+" s1 => (1, s1) | _ => (1, s)
                    end in
  let '(v, n, s2) := take_digits s1 0 0 in
  let '(v, k, s3) := match s2 with
                     | String "." s3 => take_digits s3 v 0
                     | _ => (v, 0%nat, s2)
                     end in
  if decide (n + k = 0)%nat then inl ValueError
  else match parse_exponent s3 with
       | Some (ex, ""%string) => inr (decimal (sgn * v) (default 0 ex - Z.of_nat k))
       | _ => inl ValueError
       end.

(** *** The object *)

Abbreviation test_case := (string * string * string * Z * string)%type.

Record orch := mkOrch {
  run_id : string;
  results_dir : string;
  configs_dir : string;
  test_cases : list test_case;
  all_results : list nat;
  heap : list dict;
}.

Definition default_cases : list test_case :=
  [("safe-single", "2.0", "2048M", 8092, "high"); ("fast-batch", "2.0", "2048M", 8096, "high")]%string.

(** The three prefixes of [generate_all_configs]. *)
Definition base_config : dict := [
  ("server_port", VInt 8080);
  ("data_directory_path", VStr "/app/data");
  ("write_ahead_log_file_path", VStr "/app/data/wal.log");
  ("log_directory_path", VStr "/app/logs");
  ("maximum_memtable_size_in_bytes", VInt 67108864);
  ("level_zero_compaction_trigger_count", VInt 4);
  ("sstable_block_size_in_bytes", VInt 4096);
  ("bloom_filter_false_positive_rate", VNum (PFloat f_0_01));
  ("compaction_interval_in_seconds", VInt 5);
  ("authentication_secret", VStr "BENCHMARK_SECRET");
  ("authentication_token", VStr "");
  ("maximum_cpu_count", VInt 0);
  ("maximum_system_memory_in_bytes", VInt 0);
  ("enable_pprof_profiling", VBool false);
  ("key_cache_capacity_count", VInt 40000);
  ("log_severity_level", VStr "INFO")]%string.

Definition configs : list (string * dict) :=
  let safe_single := dict_update base_config [("enable_disk_durability"%string, VBool true)] in
  let safe_batch := dict_update base_config [("enable_disk_durability"%string, VBool true)] in
  let fast_single := dict_update base_config [("enable_disk_durability"%string, VBool false)] in
  let fast_batch := dict_update base_config [("enable_disk_durability"%string, VBool false)] in
  [("safe-single", safe_single); ("safe-batch", safe_batch);
   ("fast-single", fast_single); ("fast-batch", fast_batch)]%string.

(** [f"{d[k1][k2]:...f}"]: the number that is formatted. *)
Definition num_at (d : dict) (k1 k2 : string) : exn + pynum :=
  v <-! subscript2 (VDict d) k1 k2 ;; as_num v.

Section Benchmarks.
Context `{PyWorld W}.

Definition wait_for_server (fuel : nat) (url : string) (timeout : Z) : M W bool :=
  start <- now ;;
  wait_loop fuel start (f_of_Z timeout) (get_url (url ++ "/metrics") (Some 1)).

Definition benchmark_single (server_url : string) (count : Z) : M W dict :=
  start <- now ;;
  sums <- for_each (range count) ([], 0) (fun '(latencies, success) i =>
    t0 <- perf ;;
    resp <- attempt (send (json_post (server_url ++ "/put")
                             (item ("single_" ++ print_int i) (x_times 128)) 3)) ;;
    match resp with
    | inr resp =>
      t <- perf ;;
      ret (latencies ++ [ms_since t0 t], if status_code resp =? 201 then success + 1 else success)
    | inl _ => ret (latencies ++ [PInt 3000], success)
    end) ;;
  stop <- now ;;
  let '(latencies, success) := sums in
  let duration := f_sub stop start in
  let latencies := py_sort latencies in
  let or_zero (r : exn + pynum) := match latencies with [] => inr (PInt 0) | _ => r end in
  tps <- lift_exn (rate success duration) ;;
  p50 <- lift_exn (or_zero (index latencies (zlen latencies / 2))) ;;
  p95 <- lift_exn (or_zero (percentile latencies f_0_95)) ;;
  p99 <- lift_exn (or_zero (percentile latencies f_0_99)) ;;
  avg <- lift_exn (or_zero (mean latencies)) ;;
  ret [("count", VInt count); ("success", VInt success); ("tps", VNum tps); ("p50_ms", VNum p50);
       ("p95_ms", VNum p95); ("p99_ms", VNum p99); ("avg_ms", VNum avg)]%string.

Definition benchmark_batch (server_url : string) (total batch_size : Z) : M W dict :=
  num_batches <- lift_exn (floordiv total batch_size) ;;
  start <- now ;;
  success <- for_each (range num_batches) 0 (fun success i =>
    let keys := (fun j => "batch_" ++ print_int i ++ "_" ++ print_int j)%string <$> range batch_size in
    resp <- attempt (send (json_post (server_url ++ "/batch") (batch_of keys (x_times 128)) 10)) ;;
    ret match resp with
        | inr resp => if status_code resp =? 201 then success + batch_size else success
        | inl _ => success
        end) ;;
  stop <- now ;;
  tps <- lift_exn (rate success (f_sub stop start)) ;;
  ret [("total", VInt total); ("batch_size", VInt batch_size); ("success", VInt success);
       ("tps", VNum tps); ("batches", VInt num_batches)]%string.

(** The request of turn [i] of [benchmark_stress]. *)
Definition stress_request (server_url : string) (i : Z) : http_request :=
  let op := i mod 3 in
  if op =? 0 then
    json_post (server_url ++ "/put") (item ("stress_" ++ print_int i) (x_times 256)) 3
  else if op =? 1 then
    get_url (server_url ++ "/get?key=stress_" ++ print_int (i - 100)) (Some 3)
  else
    json_post (server_url ++ "/batch")
      (batch_of ((fun j => "stress_b_" ++ print_int i ++ "_" ++ print_int j)%string <$> range 10) "x") 5.

Definition stress_ok (resp : exn + http_response) : bool :=
  match resp with inr resp => (status_code resp =? 200) || (status_code resp =? 201) | inl _ => false end.

Definition benchmark_stress (server_url : string) (count : Z) : M W dict :=
  start <- now ;;
  success <- for_each (range count) 0 (fun success i =>
    resp <- attempt (send (stress_request server_url i)) ;;
    ret (if stress_ok resp then success + 1 else success)) ;;
  stop <- now ;;
  tps <- lift_exn (rate success (f_sub stop start)) ;;
  ret [("count", VInt count); ("success", VInt success); ("tps", VNum tps)]%string.

(** [run_benchmarks_with_monitoring]; the dict it returns. *)
Definition run_benchmarks (server_url load_type : string) : M W dict :=
  let results : dict := [("warmup", VDict []); ("single", VDict []); ("batch", VDict []);
    ("stress", VDict []); ("resources", VDict []); ("disk", VDict [])]%string in
  say_on [Txt "  🔥 Warmup (100 ops)..."] ;;;
  for_each (range 100) tt (fun _ i =>
    attempt (send (json_post (server_url ++ "/put") (item ("w" ++ print_int i) (x_times 64)) 2)) ;;; ret tt) ;;;
  say [Txt "✅"] ;;;
  say_on [Txt "  📝 Single operations (1000)..."] ;;;
  single <- benchmark_single server_url 1000 ;;
  let results := dict_set "single" (VDict single) results in
  tps <- lift_exn (num_at results "single" "tps") ;;
  p95 <- lift_exn (num_at results "single" "p95_ms") ;;
  say [Fmt ",.0f" tps; Txt " TPS (p95: "; Fmt ".2f" p95; Txt "ms)"] ;;;
  say_on [Txt "  📦 Batch operations (5000 items)..."] ;;;
  batch <- benchmark_batch server_url 5000 100 ;;
  let results := dict_set "batch" (VDict batch) results in
  tps <- lift_exn (num_at results "batch" "tps") ;;
  say [Fmt ",.0f" tps; Txt " TPS"] ;;;
  if bool_decide (load_type = "medium"%string \/ load_type = "high"%string) then
    let stress_ops := if bool_decide (load_type = "high"%string) then 10000 else 5000 in
    say_on [Txt "  💥 Stress test ("; Fmt "" (PInt stress_ops); Txt " ops)..."] ;;;
    stress <- benchmark_stress server_url stress_ops ;;
    let results := dict_set "stress" (VDict stress) results in
    tps <- lift_exn (num_at results "stress" "tps") ;;
    say [Fmt ",.0f" tps; Txt " TPS"] ;;;
    ret results
  else ret results.

(** [mem_used_str] to megabytes: MiB and GiB only. *)
Definition parse_memory (mem_usage : string) : exn + pynum :=
  let mem_used_str := strip (List.hd ""%string (Split "/" mem_usage)) in
  v <-! py_float (replace_with_nothing "GiB" (replace_with_nothing "MiB" mem_used_str)) ;;
  inr (if contains "GiB" mem_used_str then num_mul v (PInt 1024) else v).

Definition parse_cpu (perc : string) : exn + pynum :=
  let cpu_str := strip (replace_with_nothing "%" perc) in
  if bool_decide (cpu_str = ""%string) then inr (PInt 0) else py_float cpu_str.

(** [stats.get(name, dflt)], used as a string. *)
Definition stat_string (stats : pyval) (name dflt : string) : exn + string :=
  match stats with
  | VDict d => match dict_get name d with
               | None => inr dflt
               | Some (VStr s) => inr s
               | Some _ => inl AttributeError
               end
  | _ => inl AttributeError
  end.

Definition no_metrics : dict := [("memory_mb", VInt 0); ("cpu_percent", VInt 0)]%string.

(** [hasattr(self, 'current_result')] is false: nothing ever sets it. *)
Definition collect_resource_metrics (container_name case_dir : string) : M W dict :=
  say_on [Txt "  📊 Collecting resource metrics..."] ;;;
  result <- run_process ["docker"; "stats"; container_name; "--no-stream"; "--format"; "{{json .}}"]%string None ;;
  if (returncode result =? 0) && negb (bool_decide (stdout result = ""%string)) then
    try_except
      (stats <- lift_exn (loads (stdout result)) ;;
       mem_usage <- lift_exn (stat_string stats "MemUsage" "0 / 0") ;;
       mem_value <- lift_exn (parse_memory mem_usage) ;;
       perc <- lift_exn (stat_string stats "CPUPerc" "0%") ;;
       cpu_value <- lift_exn (parse_cpu perc) ;;
       let metrics : dict := [("memory_mb", VNum mem_value); ("cpu_percent", VNum cpu_value); ("raw", stats)]%string in
       save (path_join (path_join case_dir "metrics") "resources.json") (CJson (VDict metrics)) ;;;
       say [Txt "✅"] ;;;
       ret metrics)
      (fun e => say [Txt "⚠️ ("; Exc e; Txt ")"] ;;; ret no_metrics)
  else say [Txt "⚠️ (failed)"] ;;; ret no_metrics.

Definition megabytes (size : Z) : exn + pynum := num_div (PInt size) (PInt (1024 * 1024)).

Definition total_size (files : list (string * bool * Z)) : Z :=
  foldr (fun '(_, is_file, size) n => (if is_file : bool then size else 0) + n) 0 files.

Definition collect_disk_metrics (case_dir : string) : M W dict :=
  say_on [Txt "  💾 Collecting disk metrics..."] ;;;
  found <- call (fun w => (w, rglob (path_join case_dir "data") w)) ;;
  let wal_files := filter (fun '(name, _, _) => starts_with "wal.log" name && negb (contains "/" name)) found in
  let sstable_files := filter (fun '(name, _, _) => ends_with ".sst" name) found in
  data_mb <- lift_exn (megabytes (total_size found)) ;;
  wal_mb <- lift_exn (megabytes (total_size wal_files)) ;;
  sstable_mb <- lift_exn (megabytes (total_size sstable_files)) ;;
  let metrics : dict := [("data_mb", VNum data_mb); ("wal_mb", VNum wal_mb); ("sstable_mb", VNum sstable_mb);
    ("wal_files", VInt (zlen wal_files)); ("sstable_files", VInt (zlen sstable_files));
    ("total_files", VInt (zlen found))]%string in
  save (path_join (path_join case_dir "metrics") "disk.json") (CJson (VDict metrics)) ;;;
  say [Txt "✅"] ;;;
  ret metrics.

End Benchmarks.

(** *** The object's methods that change it *)

Section Methods.
Context `{PyWorld W}.

(** World actions inside the object. *)
Definition io {A} (m : M W A) : M (orch * W) A := fun '(o, w) => let '(w, r) := m w in ((o, w), r).
Definition self : M (orch * W) orch := fun '(o, w) => ((o, w), inr o).

(** A new result dict; [r[k] = v] through a reference; reading it. *)
Definition alloc (d : dict) : M (orch * W) nat := fun '(o, w) =>
  ((mkOrch (run_id o) (results_dir o) (configs_dir o) (test_cases o) (all_results o) (heap o ++ [d]), w),
   inr (length (heap o))).
Definition setitem (r : nat) (k : string) (v : pyval) : M (orch * W) unit := fun '(o, w) =>
  ((mkOrch (run_id o) (results_dir o) (configs_dir o) (test_cases o) (all_results o)
      (alter (dict_set k v) r (heap o)), w), inr tt).
Definition deref (r : nat) (o : orch) : dict := default [] (heap o !! r).
Definition append_result (r : nat) : M (orch * W) unit := fun '(o, w) =>
  ((mkOrch (run_id o) (results_dir o) (configs_dir o) (test_cases o) (all_results o ++ [r]) (heap o), w), inr tt).

Definition new_orchestrator : M W orch :=
  id <- call (strftime "%Y%m%d_%H%M%S") ;;
  ret (mkOrch id ("benchmark_results_" ++ id) "bench_configs" default_cases [] []).

Definition absolute (p : string) : M (orch * W) string := fun '(o, w) =>
  ((o, w), inr (if starts_with "/" p then p else path_join (cwd w) p)).

Definition generate_all_configs : M (orch * W) unit :=
  o <- self ;;
  io (mkdir (configs_dir o)) ;;;
  for_each configs tt (fun _ '(name, config) =>
    io (save (path_join (configs_dir o) (name ++ ".json")) (CJson (VDict config)))).

Definition setup : M (orch * W) unit :=
  o <- self ;;
  io (say [ruler "=" 80; nl; Txt "SNDV-KV COMPREHENSIVE BENCHMARK"; nl; ruler "=" 80]) ;;;
  io (say [nl; Txt "Run ID: "; Txt (run_id o)]) ;;;
  io (say [Txt "Test Cases: "; Fmt "" (PInt (zlen (test_cases o)))]) ;;;
  io (say [Txt "Output: "; Txt (results_dir o); nl]) ;;;
  io (mkdir (results_dir o)) ;;;
  io (mkdir (path_join (results_dir o) "build_artifacts")) ;;;
  generate_all_configs ;;;
  io (say [Txt "✅ Configs generated"; nl]).

(** Every path that is listed exists. *)
Definition path_exists (dir name : string) : M (orch * W) bool := fun '(o, w) =>
  ((o, w), inr (existsb (fun '(n, _, _) => String.eqb n name) (rglob dir w))).

Definition extract_build_artifacts : M (orch * W) unit :=
  o <- self ;;
  let temp_container := ("extract-" ++ run_id o)%string in
  let artifacts_dir := path_join (results_dir o) "build_artifacts" in
  try_finally
    (try_except
      (io (run_checked ["docker"; "create"; "--name"; temp_container; "sndv-kv:benchmark"]%string) ;;;
       io (run_checked ["docker"; "cp"; (temp_container ++ ":/artifacts/.")%string; artifacts_dir]%string) ;;;
       io (say [Txt "✅ Extracted to "; Txt artifacts_dir]) ;;;
       unit_tests <- path_exists artifacts_dir "unit-tests" ;;
       (if unit_tests then io (say [Txt "   - Unit test results + coverage"]) else ret tt) ;;;
       benchmarks <- path_exists artifacts_dir "benchmarks" ;;
       (if benchmarks then io (say [Txt "   - Go benchmark results + profiles"]) else ret tt) ;;;
       build <- path_exists artifacts_dir "build" ;;
       if build then io (say [Txt "   - Build metrics"]) else ret tt)
      (fun e => io (say [Txt "⚠️  Could not extract: "; Exc e])))
    (io (run_process ["docker"; "rm"; temp_container]%string None) ;;; ret tt).

Definition build_image : M (orch * W) bool :=
  io (say [Txt "Building Docker image (multi-stage)..."; nl; Txt "  Stage 1: Unit tests + coverage"; nl;
    Txt "  Stage 2: Go benchmarks + profiling"; nl; Txt "  Stage 3: Binary build + metrics"; nl;
    Txt "  Stage 4: Runtime image"; nl]) ;;;
  result <- io (run_process ["docker"; "build"; "-f"; "Dockerfile.benchmark"; "-t"; "sndv-kv:benchmark"; "."]%string None) ;;
  if negb (returncode result =? 0) then io (say [Txt "❌ Build failed:"; nl; Txt (stderr result)]) ;;; ret false
  else
    io (say [Txt "✅ Image built"; nl]) ;;;
    io (say [Txt "📦 Extracting build artifacts..."]) ;;;
    extract_build_artifacts ;;;
    ret true.

(** [list.index(x)] plus one. *)
Fixpoint case_index (c : test_case) (l : list test_case) (i : Z) : exn + Z :=
  match l with
  | [] => inl ValueError
  | c' :: l' => if decide (c' = c) then inr (i + 1) else case_index c l' (i + 1)
  end.

Definition docker_stop (container_name : string) : M (orch * W) unit :=
  io (run_process ["docker"; "stop"; container_name]%string None) ;;; ret tt.

Definition case_name_of (mode vcpu memory : string) : string := (mode ++ "-" ++ vcpu ++ "cpu-" ++ memory)%string.

(** The summary of a stored result. *)
Definition print_summary (results : nat) : M (orch * W) unit :=
  o <- self ;;
  let r := deref results o in
  io (say [nl; Txt "  📊 Results:"]) ;;;
  for_each [("     Single TPS:     ", "single", "tps", ">10,.0f", ""); ("     Batch TPS:      ", "batch", "tps", ">10,.0f", "");
            ("     Memory Used:    ", "resources", "memory_mb", ">10.2f", " MB");
            ("     CPU Used:       ", "resources", "cpu_percent", ">10.2f", "%");
            ("     Data Size:      ", "disk", "data_mb", ">10.2f", " MB");
            ("     WAL Size:       ", "disk", "wal_mb", ">10.2f", " MB")]%string tt (fun _ '(label, k1, k2, spec, unit) =>
    n <- lift_exn (num_at r k1 k2) ;;
    io (say [Txt label; Fmt spec n; Txt unit])) ;;;
  io (say [Txt "  ✅ Complete"]).

(** The [try] block of [run_test_case]: the benchmarks, the result dict, its
    file, the summary. *)
Definition measured_case (server_url container_name case_dir case_name : string) (tc : test_case)
    : M (orch * W) nat :=
  let '(mode, vcpu, memory, port, load_type) := tc in
  d <- io (run_benchmarks server_url load_type) ;;
  results <- alloc d ;;
  setitem results "test_case" (VStr case_name) ;;;
  setitem results "vcpu" (VStr vcpu) ;;;
  setitem results "memory" (VStr memory) ;;;
  setitem results "mode" (VStr mode) ;;;
  setitem results "load_type" (VStr load_type) ;;;
  stamp <- io (call isoformat) ;;
  setitem results "timestamp" (VStr stamp) ;;;
  resources <- io (collect_resource_metrics container_name case_dir) ;;
  setitem results "resources" (VDict resources) ;;;
  disk <- io (collect_disk_metrics case_dir) ;;
  setitem results "disk" (VDict disk) ;;;
  o <- self ;;
  io (save (path_join (path_join case_dir "metrics") "results.json") (CJson (VDict (deref results o)))) ;;;
  append_result results ;;;
  print_summary results ;;;
  ret results.

(** [None] is Python's None. *)
Definition run_test_case (fuel : nat) (tc : test_case) : M (orch * W) (option nat) :=
  let '(mode, vcpu, memory, port, load_type) := tc in
  o <- self ;;
  let case_name := case_name_of mode vcpu memory in
  idx <- lift_exn (case_index tc (test_cases o) 0) ;;
  io (say [nl; Txt "["; Fmt "" (PInt idx); Txt "/"; Fmt "" (PInt (zlen (test_cases o))); Txt "] "; Txt case_name; nl;
           ruler "=" 80]) ;;;
  io (say [Txt "  Resources: "; Txt vcpu; Txt " vCPU, "; Txt memory; Txt " RAM"]) ;;;
  io (say [Txt "  Mode: "; Txt mode]) ;;;
  io (say [Txt "  Expected load: "; Txt load_type; nl; ruler "-" 80]) ;;;
  let case_dir := path_join (results_dir o) case_name in
  io (mkdir case_dir) ;;;
  io (mkdir (path_join case_dir "data")) ;;;
  io (mkdir (path_join case_dir "logs")) ;;;
  io (mkdir (path_join case_dir "metrics")) ;;;
  let container_name := ("bench-" ++ case_name ++ "-" ++ run_id o)%string in
  abs_case <- absolute case_dir ;;
  abs_conf <- absolute (configs_dir o) ;;
  io (say_on [Txt "  🚀 Starting container..."]) ;;;
  result <- io (run_process ["docker"; "run"; "--name"; container_name; "--rm"; "-d"; "--cpus"; vcpu;
    "--memory"; memory;
    "-v"; (path_join abs_case "data" ++ ":/app/data")%string;
    "-v"; (path_join abs_case "logs" ++ ":/app/logs")%string;
    "-v"; (path_join abs_conf (mode ++ ".json") ++ ":/config/config.json:ro")%string;
    "-p"; (print_int port ++ ":8080")%string;
    "sndv-kv:benchmark"; "-config"; "/config/config.json"]%string None) ;;
  if negb (returncode result =? 0) then io (say [Txt "❌"; nl; Txt "     "; Txt (stderr result)]) ;;; ret None
  else
    io (say [Txt "✅ ("; Txt (String.substring 0 12 (strip (stdout result))); Txt ")"]) ;;;
    let server_url := ("http://localhost:" ++ print_int port)%string in
    up <- io (wait_for_server fuel server_url 15) ;;
    if negb up then
      io (say [Txt "  ❌ Server timeout"]) ;;; docker_stop container_name ;;; ret None
    else
      io (say [Txt "  ✅ Server ready"]) ;;;
      try_finally
        (results <- measured_case server_url container_name case_dir case_name tc ;; ret (Some results))
        (docker_stop container_name ;;; io (sleep (f_of_Z 2))).

(** The body of [run_all]'s loop: the metrics are collected again, after
    [run_test_case] stopped the container, and overwrite the shared dict. *)
Definition run_case (fuel : nat) (tc : test_case) : M (orch * W) unit :=
  let '(mode, vcpu, memory, port, load_type) := tc in
  result <- run_test_case fuel tc ;;
  match result with
  | None => ret tt
  | Some r =>
    o <- self ;;
    let case_name := case_name_of mode vcpu memory in
    let case_dir := path_join (results_dir o) case_name in
    if bool_decide (deref r o = []) then ret tt
    else
      resources <- io (collect_resource_metrics ("bench-" ++ case_name ++ "-" ++ run_id o) case_dir) ;;
      disk <- io (collect_disk_metrics case_dir) ;;
      setitem r "resources" (VDict resources) ;;;
      setitem r "disk" (VDict disk)
  end.

Definition run_all (fuel : nat) : M (orch * W) unit :=
  o <- self ;;
  io (say [nl; Txt "Running benchmark matrix..."; nl]) ;;;
  for_each (test_cases o) tt (fun _ tc => run_case fuel tc).

(** *** The report *)

(** [f"{r[k]}"] and [f"{r[k1][k2]:spec}"]. *)
Definition show (r : dict) (k : string) : M text text :=
  lift_exn (v <-! subscript (VDict r) k ;; inr [Rpr v]).
Definition show_num (r : dict) (k1 k2 spec : string) : M text text :=
  lift_exn (n <-! num_at r k1 k2 ;; inr [Fmt spec n]).

Definition perf_row (r : dict) : M text unit :=
  a <- show r "test_case" ;; b <- show r "vcpu" ;; c <- show r "memory" ;;
  d <- show_num r "single" "tps" ",.0f" ;; e <- show_num r "batch" "tps" ",.0f" ;;
  f <- show_num r "single" "p95_ms" ".2f" ;;
  g <- show_num r "resources" "memory_mb" ".1f" ;; h <- show_num r "resources" "cpu_percent" ".1f" ;;
  emit (Txt "| " :: a ++ Txt " | " :: b ++ Txt " | " :: c ++ Txt " | " :: d ++ Txt " | " :: e ++
        Txt " | " :: f ++ Txt "ms | " :: g ++ Txt "MB | " :: h ++ [Txt "% |"; nl]).

Definition disk_row (r : dict) : M text unit :=
  a <- show r "test_case" ;;
  b <- show_num r "disk" "data_mb" ".2f" ;; c <- show_num r "disk" "wal_mb" ".2f" ;;
  d <- show_num r "disk" "sstable_mb" ".2f" ;;
  e <- lift_exn (v <-! subscript2 (VDict r) "disk" "wal_files" ;; inr [Rpr v]) ;;
  emit (Txt "| " :: a ++ Txt " | " :: b ++ Txt "MB | " :: c ++ Txt "MB | " :: d ++ Txt "MB | " :: e ++ [Txt " |"; nl]).

(** [max(results, key=lambda r: r[k]['tps'])]: the keys are computed first, and
    a missing one raises; the first maximal result is returned. *)
Definition best_by (k : string) (results : list dict) : exn + dict :=
  (fix go (best : option (dict * pynum)) (l : list dict) : exn + dict :=
     match l with
     | [] => match best with Some (r, _) => inr r | None => inl ValueError end
     | r :: l' =>
       n <-! num_at r k "tps" ;;
       go (match best with
           | Some (b, m) => if num_lt m n then Some (r, n) else Some (b, m)
           | None => Some (r, n)
           end) l'
     end) None results.

Definition report_tables (run_id date : string) (results : list dict) : M text unit :=
  emit [Txt "# SNDV-KV Comprehensive Benchmark Report"; nl; nl] ;;;
  emit [Txt "**Run ID:** "; Txt run_id; nl] ;;;
  emit [Txt "**Date:** "; Txt date; nl] ;;;
  emit [Txt "**Test Cases:** "; Fmt "" (PInt (zlen results)); nl; nl] ;;;
  emit [Txt "## Performance Summary"; nl; nl] ;;;
  emit [Txt "| Test Case | vCPU | RAM | Single TPS | Batch TPS | p95 Latency | Memory Used | CPU Used |"; nl] ;;;
  emit [Txt "|-----------|------|-----|------------|-----------|-------------|-------------|----------|"; nl] ;;;
  for_each results tt (fun _ r => perf_row r) ;;;
  emit [nl; Txt "## Disk Usage"; nl; nl] ;;;
  emit [Txt "| Test Case | Data Size | WAL Size | SSTables | WAL Files |"; nl] ;;;
  emit [Txt "|-----------|-----------|----------|----------|-----------|"; nl] ;;;
  for_each results tt (fun _ r => disk_row r).

Definition report_best (results : list dict) : M text unit :=
  emit [nl; Txt "## Best Configurations"; nl; nl] ;;;
  best_single <- lift_exn (best_by "single" results) ;;
  best_batch <- lift_exn (best_by "batch" results) ;;
  a <- show best_single "test_case" ;;
  emit (Txt "**Best Single TPS:** " :: a ++ [nl]) ;;;
  b <- show_num best_single "single" "tps" ",.0f" ;;
  emit (Txt "- TPS: " :: b ++ [nl]) ;;;
  c <- show_num best_single "single" "p95_ms" ".2f" ;;
  emit (Txt "- p95: " :: c ++ [Txt "ms"; nl]) ;;;
  d <- show_num best_single "resources" "memory_mb" ".1f" ;;
  emit (Txt "- Memory: " :: d ++ [Txt "MB"; nl; nl]) ;;;
  e <- show best_batch "test_case" ;;
  emit (Txt "**Best Batch TPS:** " :: e ++ [nl]) ;;;
  f <- show_num best_batch "batch" "tps" ",.0f" ;;
  emit (Txt "- TPS: " :: f ++ [nl]) ;;;
  g <- show_num best_batch "resources" "memory_mb" ".1f" ;;
  emit (Txt "- Memory: " :: g ++ [Txt "MB"; nl; nl]).

Definition report_text (run_id date : string) (results : list dict) : M text unit :=
  report_tables run_id date results ;;; report_best results.

Definition generate_comprehensive_report : M (orch * W) unit :=
  o <- self ;;
  io (say [nl; ruler "=" 80; nl; Txt "Generating comprehensive report..."; nl; ruler "=" 80; nl]) ;;;
  let results := (fun r => deref r o) <$> all_results o in
  io (save (path_join (results_dir o) "all_results.json") (CJson (VList (VDict <$> results)))) ;;;
  let report_path := path_join (results_dir o) "COMPREHENSIVE_REPORT.md" in
  date <- io (call isoformat) ;;
  io (with_open report_path (report_text (run_id o) date results)) ;;;
  io (say [Txt "✅ Report saved: "; Txt report_path; nl;
           Txt "✅ JSON saved: "; Txt (path_join (results_dir o) "all_results.json"); nl;
           Txt "✅ Build artifacts: "; Txt (path_join (results_dir o) "build_artifacts")]).

(** [main]'s result is the exit status. *)
Definition main_body (fuel : nat) : M (orch * W) Z :=
  setup ;;;
  built <- build_image ;;
  if negb built then ret 1
  else
    run_all fuel ;;;
    generate_comprehensive_report ;;;
    io (say [nl; Txt "✅ Benchmark complete!"]) ;;;
    ret 0.

Definition main (fuel : nat) : M W Z := fun w =>
  match new_orchestrator w with
  | (w, inl e) => (w, inl e)
  | (w, inr o) => let '((_, w), r) := main_body fuel (o, w) in (w, r)
  end.

End Methods.

(** ** Lemmas *)

Section BenchLemmas.
Context `{PyWorld W}.

(** The loop of [benchmark_single]. *)
Definition single_request (server_url : string) (i : Z) : http_request :=
  json_post (server_url ++ "/put") (item ("single_" ++ print_int i) (x_times 128)) 3.

Definition single_turn (server_url : string) (acc : list pynum * Z) (i : Z) : M W (list pynum * Z) :=
  (let '(latencies, success) := acc in
   t0 <- perf ;;
   resp <- attempt (send (single_request server_url i)) ;;
   match resp with
   | inr resp =>
     t <- perf ;;
     ret (latencies ++ [ms_since t0 t], if status_code resp =? 201 then success + 1 else success)
   | inl _ => ret (latencies ++ [PInt 3000], success)
   end)%py.

(** One turn adds one latency, and one success exactly on a 201. *)
Lemma single_turn_spec url lats n i w : exists w' lat ok,
  single_turn url (lats, n) i w = (w', inr (lats ++ [lat], n + (if ok : bool then 1 else 0))) /\
  (lat = PInt 3000 \/ exists t0 t, lat = ms_since t0 t /\ exists w1 w2, (perf_counter w1).2 = t0 /\ (perf_counter w2).2 = t) /\
  ((forall req w, answers req w 201) -> ok = true) /\
  ((forall req w, ~ answers req w 201) -> ok = false).
Proof.
  unfold single_turn. unfold perf. rewrite bind_call. destruct (perf_counter w) as [w1 t0] eqn:E0.
  rewrite bind_attempt_send. destruct (transport (single_request url i) w1) as [w2 r] eqn:Et.
  destruct r as [why|resp].
  - exists w2, (PInt 3000), false. unfold ret. rewrite Z.add_0_r. split_and!; [done|by left| |done].
    intros Hall. destruct (Hall (single_request url i) w1) as (resp & Hr & _). by rewrite Et in Hr.
  - rewrite bind_call. destruct (perf_counter w2) as [w3 t] eqn:E3.
    exists w3, (ms_since t0 t), (status_code resp =? 201). split_and!.
    + unfold ret. do 3 f_equal. destruct (_ =? _); lia.
    + right. exists t0, t. split; [done|]. exists w, w2. by rewrite E0, E3.
    + intros Hall. destruct (Hall (single_request url i) w1) as (resp' & Hr & Hs). rewrite Et in Hr. cbn in Hr.
      injection Hr as <-. by apply Z.eqb_eq.
    + intros Hno. apply Z.eqb_neq. intros Hs. apply (Hno (single_request url i) w1). exists resp. by rewrite Et.
Qed.

(** What a latency of [benchmark_single] can be. *)
Definition measured (lat : pynum) : Prop :=
  lat = PInt 3000 \/ exists t0 t, lat = ms_since t0 t /\
    exists w1 w2, (perf_counter w1).2 = t0 /\ (perf_counter w2).2 = t.

Lemma single_loop_spec url l : forall lats n w, exists w' lats' n',
  for_each l (lats, n) (single_turn url) w = (w', inr (lats ++ lats', n')) /\
  length lats' = length l /\ Forall measured lats' /\ n <= n' <= n + zlen l /\
  ((forall req w, answers req w 201) -> n' = n + zlen l) /\
  ((forall req w, ~ answers req w 201) -> n' = n).
Proof.
  induction l as [|i l IH]; intros lats n w.
  { exists w, [], n. cbn. unfold ret, zlen. cbn. rewrite app_nil_r. split_and!; try done; lia. }
  cbn [for_each]. destruct (single_turn_spec url lats n i w) as (w1 & lat & ok & Ht & Hm & H1 & H2).
  unfold bind. rewrite Ht.
  destruct (IH (lats ++ [lat]) (n + (if ok then 1 else 0)) w1) as (w2 & lats' & n' & -> & Hlen & Hms & Hn & H3 & H4).
  exists w2, (lat :: lats'), n'. rewrite <- app_assoc. unfold zlen in *. cbn [length app].
  split_and!; [done|by f_equal|by constructor|destruct ok; lia|destruct ok; lia| |].
  - intros Hall. rewrite (H1 Hall) in H3. specialize (H3 Hall). lia.
  - intros Hall. rewrite (H2 Hall) in H4. specialize (H4 Hall). lia.
Qed.

End BenchLemmas.

Lemma lat_ok_measured `{PyWorld W} lat :
  (forall w w' : W, f_nan (f_mul (f_sub (perf_counter w').2 (perf_counter w).2) (f_of_Z 1000)) = false) ->
  measured lat -> lat_ok lat.
Proof.
  intros Hclock [->|(t0 & t & -> & w1 & w2 & <- & <-)]; [done|]. apply Hclock.
Qed.

(** *** Reports *)

(** A complete result: what [run_test_case] stores. *)
Definition complete_result (r : dict) : Prop :=
  (exists v, dict_get "test_case" r = Some v) /\ (exists v, dict_get "vcpu" r = Some v) /\
  (exists v, dict_get "memory" r = Some v) /\
  (exists n, num_at r "single" "tps" = inr n) /\ (exists n, num_at r "batch" "tps" = inr n) /\
  (exists n, num_at r "single" "p95_ms" = inr n) /\
  (exists n, num_at r "resources" "memory_mb" = inr n) /\ (exists n, num_at r "resources" "cpu_percent" = inr n) /\
  (exists n, num_at r "disk" "data_mb" = inr n) /\ (exists n, num_at r "disk" "wal_mb" = inr n) /\
  (exists n, num_at r "disk" "sstable_mb" = inr n) /\ (exists v, subscript2 (VDict r) "disk" "wal_files" = inr v).

Lemma show_ok r k v t : dict_get k r = Some v -> show r k t = (t, inr [Rpr v]).
Proof. unfold show, subscript. by intros ->. Qed.

Lemma show_num_ok r k1 k2 spec n t : num_at r k1 k2 = inr n -> show_num r k1 k2 spec t = (t, inr [Fmt spec n]).
Proof. unfold show_num. by intros ->. Qed.

Lemma perf_row_ok r t : complete_result r -> exists t', perf_row r t = (t', inr tt).
Proof.
  intros ([a Ha] & [b Hb] & [c Hc] & [d Hd] & [e He] & [f Hf] & [g Hg] & [h Hh] & _).
  unfold perf_row, bind. rewrite (show_ok _ _ _ _ Ha), (show_ok _ _ _ _ Hb), (show_ok _ _ _ _ Hc).
  rewrite (show_num_ok _ _ _ _ _ _ Hd), (show_num_ok _ _ _ _ _ _ He), (show_num_ok _ _ _ _ _ _ Hf).
  rewrite (show_num_ok _ _ _ _ _ _ Hg), (show_num_ok _ _ _ _ _ _ Hh). by eexists.
Qed.

Lemma disk_row_ok r t : complete_result r -> exists t', disk_row r t = (t', inr tt).
Proof.
  intros ([a Ha] & _ & _ & _ & _ & _ & _ & _ & [b Hb] & [c Hc] & [d Hd] & [e He]).
  unfold disk_row, bind. rewrite (show_ok _ _ _ _ Ha).
  rewrite (show_num_ok _ _ _ _ _ _ Hb), (show_num_ok _ _ _ _ _ _ Hc), (show_num_ok _ _ _ _ _ _ Hd).
  unfold lift_exn, ebind. rewrite He. by eexists.
Qed.

(** The maximum exists, and no result beats it. *)
Definition best_go (k : string) : option (dict * pynum) -> list dict -> exn + dict :=
  fix go (best : option (dict * pynum)) (l : list dict) : exn + dict :=
    match l with
    | [] => match best with Some (r, _) => inr r | None => inl ValueError end
    | r :: l' =>
      (n <-! num_at r k "tps" ;;
       go (match best with
           | Some (b, m) => if num_lt m n then Some (r, n) else Some (b, m)
           | None => Some (r, n)
           end) l')%py
    end.

Lemma best_go_in k l : Forall (fun r => exists n, num_at r k "tps" = inr n) l ->
  forall b m, exists r, best_go k (Some (b, m)) l = inr r /\ (r = b \/ r ∈ l).
Proof.
  induction 1 as [|r l [n Hn] Hl IH]; intros b m; cbn [best_go].
  - exists b. by split; [|left].
  - unfold ebind. rewrite Hn. destruct (num_lt m n).
    + destruct (IH r n) as (x & -> & [->|Hx]); eexists; (split; [done|]); right; [left|by right].
    + destruct (IH b m) as (x & -> & [->|Hx]); eexists; (split; [done|]); [by left|right; by right].
Qed.

Lemma best_by_in k l : l <> [] -> Forall (fun r => exists n, num_at r k "tps" = inr n) l ->
  exists r, best_by k l = inr r /\ r ∈ l.
Proof.
  intros Hne Hl. change (best_by k l) with (best_go k None l).
  destruct Hl as [|r l [n Hn] Hl]; [done|]. cbn [best_go]. unfold ebind. rewrite Hn.
  destruct (best_go_in k l Hl r n) as (x & -> & [->|Hx]); eexists; (split; [done|]); [left|by right].
Qed.

Lemma report_tables_ok id date results out : Forall complete_result results ->
  exists t, report_tables id date results out = (t, inr tt).
Proof.
  intros Hr. unfold report_tables. rewrite !bind_emit. unfold bind at 1.
  match goal with |- context [for_each results tt _ ?o] =>
    destruct (for_each_ok results perf_row complete_result (fun x s => perf_row_ok x s) Hr o) as [t1 ->] end.
  rewrite !bind_emit. by apply (for_each_ok results disk_row complete_result); [intros; by apply disk_row_ok|].
Qed.

Lemma report_best_ok results out : results <> [] -> Forall complete_result results ->
  exists t, report_best results out = (t, inr tt).
Proof.
  intros Hne Hr. unfold report_best. rewrite bind_emit.
  destruct (best_by_in "single" results Hne) as (s & -> & Hs).
  { eapply Forall_impl; [exact Hr|]. intros r (_ & _ & _ & Hn & _). exact Hn. }
  destruct (best_by_in "batch" results Hne) as (b & -> & Hb).
  { eapply Forall_impl; [exact Hr|]. intros r (_ & _ & _ & _ & Hn & _). exact Hn. }
  rewrite Forall_forall in Hr.
  destruct (Hr s Hs) as ([a1 Ha1] & _ & _ & [d1 Hd1] & _ & [f1 Hf1] & [g1 Hg1] & _).
  destruct (Hr b Hb) as ([a2 Ha2] & _ & _ & _ & [e2 He2] & _ & [g2 Hg2] & _).
  rewrite !bind_lift. unfold bind, emit.
  rewrite (show_ok _ _ _ _ Ha1), (show_num_ok _ _ _ _ _ _ Hd1), (show_num_ok _ _ _ _ _ _ Hf1), (show_num_ok _ _ _ _ _ _ Hg1).
  rewrite (show_ok _ _ _ _ Ha2), (show_num_ok _ _ _ _ _ _ He2), (show_num_ok _ _ _ _ _ _ Hg2). by eexists.
Qed.

(** *** Docker containers under the orchestrator *)

(** What the orchestrator relies on docker for: a container runs only once
    [docker run] succeeded with its name, [docker stop] stops it, and, as it
    was started with [--rm], [docker stats] of a stopped one fails. *)
Class DockerWorld (W : Type) `{PyWorld W} := {
  container_up : string -> W -> bool;
  print_up : forall n t w, container_up n (print t w) = container_up n w;
  sleep_up : forall n t w, container_up n (time_sleep t w) = container_up n w;
  mkdir_up : forall n p w, container_up n (mkdir_exist_ok p w).1 = container_up n w;
  run_up : forall n rest w, container_up n w = false ->
    let '(w', r) := exec ("docker" :: "run" :: "--name" :: n :: rest)%string None w in
    (forall c, r = Some (Some c) -> returncode c <> 0) -> container_up n w' = false;
  stop_up : forall n w, container_up n (exec ["docker"; "stop"; n]%string None w).1 = false;
  stats_down : forall n w, container_up n w = false -> exists w' c,
    exec ["docker"; "stats"; n; "--no-stream"; "--format"; "{{json .}}"]%string None w = (w', Some (Some c)) /\
    returncode c <> 0;
}.

Lemma bind_inr {S A C} (m : M S A) (k : A -> M S C) s s' c : bind m k s = (s', inr c) ->
  exists s1 a, m s = (s1, inr a) /\ k a s1 = (s', inr c).
Proof. unfold bind. destruct (m s) as [s1 [e|a]]; [done|]. intros Hk. by exists s1, a. Qed.

Section Containers.
Context `{DockerWorld W}.

Definition container_of (o : orch) (tc : test_case) : string :=
  let '(mode, vcpu, memory, _, _) := tc in ("bench-" ++ case_name_of mode vcpu memory ++ "-" ++ run_id o)%string.

(** A method that leaves a part of the object alone. *)
Definition keeps {X A} (f : orch -> X) (m : M (orch * W) A) : Prop := forall o w, f (m (o, w)).1.1 = f o.

Lemma keeps_bind {X A C} (f : orch -> X) (m : M (orch * W) A) (k : A -> M (orch * W) C) :
  keeps f m -> (forall a, keeps f (k a)) -> keeps f (bind m k).
Proof.
  intros Hm Hk o w. unfold bind. specialize (Hm o w). destruct (m (o, w)) as [[o1 w1] [e|a]]; [done|].
  cbn in Hm. rewrite <- Hm. apply Hk.
Qed.

Lemma keeps_io {X A} (f : orch -> X) (m : M W A) : keeps f (io m).
Proof. intros o w. unfold io. by destruct (m w). Qed.

Lemma keeps_for_each {X A C} (f : orch -> X) (l : list A) (body : C -> A -> M (orch * W) C) :
  (forall c x, keeps f (body c x)) -> forall acc, keeps f (for_each l acc body).
Proof. intros Hb. induction l as [|x l IH]; intros acc; [done|]. apply keeps_bind; [apply Hb|apply IH]. Qed.

Ltac solve_keeps :=
  repeat first [apply keeps_bind; [|intros ?] | apply keeps_io
    | apply keeps_for_each; intros ? [] | case_match | done].

Lemma print_summary_keeps {X} (f : orch -> X) r : keeps f (print_summary r).
Proof. unfold print_summary. solve_keeps. Qed.

Lemma measured_case_id url n dir name tc : keeps run_id (measured_case url n dir name tc).
Proof.
  destruct tc as [[[[mode vcpu] memory] port] load]. unfold measured_case.
  repeat first [apply keeps_bind; [|intros ?] | apply keeps_io | apply print_summary_keeps | done].
Qed.

(** A successful measurement returns a reference stored in [all_results]. *)
Lemma measured_case_result url n dir name tc s o w r :
  measured_case url n dir name tc s = ((o, w), inr r) -> r ∈ all_results o.
Proof.
  destruct tc as [[[[mode vcpu] memory] port] load]. unfold measured_case. intros Hm.
  do 15 (apply bind_inr in Hm as (? & ? & _ & Hm)).
  apply bind_inr in Hm as ([o1 w1] & ? & Happ & Hm). apply bind_inr in Hm as ([o2 w2] & ? & Hsum & Hm).
  unfold ret in Hm. injection Hm as -> -> ->.
  match type of Happ with append_result _ ?s0 = _ => destruct s0; injection Happ as <- <- _ end.
  match type of Hsum with print_summary _ (?oo, ?ww) = _ =>
    pose proof (print_summary_keeps all_results r oo ww) as Hk end.
  rewrite Hsum in Hk. cbn in Hk. rewrite Hk. apply elem_of_app. right. left.
Qed.

(** *** Container bookkeeping of one case *)

Lemma docker_stop_up n o w : container_up n (docker_stop n (o, w)).1.2 = false.
Proof.
  unfold docker_stop, bind, io, run_process. pose proof (stop_up n w) as Hs.
  destruct (exec _ None w) as [w' [[c|]|]]; exact Hs.
Qed.

Lemma finally_stop_up {A} n f (m : M (orch * W) A) s :
  (match try_finally m (docker_stop n ;;; io (sleep f))%py s with
   | (s', inl NoFuel) => True
   | (s', _) => container_up n s'.2 = false
   end).
Proof.
  unfold try_finally. destruct (m s) as [[o w] r]. set (fin := (docker_stop n ;;; io (sleep f))%py).
  assert (container_up n (fin (o, w)).1.2 = false) as Hup.
  { subst fin. unfold bind. pose proof (docker_stop_up n o w) as Hs.
    destruct (docker_stop n (o, w)) as [[o1 w1] [e|u]]; [exact Hs|].
    cbn in *. by rewrite sleep_up. }
  assert ((fin (o, w)).2 <> inl NoFuel) as Hnf.
  { subst fin. unfold bind, docker_stop, bind, io, run_process. by destruct (exec _ None w) as [w' [[c|]|]]. }
  destruct (fin (o, w)) as [[o1 w1] [e|u]]; cbn in *; destruct r as [[]|]; try done; destruct e; done.
Qed.

(** [down]: what does not start the container; [stops]: what always stops it;
    [quiet]: what raises no exception. *)
Definition down (n : string) {A} (m : M (orch * W) A) : Prop := forall o w, container_up n w = false ->
  container_up n (m (o, w)).1.2 = false.
Definition stops (n : string) {A} (m : M (orch * W) A) : Prop := forall s,
  match m s with (s', inl NoFuel) => True | (s', _) => container_up n s'.2 = false end.
Definition quiet {S A} (m : M S A) : Prop := forall s, match m s with (_, inl e) => e = NoFuel | _ => True end.

Lemma stops_bind n {A C} (m : M (orch * W) A) (k : A -> M (orch * W) C) :
  quiet m -> (forall a, stops n (k a)) -> stops n (bind m k).
Proof.
  intros Hm Hk s. unfold bind. specialize (Hm s). destruct (m s) as [s1 [e|a]]; [by subst|]. apply Hk.
Qed.

Lemma down_bind n {A C} (m : M (orch * W) A) (k : A -> M (orch * W) C) :
  down n m -> (forall a, down n (k a)) -> down n (bind m k).
Proof.
  intros Hm Hk o w Hw. unfold bind. specialize (Hm o w Hw). destruct (m (o, w)) as [[o1 w1] [e|a]]; [done|].
  by apply Hk.
Qed.

Lemma down_say n t : down n (io (act (print t))).
Proof. intros o w Hw. cbn. by rewrite print_up. Qed.

Lemma down_mkdir n p : down n (io (mkdir p)).
Proof.
  intros o w Hw. unfold io, mkdir. pose proof (mkdir_up n p w) as Hm.
  destruct (mkdir_exist_ok p w) as [w1 []]; cbn in *; congruence.
Qed.

Lemma quiet_say t : quiet (io (W := W) (act (print t))).
Proof. by intros [o w]. Qed.

Lemma quiet_io {A} (m : M W A) : quiet m -> quiet (io m).
Proof. intros Hm [o w]. unfold io. specialize (Hm w). by destruct (m w) as [w1 [e|a]]. Qed.

Lemma wait_loop_quiet fuel start t req : quiet (wait_loop (W := W) fuel start t req).
Proof.
  induction fuel as [|fuel IH]; intros w; [done|]. cbn [wait_loop]. unfold now. rewrite bind_call.
  destruct (time_time w) as [w1 t1]. destruct (f_lt _ _); [|done].
  rewrite bind_attempt_send. destruct (transport req w1) as [w2 r].
  destruct (match _ with inr _ => _ | inl _ => _ end); [done|]. unfold bind, sleep, act. apply IH.
Qed.

Lemma docker_stop_stops n {A} (x : A) : stops n (docker_stop n ;;; ret x)%py.
Proof.
  intros [o w]. unfold bind. pose proof (docker_stop_up n o w) as Hs.
  destruct (docker_stop n (o, w)) as [[o1 w1] [e|u]]; cbn in *; [by destruct e|done].
Qed.

Lemma try_finally_stops n f {A} (m : M (orch * W) A) : stops n (try_finally m (docker_stop n ;;; io (sleep f))%py).
Proof. intros s. apply finally_stop_up. Qed.

(** The rest of [run_test_case] once the container is up. *)
Lemma started_stops n fuel url text case_dir case_name tc :
  stops n (io (say text) ;;;
    up <- io (wait_for_server fuel url 15) ;;
    if negb up then io (say [Txt "  ❌ Server timeout"]) ;;; docker_stop n ;;; ret None
    else io (say [Txt "  ✅ Server ready"]) ;;;
      try_finally (results <- measured_case url n case_dir case_name tc ;; ret (Some results))
        (docker_stop n ;;; io (sleep (f_of_Z 2))))%py.
Proof.
  apply stops_bind; [apply quiet_say|]. intros _. apply stops_bind.
  { apply quiet_io. intros w. unfold wait_for_server, now. rewrite bind_call. destruct (time_time w). apply wait_loop_quiet. }
  intros []; cbn [negb]; (apply stops_bind; [apply quiet_say|]; intros _); [apply try_finally_stops|apply docker_stop_stops].
Qed.

(** Both at once: started stopped, it ends stopped. *)
Definition safe (n : string) {A} (m : M (orch * W) A) : Prop := forall o w, container_up n w = false ->
  match m (o, w) with (s', inl NoFuel) => True | (s', _) => container_up n s'.2 = false end.

Lemma stops_safe n {A} (m : M (orch * W) A) : stops n m -> safe n m.
Proof. intros Hm o w _. apply Hm. Qed.

Lemma down_safe n {A} (m : M (orch * W) A) : down n m -> safe n m.
Proof. intros Hm o w Hw. specialize (Hm o w Hw). destruct (m (o, w)) as [s' [[]|]]; done. Qed.

Lemma safe_bind n {A C} (m : M (orch * W) A) (k : A -> M (orch * W) C) :
  safe n m -> (forall a, safe n (k a)) -> safe n (bind m k).
Proof.
  intros Hm Hk o w Hw. unfold bind. specialize (Hm o w Hw). destruct (m (o, w)) as [[o1 w1] [e|a]]; [by destruct e|].
  by apply Hk.
Qed.

Lemma safe_pure n {A} (r : exn + A) : safe n (lift_exn r).
Proof. intros o w Hw. cbn. by destruct r as [[]|]. Qed.

Lemma run_step_safe n rest {A} (failed : completed -> M (orch * W) A) (started : completed -> M (orch * W) A) :
  (forall c, safe n (failed c)) -> (forall c, stops n (started c)) ->
  safe n (result <- io (run_process ("docker" :: "run" :: "--name" :: n :: rest)%string None) ;;
          if negb (returncode result =? 0) then failed result else started result)%py.
Proof.
  intros Hf Hs o w Hw. unfold bind, io, run_process. pose proof (run_up n rest w Hw) as Hr.
  destruct (exec _ None w) as [w' [[c|]|]]; [|by apply Hr..].
  destruct (Z.eqb_spec (returncode c) 0) as [Hz|Hz]; cbn [negb]; [apply Hs|].
  apply Hf. apply Hr. by intros c' [= <-].
Qed.

Lemma run_test_case_safe fuel tc o w : container_up (container_of o tc) w = false ->
  match run_test_case fuel tc (o, w) with
  | (_, inl NoFuel) => True
  | (s', _) => container_up (container_of o tc) s'.2 = false
  end.
Proof.
  destruct tc as [[[[mode vcpu] memory] port] load]. cbn [container_of].
  unfold run_test_case. unfold bind at 1, self. revert w.
  match goal with |- forall w, _ -> match ?m (o, w) with _ => _ end => cut (safe ("bench-" ++ case_name_of mode vcpu memory ++ "-" ++ run_id o) m) end.
  { intros Hsafe w. apply Hsafe. }
  apply safe_bind; [apply safe_pure|]. intros idx.
  repeat (apply safe_bind; [apply down_safe; apply down_say || apply down_mkdir|]; intros _).
  do 2 (apply safe_bind; [apply down_safe; by intros ? ?|]; intros ?).
  apply safe_bind; [apply down_safe, down_say|]. intros _.
  apply run_step_safe.
  - intros c. apply safe_bind; [apply down_safe, down_say|]. intros _. by apply (safe_pure _ (inr None)).
  - intros c. apply started_stops.
Qed.

(** *** What a case that succeeded leaves *)

Lemma keeps_finally {X A} (f : orch -> X) (m : M (orch * W) A) fin : keeps f m -> keeps f fin ->
  keeps f (try_finally m fin).
Proof.
  intros Hm Hf o w. unfold try_finally. specialize (Hm o w). destruct (m (o, w)) as [[o1 w1] r]. cbn in Hm.
  specialize (Hf o1 w1). destruct r as [[]|a]; try (destruct (fin (o1, w1)) as [[o2 w2] [e|u]]; cbn in *; congruence).
Qed.

Lemma stop_and_sleep_keeps {X} (f : orch -> X) n t : keeps f (docker_stop n ;;; io (sleep t))%py.
Proof. apply keeps_bind; [apply keeps_bind; [apply keeps_io|done]|intros _; apply keeps_io]. Qed.

Lemma run_test_case_id fuel tc : keeps run_id (run_test_case fuel tc).
Proof.
  destruct tc as [[[[mode vcpu] memory] port] load]. unfold run_test_case.
  repeat first [apply keeps_bind; [|intros ?] | apply keeps_io | done
    | match goal with |- keeps _ (if ?b then _ else _) => destruct b end
    | apply keeps_finally; [|apply stop_and_sleep_keeps] | apply measured_case_id ].
Qed.

Definition returns {A} (Q : orch -> A -> Prop) (m : M (orch * W) A) : Prop :=
  forall s o w a, m s = ((o, w), inr a) -> Q o a.

Lemma returns_bind {A C} Q (m : M (orch * W) A) (k : A -> M (orch * W) C) :
  (forall a, returns Q (k a)) -> returns Q (bind m k).
Proof. intros Hk s o w c (s1 & a & _ & Hc)%bind_inr. by eapply Hk. Qed.

(** A case that succeeded has stored its result. *)
Lemma run_test_case_stored fuel tc :
  returns (fun o r => forall i, r = Some i -> i ∈ all_results o) (run_test_case fuel tc).
Proof.
  destruct tc as [[[[mode vcpu] memory] port] load]. unfold run_test_case.
  do 14 (apply returns_bind; intros ?).
  match goal with |- returns _ (if ?b then _ else _) => destruct b end.
  { apply returns_bind. intros _ s o w ro [= _ <-]. done. }
  do 2 (apply returns_bind; intros ?). destruct (negb _).
  { do 2 (apply returns_bind; intros ?). intros s o w ro [= _ <-]. done. }
  apply returns_bind. intros _ s o w ro. unfold try_finally.
  match goal with |- context [bind ?m ?k s] => destruct (bind m k s) as [[o1 w1] r1] eqn:Em end.
  intros Hfin i ->.
  assert (r1 = inr (Some i)) as ->.
  { destruct r1 as [[]|x]; try done; by match type of Hfin with match ?f with _ => _ end = _ => destruct f as [? []]; simplify_eq end. }
  apply bind_inr in Em as ([o2 w2] & r & Hm & [= -> -> ->]). apply measured_case_result in Hm.
  pose proof (stop_and_sleep_keeps all_results ("bench-" ++ case_name_of mode vcpu memory ++ "-" ++ run_id a)%string
    (f_of_Z 2) o1 w1) as Hk.
  destruct (bind _ _ (o1, w1)) as [[o2 w2] [e|u]]; [done|]. injection Hfin as <- <-. cbn in Hk. by rewrite Hk.
Qed.

Lemma collect_of_stopped n dir w : container_up n w = false ->
  exists w', collect_resource_metrics n dir w = (w', inr no_metrics).
Proof.
  intros Hw. unfold collect_resource_metrics, bind, say_on, act, run_process.
  destruct (stats_down n (print ([Txt "  📊 Collecting resource metrics..."] ++ [Txt " "]) w)) as (w1 & c & -> & Hc).
  { by rewrite print_up. }
  rewrite (proj2 (Z.eqb_neq _ _)) by done. cbn. by eexists.
Qed.

End Containers.

(** *** A healthy server under the stress test *)

(** A server, seen from its URL, that while it is [healthy] stores what it is
    sent: puts and batches are answered 201, a get 200 when the key was stored
    and 404 otherwise. *)
Class StoreWorld (W : Type) `{PyWorld W} (url : string) := {
  healthy : W -> Prop;
  holds : W -> string -> bool;
  store_put : forall k v w, healthy w -> plain k -> ascii_string v ->
    let '(w', r) := transport (json_post (url ++ "/put") (item k v) 3) w in
    (exists resp, r = inr resp /\ status_code resp = 201) /\ healthy w' /\
    forall k', holds w' k' = bool_decide (k' = k) || holds w k';
  store_batch : forall ks v w, healthy w -> Forall plain ks -> ascii_string v ->
    let '(w', r) := transport (json_post (url ++ "/batch") (batch_of ks v) 5) w in
    (exists resp, r = inr resp /\ status_code resp = 201) /\ healthy w' /\
    forall k', holds w' k' = bool_decide (k' ∈ ks) || holds w k';
  store_get : forall k w, healthy w -> plain k ->
    let '(w', r) := transport (get_url (url ++ "/get?key=" ++ k) (Some 3)) w in
    (exists resp, r = inr resp /\ status_code resp = if holds w k then 200 else 404) /\ healthy w' /\
    forall k', holds w' k' = holds w k';
  store_time : forall w, healthy w -> healthy (time_time w).1 /\ forall k, holds (time_time w).1 k = holds w k;
}.

Definition stress_key (i : Z) : string := ("stress_" ++ print_int i)%string.

Lemma stress_key_plain i : plain (stress_key i).
Proof. apply plain_app; [by repeat constructor|apply print_int_plain]. Qed.

Lemma batch_keys_plain i :
  Forall plain ((fun j => "stress_b_" ++ print_int i ++ "_" ++ print_int j)%string <$> range 10).
Proof.
  apply Forall_fmap, Forall_forall. intros j _.
  repeat (apply plain_app; [first [apply print_int_plain|by repeat constructor]|]). apply print_int_plain.
Qed.

Lemma stress_key_neg i j : i < 0 -> 0 <= j -> stress_key i <> stress_key j.
Proof.
  intros Hi Hj Heq. unfold stress_key, print_int in Heq. rewrite (proj2 (Z.ltb_lt i 0)), (proj2 (Z.ltb_ge j 0)) in Heq by lia.
  destruct (print_digits_head 20 j "") as (c & s & Hs & Hc); [lia|done|]. rewrite Hs in Heq. cbn in Heq.
  injection Heq as <- _. by apply Hc.
Qed.

Lemma stress_key_batch i s : i < 0 -> stress_key i <> ("stress_b_" ++ s)%string.
Proof. intros Hi. unfold stress_key, print_int. rewrite (proj2 (Z.ltb_lt i 0)) by lia. by cbn. Qed.

(** The misses of the first [n] turns: reads of keys with a negative index. *)
Definition misses (n : Z) : Z := Z.min ((n + 1) / 3) 33.

Definition stress_inv `{StoreWorld W url} (n : nat) (w : W) (success : Z) : Prop :=
  healthy w /\ success = Z.of_nat n - misses (Z.of_nat n) /\
  (forall j, 0 <= j < Z.of_nat n -> j mod 3 = 0 -> holds w (stress_key j) = true) /\
  (forall j, j < 0 -> holds w (stress_key j) = false).

Lemma stress_turn `{StoreWorld W url} n w success : stress_inv n w success ->
  exists w' r, transport (stress_request url (Z.of_nat n)) w = (w', inr r) /\
    stress_inv (S n) w' (if stress_ok (inr r) then success + 1 else success).
Proof.
  intros (Hw & -> & Hput & Hneg). unfold stress_request.
  pose proof (Z.mod_pos_bound (Z.of_nat n) 3 ltac:(lia)) as Hmod.
  destruct (Z.eqb_spec (Z.of_nat n mod 3) 0) as [E0|E0]; [|destruct (Z.eqb_spec (Z.of_nat n mod 3) 1) as [H1'|H1']].
  - pose proof (store_put (stress_key (Z.of_nat n)) (x_times 256) w Hw (stress_key_plain _) (x_times_ascii _)) as Hp.
    change ("stress_" ++ print_int (Z.of_nat n))%string with (stress_key (Z.of_nat n)).
    destruct (transport _ w) as [w' r]. destruct Hp as ((resp & -> & Hs) & Hw' & Hh). exists w', resp. split; [done|].
    unfold stress_ok. rewrite Hs. cbn. split_and!; [done| | |].
    + unfold misses. rewrite Nat2Z.inj_succ. zlia.
    + intros j Hj Hj3. rewrite Hh. destruct (decide (j = Z.of_nat n)) as [->|Hne]; [by rewrite bool_decide_true|].
      rewrite Hput by lia. by rewrite orb_true_r.
    + intros j Hj. rewrite Hh, Hneg by done. rewrite bool_decide_false; [done|]. apply stress_key_neg; lia.
  - pose proof (store_get (stress_key (Z.of_nat n - 100)) w Hw (stress_key_plain _)) as Hg.
    change (url ++ "/get?key=stress_" ++ print_int (Z.of_nat n - 100))%string
      with (url ++ "/get?key=" ++ stress_key (Z.of_nat n - 100))%string.
    destruct (transport _ w) as [w' r]. destruct Hg as ((resp & -> & Hs) & Hw' & Hh). exists w', resp. split; [done|].
    unfold stress_ok. rewrite Hs. split_and!; [done| | |].
    + destruct (Z.ltb_spec (Z.of_nat n) 100) as [Hlt|Hge].
      * rewrite Hneg by lia. cbn. unfold misses. rewrite Nat2Z.inj_succ. zlia.
      * rewrite Hput by zlia. cbn. unfold misses. rewrite Nat2Z.inj_succ. zlia.
    + intros j Hj Hj3. rewrite Hh. apply Hput; [|done]. destruct (decide (j = Z.of_nat n)); [subst; lia|lia].
    + intros j Hj. rewrite Hh. by apply Hneg.
  - set (ks := (fun j => _) <$> range 10). pose proof (store_batch ks "x" w Hw (batch_keys_plain _) (x_times_ascii 1)) as Hb.
    destruct (transport _ w) as [w' r]. destruct Hb as ((resp & -> & Hs) & Hw' & Hh). exists w', resp. split; [done|].
    unfold stress_ok. rewrite Hs. cbn. split_and!; [done| | |].
    + unfold misses. rewrite Nat2Z.inj_succ. zlia.
    + intros j Hj Hj3. rewrite Hh. rewrite Hput; [by rewrite orb_true_r| |done].
      destruct (decide (j = Z.of_nat n)); [subst; lia|lia].
    + intros j Hj. rewrite Hh, Hneg by done. rewrite bool_decide_false; [done|].
      unfold ks. intros (x & Hx & _)%list_elem_of_fmap. by apply (stress_key_batch j) in Hx.
Qed.

(** ** Properties *)

Section Properties.
Context `{PyWorld W}.

(** C29. The single-operation benchmark measures what it says: on every world
    whose clock gives numbers it returns, never raises, counts between 0 and
    [count] successes (all of them when every exchange is answered 201, none
    when none is), and its quantiles are ordered. *)
Theorem benchmark_single_result url count w : 0 <= count < 2 ^ 53 ->
  (forall w w' : W, f_nan (f_mul (f_sub (perf_counter w').2 (perf_counter w).2) (f_of_Z 1000)) = false) ->
  exists w' success tps p50 p95 p99 avg,
    benchmark_single url count w = (w', inr [("count", VInt count); ("success", VInt success);
      ("tps", VNum tps); ("p50_ms", VNum p50); ("p95_ms", VNum p95); ("p99_ms", VNum p99);
      ("avg_ms", VNum avg)]%string) /\
    0 <= success <= count /\
    ((forall req w, answers req w 201) -> success = count) /\
    ((forall req w, ~ answers req w 201) -> success = 0) /\
    num_le p50 p95 /\ num_le p95 p99.
Proof.
  intros Hc Hclock. unfold benchmark_single. unfold now at 1. rewrite bind_call.
  destruct (time_time w) as [w1 start]. unfold bind at 1.
  destruct (single_loop_spec url (range count) [] 0 w1) as (w2 & lats & n & Hloop & Hlen & Hm & Hn & Hall & Hnone).
  rewrite (for_each_ext _ _ (single_turn url)) by (by intros []). rewrite Hloop. cbn [app]. unfold now. rewrite bind_call. destruct (time_time w2) as [w3 stop].
  assert (zlen lats = count) as Hzl by (unfold zlen; rewrite Hlen, length_range; lia).
  unfold zlen in Hn, Hall. rewrite length_range, Z2Nat.id in Hn, Hall by lia.
  destruct (rate_total n (f_sub stop start) ltac:(lia)) as [tps Htps]. rewrite Htps, bind_lift.
  set (l := py_sort lats). assert (zlen l = count) as Hl by (unfold l; by rewrite zlen_py_sort).
  destruct l as [|x l'] eqn:El.
  - rewrite !bind_lift. exists w3, n, tps, (PInt 0), (PInt 0), (PInt 0), (PInt 0).
    split_and!; [done|lia|lia|intros Hx; specialize (Hall Hx); lia|by apply Hnone|done|done].
  - rewrite <- El in *. assert (0 < zlen l) as Hpos by (rewrite El; unfold zlen; simpl; lia).
    assert (StronglySorted num_le l) as Hsort.
    { apply py_sort_sorted. eapply Forall_impl; [exact Hm|]. intros lat. by apply lat_ok_measured. }
    destruct (percentiles_ordered l ltac:(lia) Hsort) as (p50 & p95 & p99 & H50 & H95 & H99 & Ho1 & Ho2 & _).
    assert (exists avg, mean l = inr avg) as [avg Havg].
    { rewrite El. unfold mean. destruct (mapM Q_of_num (x :: l')); by eexists. }
    rewrite H50, H95, H99, Havg, !bind_lift. exists w3, n, tps, p50, p95, p99, avg.
    split_and!; [done|lia|lia|intros Hx; specialize (Hall Hx); lia|by apply Hnone|done|done].
Qed.

(** The batch benchmark sends whole batches: it raises ZeroDivisionError
    for a batch size of 0; otherwise it returns, its success is a multiple of
    the batch size, at most [total], and, when every exchange is answered 201,
    [total - total mod batch_size]: a remainder is silently dropped. *)
Theorem benchmark_batch_result url total size w : 0 <= total < 2 ^ 53 -> 0 <= size ->
  (size = 0 -> benchmark_batch url total size w = (w, inl ZeroDivisionError)) /\
  (0 < size -> exists w' success tps,
    benchmark_batch url total size w = (w', inr [("total", VInt total); ("batch_size", VInt size);
      ("success", VInt success); ("tps", VNum tps); ("batches", VInt (total / size))]%string) /\
    0 <= success <= total /\ (size | success) /\
    ((forall req w, answers req w 201) -> success = total - total mod size)).
Proof.
  intros Ht Hs. split; [by intros ->|]. intros Hpos.
  unfold benchmark_batch, floordiv. rewrite (proj2 (Z.eqb_neq _ _)) by lia. rewrite bind_lift.
  unfold now at 1. rewrite bind_call. destruct (time_time w) as [w1 start]. unfold bind at 1.
  set (req := fun i => json_post (url ++ "/batch") (batch_of
    ((fun j => "batch_" ++ print_int i ++ "_" ++ print_int j)%string <$> range size) (x_times 128)) 10).
  set (gain := fun r : exn + http_response => match r with inr resp => status_code resp =? 201 | inl _ => false end).
  destruct (counting_loop req gain size (range (total / size)) Hs 0 w1) as (w2 & k & Hloop & Hk & Hall).
  rewrite (for_each_ext _ _ (fun n x => (resp <- attempt (send (req x)) ;;
    ret (if gain resp then n + size else n))%py)).
  2: { intros n i w0. rewrite !bind_attempt_send. destruct (transport _ w0) as [w' [why|resp]]; [done|].
       unfold gain. by destruct (_ =? 201). }
  rewrite Hloop. unfold now. rewrite bind_call. destruct (time_time w2) as [w3 stop].
  pose proof (Z.div_mod total size ltac:(lia)) as Hdiv. pose proof (Z.mod_pos_bound total size Hpos) as Hmod.
  assert (0 <= total / size) as Hq by (apply Z.div_pos; lia).
  unfold zlen in Hk, Hall. rewrite length_range, Z2Nat.id in Hk, Hall by lia.
  destruct (rate_total (0 + size * k) (f_sub stop start)) as [tps Htps]; [nia|]. rewrite Htps, bind_lift.
  exists w3, (0 + size * k), tps. split_and!; [done|nia|nia|exists k; lia|].
  intros Hr. rewrite Hall; [nia|]. intros i w0 _. destruct (Hr (req i) w0) as (resp & Hresp & Hst).
  exists resp. split; [done|]. unfold gain. by apply Z.eqb_eq.
Qed.

(** C25. No container outlives its case: on a machine where docker behaves as
    documented, a case whose container was not running before leaves it stopped
    on every way out, the benchmarks' exceptions included. *)
Theorem run_test_case_stops_container `{!DockerWorld W} fuel tc o w :
  container_up (container_of o tc) w = false ->
  (run_test_case fuel tc (o, w)).2 <> inl NoFuel ->
  container_up (container_of o tc) (run_test_case fuel tc (o, w)).1.2 = false.
Proof.
  intros Hw Hnf. pose proof (run_test_case_safe fuel tc o w Hw) as Hs.
  destruct (run_test_case fuel tc (o, w)) as [s' [[]|]]; done.
Qed.

(** [run_all] loses the resource metrics: when a case succeeded with
    result [r], which [all_results] holds, the second collection meets a
    stopped container, and the shared dict, hence the report, has 0 MB and 0 %
    whatever [run_test_case] had measured and saved. *)
Theorem run_case_zeroes_resources `{!DockerWorld W} fuel tc o w o1 w1 r o2 w2 :
  container_up (container_of o tc) w = false ->
  run_test_case fuel tc (o, w) = ((o1, w1), inr (Some r)) -> deref r o1 <> [] ->
  run_case fuel tc (o, w) = ((o2, w2), inr tt) ->
  r ∈ all_results o2 /\ dict_get "resources" (deref r o2) = Some (VDict no_metrics).
Proof.
  intros Hup Hrun Hne Hcase.
  pose proof (run_test_case_safe fuel tc o w Hup) as Hsafe. rewrite Hrun in Hsafe. cbn in Hsafe.
  pose proof (run_test_case_id fuel tc o w) as Hid. rewrite Hrun in Hid. cbn in Hid.
  pose proof (run_test_case_stored fuel tc _ _ _ _ Hrun r eq_refl) as Hin.
  destruct tc as [[[[mode vcpu] memory] port] load]. cbn [container_of] in Hsafe.
  unfold run_case, bind at 1 in Hcase. rewrite Hrun in Hcase.
  unfold bind at 1, self in Hcase. rewrite bool_decide_false in Hcase by done. rewrite Hid in Hcase.
  apply bind_inr in Hcase as ([o3 w3] & res & Hres & Hcase).
  destruct (collect_of_stopped _ (path_join (results_dir o1) (case_name_of mode vcpu memory)) w1 Hsafe) as [w' Hcol].
  unfold io in Hres. rewrite Hcol in Hres. injection Hres as <- <- <-.
  apply bind_inr in Hcase as ([o4 w4] & disk & Hdisk & Hcase).
  unfold io in Hdisk. destruct (collect_disk_metrics _ w') as [w5 rd]. injection Hdisk as <- <- _.
  unfold bind, setitem in Hcase. injection Hcase as <- <-. cbn [all_results]. split; [done|].
  unfold deref in *. cbn [heap]. destruct (heap o1 !! r) as [d|] eqn:Ed; [|done].
  rewrite !list_lookup_alter_eq, Ed. cbn. rewrite dict_get_set_ne by done. by rewrite dict_get_set_eq.
Qed.

(** C30. The stress test cannot reach its own count: on a server that stores
    everything and answers every request correctly, with no key of a negative
    index to begin with, it reports [count - 33] successes (from 98 operations
    on), since the reads of the first hundred turns ask for keys [stress_-99]
    to [stress_-3]. *)
Theorem stress_on_healthy_server `{!StoreWorld W url} count w : healthy (url := url) w -> 98 <= count < 2 ^ 53 ->
  (forall j, j < 0 -> holds w (stress_key j) = false) ->
  exists w' tps, benchmark_stress url count w =
    (w', inr [("count", VInt count); ("success", VInt (count - 33)); ("tps", VNum tps)]%string).
Proof.
  intros Hw Hc Hneg. unfold benchmark_stress. unfold now at 1. rewrite bind_call.
  destruct (store_time w Hw) as [Hw1 Htime]. destruct (time_time w) as [w1 start]. cbn in Hw1, Htime. unfold bind at 1.
  destruct (for_each_invariant (stress_inv (url := url)) (fun success i =>
    resp <- attempt (send (stress_request url i)) ;;
    ret (if stress_ok resp then success + 1 else success))%py (range count) 0 0 w1) as (w2 & n & -> & _ & Hinv & _).
  { split_and!; [done|done|lia|]. intros j Hj. by rewrite Htime, Hneg. }
  { intros j i acc s Hj Hi. apply range_lookup in Hj as [-> _]. cbn [Nat.add] in *.
    rewrite bind_attempt_send. destruct (stress_turn j s acc Hi) as (s' & r & -> & Hi').
    by eexists _, _. }
  cbn [Nat.add] in Hinv. rewrite length_range, Z2Nat.id in Hinv by lia. subst n.
  assert (misses count = 33) as -> by (unfold misses; zlia).
  unfold now. rewrite bind_call. destruct (time_time w2) as [w3 stop].
  destruct (rate_total (count - 33) (f_sub stop start) ltac:(lia)) as [tps ->]. rewrite bind_lift. by eexists _, _.
Qed.

(** Waiting for the server ends: once the clock passes the deadline within
    [n] turns, [wait_for_server] returns true or false and raises nothing,
    whatever the exchanges do. *)
Theorem wait_for_server_returns n url timeout w :
  passes_within n (time_time w).2 (f_of_Z timeout) (get_url (url ++ "/metrics") (Some 1)) (time_time w).1 ->
  exists w' b, wait_for_server n url timeout w = (w', inr b).
Proof.
  intros Hp. unfold wait_for_server, now. rewrite bind_call. destruct (time_time w) as [w1 t].
  by apply wait_loop_returns.
Qed.

(** A report needs a result: with none, the report file is left with its
    tables and headings but no best configuration, and the ValueError of
    [max([])] propagates; with complete results it is written entirely. *)
Theorem report_text_outcome id date results : Forall complete_result results ->
  exists t, report_text id date results [] = (t, if decide (results = []) then inl ValueError else inr tt).
Proof.
  intros Hr. unfold report_text, bind at 1.
  destruct (report_tables_ok id date results [] Hr) as [t ->].
  case_decide as Hne; [subst; by eexists|by apply report_best_ok].
Qed.

End Properties.
