(* ===== verification/ProfileServer.v ===== *)
(** The profiling script, profile_server.py. *)
From S2P Require Import Prelude Text PyFloat Python Json Requests.

Open Scope Z_scope.
Local Open Scope py_scope.

(** ** Definitions *)

Section Profile.
Context `{PyWorld W}.

Definition start_server_with_profiling : M W (option nat) :=
  say [Txt "Building server with profiling..."] ;;;
  result <- run_process ["go"; "build"; "-o"; "sndv-kv-profile.exe"; "cmd/server/main.go"]%string None ;;
  if negb (returncode result =? 0) then say [Txt "Build failed: "; Txt (stderr result)] ;;; ret None
  else
    say [Txt "Starting server with pprof..."] ;;;
    proc <- popen ["./sndv-kv-profile.exe"; "-config"; "config_fast.json"]%string ;;
    sleep (f_of_Z 3) ;;;
    resp <- attempt (send (get_url "http://localhost:8080/metrics" (Some 2))) ;;
    let up := match resp with inr resp => status_code resp =? 200 | inl _ => false end in
    if up then say [Txt "✅ Server started"] ;;; ret (Some proc)
    else
      say [Txt "❌ Server failed to start"] ;;;
      act (p_kill proc) ;;;
      ret None.

(** The requests of the two loops. *)
Definition load_put (i : Z) : http_request :=
  json_post "http://localhost:8080/put" (item ("key" ++ print_int i) (x_times 64)) 2.

Definition load_batch (batch_num : Z) : http_request :=
  json_post "http://localhost:8080/batch"
    (batch_of ((fun i => "batch" ++ print_int batch_num ++ "_" ++ print_int i)%string <$> range 100) (x_times 64)) 5.

Definition is_201 (resp : exn + http_response) : bool :=
  match resp with inr resp => status_code resp =? 201 | inl _ => false end.

(** [success / duration], without a guard for a zero duration. *)
Definition load_phase (turns : Z) (req : Z -> http_request) (gain : Z) : M W pynum :=
  start <- now ;;
  success <- for_each (range turns) 0 (fun success i =>
    resp <- attempt (send (req i)) ;;
    ret (if is_201 resp then success + gain else success)) ;;
  stop <- now ;;
  let duration := f_sub stop start in
  tps <- lift_exn (num_div (PInt success) (PFloat duration)) ;;
  say [Txt "  → "; Fmt ".0f" tps; Txt " TPS"] ;;;
  ret tps.

Definition run_load_test : M W unit :=
  say [nl; Txt "🔥 Running load test..."] ;;;
  say [Txt "Single operations (1000)..."] ;;;
  load_phase 1000 load_put 1 ;;;
  say [Txt "Batch operations (10,000 items)..."] ;;;
  load_phase 100 load_batch 100 ;;;
  ret tt.

Definition capture_profiles : M W bool :=
  say [nl; Txt "📊 Capturing profiles..."] ;;;
  try_except
    (say [Txt "Capturing CPU profile (30 seconds)..."] ;;;
     run_process ["curl"; "-o"; "cpu.prof"; "http://localhost:6060/debug/pprof/profile?seconds=30"]%string (Some 35) ;;;
     say [Txt "✅ CPU profile saved: cpu.prof"] ;;;
     say [Txt "Capturing heap profile..."] ;;;
     run_process ["curl"; "-o"; "heap.prof"; "http://localhost:6060/debug/pprof/heap"]%string (Some 10) ;;;
     say [Txt "✅ Heap profile saved: heap.prof"] ;;;
     say [Txt "Capturing goroutine profile..."] ;;;
     run_process ["curl"; "-o"; "goroutine.prof"; "http://localhost:6060/debug/pprof/goroutine"]%string (Some 10) ;;;
     say [Txt "✅ Goroutine profile saved: goroutine.prof"] ;;;
     ret true)
    (fun e => say [Txt "❌ Profile capture failed: "; Exc e] ;;; ret false).

Definition analyze_profiles : M W unit :=
  say [nl; Txt "🔍 Analyzing profiles..."] ;;;
  say [nl; ruler "=" 70; nl; Txt "CPU PROFILE - Top 20 functions"; nl; ruler "=" 70] ;;;
  result <- run_process ["go"; "tool"; "pprof"; "-top"; "-nodecount=20"; "cpu.prof"]%string None ;;
  say [Txt (stdout result)] ;;;
  say [nl; ruler "=" 70; nl; Txt "MEMORY PROFILE - Top 20 allocations"; nl; ruler "=" 70] ;;;
  result <- run_process ["go"; "tool"; "pprof"; "-top"; "-nodecount=20"; "-alloc_space"; "heap.prof"]%string None ;;
  say [Txt (stdout result)].

Definition quoted (s : string) : piece := Txt (String quote (s ++ String quote "")).

Definition main : M W unit :=
  proc <- start_server_with_profiling ;;
  match proc with
  | None => raise (SystemExit 1)
  | Some proc =>
    try_finally
      (run_load_test ;;;
       captured <- capture_profiles ;;
       if negb captured then
         say [nl; Txt "⚠️  Make sure pprof is enabled in config:"; nl; Txt "    "; quoted "enable_pprof_profiling"; Txt ": true"] ;;;
         raise (SystemExit 1)
       else
         analyze_profiles ;;;
         say [nl; ruler "=" 70; nl; Txt "DONE - Profile files saved:"; nl; Txt "  - cpu.prof (CPU profile)"; nl;
              Txt "  - heap.prof (Memory profile)"; nl; Txt "  - goroutine.prof (Goroutine profile)"; nl; nl;
              Txt "To view interactively:"; nl; Txt "  go tool pprof -http=:8081 cpu.prof"; nl; ruler "=" 70])
      (say [nl; Txt "Stopping server..."] ;;;
       act (p_terminate proc) ;;;
       wait_process proc 5)
  end.

End Profile.

(** ** Lemmas *)

Section ProfileLemmas.
Context `{PyWorld W}.

(** A phase returns a rate, or raises for a zero duration; it raises nothing
    else, whatever the exchanges do. *)
Lemma load_phase_spec turns req gain w : 0 <= turns -> 0 <= gain -> turns * gain < 2 ^ 53 ->
  exists w' start stop success, start = (time_time w).2 /\ (exists w2, stop = (time_time w2).2) /\
    0 <= success <= turns * gain /\
    ((forall req w, answers req w 201) -> success = turns * gain) /\
    load_phase turns req gain w = (w', if f_is_zero (f_sub stop start) then inl ZeroDivisionError
                                       else inr (PFloat (f_div (f_of_Z success) (f_sub stop start)))).
Proof.
  intros Ht Hg Hb. destruct (time_time w) as [w1 start] eqn:E1.
  destruct (counting_loop req is_201 gain (range turns) Hg 0 w1) as (w2 & k & Hloop & Hk & Hall).
  unfold zlen in Hk, Hall. rewrite length_range, Z2Nat.id in Hk, Hall by lia.
  destruct (time_time w2) as [w3 stop] eqn:E2.
  assert (0 <= 0 + gain * k < 2 ^ 53) as Hs by nia.
  assert (f_infinite (f_of_Z (0 + gain * k)) = false) as Hinf.
  { destruct (decide (0 + gain * k = 0)) as [->|Hne]; [done|].
    destruct (f_of_Z_exact (0 + gain * k)) as (m & e & -> & _); [lia|done]. }
  assert (exists w', load_phase turns req gain w = (w', if f_is_zero (f_sub stop start) then inl ZeroDivisionError
    else inr (PFloat (f_div (f_of_Z (0 + gain * k)) (f_sub stop start))))) as [w' Hrun].
  { unfold load_phase, now. rewrite bind_call, E1. unfold bind at 1. rewrite Hloop, bind_call, E2.
    unfold num_div. rewrite Hinf. cbn [to_float]. destruct (f_is_zero (f_sub stop start)); by eexists. }
  exists w', start, stop, (0 + gain * k). split; [done|]. split; [exists w2; by rewrite E2|].
  split; [nia|]. split; [|done].
  intros Hr. rewrite Hall; [lia|]. intros x w0 _. destruct (Hr (req x) w0) as (resp & Hresp & Hst).
  exists resp. split; [done|]. by apply Z.eqb_eq.
Qed.

End ProfileLemmas.

(** ** Properties *)

Section Properties.
Context `{PyWorld W}.

(** The load test survives a dead server but not a coarse clock: whatever
    the exchanges do it either prints both rates and returns, or raises
    ZeroDivisionError, which happens exactly when one of its two phases starts
    and ends on the same clock reading (the other scripts guard this division). *)
Theorem load_test_outcome w :
  exists w' d1 d2, run_load_test w =
    (w', if f_is_zero d1 || f_is_zero d2 then inl ZeroDivisionError else inr tt) /\
    (exists w1 w2, d1 = f_sub (time_time w2).2 (time_time w1).2) /\
    (f_is_zero d1 = false -> exists w1 w2, d2 = f_sub (time_time w2).2 (time_time w1).2).
Proof.
  unfold run_load_test. unfold bind at 1 2, say at 1 2, act at 1 2. unfold bind at 1.
  set (w0 := print _ (print _ w)).
  destruct (load_phase_spec 1000 load_put 1 w0) as (w1 & a1 & b1 & s1 & Ha1 & [wb1 Hb1] & _ & _ & ->); [lia..|].
  destruct (f_is_zero (f_sub b1 a1)) eqn:E1.
  { exists w1, (f_sub b1 a1), (f_sub b1 a1). rewrite E1. split; [done|]. split; [|done]. exists w0, wb1. by subst. }
  unfold bind at 1, say at 1, act at 1. unfold bind at 1.
  destruct (load_phase_spec 100 load_batch 100 (print ([Txt "Batch operations (10,000 items)..."] ++ [nl]) w1))
    as (w2 & a2 & b2 & s2 & Ha2 & [wb2 Hb2] & _ & _ & ->); [lia..|].
  exists w2, (f_sub b1 a1), (f_sub b2 a2). rewrite E1. split; [by destruct (f_is_zero (f_sub b2 a2))|].
  split; [exists w0, wb1; by subst|]. intros _. eexists _, wb2. by subst.
Qed.

End Properties.
