(* ===== verification/DockerIntegration.v ===== *)
(** The container test runner, scripts/docker_integration.py. *)
From S2P Require Import Prelude Text PyFloat Python Json Requests.

Open Scope Z_scope.
Local Open Scope py_scope.

(** ** Definitions *)

(** The object; [results] is the dict without its member "tests", which is
    [tests], the inner dict the methods fill. [token] is None until it is read. *)
Record IntegrationTest := mkTest {
  base_url : string;
  artifacts_dir : string;
  token : option string;
  results : dict;
  tests : dict;
}.

(** [sep in line], and [line.split(sep)[1]] when it is. *)
Fixpoint after_first (sep s : string) : option string :=
  match strip_prefix sep s with
  | Some rest => Some rest
  | None => match s with EmptyString => None | String _ s' => after_first sep s' end
  end.
Fixpoint before_first (sep s : string) : string :=
  match strip_prefix sep s with
  | Some _ => ""%string
  | None => match s with EmptyString => ""%string | String c s' => String c (before_first sep s') end
  end.

(** The loop over the lines of the server's log. *)
Fixpoint find_token (lines : list string) : option string :=
  match lines with
  | [] => None
  | line :: lines' =>
    match after_first "ADMIN TOKEN:" line with
    | Some rest => Some (strip (before_first "ADMIN TOKEN:" rest))
    | None => find_token lines'
    end
  end.

Section Integration.
Context `{PyWorld W}.
Abbreviation St := (IntegrationTest * W)%type.

Definition io {A} (m : M W A) : M St A := fun '(o, w) => let '(w, r) := m w in ((o, w), r).
Definition self : M St IntegrationTest := fun '(o, w) => ((o, w), inr o).
Definition set_token (t : string) : M St unit := fun '(o, w) =>
  ((mkTest (base_url o) (artifacts_dir o) (Some t) (results o) (tests o), w), inr tt).
Definition set_result (k : string) (v : pyval) : M St unit := fun '(o, w) =>
  ((mkTest (base_url o) (artifacts_dir o) (token o) (dict_set k v (results o)) (tests o), w), inr tt).
Definition set_test (k : string) (v : dict) : M St unit := fun '(o, w) =>
  ((mkTest (base_url o) (artifacts_dir o) (token o) (results o) (dict_set k (VDict v) (tests o)), w), inr tt).

Definition env_or (name dflt : string) (w : W) : string := default dflt (getenv name w).

(** [__init__]; [mkdir(parents=True, exist_ok=True)]. *)
Definition new_test (url dir : string) : M W IntegrationTest :=
  mkdir dir ;;;
  vars <- call (fun w => (w, (env_or "TEST_CASE" "unknown" w, env_or "VCPU" "unknown" w, env_or "MEMORY" "unknown" w))) ;;
  stamp <- now ;;
  let '(case, vcpu, memory) := vars in
  ret (mkTest url dir None
    [("test_case", VStr case); ("vcpu", VStr vcpu); ("memory", VStr memory);
     ("timestamp", VNum (PFloat stamp))]%string []).

Definition wait_for_ready (fuel : nat) (timeout : Z) : M St bool :=
  o <- self ;;
  io (start <- now ;;
      wait_loop fuel start (f_of_Z timeout) (get_url (base_url o ++ "/health") (Some 1))).

Definition get_token_from_logs : M St unit :=
  content <- io (call (fun w => (w, read_text "/app/logs/server.log" w))) ;;
  match content with
  | Some (inl e) => raise e
  | Some (inr content) =>
    match find_token (Split (ascii_of_N 10) content) with
    | Some t => set_token t
    | None => set_token "test-token-placeholder"
    end
  | None => set_token "test-token-placeholder"
  end.

(** [{"Authorization": self.token}]; requests drops a header that is None. *)
Definition auth_headers (o : IntegrationTest) : list (string * string) :=
  match token o with Some t => [("Authorization"%string, t)] | None => [] end.

Definition get_with (o : IntegrationTest) (path : string) : http_request :=
  mkHttp "GET" (base_url o ++ path) (auth_headers o) None None.
Definition post_with (o : IntegrationTest) (path : string) (body : payload) : http_request :=
  mkHttp "POST" (base_url o ++ path) (auth_headers o ++ [("Content-Type", "application/json")]%string)
    (Some (dumps body)) None.

(** [resp.json().get("val") == "value"]. *)
Definition val_is (expected : string) (resp : http_response) : exn + bool :=
  v <-! loads (r_body resp) ;;
  match v with
  | VDict d => inr (match dict_get "val" d with Some (VStr s) => bool_decide (s = expected) | _ => false end)
  | _ => inl AttributeError
  end.

Definition test_happy_path : M St bool :=
  io (say [Txt "  [1/4] Happy path..."]) ;;;
  o <- self ;;
  start <- io now ;;
  io (send (post_with o "/put" (item "test" "value"))) ;;;
  stop <- io now ;;
  let put_time := ms_since start stop in
  start <- io now ;;
  resp <- io (send (get_with o "/get?key=test")) ;;
  stop <- io now ;;
  let get_time := ms_since start stop in
  passed <- (if status_code resp =? 200 then lift_exn (val_is "value" resp) else ret false) ;;
  set_test "happy_path" [("passed", VBool passed); ("put_ms", VNum put_time); ("get_ms", VNum get_time)]%string ;;;
  ret passed.

Definition critical_payload : payload :=
  PDict [("items"%string, PList ((fun i => item ("c" ++ print_int i) ("v" ++ print_int i)) <$> range 100))].

Definition test_critical_path : M St bool :=
  io (say [Txt "  [2/4] Critical path..."]) ;;;
  o <- self ;;
  start <- io now ;;
  io (send (post_with o "/batch" critical_payload)) ;;;
  stop <- io now ;;
  let batch_time := ms_since start stop in
  verified <- for_each (range 100) 0 (fun n i =>
    resp <- io (send (get_with o ("/get?key=c" ++ print_int i))) ;;
    ret (if status_code resp =? 200 then n + 1 else n)) ;;
  let passed := verified =? 100 in
  set_test "critical_path"
    [("passed", VBool passed); ("batch_ms", VNum batch_time); ("verified", VInt verified)]%string ;;;
  ret passed.

Definition benchmark_single (count : Z) : M St pynum :=
  io (say [Txt "  [3/4] Single benchmark ("; Fmt "" (PInt count); Txt " ops)..."]) ;;;
  o <- self ;;
  start <- io now ;;
  sums <- for_each (range count) ([], 0) (fun '(latencies, success) i =>
    t0 <- io now ;;
    resp <- io (send (post_with o "/put" (item ("s" ++ print_int i) (x_times 64)))) ;;
    t <- io now ;;
    ret (latencies ++ [ms_since t0 t], if status_code resp =? 201 then success + 1 else success)) ;;
  stop <- io now ;;
  let '(latencies, success) := sums in
  let duration := f_sub stop start in
  tps <- lift_exn (num_div (PInt success) (PFloat duration)) ;;
  let latencies := py_sort latencies in
  p50 <- lift_exn (index latencies (zlen latencies / 2)) ;;
  p95 <- lift_exn (percentile latencies f_0_95) ;;
  p99 <- lift_exn (percentile latencies f_0_99) ;;
  set_test "benchmark_single"
    [("count", VInt count); ("success", VInt success); ("tps", VNum tps); ("p50_ms", VNum p50);
     ("p95_ms", VNum p95); ("p99_ms", VNum p99)]%string ;;;
  ret tps.

Definition benchmark_batch (total batch_size : Z) : M St pynum :=
  io (say [Txt "  [4/4] Batch benchmark ("; Fmt "" (PInt total); Txt " items)..."]) ;;;
  o <- self ;;
  start <- io now ;;
  num_batches <- lift_exn (floordiv total batch_size) ;;
  success <- for_each (range num_batches) 0 (fun success i =>
    let keys := (fun j => "b" ++ print_int i ++ "_" ++ print_int j)%string <$> range batch_size in
    resp <- io (send (post_with o "/batch" (batch_of keys (x_times 64)))) ;;
    ret (if status_code resp =? 201 then success + batch_size else success)) ;;
  stop <- io now ;;
  tps <- lift_exn (num_div (PInt success) (PFloat (f_sub stop start))) ;;
  set_test "benchmark_batch" [("total", VInt total); ("success", VInt success); ("tps", VNum tps)]%string ;;;
  ret tps.

(** [json.dump(self.results)]: the dict with its member "tests" in place (the
    constructor adds it after "timestamp"; later members follow). *)
Definition whole_results (o : IntegrationTest) : dict :=
  take 4 (results o) ++ ("tests"%string, VDict (tests o)) :: drop 4 (results o).

Definition test_lines (test_name : string) (result : pyval) : M text unit :=
  emit [Txt test_name; Txt ":"; nl] ;;;
  match result with
  | VDict d => for_each d tt (fun _ '(k, v) => emit [Txt "  "; Txt k; Txt ": "; Rpr v; nl]) ;;;
      emit [nl]
  | _ => raise AttributeError
  end.

Definition summary_text (o : IntegrationTest) : M text unit :=
  let results := VDict (results o) in
  case <- lift_exn (subscript results "test_case") ;;
  emit [Txt "Test Case: "; Rpr case; nl] ;;;
  vcpu <- lift_exn (subscript results "vcpu") ;;
  memory <- lift_exn (subscript results "memory") ;;
  emit [Txt "Resources: "; Rpr vcpu; Txt " vCPU, "; Rpr memory; nl; nl] ;;;
  for_each (tests o) tt (fun _ '(test_name, result) => test_lines test_name result).

Definition save_results : M St unit :=
  o <- self ;;
  io (save (artifacts_dir o ++ "/integration_results.json") (CJson (VDict (whole_results o)))) ;;;
  io (with_open (artifacts_dir o ++ "/SUMMARY.txt") (summary_text o)).

(** The body of [run_all]'s [try]; what the two tests return is dropped. *)
Definition all_tests : M St unit :=
  test_happy_path ;;;
  test_critical_path ;;;
  benchmark_single 500 ;;;
  benchmark_batch 2000 100 ;;;
  io (say [Txt "  ✅ All tests complete"]).

Definition run_all (fuel : nat) : M St bool :=
  o <- self ;;
  case <- lift_exn (subscript (VDict (results o)) "test_case") ;;
  io (say [nl; Txt "Running tests: "; Rpr case]) ;;;
  ready <- wait_for_ready fuel 30 ;;
  if negb ready then
    io (say [Txt "  ❌ Server timeout"]) ;;;
    set_result "error" (VStr "Server not ready") ;;;
    save_results ;;;
    ret false
  else
    io (say [Txt "  ✅ Server ready"]) ;;;
    get_token_from_logs ;;;
    ok <- try_except
      (all_tests ;;; ret true)
      (fun e =>
        io (say [Txt "  ❌ Test failed: "; Exc e]) ;;;
        message <- io (call (fun w => (w, str_exn e w))) ;;
        set_result "error" (VStr message) ;;;
        save_results ;;;
        ret false) ;;
    if ok : bool then save_results ;;; ret true else ret false.

(** The script; [argv] without the program's name; the result is the exit
    status. *)
Definition main (fuel : nat) (argv : list string) : M W Z := fun w =>
  let url := default "http://localhost:8080"%string (argv !! 0%nat) in
  let artifacts := default "/artifacts"%string (argv !! 1%nat) in
  match new_test url artifacts w with
  | (w, inl e) => (w, inl e)
  | (w, inr o) =>
    let '((_, w), r) := run_all fuel (o, w) in
    (w, ok <-! r ;; inr (if ok : bool then 0 else 1))
  end.

End Integration.

(** ** Lemmas *)

Section Lemmas.
Context `{PyWorld W}.

(** A world action that only raises what [R] allows. *)
Definition raises {A} (R : exn -> Prop) (m : M W A) : Prop :=
  triple (fun _ => True) m (fun _ _ => True) (fun e _ => R e).

Lemma raises_send R req : (forall why, R (RequestException why)) -> raises R (send req).
Proof. intros HR w _. unfold send. by destruct (transport req w) as [w' [why|resp]]. Qed.

Lemma raises_call {A} R (f : W -> W * A) : raises R (call f).
Proof. intros w _. unfold call. by destruct (f w). Qed.

Lemma raises_act R (f : W -> W) : raises R (act f).
Proof. by intros w _. Qed.

Lemma raises_save (R : exn -> Prop) p c : R (OSError p) -> raises R (save p c).
Proof. intros HR w _. unfold save. by destruct (write_file p c w) as [w' []]. Qed.

Lemma raises_with_open (R : exn -> Prop) p (body : M text unit) t : R (OSError p) -> body [] = (t, inr tt) ->
  raises R (with_open p body).
Proof.
  intros HR Hb w _. unfold with_open. rewrite Hb. pose proof (raises_save R p (CText t) HR w I) as Hs.
  by destruct (save p (CText t) w) as [w' [e|[]]].
Qed.

(** A world action leaves the object alone. *)
Lemma triple_io {A} (P : IntegrationTest -> Prop) R (m : M W A) (E : exn -> IntegrationTest * W -> Prop) :
  raises R m -> (forall e s, R e -> P s.1 -> E e s) ->
  triple (fun s => P s.1) (io m) (fun _ s => P s.1) E.
Proof.
  intros Hm HE [o w] Ho. unfold io. specialize (Hm w I). destruct (m w) as [w' [e|a]]; [by apply HE|done].
Qed.

Lemma triple_self (P : IntegrationTest * W -> Prop) E : triple P self (fun _ => P) E.
Proof. by intros [o w]. Qed.

(** *** What the object keeps: the three settings of the summary, and a dict for
    each test recorded so far, in order *)

Definition has (k : string) (d : dict) : Prop := exists v, dict_get k d = Some v.

Definition wf (ns : list string) (o : IntegrationTest) : Prop :=
  (has "test_case" (results o) /\ has "vcpu" (results o) /\ has "memory" (results o)) /\
  (tests o).*1 = ns /\ Forall (fun v => exists d, v = VDict d) (tests o).*2.

Lemma has_set k k' v d : has k d -> has k (dict_set k' v d).
Proof.
  intros [x Hx]. destruct (decide (k = k')) as [->|Hne]; [exists v; apply dict_get_set_eq|].
  exists x. by rewrite dict_get_set_ne.
Qed.

Lemma dict_set_fresh k v (d : dict) : k ∉ d.*1 -> dict_set k v d = d ++ [(k, v)].
Proof.
  induction d as [|[k' v'] d IH]; intros Hk; [done|]. cbn in *. apply not_elem_of_cons in Hk as [Hne Hk].
  rewrite decide_False by congruence. by rewrite IH.
Qed.

Lemma wf_set_result ns k v o (w : W) : wf ns o -> wf ns (set_result k v (o, w)).1.1.
Proof. intros ((H1 & H2 & H3) & Hn & Hd). split_and!; try apply has_set; done. Qed.

Lemma triple_set_test ns k d E : k ∉ ns ->
  triple (S := IntegrationTest * W) (fun s => wf ns s.1) (set_test k d) (fun _ s => wf (ns ++ [k]) s.1) E.
Proof.
  intros Hk [o w] (Hs & <- & Hd). unfold wf. cbn in *. rewrite dict_set_fresh by done. rewrite !fmap_app.
  split_and!; [apply Hs..|done|]. apply Forall_app. split; [done|]. cbn. repeat constructor. by eexists.
Qed.

(** What escapes a test is an [Exception], and the object is still well-formed. *)
Definition escapes (e : exn) (s : IntegrationTest * W) : Prop :=
  is_Exception e = true /\ exists ns, wf ns s.1.

Lemma triple_wf_io {A} ns (m : M W A) : raises (fun e => is_Exception e = true) m ->
  triple (fun s => wf ns s.1) (io m) (fun _ s => wf ns s.1) escapes.
Proof. intros Hm. eapply triple_io; [exact Hm|]. intros e s He Hs. split; [done|by exists ns]. Qed.

Lemma triple_wf_lift {A} ns (r : exn + A) : (forall e, r = inl e -> is_Exception e = true) ->
  triple (S := IntegrationTest * W) (fun s => wf ns s.1) (lift_exn r) (fun _ s => wf ns s.1) escapes.
Proof. intros Hr. apply triple_lift. intros s Hs. destruct r as [e|a]; [|done]. split; [auto|by exists ns]. Qed.

Lemma num_div_exception a b e : num_div a b = inl e -> is_Exception e = true.
Proof. unfold num_div. repeat case_match; by intros [= <-]. Qed.

Lemma index_exception {A} (l : list A) i e : index l i = inl e -> is_Exception e = true.
Proof. unfold index. repeat case_match; by intros [= <-]. Qed.

Lemma percentile_exception l c e : percentile l c = inl e -> is_Exception e = true.
Proof.
  unfold percentile, int_mul. destruct (int_of_float _); [apply index_exception|by intros [= <-]].
Qed.

Lemma floordiv_exception a b e : floordiv a b = inl e -> is_Exception e = true.
Proof. unfold floordiv. case_match; by intros [= <-]. Qed.

Lemma val_is_exception v resp e : val_is v resp = inl e -> is_Exception e = true.
Proof.
  unfold val_is, ebind. destruct (loads (r_body resp)) as [e'|[]] eqn:El; intros [= <-]; try done.
  unfold loads in El. repeat case_match; by simplify_eq.
Qed.
End Lemmas.

#[local] Hint Resolve num_div_exception index_exception percentile_exception floordiv_exception val_is_exception : core.

(** Steps of a test before it records its dict. *)
Ltac test_steps :=
  repeat match goal with
  | |- triple _ (bind _ _) _ _ => eapply triple_bind; [|intros ?; cbv beta]
  | |- triple _ (io _) _ _ => apply triple_wf_io
  | |- triple _ self _ _ => apply triple_self
  | |- triple _ (lift_exn _) _ _ => apply triple_wf_lift; by eauto
  | |- triple _ (ret _) _ _ => by apply triple_ret
  | |- raises _ (send _) => by apply raises_send
  | |- raises _ (say _) => apply raises_act
  | |- raises _ now => apply raises_call
  | |- triple _ (if ?b then _ else _) _ _ => destruct b
  | |- triple _ (set_test _ _) _ _ => apply triple_set_test; set_solver
  | |- triple _ (for_each _ _ _) _ _ => apply (triple_for_each (fun _ s => wf _ s.1)); (intros [? ?] ? || intros ? ?); cbv beta iota
  | |- triple _ (let '(_, _) := ?p in _) _ _ => destruct p
  end.

Section Tests.
Context `{PyWorld W}.

Lemma test_happy_path_wf ns : "happy_path"%string ∉ ns ->
  triple (fun s => wf ns s.1) test_happy_path (fun _ s => wf (ns ++ ["happy_path"%string]) s.1) escapes.
Proof. intros Hn. unfold test_happy_path. test_steps. Qed.

Lemma test_critical_path_wf ns : "critical_path"%string ∉ ns ->
  triple (fun s => wf ns s.1) test_critical_path (fun _ s => wf (ns ++ ["critical_path"%string]) s.1) escapes.
Proof. intros Hn. unfold test_critical_path. test_steps. Qed.

Lemma benchmark_single_wf count ns : "benchmark_single"%string ∉ ns ->
  triple (fun s => wf ns s.1) (benchmark_single count) (fun _ s => wf (ns ++ ["benchmark_single"%string]) s.1) escapes.
Proof. intros Hn. unfold benchmark_single. test_steps. Qed.

Lemma benchmark_batch_wf total size ns : "benchmark_batch"%string ∉ ns ->
  triple (fun s => wf ns s.1) (benchmark_batch total size) (fun _ s => wf (ns ++ ["benchmark_batch"%string]) s.1) escapes.
Proof. intros Hn. unfold benchmark_batch. test_steps. Qed.
End Tests.

Section Runs.
Context `{PyWorld W}.

Lemma test_lines_ok name v out : (exists d, v = VDict d) -> exists out', test_lines name v out = (out', inr tt).
Proof.
  intros [d ->]. unfold test_lines. rewrite bind_emit. unfold bind.
  match goal with |- context [for_each d tt ?body ?s] =>
    destruct (for_each_ok d (fun x => body tt x) (fun _ => True)) with s as [s' Hs] end.
  - intros [k v] s _. by eexists.
  - by apply Forall_true.
  - rewrite Hs. by eexists.
Qed.

Lemma summary_text_ok ns o : wf ns o -> exists out, summary_text o [] = (out, inr tt).
Proof.
  intros (([a Ha] & [b Hb] & [c Hc]) & _ & Hd). unfold summary_text, subscript.
  rewrite Ha, Hb, Hc, bind_lift, bind_emit, !bind_lift, bind_emit. revert Hd. generalize (tests o).
  match goal with |- context [for_each _ _ _ ?t] => generalize t end.
  intros t l. revert t. induction l as [|[k v] l IH]; intros t Hd; [by eexists|].
  cbn in Hd. apply Forall_cons in Hd as [Hv Hd]. cbn [for_each]. unfold bind.
  destruct (test_lines_ok k v t Hv) as [t' ->]. by apply IH.
Qed.

Definition os_error (e : exn) : Prop := exists p, e = OSError p.

(** Saving a well-formed object fails only where the files cannot be written,
    and changes nothing of it. *)
Lemma save_results_ok ns o w : wf ns o ->
  match save_results (o, w) with (s', r) => s'.1 = o /\ (r = inr tt \/ exists e, r = inl e /\ os_error e) end.
Proof.
  intros Ho. unfold save_results, bind at 1, self, bind, io.
  pose proof (raises_save os_error (artifacts_dir o ++ "/integration_results.json")%string
    (CJson (VDict (whole_results o))) ltac:(by eexists) w I) as H1.
  destruct (save _ _ w) as [w1 [e|[]]]; [split; [done|right; by exists e]|].
  destruct (summary_text_ok ns o Ho) as [t Ht].
  pose proof (raises_with_open os_error (artifacts_dir o ++ "/SUMMARY.txt")%string (summary_text o) t
    ltac:(by eexists) Ht w1 I) as H2.
  destruct (with_open _ _ w1) as [w2 [e|[]]]; cbn; (split; [done|]); [right; by exists e|by left].
Qed.

Lemma all_tests_wf o w : wf [] o ->
  match all_tests (o, w) with
  | (s', inr _) => wf ["happy_path"; "critical_path"; "benchmark_single"; "benchmark_batch"]%string s'.1
  | (s', inl e) => escapes e s'
  end.
Proof.
  intros Ho. change (wf [] (o, w).1) in Ho. revert Ho. generalize (o, w).
  change (triple (fun s => wf [] s.1) all_tests
    (fun _ s => wf ["happy_path"; "critical_path"; "benchmark_single"; "benchmark_batch"]%string s.1) escapes).
  unfold all_tests.
  eapply triple_bind; [apply test_happy_path_wf; compute_done|intros ?; cbv beta].
  eapply triple_bind; [apply test_critical_path_wf; compute_done|intros ?; cbv beta].
  eapply triple_bind; [apply benchmark_single_wf; compute_done|intros ?; cbv beta].
  eapply triple_bind; [apply benchmark_batch_wf; compute_done|intros ?; cbv beta].
  apply triple_wf_io, raises_act.
Qed.

(** The two ways [run_all] ends. *)
Lemma save_and_return ns (b : bool) o (w : W) : wf ns o ->
  let '((o', w'), r) := (save_results ;;; ret b)%py (o, w) in
  o' = o /\ (r = inr b \/ exists p, r = inl (OSError p)).
Proof.
  intros Ho. pose proof (save_results_ok ns o w Ho) as Hs. unfold bind.
  destruct (save_results (o, w)) as [[o' w'] r]. destruct Hs as [<- [->|(e & -> & p & ->)]]; cbn.
  - split; [done|by left].
  - split; [done|right; by exists p].
Qed.

Lemma fail_with ns msg o (w : W) : wf ns o ->
  let '((o', w'), r) := (set_result "error" (VStr msg) ;;; save_results ;;; ret false)%py (o, w) in
  tests o' = tests o /\ dict_get "error" (results o') = Some (VStr msg) /\
  (r = inr false \/ exists p, r = inl (OSError p)).
Proof.
  intros Ho. unfold bind at 1. cbn [set_result].
  pose proof (save_and_return ns false _ w (wf_set_result ns "error" (VStr msg) o w Ho)) as Hs.
  cbn [set_result fst] in Hs. destruct (bind save_results _ _) as [[o' w'] r].
  destruct Hs as [-> Hs]. split_and!; [done|apply dict_get_set_eq|done].
Qed.

(** The server's log is there and cannot be read or decoded. *)
Definition log_unreadable (e : exn) : Prop := exists w : W, read_text "/app/logs/server.log" w = Some (inl e).

Lemma token_step ns o (w : W) : wf ns o ->
  (exists o' w', get_token_from_logs (o, w) = ((o', w'), inr tt) /\ wf ns o') \/
  (exists e, get_token_from_logs (o, w) = ((o, w), inl e) /\ log_unreadable e).
Proof.
  intros Ho. unfold get_token_from_logs, bind, io, call.
  destruct (read_text _ w) as [[e|content]|] eqn:E; [right; exists e; split; [done|by exists w]| |];
    left; [destruct (find_token _)|]; by eexists _, _.
Qed.

Lemma bind_io_say {A} t (k : unit -> M (IntegrationTest * W) A) o w : bind (io (say t)) k (o, w) = k tt (o, print (t ++ [nl]) w).
Proof. done. Qed.

(** The deadline of [run_all]'s wait is passed within [n] turns, the clock
    being first read after the heading is printed. *)
Definition deadline_within (n : nat) (o : IntegrationTest) (w : W) : Prop :=
  forall t, let w := print t w in
    passes_within n (time_time w).2 (f_of_Z 30) (get_url (base_url o ++ "/health") (Some 1)) (time_time w).1.

(** [run_all] up to the outcome of the wait. *)
Definition after_wait (ready : bool) : M (IntegrationTest * W) bool :=
  (if negb ready then
    io (say [Txt "  ❌ Server timeout"]) ;;;
    set_result "error" (VStr "Server not ready") ;;;
    save_results ;;;
    ret false
  else
    io (say [Txt "  ✅ Server ready"]) ;;;
    get_token_from_logs ;;;
    ok <- try_except
      (all_tests ;;; ret true)
      (fun e =>
        io (say [Txt "  ❌ Test failed: "; Exc e]) ;;;
        message <- io (call (fun w => (w, str_exn e w))) ;;
        set_result "error" (VStr message) ;;;
        save_results ;;;
        ret false) ;;
    if ok : bool then save_results ;;; ret true else ret false)%py.

Lemma run_all_wait n ns o (w : W) : wf ns o -> deadline_within n o w ->
  exists t w' ready, wait_loop n (time_time (print t w)).2 (f_of_Z 30) (get_url (base_url o ++ "/health") (Some 1))
    (time_time (print t w)).1 = (w', inr ready) /\
  run_all n (o, w) = after_wait ready (o, w').
Proof.
  intros (([case Hcase] & _) & _) Hn. set (t := [nl; Txt "Running tests: "; Rpr case] ++ [nl]).
  specialize (Hn t). cbv zeta in Hn. destruct (wait_loop_returns _ _ _ _ _ Hn) as (w2 & ready & Hw).
  exists t, w2, ready. split; [done|].
  unfold run_all, bind at 1, self. unfold subscript at 1. rewrite Hcase, bind_lift, bind_io_say.
  unfold bind at 1, wait_for_ready, bind at 1, self, io at 1. unfold now at 1. rewrite bind_call. fold t.
  destruct (time_time (print t w)) as [w1 start]. cbn [fst snd] in Hw. by rewrite Hw.
Qed.

Lemma tests_step ns o (w : W) : wf [] o -> ns = ["happy_path"; "critical_path"; "benchmark_single"; "benchmark_batch"]%string ->
  let '((o', w'), r) := after_wait true (o, w) in
  match r with
  | inr true => (tests o').*1 = ns
  | inr false => has "error" (results o')
  | inl e => (exists p, e = OSError p) \/ log_unreadable e
  end.
Proof.
  intros Ho ->. unfold after_wait. cbn [negb]. rewrite bind_io_say.
  destruct (token_step [] o (print ([Txt "  ✅ Server ready"] ++ [nl]) w) Ho)
    as [(o1 & w1 & Ht & Ho1)|(e & Ht & He)]; [|unfold bind at 1; rewrite Ht; by right].
  unfold bind at 1. rewrite Ht. unfold bind at 1, try_except, bind at 1.
  pose proof (all_tests_wf o1 w1 Ho1) as Hall. destruct (all_tests (o1, w1)) as [[o2 w2] [e|[]]]; cbn in Hall.
  - destruct Hall as [He [ns Hns]]. rewrite He, bind_io_say. unfold bind at 1, io at 1, call at 1.
    match goal with |- context [VStr ?m] => pose proof (fail_with ns m o2 (print ([Txt "  ❌ Test failed: "; Exc e] ++ [nl]) w2) Hns) as Hf end.
    destruct (bind _ _ _) as [[o3 w3] r]. destruct Hf as (_ & Herr & [->|[p ->]]); cbn; [by eexists|left; by eexists].
  - pose proof (save_and_return _ true o2 w2 Hall) as Hs. cbn. fold (ret true (S := IntegrationTest * W)).
    destruct (bind save_results _ _) as [[o3 w3] r]. destruct Hs as [-> [->|[p ->]]]; [apply Hall|left; by exists p].
Qed.
End Runs.

(** ** Properties *)

Section Properties.
Context `{PyWorld W}.

(** C31. The runner always reports, unless a file is in its way. On a new object,
    with requests that all end (the tests set no timeout: [transport] is what
    they return or raise), and once the clock passes the 30 second deadline
    within [n] turns, [run_all] has one of four outcomes: True, and each of the
    four tests ran to its end and is recorded; False, and an error is recorded;
    an OSError of writing a result file; or, before any test, the exception of
    reading a log of the server that is there and cannot be read or decoded,
    which no handler turns into a report. *)
Theorem run_all_outcome n o w : wf [] o -> deadline_within n o w ->
  let '((o', w'), r) := run_all n (o, w) in
  match r with
  | inr true => (tests o').*1 = ["happy_path"; "critical_path"; "benchmark_single"; "benchmark_batch"]%string
  | inr false => has "error" (results o')
  | inl e => (exists p, e = OSError p) \/ log_unreadable e
  end.
Proof.
  intros Ho Hn. destruct (run_all_wait n [] o w Ho Hn) as (t & w' & ready & _ & ->).
  destruct ready; [by apply tests_step|].
  unfold after_wait. cbn [negb]. rewrite bind_io_say.
  match goal with |- context [bind _ _ (o, ?w0)] => pose proof (fail_with [] "Server not ready" o w0 Ho) as Hf end.
  destruct (bind _ _ _) as [[o' w0] r]. destruct Hf as (_ & Herr & [->|[p ->]]); [by eexists|left; by eexists].
Qed.

(** Where nothing answers [/health] with 200 (the server of this
    repository has no such route and answers 404), no test ever runs: the
    report has no test and the error "Server not ready". *)
Theorem run_all_not_ready n o w : wf [] o -> deadline_within n o w ->
  (forall w', ~ answers (get_url (base_url o ++ "/health") (Some 1)) w' 200) ->
  let '((o', w'), r) := run_all n (o, w) in
  tests o' = [] /\ dict_get "error" (results o') = Some (VStr "Server not ready") /\ r <> inr true.
Proof.
  intros Ho Hn Hno. destruct (run_all_wait n [] o w Ho Hn) as (t & w' & ready & Hw & ->).
  assert (ready = false) as -> by (by eapply wait_loop_no_answer).
  unfold after_wait. cbn [negb]. rewrite bind_io_say.
  match goal with |- context [bind _ _ (o, ?w0)] => pose proof (fail_with [] "Server not ready" o w0 Ho) as Hf end.
  destruct (bind _ _ _) as [[o' w0] r]. destruct Hf as (-> & Herr & Hr).
  split_and!; [|done|by destruct Hr as [->|[p ->]]].
  destruct Ho as (_ & Ht & _). by destruct (tests o).
Qed.
End Properties.
