(* ===== verification/PyScenario.v ===== *)
(** A concrete world for the Python scripts (a key-value server, docker, a disk
    and a clock that moves at every reading) and the theorems about them at
    concrete inputs: their hypotheses hold there. *)
From S2P Require Import Prelude Text PyFloat Python Json Requests ThreadPool QuickBench.
From S2P Require Orchestrator DockerIntegration Configuration GoJson ConfigFile.

Open Scope Z_scope.
Local Open Scope string_scope.

(** ** Definitions *)

(** The servers: one that stores and, like this repository's, has no [/health]
    route; one that has it; one that has it and refuses everything else for
    want of a token; one that shows its metrics and drops every other
    connection; and the second once more, beside a log that is no text. *)
Inductive kind := Storing | WithHealth | Refusing | Dropping | BadLog.

Record sim (k : kind) := mkSim {
  ticks : Z;
  stored : list (string * string);
  containers : list string;
  disk : list (string * content);
}.
Arguments mkSim {_}.
Arguments ticks {_}.
Arguments stored {_}.
Arguments containers {_}.
Arguments disk {_}.

(** The path and query of a URL. *)
Fixpoint from_slash (s : string) : string :=
  match s with String "/" _ | EmptyString => s | String _ s' => from_slash s' end.
Definition path_of (url : string) : string :=
  from_slash match strip_prefix "http://" url with Some s => s | None => url end.

(** The items of a request body: itself, or its member [items]. *)
Definition pair_of (v : pyval) : option (string * string) :=
  match v with
  | VDict d => match dict_get "key" d, dict_get "value" d with
               | Some (VStr k), Some (VStr x) => Some (k, x)
               | _, _ => None
               end
  | _ => None
  end.
Definition pairs_of (body : option string) : list (string * string) :=
  match body with
  | None => []
  | Some s =>
    match loads s with
    | inr (VDict d) =>
      match dict_get "items" d with
      | Some (VList l) => omap pair_of l
      | _ => omap pair_of [VDict d]
      end
    | _ => []
    end
  end.

Definition find_stored (k : string) (l : list (string * string)) : option string :=
  snd <$> List.find (fun p => bool_decide (p.1 = k)) l.

Section Sim.
Context {k : kind}.
Abbreviation W := (sim k).

Definition tick (w : W) : W := mkSim (ticks w + 1) (stored w) (containers w) (disk w).

(** A server that stores what is posted. *)
Definition store (req : http_request) (path : string) (w : W) : W * http_response :=
  if bool_decide (h_method req = "POST") then
    (mkSim (ticks w) (pairs_of (h_body req) ++ stored w) (containers w) (disk w), mkResponse 201 "Created" "")
  else match strip_prefix "/get?key=" path with
       | Some k =>
         match find_stored k (stored w) with
         | Some v => (w, mkResponse 200 "OK" (dumps (PDict [("key", PStr k); ("val", PStr v)])))
         | None => (w, mkResponse 404 "Not Found" "Not Found")
         end
       | None => (w, mkResponse 404 "Not Found" "Not Found")
       end.

Definition exchange (req : http_request) (w : W) : W * (failure + http_response) :=
  let path := path_of (h_url req) in
  let ok := (w, inr (mkResponse 200 "OK" "{}")) in
  match k with
  | Storing => if bool_decide (path = "/metrics") then ok else let '(w, r) := store req path w in (w, inr r)
  | WithHealth | BadLog => if bool_decide (path = "/health") then ok else let '(w, r) := store req path w in (w, inr r)
  | Refusing => if bool_decide (path = "/health") then ok else (w, inr (mkResponse 401 "Unauthorized" "Unauthorized"))
  | Dropping => if bool_decide (path = "/metrics") then ok else (w, inl (Dropped "connection reset"))
  end.

Definition docker (cmd : list string) (w : W) : W * completed :=
  match cmd with
  | "docker" :: "run" :: "--name" :: n :: _ =>
    (mkSim (ticks w) (stored w) (n :: containers w) (disk w), mkCompleted 0 "0123456789abcdef" "")
  | ["docker"; "stop"; n] =>
    (mkSim (ticks w) (stored w) (filter (fun m => m <> n) (containers w)) (disk w), mkCompleted 0 n "")
  | "docker" :: "stats" :: n :: _ =>
    (w, if decide (n ∈ containers w)
        then mkCompleted 0 (dumps (PDict [("MemUsage", PStr "12.5MiB / 2GiB"); ("CPUPerc", PStr "3.5%")])) ""
        else mkCompleted 1 "" "no such container")
  | _ => (w, mkCompleted 0 "" "")
  end.

#[export] Instance sim_world : PyWorld W := {
  time_time w := (tick w, f_of_Z (ticks w));
  perf_counter w := (tick w, f_of_Z (ticks w mod 4));
  time_sleep _ w := tick w;
  isoformat w := (w, "2025-01-01T00:00:00");
  strftime _ w := (w, "20250101_000000");
  cwd _ := "/work";
  transport := exchange;
  exec cmd _ w := let '(w, c) := docker cmd w in (w, Some (Some c));
  Popen _ w := (w, Some 1%nat);
  p_kill _ w := w;
  p_terminate _ w := w;
  p_wait _ _ w := (w, true);
  mkdir_exist_ok _ w := (w, true);
  write_file p c w := (mkSim (ticks w) (stored w) (containers w) ((p, c) :: disk w), true);
  read_text _ _ := match k with BadLog => Some (inl UnicodeDecodeError) | _ => None end;
  rglob _ _ := [];
  getenv _ _ := None;
  print _ w := w;
  str_exn _ _ := "error";
}.

Definition fresh : W := mkSim 0 [] [] [].
End Sim.

(** bench_configs/safe-single.json, a file the orchestrator has generated. *)
Definition safe_single_file : string := ConfigFile.requote "{
  'server_port': 8080,
  'data_directory_path': '/app/data',
  'write_ahead_log_file_path': '/app/data/wal.log',
  'log_directory_path': '/app/logs',
  'maximum_memtable_size_in_bytes': 67108864,
  'level_zero_compaction_trigger_count': 4,
  'sstable_block_size_in_bytes': 4096,
  'bloom_filter_false_positive_rate': 0.01,
  'compaction_interval_in_seconds': 5,
  'authentication_secret': 'BENCHMARK_SECRET',
  'authentication_token': '',
  'maximum_cpu_count': 0,
  'maximum_system_memory_in_bytes': 0,
  'enable_pprof_profiling': false,
  'key_cache_capacity_count': 40000,
  'log_severity_level': 'INFO',
  'enable_disk_durability': true
}".

(** ** Lemmas *)

(** It holds the orchestrator's configuration, and the server loads it as
    such. *)
Example safe_single_loads :
  loads safe_single_file = inr (VDict (default [] (snd <$> head Orchestrator.configs))) /\
  GoJson.Decode (ConfigFile.decode_config Configuration.default_config) safe_single_file = Some {|
    Configuration.DataDirectoryPath := "/app/data";
    Configuration.WriteAheadLogFilePath := "/app/data/wal.log";
    Configuration.LogDirectoryPath := "/app/logs";
    Configuration.ServerPort := 8080;
    Configuration.MaximumMemtableSizeInBytes := 67108864;
    Configuration.LevelZeroCompactionTriggerCount := 4;
    Configuration.SSTableBlockSizeInBytes := 4096;
    Configuration.BloomFilterFalsePositiveRate := f_0_01;
    Configuration.CompactionIntervalInSeconds := 5;
    Configuration.AuthenticationToken := "";
    Configuration.AuthenticationSecret := "BENCHMARK_SECRET";
    Configuration.EnableDiskDurability := true;
    Configuration.MaximumCpuCount := 0;
    Configuration.MaximumSystemMemoryInBytes := 0;
    Configuration.EnablePprofProfiling := false;
    Configuration.LogSeverityLevel := "INFO";
    Configuration.KeyCacheCapacityCount := 40000 |}.
Proof. split; vm_compute; reflexivity. Qed.

(** The clock of the latencies gives numbers. *)
Lemma sim_clock {k} (w w' : sim k) :
  f_nan (f_mul (f_sub (perf_counter w').2 (perf_counter w).2) (f_of_Z 1000)) = false.
Proof.
  cbn [perf_counter sim_world snd].
  pose proof (Z.mod_pos_bound (ticks w) 4 ltac:(lia)) as H1. pose proof (Z.mod_pos_bound (ticks w') 4 ltac:(lia)) as H2.
  assert (forall z, 0 <= z < 4 -> z = 0 \/ z = 1 \/ z = 2 \/ z = 3) as Hc by lia.
  destruct (Hc _ H1) as [->|[->|[->| ->]]], (Hc _ H2) as [->|[->|[->| ->]]]; vm_compute; reflexivity.
Qed.

Lemma find_stored_app k l l' :
  find_stored k (l ++ l') = match find_stored k l with Some v => Some v | None => find_stored k l' end.
Proof.
  unfold find_stored. induction l as [|[k0 v0] l IH]; [done|]. cbn. by destruct (bool_decide _).
Qed.

(** *** The server of the simulation is a store *)

Definition sim_url : string := "http://localhost:8092".

Definition in_store (w : sim Storing) (k : string) : bool :=
  match find_stored k (stored w) with Some _ => true | None => false end.

Lemma loads_dumps p : payload_ok p -> loads (dumps p) = inr (json_py (payload_json p)).
Proof. intros Hp. unfold loads. by rewrite parse_dumps. Qed.

Lemma item_ok k v : plain k -> ascii_string v -> payload_ok (item k v).
Proof.
  intros Hk Hv. repeat split; try done; try (by apply ascii_check_ok). by apply plain_ascii.
Qed.

Lemma batch_ok ks v : Forall plain ks -> ascii_string v -> payload_ok (batch_of ks v).
Proof.
  intros Hk Hv. cbn. split; [|done]. split; [by apply ascii_check_ok|].
  induction Hk as [|k ks Hk Hks IH]; [done|]. split; [by apply item_ok|done].
Qed.

Lemma pairs_of_item k v : plain k -> ascii_string v -> pairs_of (Some (dumps (item k v))) = [(k, v)].
Proof. intros Hk Hv. unfold pairs_of. by rewrite loads_dumps by by apply item_ok. Qed.

Lemma pairs_of_batch ks v : Forall plain ks -> ascii_string v ->
  pairs_of (Some (dumps (batch_of ks v))) = (fun k => (k, v)) <$> ks.
Proof.
  intros Hk Hv. unfold pairs_of. rewrite loads_dumps by by apply batch_ok.
  change (omap pair_of (map json_py (map payload_json ((fun k => item k v) <$> ks))) = (fun k => (k, v)) <$> ks).
  clear Hk. induction ks as [|k ks IH]; [done|]. apply (f_equal (cons (k, v)) IH).
Qed.

Lemma in_store_pairs ks (v k : string) :
  find_stored k ((fun k => (k, v)) <$> ks) = if bool_decide (k ∈ ks) then Some v else None.
Proof.
  unfold find_stored. induction ks as [|k' ks IH]; [done|]. cbn.
  destruct (decide (k' = k)) as [->|Hne].
  - rewrite bool_decide_true by done. cbn. rewrite bool_decide_true by left. done.
  - rewrite bool_decide_false by done. rewrite IH. do 2 case_bool_decide; set_solver.
Qed.

Lemma sim_post req (w : sim Storing) : h_method req = "POST" -> path_of (h_url req) <> "/metrics" ->
  transport req w = (mkSim (ticks w) (pairs_of (h_body req) ++ stored w) (containers w) (disk w),
                     inr (mkResponse 201 "Created" "")).
Proof.
  intros Hm Hp. unfold transport, sim_world, exchange, store. by rewrite bool_decide_false, bool_decide_true by done.
Qed.

#[export] Instance sim_store : Orchestrator.StoreWorld (sim Storing) sim_url.
Proof.
  refine {| Orchestrator.healthy w := True; Orchestrator.holds := in_store |}.
  - intros k v w _ Hk Hv. rewrite sim_post by done. split; [by eexists|split; [done|]].
    intros k'. unfold in_store. cbn [stored].
    change (h_body _) with (Some (dumps (item k v))). rewrite pairs_of_item, find_stored_app by done.
    unfold find_stored at 1. cbn. destruct (decide (k = k')) as [->|Hne].
    + by rewrite !bool_decide_true by done.
    + by rewrite !bool_decide_false by done.
  - intros ks v w _ Hk Hv. rewrite sim_post by done. split; [by eexists|split; [done|]].
    intros k'. unfold in_store. cbn [stored].
    change (h_body _) with (Some (dumps (batch_of ks v))).
    rewrite pairs_of_batch, find_stored_app, in_store_pairs by done. by case_bool_decide.
  - intros k w _ Hk. unfold transport, sim_world, exchange, store. change (path_of _) with ("/get?key=" ++ k).
    rewrite bool_decide_false by done. cbn [h_method get_url]. rewrite bool_decide_false by done.
    rewrite strip_prefix_app. unfold in_store. destruct (find_stored k (stored w)); cbn; split; by eauto.
  - done.
Defined.

(** *** Its docker runs, stops and measures containers *)

#[export] Instance sim_docker {k} : Orchestrator.DockerWorld (sim k).
Proof.
  refine {| Orchestrator.container_up n w := bool_decide (n ∈ containers w) |}; try done.
  - intros n rest w _. cbn. intros Hr. by destruct (Hr _ eq_refl).
  - intros n w. apply bool_decide_eq_false. intros Hn. cbn in Hn. apply list_elem_of_filter in Hn as [Hn _]. done.
  - intros n w Hn. apply bool_decide_eq_false in Hn. exists w, (mkCompleted 1 "" "no such container").
    split; [|done]. cbn. by rewrite decide_False by done.
Defined.

#[export] Instance in_order : Scheduler :=
  { pick := id; as_completed _ l := l; as_completed_perm _ l := reflexivity l }.

(** ** Properties at concrete inputs *)

(** Three latencies in milliseconds. *)
Definition three : list pynum := PFloat ∘ f_of_Z <$> [30; 10; 20].

Lemma get_stats_ordered_witness : exists s, get_stats (mkMetrics three 0 3) = inr (Some s) /\
  num_le (s_min s) (s_p95 s) /\ num_le (s_p95 s) (s_p99 s) /\ num_le (s_p99 s) (s_max s).
Proof.
  destruct (get_stats_ordered (mkMetrics three 0 3)) as (s & Hs & H1 & H2 & H3 & _).
  - repeat constructor.
  - repeat constructor.
  - done.
  - done.
  - by exists s.
Defined.

Lemma single_parallel_accounts_witness : exists w' tps m,
  benchmark_single_parallel true 5 2 (fresh : sim Storing) = (w', inr (tps, m)) /\
  success m + errors m = 5 /\ zlen (latencies m) = success m.
Proof.
  destruct (single_parallel_accounts 5 2 (fresh : sim Storing)) as (w' & tps & m & H1 & H2 & H3 & _); [lia..|].
  exists w', tps, m. split; [exact H1|split; [exact H2|exact H3]].
Defined.

Lemma batch_parallel_accounts_witness : exists w' tps m t,
  benchmark_batch_parallel true 50 20 2 (fresh : sim Storing) = (w', inr (tps, m, t)) /\
  success m + errors m = 2 /\ t = 20 * success m /\ 0 <= t <= 50.
Proof.
  destruct (batch_parallel_accounts 50 20 2 (fresh : sim Storing)) as (w' & tps & m & t & H1 & H2 & H3 & H4 & _); [lia..|].
  exists w', tps, m, t. split; [exact H1|split; [exact H2|split; [exact H3|exact H4]]].
Defined.

Lemma benchmark_single_result_witness : exists w' success tps p50 p95 p99 avg,
  Orchestrator.benchmark_single sim_url 4 (fresh : sim Storing) =
    (w', inr [("count", VInt 4); ("success", VInt success); ("tps", VNum tps); ("p50_ms", VNum p50);
      ("p95_ms", VNum p95); ("p99_ms", VNum p99); ("avg_ms", VNum avg)]) /\
  0 <= success <= 4 /\ num_le p50 p95 /\ num_le p95 p99.
Proof.
  destruct (Orchestrator.benchmark_single_result sim_url 4 (fresh : sim Storing) ltac:(lia) sim_clock)
    as (w' & n & tps & p50 & p95 & p99 & avg & H1 & H2 & _ & _ & H3 & H4).
  exists w', n, tps, p50, p95, p99, avg. split; [exact H1|split; [exact H2|split; [exact H3|exact H4]]].
Defined.

Lemma benchmark_batch_result_witness :
  Orchestrator.benchmark_batch sim_url 50 0 (fresh : sim Storing) = (fresh, inl ZeroDivisionError) /\
  exists w' success tps, Orchestrator.benchmark_batch sim_url 50 20 (fresh : sim Storing) =
    (w', inr [("total", VInt 50); ("batch_size", VInt 20); ("success", VInt success); ("tps", VNum tps);
      ("batches", VInt 2)]) /\ 0 <= success <= 50 /\ (20 | success).
Proof.
  split; [by apply (Orchestrator.benchmark_batch_result sim_url 50 0 (fresh : sim Storing))|].
  destruct (proj2 (Orchestrator.benchmark_batch_result sim_url 50 20 (fresh : sim Storing) ltac:(lia) ltac:(lia)))
    as (w' & n & tps & H1 & H2 & H3 & _); [lia|].
  exists w', n, tps. split; [exact H1|split; [exact H2|exact H3]].
Defined.

Lemma wait_for_server_returns_witness :
  exists w' b, Orchestrator.wait_for_server 20 sim_url 15 (fresh : sim Refusing) = (w', inr b).
Proof.
  apply (Orchestrator.wait_for_server_returns 20 sim_url 15 (fresh : sim Refusing)).
  exists 10%nat. split; [lia|]. vm_compute. reflexivity.
Defined.

Lemma stress_on_healthy_server_witness : exists w' tps,
  Orchestrator.benchmark_stress sim_url 300 (fresh : sim Storing) =
    (w', inr [("count", VInt 300); ("success", VInt 267); ("tps", VNum tps)]).
Proof.
  apply (Orchestrator.stress_on_healthy_server 300 (fresh : sim Storing)); [exact I|lia|].
  intros j _. reflexivity.
Defined.

(** A case of the matrix, and the object that runs it. *)
Definition small_case : Orchestrator.test_case := ("fast-batch", "1.0", "512M", 8092, "low").
Definition small_orch : Orchestrator.orch :=
  Orchestrator.mkOrch "id" "results" "configs" [small_case] [] [].

(** The server never shows its metrics: the wait ends at its deadline. *)
Lemma run_test_case_stops_container_witness :
  Orchestrator.container_up (Orchestrator.container_of small_orch small_case)
    (Orchestrator.run_test_case 20 small_case (small_orch, fresh : sim Refusing)).1.2 = false.
Proof.
  apply (Orchestrator.run_test_case_stops_container 20 small_case small_orch (fresh : sim Refusing)); [done|].
  vm_compute. discriminate.
Defined.

(** Every request of the case is dropped; it still succeeds. *)
Lemma run_case_zeroes_resources_witness :
  match Orchestrator.run_test_case 20 small_case (small_orch, fresh : sim Dropping),
        Orchestrator.run_case 20 small_case (small_orch, fresh : sim Dropping) with
  | ((o1, w1), inr (Some r)), ((o2, w2), inr tt) =>
      dict_get "resources" (Orchestrator.deref r o1) <> Some (VDict Orchestrator.no_metrics) /\
      r ∈ Orchestrator.all_results o2 /\
      dict_get "resources" (Orchestrator.deref r o2) = Some (VDict Orchestrator.no_metrics)
  | _, _ => False
  end.
Proof.
  assert (Hrun : match Orchestrator.run_test_case 20 small_case (small_orch, fresh : sim Dropping) with
    | ((o1, w1), inr (Some r)) => Orchestrator.deref r o1 <> [] /\
        dict_get "resources" (Orchestrator.deref r o1) <> Some (VDict Orchestrator.no_metrics)
    | _ => False
    end) by (vm_compute; split; discriminate).
  assert (Hcase : (Orchestrator.run_case 20 small_case (small_orch, fresh : sim Dropping)).2 = inr tt)
    by (vm_compute; reflexivity).
  destruct (Orchestrator.run_test_case 20 small_case (small_orch, fresh)) as [[o1 w1] [e|[r|]]] eqn:E1; [done| |done].
  destruct (Orchestrator.run_case 20 small_case (small_orch, fresh)) as [[o2 w2] [e|[]]] eqn:E2; [done|].
  destruct Hrun as [Hne Hres]. split; [exact Hres|].
  exact (Orchestrator.run_case_zeroes_resources 20 small_case small_orch fresh o1 w1 r o2 w2 eq_refl E1 Hne E2).
Defined.

(** The object of the container test runner, and its deadline on this clock. *)
Definition runner : DockerIntegration.IntegrationTest :=
  DockerIntegration.mkTest "http://localhost:8080" "/artifacts" None
    [("test_case", VStr "unknown"); ("vcpu", VStr "unknown"); ("memory", VStr "unknown");
     ("timestamp", VInt 0)] [].

Lemma runner_wf : DockerIntegration.wf [] runner.
Proof. by split_and!; [eexists|eexists|eexists| |constructor]. Qed.

Lemma sim_deadline (k : kind) : DockerIntegration.deadline_within 20 runner (fresh : sim k).
Proof. intros t. exists 17%nat. split; [lia|]. destruct k; vm_compute; reflexivity. Qed.

(** All four tests run; and a log that cannot be decoded ends the runner. *)
Lemma run_all_outcome_witness :
  (let '((o', w'), r) := DockerIntegration.run_all 20 (runner, fresh : sim Refusing) in
   match r with
   | inr true => (DockerIntegration.tests o').*1 = ["happy_path"; "critical_path"; "benchmark_single"; "benchmark_batch"]
   | inr false => DockerIntegration.has "error" (DockerIntegration.results o')
   | inl e => (exists p, e = OSError p) \/ DockerIntegration.log_unreadable (W := sim Refusing) e
   end) /\
  (let '((o', w'), r) := DockerIntegration.run_all 20 (runner, fresh : sim BadLog) in
   match r with
   | inr true => (DockerIntegration.tests o').*1 = ["happy_path"; "critical_path"; "benchmark_single"; "benchmark_batch"]
   | inr false => DockerIntegration.has "error" (DockerIntegration.results o')
   | inl e => (exists p, e = OSError p) \/ DockerIntegration.log_unreadable (W := sim BadLog) e
   end).
Proof.
  split.
  - exact (DockerIntegration.run_all_outcome 20 runner (fresh : sim Refusing) runner_wf (sim_deadline _)).
  - exact (DockerIntegration.run_all_outcome 20 runner (fresh : sim BadLog) runner_wf (sim_deadline _)).
Defined.

(** Neither a result file nor a recorded error is left by a log that cannot be
    decoded. *)
Example unreadable_log_escapes :
  let '((o', w'), r) := DockerIntegration.run_all 20 (runner, fresh : sim BadLog) in
  r = inl UnicodeDecodeError /\ dict_get "error" (DockerIntegration.results o') = None /\ disk w' = [].
Proof. vm_compute. done. Qed.

Lemma run_all_not_ready_witness :
  let '((o', w'), r) := DockerIntegration.run_all 20 (runner, fresh : sim Storing) in
  DockerIntegration.tests o' = [] /\
  dict_get "error" (DockerIntegration.results o') = Some (VStr "Server not ready") /\ r <> inr true.
Proof.
  apply (DockerIntegration.run_all_not_ready 20 runner (fresh : sim Storing) runner_wf (sim_deadline _)).
  intros w' (resp & Hr & Hs). vm_compute in Hr. injection Hr as <-. discriminate.
Defined.

(** The verdicts of the tests do not reach the exit status: a server that
    refuses every request of the tests passes. *)
Lemma run_all_ignores_verdicts :
  let '((o', w'), r) := DockerIntegration.run_all 20 (runner, fresh : sim Refusing) in
  r = inr true /\
  (d ← dict_get "happy_path" (DockerIntegration.tests o'); match d with VDict d => dict_get "passed" d | _ => None end)
  = Some (VBool false).
Proof. vm_compute. done. Qed.

(** A report on one complete result. *)
Definition one_result : dict :=
  [("test_case", VStr "case"); ("vcpu", VStr "1.0"); ("memory", VStr "512M");
   ("single", VDict [("tps", VInt 10); ("p95_ms", VInt 2)]); ("batch", VDict [("tps", VInt 20)]);
   ("resources", VDict Orchestrator.no_metrics);
   ("disk", VDict [("data_mb", VInt 0); ("wal_mb", VInt 0); ("sstable_mb", VInt 0); ("wal_files", VInt 1)])].

Lemma report_text_outcome_witness : exists t,
  Orchestrator.report_text "id" "today" [one_result] [] = (t, if decide ([one_result] = []) then inl ValueError else inr tt).
Proof.
  apply (Orchestrator.report_text_outcome "id" "today" [one_result]).
  constructor; [|constructor]. unfold Orchestrator.complete_result. split_and!; eexists; reflexivity.
Defined.
